(* ===== verification/_CoqProject ===== *)
-Q . S2P
Prelude.v
Approx.v
Args.v
Bytes.v
Random.v
Kernel.v
Protocol.v
IPv4.v
Inet.v
Config.v
Routing.v
Proto.v
Registry.v
BlackBox.v
Network.v
Framing.v
NetQueue.v
Heap.v
ReadPath.v
TunPath.v
WritePath.v
QueueInv.v
Threads.v
SocketUtils.v
Dispatch.v
Monotone.v
EventLoop.v
Progress.v
Crash.v
Connections.v
Agent.v
Switch.v
SwitchRun.v
SwitchProgress.v
Conductor.v
ConductorRun.v
ConductorProgress.v
Assignments.v
System.v
Testing.v
BlackBoxTests.v
NetQueueTests.v
