(* ===== verification/Prelude.v ===== *)
(** * vNet: a model of the programs and what is proved of it

    vNet is a virtual network of three programs that talk TCP, all built on
    one event loop: the _conductor_ (src/conductor/setup.cpp) knows the switches
    and assigns each agent to one of them; a _switch_ (src/switch/setup.cpp)
    admits the agents that present a token the conductor announced; an _agent_
    (src/agent/setup.cpp) introduces itself to the conductor and then to its
    switch.  The packet engine of a switch (src/blackbox/) decides what happens
    to each IPv4 packet; it is a library of its own that the switch program does
    not call yet.  All of this code is modelled.  This file, the first of the
    library, is also its shared prelude: the outcomes of a C++ computation,
    the monad, the triples, integers of a machine width, generic lemmas and
    tactics.

    ** How the code is embedded

    An operation is a function of the monad [M S A]: from a state to an outcome,
    which is a result with a new state ([Ret]), a C++ exception ([Throw]),
    undefined behaviour ([Undef], with its kind: use after free, null
    dereference, buffer overflow, read out of bounds) or, for loops whose end
    depends on the kernel, the end of the fuel ([OutOfFuel]).  Handlers and
    loops are composed as the code composes them.  Objects the code allocates
    with new are locations in a heap that is part of the state, so aliasing and
    dangling pointers are those of the code; the allocator [Malloc] may reuse
    addresses.  The state of a program is a [NetQueue.World]: its queue, the
    kernel and its own data ([g_state] with the heap of its ConnInfo objects).
    [hoare allowed P m Q]: from a state of [P], [m] reaches no undefined
    behaviour but the kinds [allowed] accepts, and [Q] holds when it returns;
    that it does return is what the theorems with [Ret] in their conclusion say.
    Integers have their width: [u16], [u32], [u64] where the code wraps.

    ** The files

    Foundations:
    - Approx: one computation does what another does or stops earlier; guards,
      fuel and monotonicity.  Args: argv, getenv, std::stoi.  Bytes: encodings,
      htonl and friends.  Random: std::mt19937_64.  Kernel: the system calls,
      their laws, and two concrete kernels.  Inet: inet_pton and inet_ntop.
      Heap: objects of a program on its heap.

    The wire and the queue:
    - Protocol (protocol/types.cpp, header.cpp), Proto (proto/*.proto), Framing
      (the reference: a stream is a sequence of frames).
    - NetQueue (netqueue/*.cpp and headers): NetworkElement, NetQueue and every
      method; [put], [process] with its state machine, [wait_and_process],
      [send], [flush_write_buffer], [close_fd], [NetQueue_destroy].
    - ReadPath (sockets), TunPath (TUN devices), WritePath, QueueInv: theorems
      about it.  Threads: its mutex, as a machine that interleaves the actions
      of threads that share a queue.
    - SocketUtils (common/socket_utils.cpp): the blocking helpers.
    - Dispatch (protocol/dispatch.cpp): the virtual handlers, and the bridge
      from the function pointers of the queue.
    - Monotone, EventLoop, Crash: what the programs need of these operations, in
      terms of fuel, of the invariant, and of use after free.  Progress: a turn of
      the event loop returns, on calm input, when the handlers do.

    The programs:
    - Connections: the interface [Connection] and what the programs share of
      their handling (heartbeats, retries, listener, accept loop), proved once
      against the interfaces [ConnInv] and [HeapInv] of their invariants.
    - Agent, Switch, Conductor: all of each program, main included
      ([agent_main], [switch_main], [conductor_main]).  SwitchRun, ConductorRun:
      theorems about their whole runs.  SwitchProgress, ConductorProgress: their
      turns return.  Assignments: the conductor as a state
      machine with the log of its assignments.  System: the three together.

    The packet engine:
    - IPv4, Config, Registry, Routing, BlackBox (blackbox/*.cpp): the header
      parser, the configuration file and its lookups, the agents, the routes,
      the decision on a packet.  Network: the engines of two switches.

    The unit tests:
    - Testing, BlackBoxTests, NetQueueTests: the test cases of tests/blackbox,
      tests/protocol and tests/netqueue, evaluated on the definitions above; all
      but three of them, which NetQueueTests names.

    ** What is proved

    - The network's promise.  [System.handshake_binds_name]: over the three
      programs, with the bytes one sends being the bytes another receives, the
      switch ends up with the agent's connection authenticated under the name
      the agent gave the conductor; its parts are
      [Conductor.agent_assignment_consistent], [Agent.agent_presents_assigned_token]
      and [Switch.token_decides_authentication].
      [Switch.agents_are_authorised_by_tokens]: in every reachable state of a
      switch, an admitted agent used up an announcement of its name, and none is
      used twice.  [Assignments.conductor_keeps_its_books]: in every state of an
      orderly run of a conductor (no connection identifies itself twice, no agent
      comes before a switch), its lists and pending tokens agree with the log of
      its assignments.  [System.admitted_agents_were_assigned] composes the two:
      an agent a switch admits on the conductor's announcements was assigned to
      it, under a name that was given to the conductor.
    - The engine's promise.  [BlackBox.process_implements_policy]: the decision
      is that of a declarative policy; no spoofed or unauthorised packet is
      forwarded, delivery is to the owner of the address, disconnections take
      effect.  [Network.conversation_across_switches]: a packet that one switch
      forwards and another delivers is between two agents that may communicate,
      and the reply finds its way back.  [Registry.registry_refines_directory], the theorems of Config and
      [IPv4.ipv4_parse_correct] are what it rests on.
    - The stream.  [ReadPath.process_delivers_packets] and
      [ReadPath.framed_packets_are_delivered]: a packet arrives once, in order
      and whole, however the kernel cuts the reads;
      [TunPath.process_delivers_tun_packets]: so do the packets of a TUN device;
      [WritePath.connection_output_is_frames]: the wire carries a prefix of the
      frames sent, and the write buffer the rest of them if the sends succeeded; [Dispatch.packet_calls_its_handler].
    - Memory.  [QueueInv.wait_and_process_safe] (for handlers that remove no
      element: the agent's, and those of the guarded programs below),
      [BlackBox.engine_runs_safely],
      [Registry.registry_memory_safe]; for whole runs of main,
      [Agent.agent_runs_safely] without conditions, and for the other two, which
      do have use-after-free errors, under conditions on what they receive:
      [SwitchRun.switch_crashes_on_wrong_tokens] (a run uses freed memory exactly
      when a presented token is not pending) and [ConductorRun.conductor_runs_safely]
      (no agent before a switch, no double registration).  What remains is the
      overflow of the receive buffer, which a peer can always cause.  The method is a
      guarded program that throws [GuardViolated] where the condition fails,
      and a comparison ([Approx], [Crash]) that carries over to the real one.
    - Threads.  [Threads.calls_are_atomic]: the methods that lock the mutex
      execute as if in one step; [Threads.threads_finish]: threads that share a
      queue neither deadlock nor run for ever;
      [Threads.threads_with_own_descriptors_are_safe]: nor do they reach undefined
      behaviour, when no two register or close the same descriptor.
    - Progress.  [SwitchProgress.switch_turn_returns_or_crashes],
      [ConductorProgress.conductor_turn_returns], [Agent.agent_turn_returns]: a
      turn of the event loop of each program returns, on input that is not
      oversized and does not end inside a payload (both are needed, see the
      defects), but where a wrong token crashes the switch, and, for the
      conductor, as long as its peers keep reading.  Here the guarded programs
      are compared with lenient ones, which ignore what the guards refuse and
      whose handlers always return.  [Conductor.pick_switch_round_robin]: all
      switches get their turn.
    - State.  [Conductor.close_forgets_connection],
      [ConductorRun.write_dump_faithful] (the dump file is the old one or the
      complete new one, if closing the temporary file succeeded: the code does not
      check that it did, see [ConductorRun.full_disk_truncates_dump]),
      [QueueInv.put_registers_or_changes_nothing],
      [QueueInv.destroy_releases_everything].
    - Defects, as theorems: [ReadPath.oversized_packet_overflows],
      [ReadPath.process_spins_on_truncated_packet],
      [ReadPath.handler_error_is_overwritten],
      [SocketUtils.send_to_full_socket_hangs],
      [EventLoop.direct_send_overtakes_buffer],
      [Conductor.agent_without_switch_use_after_free],
      [Conductor.double_registration_use_after_free],
      [Threads.concurrent_close_uses_freed_element].

    ** Fuel

    Fuel bounds the loops that the kernel drives: reads, writes, accepts and the
    loop of [process].  The theorems that say an operation returns ask for the
    fuel it needs: the bytes it moves, plus the signals that can interrupt it,
    plus a constant.  [System.fuel_does_not_matter]: a run of a program that has
    enough fuel is the run of every larger one, so the fuel is no bound on what
    the program does.  [process_spins_on_truncated_packet] shows the one loop
    for which no fuel is enough.  The event loops of the programs end with
    a signal: the number of turns (for the conductor, the list of the dump
    requests) is an argument, and the theorems hold for every value of it.

    ** What is assumed

    Code outside the repository is a parameter, with its documented behaviour as
    laws: the system calls ([Kernel], [KernelLaws]: reads return a prefix of
    what is pending, writes accept a prefix, epoll reports registered
    descriptors, new descriptors are fresh; short reads and writes, EINTR,
    EAGAIN and failures are all possible), inet_pton/inet_ntop ([Inet]), the
    generated protobuf code ([Message]: parsing inverts serializing), malloc
    ([Malloc]: a new address is not in use), the allocation of a map node
    ([NodeAlloc], which may fail), the random numbers ([Rng]), the dump file
    ([DumpFile]: any of its operations may fail; [DumpStorage]: what the
    successful ones do to the files), the byte order ([HostOrder], either).  Each has a concrete
    instance, in which the witnesses run.

    ** Not modelled

    - Threads that call methods of a queue other than put,
      get_network_element_from_fd and close: the others use its elements without
      the mutex, and each program uses its queue from one thread.
    - Log output, TCP_NODELAY and SO_REUSEADDR, the sleeps between retries, the
      version check and the shutdown of protobuf: no effect on the state.
    - Failing allocations of the standard containers and strings, except of the
      map of descriptors, whose failure [put] handles ([NodeAlloc]); a failing
      new of an object throws (and ends the program, which catches nothing).
    - The moment of a signal within a turn: the handlers only set flags that the
      loops read once per turn.
    - The wrappers of malloc and of the TUN device that the tests link with,
      src/main.cpp (not part of any target), build and deployment files. *)
From stdpp Require Import base option list gmap sets strings.
From Stdlib Require Import ZArith Lia.

#[local] Open Scope Z_scope.

(** The case analyses of the tactics clear hypotheses another case has cleared. *)
#[export] Set Warnings "-clear-no-such-hyp".

(** ** Outcomes of a C++ computation

    A call can return, throw a C++ exception, reach undefined behaviour, or,
    for the loops that are given fuel, still be running when the fuel ends. *)

Inductive ub : Type :=
  | UseAfterFree      (* access to an object that was deleted or never allocated *)
  | BufferOverflow    (* write past the end of a fixed-size array *)
  | OutOfBounds       (* read past the end of a buffer, or of bytes never written *)
  | NullDeref.        (* access through a null pointer or a null function pointer *)

Inductive exn : Type :=
  | InvalidArgument   (* std::invalid_argument *)
  | OutOfRange        (* std::out_of_range *)
  | RuntimeError      (* std::runtime_error *)
  | BadAlloc          (* std::bad_alloc *)
  | GuardViolated.    (* not thrown by the program: the end of a run that a guard excludes *)

Inductive outcome (A : Type) : Type :=
  | Ret (a : A)
  | Throw (e : exn)
  | Undef (u : ub)
  | OutOfFuel.

Arguments Ret {A} a.
Arguments Throw {A} e.
Arguments Undef {A} u.
Arguments OutOfFuel {A}.

#[export] Instance ub_eq_dec : EqDecision ub.
Proof. solve_decision. Defined.
#[export] Instance exn_eq_dec : EqDecision exn.
Proof. solve_decision. Defined.

(** The state monad over outcomes, in which every stateful operation of the
    program is written.  The state is kept only by a computation that returns:
    no handler of the program catches an exception after changing state. *)
Definition M (S A : Type) : Type := S → outcome (A * S).

#[export] Instance M_ret (S : Type) : MRet (M S) := λ A a s, Ret (a, s).
#[export] Instance M_bind (S : Type) : MBind (M S) := λ A B f m s,
  match m s with
  | Ret (a, s') => f a s'
  | Throw e => Throw e
  | Undef u => Undef u
  | OutOfFuel => OutOfFuel
  end.

Definition get_st {S} : M S S := λ s, Ret (s, s).
Definition put_st {S} (s : S) : M S () := λ _, Ret ((), s).
Definition modify {S} (f : S → S) : M S () := λ s, Ret ((), f s).
Definition undef {S A} (u : ub) : M S A := λ _, Undef u.
Definition throw {S A} (e : exn) : M S A := λ _, Throw e.
Definition no_fuel {S A} : M S A := λ _, OutOfFuel.

(** Run a computation on a component of the state. *)
Definition zoom {S T A} (get : S → T) (set : T → S → S) (m : M T A) : M S A := λ s,
  match m (get s) with
  | Ret (a, t) => Ret (a, set t s)
  | Throw e => Throw e
  | Undef u => Undef u
  | OutOfFuel => OutOfFuel
  end.

(** Run a computation on a local variable initialised to [t]. *)
Definition with_local {S T A} (t : T) (m : M T A) : M S (A * T) := λ s,
  match m t with
  | Ret (a, t') => Ret ((a, t'), s)
  | Throw e => Throw e
  | Undef u => Undef u
  | OutOfFuel => OutOfFuel
  end.

(** [m] does not reach undefined behaviour from [s]. *)
Definition safe {A} (o : outcome A) : Prop := ∀ u, o ≠ Undef u.

Lemma bind_ret {S A B} (m : M S A) (f : A → M S B) s a s' :
  m s = Ret (a, s') → (m ≫= f) s = f a s'.
Proof. intros H. unfold mbind, M_bind. by rewrite H. Qed.

Lemma bind_inv {S A B} (m : M S A) (f : A → M S B) s b s'' :
  (m ≫= f) s = Ret (b, s'') →
  ∃ a s', m s = Ret (a, s') ∧ f a s' = Ret (b, s'').
Proof. unfold mbind, M_bind. destruct (m s) as [[a s']| | |]; naive_solver. Qed.

(** ** Partial correctness up to some undefined behaviours

    [hoare allowed P m Q]: from a state that satisfies [P], if [m] returns the
    result satisfies [Q], and if it reaches undefined behaviour it is one of
    [allowed]. *)
Definition hoare {S A} (allowed : ub → Prop) (P : S → Prop) (m : M S A) (Q : A → S → Prop) : Prop :=
  ∀ s, P s →
    match m s with
    | Ret (a, s') => Q a s'
    | Throw _ => True
    | Undef u => allowed u
    | OutOfFuel => True
    end.

Section Hoare.
Context {S : Type} (allowed : ub → Prop).
Implicit Types (P : S → Prop).

Lemma hoare_ret {A} P (a : A) (Q : A → S → Prop) :
  (∀ s, P s → Q a s) → hoare allowed P (mret a) Q.
Proof. intros HQ s Hs. by apply HQ. Qed.

Lemma hoare_bind {A B} P (m : M S A) (R : A → S → Prop) (f : A → M S B) (Q : B → S → Prop) :
  hoare allowed P m R → (∀ a, hoare allowed (R a) (f a) Q) → hoare allowed P (m ≫= f) Q.
Proof.
  intros Hm Hf s Hs. specialize (Hm s Hs). unfold mbind, M_bind.
  destruct (m s) as [[a s']| | |]; try done. by apply Hf.
Qed.

Lemma hoare_conseq {A} P P' (m : M S A) (Q Q' : A → S → Prop) :
  hoare allowed P' m Q' → (∀ s, P s → P' s) → (∀ a s, Q' a s → Q a s) → hoare allowed P m Q.
Proof.
  intros Hm HP HQ s Hs. specialize (Hm s (HP s Hs)). destruct (m s) as [[a s']| | |]; try done.
  by apply HQ.
Qed.

Lemma hoare_if {A} P (b : bool) (m1 m2 : M S A) (Q : A → S → Prop) :
  (b = true → hoare allowed P m1 Q) → (b = false → hoare allowed P m2 Q) →
  hoare allowed P (if b then m1 else m2) Q.
Proof. destruct b; auto. Qed.
End Hoare.

(** ** Total correctness

    [total P m Q]: from a state that satisfies [P], [m] returns, and the result
    satisfies [Q]. *)
Definition total {S A} (P : S → Prop) (m : M S A) (Q : A → S → Prop) : Prop :=
  ∀ s, P s → ∃ a s', m s = Ret (a, s') ∧ Q a s'.

Section Total.
Context {S : Type}.
Implicit Types (P : S → Prop).

Lemma total_ret {A} P (a : A) (Q : A → S → Prop) : (∀ s, P s → Q a s) → total P (mret a) Q.
Proof. intros HQ s Hs. exists a, s. split; [done|by apply HQ]. Qed.

Lemma total_bind {A B} P (m : M S A) (R : A → S → Prop) (f : A → M S B) (Q : B → S → Prop) :
  total P m R → (∀ a, total (R a) (f a) Q) → total P (m ≫= f) Q.
Proof.
  intros Hm Hf s Hs. destruct (Hm s Hs) as (a&s'&E&Hr). destruct (Hf a s' Hr) as (b&s''&E'&Hq).
  exists b, s''. by erewrite bind_ret by exact E.
Qed.

Lemma total_conseq {A} P P' (m : M S A) (Q Q' : A → S → Prop) :
  total P' m Q' → (∀ s, P s → P' s) → (∀ a s, Q' a s → Q a s) → total P m Q.
Proof. intros Hm HP HQ s Hs. destruct (Hm s (HP s Hs)) as (a&s'&E&Hq). eauto. Qed.

Lemma total_if {A} P (b : bool) (m1 m2 : M S A) (Q : A → S → Prop) :
  (b = true → total P m1 Q) → (b = false → total P m2 Q) → total P (if b then m1 else m2) Q.
Proof. destruct b; auto. Qed.

(** What holds of every result holds of the one there is. *)
Lemma total_hoare {A} allowed P (m : M S A) (Q R : A → S → Prop) :
  total P m Q → hoare allowed P m R → total P m (λ a s, Q a s ∧ R a s).
Proof.
  intros Hm Hr s Hs. destruct (Hm s Hs) as (a&s'&E&Hq). specialize (Hr s Hs). rewrite E in Hr. eauto.
Qed.
End Total.

(** ** Lists *)

(** A filter that keeps everything. *)
Lemma filter_all {A} (P : A → Prop) `{∀ x, Decision (P x)} (l : list A) : (∀ x, x ∈ l → P x) → filter P l = l.
Proof.
  induction l as [|x l IH]; intros Hl; [done|].
  rewrite filter_cons_True by (apply Hl, list_elem_of_here). f_equal.
  apply IH. intros y Hy. by apply Hl, list_elem_of_further.
Qed.

(** ** Machine integers *)

(** The value an unsigned [w]-bit variable holds after being assigned [z]. *)
Definition uint (w z : Z) : Z := z mod 2 ^ w.
Abbreviation u8 := (uint 8).
Abbreviation u16 := (uint 16).
Abbreviation u32 := (uint 32).
Abbreviation u64 := (uint 64).

(** Conversion to a signed 32-bit [int] (two's complement, as gcc defines it). *)
Definition int32 (z : Z) : Z := (z + 2 ^ 31) mod 2 ^ 32 - 2 ^ 31.

Definition in_width (w z : Z) : Prop := 0 ≤ z < 2 ^ w.

Lemma uint_small w z : in_width w z → uint w z = z.
Proof. intros H. by apply Z.mod_small. Qed.

Lemma uint_in_width w z : 0 ≤ w → in_width w (uint w z).
Proof. intros Hw. apply Z.mod_pos_bound. by apply Z.pow_pos_nonneg. Qed.

Lemma int32_small z : 0 ≤ z < 2 ^ 31 → int32 z = z.
Proof. intros H. unfold int32. rewrite Z.mod_small; lia. Qed.

(** ** Heap objects

    Pointers are positives, [None] is the null pointer where a pointer may be
    null.  The allocator is not the program's code: [malloc h] is the address
    [operator new] returns when the live objects are those of [h], or [None]
    when the allocation fails; it never returns the address of a live object. *)

Abbreviation loc := positive.

Class Malloc : Type := {
  malloc : ∀ {A : Type}, gmap loc A → option loc;
  malloc_fresh : ∀ {A : Type} (h : gmap loc A) p, malloc h = Some p → h !! p = None
}.

(** An allocator that never fails, for concrete runs. *)
#[refine] Definition malloc_first_fit : Malloc :=
  {| malloc := λ A h, Some (fresh (dom h)) |}.
Proof.
  intros A h p [= <-]. apply not_elem_of_dom, is_fresh.
Defined.

(** An allocator that always fails, for the error paths. *)
#[refine] Definition malloc_exhausted : Malloc := {| malloc := λ A h, None |}.
Proof. done. Defined.

(** ** Automation *)

(** Run a computation one bind at a time. *)
Ltac run := unfold mbind, M_bind, mret, M_ret, get_st, put_st, modify, undef, throw; cbn.

(** The triples of the operations, applied by [triple]. *)
Create HintDb triples.

(** A step of the proof of a triple along the structure of the program: a bind
    whose first part has a triple in the database, a test, a match or a result. *)
Ltac triple_step :=
  lazymatch goal with
  | |- hoare _ _ (mret _) _ => by apply hoare_ret
  | |- hoare _ _ (if _ then _ else _) _ => apply hoare_if; intros _
  | |- hoare _ _ (mbind _ _) _ => eapply hoare_bind; [solve [eauto with triples]|intros ?]
  | |- hoare _ _ (match ?x with _ => _ end) _ => destruct x
  end.
Ltac triple := repeat (cbv zeta; triple_step); eauto with triples.
