(* ===== verification/Approx.v ===== *)
(** * Runs that stop earlier

    [approx st m1 m2] compares two computations: [m1] does what [m2] does, or
    stops with [st], the end of the fuel or a given exception.  It is the flat
    order of partial computations, for two purposes: a computation with less
    fuel approximates the same one with more, so that the fuel of a run that
    returned is immaterial; and a program whose handlers refuse some inputs
    (by throwing [GuardViolated]) approximates the program itself, so that what
    is proved of the guarded program holds of every run the guards accept.
    The operations that build the programs are monotone; [approx] (the tactic)
    applies this along the structure of a computation. *)
From stdpp Require Import base list.
From Stdlib Require Import Lia.
From S2P Require Import Prelude.

(** How the smaller computation may stop. *)
Inductive stop : Type := StopFuel | StopThrow (e : exn).

Definition stopped {A} (st : stop) : outcome A :=
  match st with StopFuel => OutOfFuel | StopThrow e => Throw e end.

Definition approx {S A} (st : stop) (m1 m2 : M S A) : Prop := ∀ s, m1 s = stopped st ∨ m1 s = m2 s.

#[export] Instance approx_preorder {S A} st : PreOrder (@approx S A st).
Proof.
  split; [by right|]. intros m1 m2 m3 H1 H2 s. destruct (H1 s) as [?|E]; [by left|].
  rewrite E. apply H2.
Qed.

#[export] Instance bind_approx {S A B} st :
  Proper (pointwise_relation A (approx st) ==> approx st ==> approx st) (@mbind (M S) _ A B).
Proof.
  intros f1 f2 Hf m1 m2 Hm s. unfold mbind, M_bind. destruct (Hm s) as [E|E]; rewrite E.
  - left. by destruct st.
  - destruct (m2 s) as [[a s']| | |]; [apply Hf|by right..].
Qed.

Lemma approx_bind {S A B} st (m1 m2 : M S A) (f1 f2 : A → M S B) :
  approx st m1 m2 → (∀ a, approx st (f1 a) (f2 a)) → approx st (m1 ≫= f1) (m2 ≫= f2).
Proof. intros Hm Hf. by apply bind_approx. Qed.

(** A computation that has stopped is below any other. *)
Lemma approx_throw {S A} e (m : M S A) : approx (StopThrow e) (throw e) m.
Proof. by left. Qed.

(** What an approximation tells of the larger computation. *)
Lemma approx_outcome {S A} st (m1 m2 : M S A) s :
  approx st m1 m2 → m1 s ≠ stopped st → m2 s = m1 s.
Proof. intros Ha Hs. by destruct (Ha s). Qed.

(** ** Guards *)

(** [m], refused in the states that do not satisfy [g]. *)
Definition guard {S A} (g : S → bool) (m : M S A) : M S A := λ s, if g s then m s else Throw GuardViolated.

Lemma guard_approx {S A} g (m : M S A) : approx (StopThrow GuardViolated) (guard g m) m.
Proof. intros s. unfold guard. destruct (g s); [by right|by left]. Qed.

Lemma guard_mono {S A} st g (m1 m2 : M S A) : approx st m1 m2 → approx st (guard g m1) (guard g m2).
Proof. intros Hm s. unfold guard. destruct (g s); [apply Hm|by right]. Qed.

Lemma hoare_guard {S A} allowed (P : S → Prop) g (m : M S A) Q :
  hoare allowed (λ s, P s ∧ g s = true) m Q → hoare allowed P (guard g m) Q.
Proof. intros Hm s Hs. unfold guard. destruct (g s) eqn:Hg; [by apply Hm|done]. Qed.

(** [m], skipped in the states that do not satisfy [g]. *)
Definition lenient {S} (g : S → bool) (m : M S ()) : M S () := λ s, if g s then m s else Ret ((), s).

Lemma guard_lenient {S} g (m : M S ()) : approx (StopThrow GuardViolated) (guard g m) (lenient g m).
Proof. intros s. unfold guard, lenient. destruct (g s); [by right|by left]. Qed.

Lemma hoare_lenient {S} allowed (P Q : S → Prop) g (m : M S ()) :
  hoare allowed P (guard g m) (λ _, Q) → (∀ s, P s → Q s) → hoare allowed P (lenient g m) (λ _, Q).
Proof.
  intros Hm HQ s Hs. specialize (Hm s Hs). unfold guard, lenient in *. destruct (g s); [done|by apply HQ].
Qed.

(** ** Fuel *)

(** The fuel of the smaller computation: at most that of the larger when it
    may run out of it, the same otherwise. *)
Definition fuel_le (st : stop) (n m : nat) : Prop :=
  match st with StopFuel => n ≤ m | StopThrow _ => n = m end.

#[export] Instance fuel_le_reflexive st : Reflexive (fuel_le st).
Proof. intros n. destruct st; cbn; lia. Qed.

(** A family of computations that spend one unit of fuel before they recurse. *)
Lemma approx_fuel {S A X} st (f g : nat → X → M S A) n m :
  (∀ x, f 0 x = no_fuel) → (∀ x, g 0 x = no_fuel) →
  (∀ n m, fuel_le st n m → (∀ x, approx st (f n x) (g m x)) → ∀ x, approx st (f (1 + n) x) (g (1 + m) x)) →
  fuel_le st n m → ∀ x, approx st (f n x) (g m x).
Proof.
  intros Hf Hg Hstep. revert m. induction n as [|n IH]; intros m Hnm x.
  - rewrite Hf. intros s. destruct st as [|e]; [by left|right]. cbn in Hnm. subst m. by rewrite Hg.
  - destruct m as [|m]; [destruct st; cbn in Hnm; lia|].
    assert (fuel_le st n m) as Hle by (destruct st; cbn in *; lia).
    apply (Hstep n m Hle). intros y. by apply IH.
Qed.

(** ** Automation *)

(** The operations of the components that are monotone. *)
Create HintDb approx.
#[export] Hint Resolve approx_throw guard_approx : approx.

(** A step along two computations of the same structure. *)
Ltac approx_step :=
  lazymatch goal with
  | |- approx _ ?m ?m => reflexivity
  | |- approx _ (mbind _ _) (mbind _ _) => apply approx_bind; [|intros ?]
  | |- approx _ (if ?b then _ else _) _ => destruct b
  | |- approx _ (match ?x with _ => _ end) _ => destruct x
  end.
Ltac approx := repeat (cbv zeta; approx_step); eauto with approx.
