(* ===== verification/Args.v ===== *)
(** * The arguments and the environment of the programs

    The three programs get their arguments as [argv] (a list of strings, the
    name of the program first), their environment as the function [getenv], and
    read numbers with std::stoi, whose base-10 behaviour is defined here:
    leading white space, an optional sign and as many digits as there are,
    ignoring what follows. *)
From stdpp Require Import base option list strings.
From Stdlib Require Import ZArith Lia Ascii.
From S2P Require Import Prelude.

#[local] Open Scope Z_scope.

Abbreviation environment := (string → option string).

(** isspace, in the C locale. *)
Definition isspace (c : ascii) : bool :=
  let n := Z.of_N (N_of_ascii c) in (n =? 32) || ((9 <=? n) && (n <=? 13)).

(** The value of a decimal digit. *)
Definition digit_value (c : ascii) : option Z :=
  let n := Z.of_N (N_of_ascii c) in
  if (48 <=? n) && (n <=? 57) then Some (n - 48) else None.

(** The number the leading digits of [s] continue [acc] to. *)
Fixpoint digits (acc : Z) (s : string) : Z :=
  match s with
  | String c s => match digit_value c with Some d => digits (10 * acc + d) s | None => acc end
  | EmptyString => acc
  end.

Fixpoint skip_space (s : string) : string :=
  match s with
  | String c s' => if isspace c then skip_space s' else s
  | EmptyString => EmptyString
  end.

(** The sign and what follows it. *)
Definition read_sign (s : string) : Z * string :=
  match s with
  | String "-"%char s' => (-1, s')
  | String "+"%char s' => (1, s')
  | _ => (1, s)
  end.

(** std::stoi *)
Definition stoi {S} (s : string) : M S Z :=
  let '(sign, s) := read_sign (skip_space s) in
  match s with
  | EmptyString => throw InvalidArgument
  | String c _ =>
    match digit_value c with
    | None => throw InvalidArgument
    | Some _ =>
      let n := sign * digits 0 s in
      if (- 2 ^ 31 <=? n) && (n <? 2 ^ 31) then mret n else throw OutOfRange
    end
  end.

(** It returns an [int] or throws; it changes nothing. *)
Lemma stoi_outcome {S} s (st : S) :
  (∃ n, stoi s st = Ret (n, st) ∧ - 2 ^ 31 ≤ n < 2 ^ 31) ∨ stoi s st = Throw InvalidArgument ∨
  stoi s st = Throw OutOfRange.
Proof.
  unfold stoi. destruct (read_sign _) as [sign [|c s']]; [by right; left|].
  destruct (digit_value c); [|by right; left]. cbv zeta.
  destruct (_ && _) eqn:Hin; [left|by right; right].
  apply andb_prop in Hin as [?%Z.leb_le ?%Z.ltb_lt]. by eexists.
Qed.

(** Reading a number changes nothing. *)
Lemma stoi_hoare {S} (allowed : ub → Prop) (P : S → Prop) s : hoare allowed P (stoi s) (λ _, P).
Proof. intros st Hst. by destruct (stoi_outcome s st) as [(n&->&_)|[-> | ->]]. Qed.

(** The exit code of a run of a program. *)
Definition exit_code {R} (o : outcome (Z * R)) : option Z :=
  match o with Ret (code, _) => Some code | _ => None end.

(** The exception or the undefined behaviour it ends with. *)
Definition failure {R} (o : outcome R) : option (exn + ub) :=
  match o with Throw e => Some (inl e) | Undef u => Some (inr u) | _ => None end.

Example stoi_port : stoi "5000" () = Ret (5000, ()).
Proof. reflexivity. Qed.
Example stoi_blanks : stoi "  +80/tcp" () = Ret (80, ()).
Proof. reflexivity. Qed.
Example stoi_negative : stoi "-1" () = Ret (-1, ()).
Proof. reflexivity. Qed.
Example stoi_no_number : stoi "port" () = Throw InvalidArgument.
Proof. reflexivity. Qed.
Example stoi_too_large : stoi "2147483648" () = Throw OutOfRange.
Proof. reflexivity. Qed.
