(* ===== verification/Bytes.v ===== *)
(** * Bytes and integers in memory

    Bytes are [Byte.byte].  [be_split]/[be_combine] and [le_split]/[le_combine]
    are the big- and little-endian encodings; [to_mem]/[of_mem] are the
    encoding of an unsigned integer object in the memory of a host of either
    byte order, and [hton]/[ntoh] the POSIX conversions defined from them: the
    value whose bytes in memory are the network (big-endian) ones. *)
From stdpp Require Import base list gmap.
From Stdlib Require Import ZArith Lia.
From Stdlib Require Export Init.Byte.
From Stdlib Require Strings.Byte.
From S2P Require Import Prelude.

#[local] Open Scope Z_scope.

(** The value of a byte, and the byte an [uint8_t] holds after an assignment. *)
Definition b2z (b : byte) : Z := Z.of_N (Byte.to_N b).
Definition z2b (z : Z) : byte := default x00 (Byte.of_N (Z.to_N (z mod 256))).

Lemma b2z_bound b : 0 ≤ b2z b < 256.
Proof. unfold b2z. pose proof (Byte.to_N_bounded b). lia. Qed.

Lemma z2b_b2z b : z2b (b2z b) = b.
Proof.
  unfold z2b. rewrite Z.mod_small by apply b2z_bound.
  unfold b2z. by rewrite N2Z.id, Byte.of_to_N.
Qed.

Lemma b2z_z2b z : b2z (z2b z) = z mod 256.
Proof.
  unfold z2b. pose proof (Z.mod_pos_bound z 256 ltac:(lia)).
  destruct (Byte.of_N (Z.to_N (z mod 256))) as [b|] eqn:Hb; cbn.
  - unfold b2z. apply Byte.to_of_N in Hb. rewrite Hb. lia.
  - apply Byte.of_N_None_iff in Hb. lia.
Qed.

Lemma b2z_inj b c : b2z b = b2z c → b = c.
Proof. intros H. by rewrite <-(z2b_b2z b), H, z2b_b2z. Qed.

#[export] Instance byte_inhabited : Inhabited byte := populate x00.
#[export] Instance byte_eq_dec : EqDecision byte := Byte.byte_eq_dec.

(** Shifting left and or-ing in the low bits is multiplying and adding. *)
Lemma lor_shiftl a b n :
  0 ≤ n → 0 ≤ b < 2 ^ n → Z.lor (Z.shiftl a n) b = a * 2 ^ n + b.
Proof.
  intros Hn Hb.
  assert (Z.land (Z.shiftl a n) b = 0) as Hd.
  { apply Z.bits_inj'. intros i Hi. rewrite Z.land_spec, Z.bits_0.
    destruct (Z.lt_ge_cases i n); [by rewrite Z.shiftl_spec_low|].
    rewrite andb_comm, <-(Z.mod_small b (2 ^ n)) by lia.
    by rewrite Z.mod_pow2_bits_high by lia. }
  rewrite <-Z.lxor_lor, <-Z.add_nocarry_lxor by done. by rewrite Z.shiftl_mul_pow2.
Qed.

(** ** Little- and big-endian encodings *)

Fixpoint le_combine (bs : list byte) : Z :=
  match bs with
  | [] => 0
  | b :: bs => b2z b + 256 * le_combine bs
  end.

Fixpoint le_split (n : nat) (z : Z) : list byte :=
  match n with
  | O => []
  | S n => z2b z :: le_split n (z / 256)
  end.

Definition be_combine (bs : list byte) : Z := le_combine (reverse bs).
Definition be_split (n : nat) (z : Z) : list byte := reverse (le_split n z).

Lemma length_le_split n z : length (le_split n z) = n.
Proof. revert z. induction n; intros; cbn; auto. Qed.

Lemma length_be_split n z : length (be_split n z) = n.
Proof. unfold be_split. by rewrite length_reverse, length_le_split. Qed.

Lemma le_combine_bound bs : 0 ≤ le_combine bs < 256 ^ Z.of_nat (length bs).
Proof.
  induction bs as [|b bs IH]; cbn [le_combine length]; [lia|].
  rewrite Nat2Z.inj_succ, Z.pow_succ_r by lia. pose proof (b2z_bound b). lia.
Qed.

Lemma be_combine_bound bs : 0 ≤ be_combine bs < 256 ^ Z.of_nat (length bs).
Proof. unfold be_combine. rewrite <-(length_reverse bs). apply le_combine_bound. Qed.

Lemma le_split_combine bs : le_split (length bs) (le_combine bs) = bs.
Proof.
  induction bs as [|b bs IH]; cbn; [done|]. f_equal.
  - apply b2z_inj. rewrite b2z_z2b. pose proof (b2z_bound b). 
    rewrite Z.mul_comm, Z.mod_add by lia. apply Z.mod_small; lia.
  - etrans; [|exact IH]. f_equal. pose proof (b2z_bound b).
    rewrite Z.mul_comm, Z.div_add by lia. rewrite Z.div_small; lia.
Qed.

Lemma le_combine_split n z : le_combine (le_split n z) = z mod 256 ^ Z.of_nat n.
Proof.
  revert z. induction n as [|n IH]; intros z; cbn [le_split le_combine].
  - by rewrite Z.mod_1_r.
  - rewrite IH, b2z_z2b, Nat2Z.inj_succ, Z.pow_succ_r by lia.
    rewrite Z.rem_mul_r by lia. lia.
Qed.

Lemma be_split_combine n bs : length bs = n → be_split n (be_combine bs) = bs.
Proof.
  intros <-. unfold be_split, be_combine.
  rewrite <-(length_reverse bs), le_split_combine. apply reverse_involutive.
Qed.

Lemma be_combine_split n z : be_combine (be_split n z) = z mod 256 ^ Z.of_nat n.
Proof. unfold be_split, be_combine. by rewrite reverse_involutive, le_combine_split. Qed.

(** ** The host's byte order *)

Inductive endian : Type := LittleEndian | BigEndian.

(** The byte order of the machine the program runs on. *)
Class HostOrder : Type := host_order : endian.

Section Host.
Context `{HostOrder}.

(** The bytes in memory of an unsigned integer object of [n] bytes, and the
    value of an object whose bytes are [bs] (memcpy into an integer). *)
Definition to_mem (n : nat) (z : Z) : list byte :=
  match host_order with
  | LittleEndian => le_split n z
  | BigEndian => be_split n z
  end.
Definition of_mem (bs : list byte) : Z :=
  match host_order with
  | LittleEndian => le_combine bs
  | BigEndian => be_combine bs
  end.

(** htons/htonl and ntohs/ntohl, by the width in bytes. *)
Definition hton (n : nat) (z : Z) : Z := of_mem (be_split n z).
Definition ntoh (n : nat) (z : Z) : Z := be_combine (to_mem n z).

Lemma length_to_mem n z : length (to_mem n z) = n.
Proof. unfold to_mem. destruct host_order; [apply length_le_split|apply length_be_split]. Qed.

Lemma of_mem_bound bs : 0 ≤ of_mem bs < 256 ^ Z.of_nat (length bs).
Proof. unfold of_mem. destruct host_order; [apply le_combine_bound|apply be_combine_bound]. Qed.

Lemma to_mem_of_mem n bs : length bs = n → to_mem n (of_mem bs) = bs.
Proof.
  intros <-. unfold to_mem, of_mem.
  destruct host_order; [apply le_split_combine|by apply be_split_combine].
Qed.

Lemma of_mem_to_mem n z : of_mem (to_mem n z) = z mod 256 ^ Z.of_nat n.
Proof.
  unfold to_mem, of_mem.
  destruct host_order; [apply le_combine_split|apply be_combine_split].
Qed.

(** In memory, a converted integer is its network-order encoding. *)
Lemma to_mem_hton n z : to_mem n (hton n z) = be_split n z.
Proof. apply to_mem_of_mem, length_be_split. Qed.

Lemma ntoh_hton n z : ntoh n (hton n z) = z mod 256 ^ Z.of_nat n.
Proof. unfold ntoh. by rewrite to_mem_hton, be_combine_split. Qed.

Lemma ntoh_of_mem n bs : length bs = n → ntoh n (of_mem bs) = be_combine bs.
Proof. intros Hl. unfold ntoh. by rewrite to_mem_of_mem. Qed.

Lemma ntoh_bound n z : 0 ≤ ntoh n z < 256 ^ Z.of_nat n.
Proof. pose proof (be_combine_bound (to_mem n z)) as B. by rewrite length_to_mem in B. Qed.
End Host.

