(* ===== verification/Random.v ===== *)
(** * Random numbers

    The conductor draws its tokens from a std::mt19937_64 seeded from
    std::random_device.  [Rng] is what it needs of a generator (words of 64
    bits), [mt19937_64] the generator of the C++ standard, as it defines it
    (the word of index i from those of indices i-312, i-311 and i-156, then the
    tempering), [mt_seed] its seeding.  The theorems hold of every [Rng]. *)
From stdpp Require Import base list.
From Stdlib Require Import ZArith Lia.
From S2P Require Import Prelude Bytes.

#[local] Open Scope Z_scope.

Class Rng : Type := {
  rng_state : Type;
  rng_next : rng_state → Z * rng_state;
  rng_width s : in_width 64 (rng_next s).1
}.

(** ** std::mt19937_64 *)

Module Mt.
Definition state_size : nat := 312.
Definition shift_size : nat := 156.
Definition lower_mask : Z := 2 ^ 31 - 1.
Definition upper_mask : Z := 2 ^ 64 - 2 ^ 31.
Definition xor_mask : Z := 0xb5026f5aa96619e9.
Definition initialization_multiplier : Z := 6364136223846793005.

(** The next word of the sequence, from the last [state_size] ones. *)
Definition twist (xs : list Z) : Z :=
  let y := Z.lor (Z.land (nth 0 xs 0) upper_mask) (Z.land (nth 1 xs 0) lower_mask) in
  Z.lxor (nth shift_size xs 0) (Z.lxor (Z.shiftr y 1) (if Z.odd y then xor_mask else 0)).

Definition temper (x : Z) : Z :=
  let z := Z.lxor x (Z.land (Z.shiftr x 29) 0x5555555555555555) in
  let z := Z.lxor z (Z.land (Z.shiftl z 17) 0x71d67fffeda60000) in
  let z := Z.lxor z (Z.land (Z.shiftl z 37) 0xfff7eee000000000) in
  Z.lxor z (Z.shiftr z 43).

Definition next (xs : list Z) : Z * list Z :=
  let x := u64 (twist xs) in
  (u64 (temper x), tail xs ++ [x]).

(** The words that follow [x], of indices from [i] on. *)
Fixpoint seed_words (n : nat) (i x : Z) : list Z :=
  match n with
  | O => []
  | S n =>
    let x := u64 (initialization_multiplier * Z.lxor x (Z.shiftr x 62) + i) in
    x :: seed_words n (i + 1) x
  end.

Definition seed (value : Z) : list Z := u64 value :: seed_words (state_size - 1) 1 (u64 value).

(** The generator after [n] draws. *)
Fixpoint discard (n : nat) (xs : list Z) : list Z :=
  match n with
  | O => xs
  | S n => discard n (next xs).2
  end.

Lemma length_seed value : length (seed value) = state_size.
Proof. reflexivity. Qed.

Lemma length_next xs : (0 < length xs)%nat → length (next xs).2 = length xs.
Proof. destruct xs; cbn; [lia|]. rewrite length_app. cbn. lia. Qed.

(** The standard's check value is that of the 10000th draw; here the first two. *)
Example first_draws : (next (seed 5489)).1 = 14514284786278117030 ∧ (next (discard 1 (seed 5489))).1 = 4620546740167642908.
Proof. split; vm_compute; reflexivity. Qed.
End Mt.

#[refine] Definition mt19937_64 : Rng := {| rng_state := list Z; rng_next := Mt.next |}.
Proof. intros xs. unfold Mt.next. cbn [fst]. by apply uint_in_width. Defined.
