(* ===== verification/Kernel.v ===== *)
(** * The operating system the program runs on

    The system calls are not code of the repository: [Kernel] lists the calls
    the program makes, over an abstract kernel state, and [KernelLaws] states
    the documented behaviour the theorems rely on, in terms of a view of that
    state: the bytes each descriptor will hand out before it blocks, what
    happens after them, the bytes it has accepted, the open descriptors and
    the epoll interest lists.  [sim] is a concrete kernel that satisfies the
    laws, in which the witnesses run. *)
From stdpp Require Import base option list gmap sets.
From Stdlib Require Import ZArith Lia Init.Byte.
From S2P Require Import Prelude.

#[local] Open Scope Z_scope.

(** The errors the program tells apart ([EWOULDBLOCK] is [EAGAIN] on Linux). *)
Inductive errno : Type := EAGAIN | EINTR | EOTHER.

Inductive epoll_op : Type := EPOLL_CTL_ADD | EPOLL_CTL_MOD | EPOLL_CTL_DEL.

(** A [struct epoll_event]: the mask bits the program sets or tests (all of
    its registrations add [EPOLLET | EPOLLONESHOT]) and [data.ptr]. *)
Record epoll_event : Type := mk_event {
  ev_in : bool; ev_out : bool; ev_err : bool; ev_hup : bool;
  ev_ptr : loc
}.

Class Kernel : Type := {
  kernel : Type;
  sys_read : Z → Z → kernel → (list byte + errno) * kernel;
  sys_write : Z → list byte → kernel → (Z + errno) * kernel;
  sys_close : Z → kernel → kernel;
  sys_epoll_create1 : kernel → option Z * kernel;
  (** [false] is a negative result. *)
  sys_epoll_ctl : Z → epoll_op → Z → option epoll_event → kernel → bool * kernel;
  (** [None] is a negative result. *)
  sys_epoll_wait : Z → Z → Z → kernel → option (list epoll_event) * kernel;
  (** [accept4] on a listening descriptor; [None] is a negative result. *)
  sys_accept4 : Z → kernel → option Z * kernel;
  (** The peer's IPv4 address, as stored in [sin_addr.s_addr]. *)
  sys_getpeername : Z → kernel → option Z;
  (** [clk::now()] in nanoseconds and [now_ms()]. *)
  sys_steady_clock : kernel → Z * kernel;
  sys_system_clock_ms : kernel → Z * kernel;
  (** [connect_to]'s getaddrinfo, socket and connect. *)
  sys_getaddrinfo : String.string → String.string → kernel → option Z * kernel;
  sys_socket : kernel → option Z * kernel;
  sys_connect : Z → Z → kernel → bool * kernel;
  (** [bind] to a port of any address, [sin_port] as stored, and [listen];
      [false] is a negative result. *)
  sys_bind : Z → Z → kernel → bool * kernel;
  sys_listen : Z → Z → kernel → bool * kernel;
  (** [fcntl (fd, F_GETFL)] and [fcntl (fd, F_SETFL, flags)]. *)
  sys_getfl : Z → kernel → Z * kernel;
  sys_setfl : Z → Z → kernel → Z * kernel
}.

(** ** The view of the kernel state *)

(** What a read reports once the bytes of [rx] are consumed. *)
Inductive stream_end : Type :=
  | Open       (* nothing more has arrived: EAGAIN *)
  | Shutdown   (* the peer closed its end: 0 bytes *)
  | Broken.    (* the connection failed *)

Record kview : Type := mk_kview {
  (** The bytes that reads will return before the descriptor is drained,
      those that arrive meanwhile included. *)
  rx : gmap Z (list byte);
  rx_end : gmap Z stream_end;
  (** The bytes the kernel has accepted for sending, oldest first. *)
  tx : gmap Z (list byte);
  (** The signals that will still interrupt a call. *)
  signals : nat;
  open_fds : gset Z;
  (** For each epoll descriptor, the registered descriptors and their data. *)
  interest : gmap Z (gmap Z loc);
  (** The descriptors that are TUN devices, with the packets reads will return. *)
  packets : gmap Z (list (list byte))
}.

Definition rx_of (v : kview) (fd : Z) : list byte := default [] (rx v !! fd).
Definition end_of (v : kview) (fd : Z) : stream_end := default Broken (rx_end v !! fd).
Definition tx_of (v : kview) (fd : Z) : list byte := default [] (tx v !! fd).
Definition interest_of (v : kview) (ep : Z) : gmap Z loc := default ∅ (interest v !! ep).

Definition set_rx (fd : Z) (bs : list byte) (v : kview) : kview :=
  mk_kview (<[fd := bs]> (rx v)) (rx_end v) (tx v) (signals v) (open_fds v) (interest v) (packets v).
Definition set_tx (fd : Z) (bs : list byte) (v : kview) : kview :=
  mk_kview (rx v) (rx_end v) (<[fd := bs]> (tx v)) (signals v) (open_fds v) (interest v) (packets v).
Definition set_signals (n : nat) (v : kview) : kview :=
  mk_kview (rx v) (rx_end v) (tx v) n (open_fds v) (interest v) (packets v).
Definition set_interest (ep : Z) (m : gmap Z loc) (v : kview) : kview :=
  mk_kview (rx v) (rx_end v) (tx v) (signals v) (open_fds v) (<[ep := m]> (interest v)) (packets v).
Definition set_packets (fd : Z) (ps : list (list byte)) (v : kview) : kview :=
  mk_kview (rx v) (rx_end v) (tx v) (signals v) (open_fds v) (interest v) (<[fd := ps]> (packets v)).
Definition set_closed (fd : Z) (v : kview) : kview :=
  mk_kview (delete fd (rx v)) (delete fd (rx_end v)) (delete fd (tx v)) (signals v)
    (open_fds v ∖ {[fd]}) (delete fd <$> delete fd (interest v)) (delete fd (packets v)).
Definition set_opened (fd : Z) (bs : list byte) (e : stream_end) (v : kview) : kview :=
  mk_kview (<[fd := bs]> (rx v)) (<[fd := e]> (rx_end v)) (<[fd := []]> (tx v)) (signals v)
    ({[fd]} ∪ open_fds v) (interest v) (packets v).
Definition set_arrived (r : gmap Z (list byte)) (e : gmap Z stream_end)
    (ps : gmap Z (list (list byte))) (v : kview) : kview :=
  mk_kview r e (tx v) (signals v) (open_fds v) (interest v) ps.

Lemma rx_of_set_rx fd bs v : rx_of (set_rx fd bs v) fd = bs.
Proof. unfold rx_of; cbn. by rewrite lookup_insert_eq. Qed.
Lemma tx_of_set_tx fd bs v : tx_of (set_tx fd bs v) fd = bs.
Proof. unfold tx_of; cbn. by rewrite lookup_insert_eq. Qed.
Lemma tx_of_set_tx_ne fd fd' bs v : fd' ≠ fd → tx_of (set_tx fd bs v) fd' = tx_of v fd'.
Proof. intros Hne. unfold tx_of; cbn. by rewrite lookup_insert_ne. Qed.
Lemma interest_of_set ep m v : interest_of (set_interest ep m v) ep = m.
Proof. unfold interest_of; cbn. by rewrite lookup_insert_eq. Qed.
Lemma interest_of_set_closed fd ep v :
  fd ≠ ep → interest_of (set_closed fd v) ep = delete fd (interest_of v ep).
Proof.
  intros Hne. unfold interest_of; cbn. rewrite lookup_fmap, lookup_delete_ne by done.
  by destruct (interest v !! ep); cbn; rewrite ?delete_empty.
Qed.

(** [read (fd, _, n)] on a stream socket. *)
Inductive read_spec (fd n : Z) (v : kview) : list byte + errno → kview → Prop :=
  | read_nothing : n = 0 → read_spec fd n v (inl []) v
  | read_some (m : nat) :
      0 < Z.of_nat m ≤ n → (m ≤ length (rx_of v fd))%nat →
      read_spec fd n v (inl (take m (rx_of v fd))) (set_rx fd (drop m (rx_of v fd)) v)
  | read_eof : 0 < n → rx_of v fd = [] → end_of v fd = Shutdown → read_spec fd n v (inl []) v
  | read_again : 0 < n → rx_of v fd = [] → end_of v fd = Open → read_spec fd n v (inr EAGAIN) v
  | read_broken : 0 < n → rx_of v fd = [] → end_of v fd = Broken → read_spec fd n v (inr EOTHER) v.

(** [read (fd, _, n)] on a TUN device: one packet, cut to [n] bytes. *)
Inductive tun_read_spec (fd n : Z) (v : kview) : list byte + errno → kview → Prop :=
  | tun_read_packet p ps : packets v !! fd = Some (p :: ps) →
      tun_read_spec fd n v (inl (take (Z.to_nat n) p)) (set_packets fd ps v)
  | tun_read_again : packets v !! fd = Some [] → tun_read_spec fd n v (inr EAGAIN) v.

(** [write (fd, bs, length bs)]. *)
Inductive write_spec (fd : Z) (bs : list byte) (v : kview) : Z + errno → kview → Prop :=
  | write_some (r : Z) :
      0 ≤ r ≤ Z.of_nat (length bs) →
      write_spec fd bs v (inl r) (set_tx fd (tx_of v fd ++ take (Z.to_nat r) bs) v)
  | write_again : write_spec fd bs v (inr EAGAIN) v
  | write_intr n : signals v = S n → write_spec fd bs v (inr EINTR) (set_signals n v)
  | write_broken : write_spec fd bs v (inr EOTHER) v.

(** [epoll_ctl (ep, op, fd, ev)]: a descriptor is added once. *)
Inductive ctl_spec (ep fd : Z) (v : kview) : epoll_op → option epoll_event → bool → kview → Prop :=
  | ctl_add ev : interest_of v ep !! fd = None →
      ctl_spec ep fd v EPOLL_CTL_ADD (Some ev) true
        (set_interest ep (<[fd := ev_ptr ev]> (interest_of v ep)) v)
  | ctl_mod ev p : interest_of v ep !! fd = Some p →
      ctl_spec ep fd v EPOLL_CTL_MOD (Some ev) true
        (set_interest ep (<[fd := ev_ptr ev]> (interest_of v ep)) v)
  | ctl_del ev p : interest_of v ep !! fd = Some p →
      ctl_spec ep fd v EPOLL_CTL_DEL ev true (set_interest ep (delete fd (interest_of v ep)) v)
  | ctl_fail op ev : (op = EPOLL_CTL_DEL → interest_of v ep !! fd = None) →
      ctl_spec ep fd v op ev false v.

(** [epoll_wait (ep, _, max, _)]: events of distinct registered descriptors,
    carrying the data they were registered with; bytes may have arrived. *)
Inductive wait_spec (ep max : Z) (v : kview) : option (list epoll_event) → kview → Prop :=
  | wait_events fds evs r e ps :
      NoDup fds → Z.of_nat (length evs) ≤ max →
      Forall2 (λ fd ev, interest_of v ep !! fd = Some (ev_ptr ev)) fds evs →
      wait_spec ep max v (Some evs) (set_arrived r e ps v)
  | wait_fail r e ps : wait_spec ep max v None (set_arrived r e ps v).

(** [accept4], [socket] and [epoll_create1] return a descriptor that was not
    open, and so is registered nowhere. *)
Inductive open_spec (v : kview) : option Z → kview → Prop :=
  | open_some fd bs e : 0 ≤ fd → fd ∉ open_fds v → interest v !! fd = None →
      (∀ ep, interest_of v ep !! fd = None) →
      open_spec v (Some fd) (set_opened fd bs e v)
  | open_none : open_spec v None v.

(** A call that opens, closes, registers and sends nothing. *)
Definition quiet (v v' : kview) : Prop :=
  open_fds v' = open_fds v ∧ interest v' = interest v ∧ tx v' = tx v.

Class KernelLaws (K : Kernel) : Type := {
  view : kernel → kview;
  sys_read_ok fd n k r k' : 0 ≤ n → packets (view k) !! fd = None →
    sys_read fd n k = (r, k') → read_spec fd n (view k) r (view k');
  sys_read_tun_ok fd n k r k' : 0 ≤ n → packets (view k) !! fd ≠ None →
    sys_read fd n k = (r, k') → tun_read_spec fd n (view k) r (view k');
  sys_write_ok fd bs k r k' :
    sys_write fd bs k = (r, k') → write_spec fd bs (view k) r (view k');
  sys_close_ok fd k : view (sys_close fd k) = set_closed fd (view k);
  sys_epoll_ctl_ok ep op fd ev k b k' :
    sys_epoll_ctl ep op fd ev k = (b, k') → ctl_spec ep fd (view k) op ev b (view k');
  sys_epoll_wait_ok ep max t k r k' : 0 ≤ max →
    sys_epoll_wait ep max t k = (r, k') → wait_spec ep max (view k) r (view k');
  sys_accept4_ok fd k r k' : sys_accept4 fd k = (r, k') → open_spec (view k) r (view k');
  sys_socket_ok k r k' : sys_socket k = (r, k') → open_spec (view k) r (view k');
  sys_epoll_create1_ok k r k' : sys_epoll_create1 k = (r, k') → open_spec (view k) r (view k');
  sys_getaddrinfo_ok node service k : quiet (view k) (view (sys_getaddrinfo node service k).2);
  sys_connect_ok fd addr k : quiet (view k) (view (sys_connect fd addr k).2);
  sys_bind_ok fd sin_port k : quiet (view k) (view (sys_bind fd sin_port k).2);
  sys_listen_ok fd backlog k : quiet (view k) (view (sys_listen fd backlog k).2);
  sys_getfl_ok fd k : quiet (view k) (view (sys_getfl fd k).2);
  sys_setfl_ok fd flags k : quiet (view k) (view (sys_setfl fd flags k).2);
  sys_steady_clock_ok k : view (sys_steady_clock k).2 = view k;
  sys_system_clock_ok k : view (sys_system_clock_ms k).2 = view k
}.

(** ** A concrete kernel

    [sim_chunk]: the largest number of bytes a call moves (less one);
    [sim_window]: the bytes each descriptor still accepts; [sim_refused]: the
    connections that will be refused; [sim_backlog]: those waiting to be
    accepted; [sim_now]: the clock, which ticks at every reading; [sim_files]:
    the files, and [sim_stream]: the bytes in the buffer of the output stream. *)
Record sim : Type := mk_sim_files {
  sim_view : kview;
  sim_chunk : nat;
  sim_window : gmap Z Z;
  sim_refused : nat;
  sim_backlog : nat;
  sim_now : Z;
  sim_files : gmap String.string (list byte);
  sim_stream : list byte
}.

(** A kernel without files. *)
Definition mk_sim (v : kview) (chunk : nat) (window : gmap Z Z) (refused backlog : nat) (now : Z) : sim :=
  mk_sim_files v chunk window refused backlog now ∅ [].

Definition sim_set_view (v : kview) (k : sim) : sim :=
  mk_sim_files v (sim_chunk k) (sim_window k) (sim_refused k) (sim_backlog k) (sim_now k) (sim_files k) (sim_stream k).
Definition sim_set_window (w : gmap Z Z) (k : sim) : sim :=
  mk_sim_files (sim_view k) (sim_chunk k) w (sim_refused k) (sim_backlog k) (sim_now k) (sim_files k) (sim_stream k).
Definition sim_set_refused (n : nat) (k : sim) : sim :=
  mk_sim_files (sim_view k) (sim_chunk k) (sim_window k) n (sim_backlog k) (sim_now k) (sim_files k) (sim_stream k).
Definition sim_set_backlog (n : nat) (k : sim) : sim :=
  mk_sim_files (sim_view k) (sim_chunk k) (sim_window k) (sim_refused k) n (sim_now k) (sim_files k) (sim_stream k).
Definition sim_tick (k : sim) : sim :=
  mk_sim_files (sim_view k) (sim_chunk k) (sim_window k) (sim_refused k) (sim_backlog k) (sim_now k + 1) (sim_files k) (sim_stream k).
Definition sim_set_files (fs : gmap String.string (list byte)) (stream : list byte) (k : sim) : sim :=
  mk_sim_files (sim_view k) (sim_chunk k) (sim_window k) (sim_refused k) (sim_backlog k) (sim_now k) fs stream.

Definition sim_read (fd n : Z) (k : sim) : (list byte + errno) * sim :=
  let v := sim_view k in
  match packets v !! fd with
  | Some [] => (inr EAGAIN, k)
  | Some (p :: ps) => (inl (take (Z.to_nat n) p), sim_set_view (set_packets fd ps v) k)
  | None =>
    if decide (n ≤ 0) then (inl [], k)
    else match rx_of v fd with
    | [] =>
      match end_of v fd with
      | Open => (inr EAGAIN, k)
      | Shutdown => (inl [], k)
      | Broken => (inr EOTHER, k)
      end
    | bs =>
      let m := ((Z.to_nat n `min` S (sim_chunk k)) `min` length bs)%nat in
      (inl (take m bs), sim_set_view (set_rx fd (drop m bs) v) k)
    end
  end.

Definition sim_write (fd : Z) (bs : list byte) (k : sim) : (Z + errno) * sim :=
  let v := sim_view k in
  match signals v with
  | S n => (inr EINTR, sim_set_view (set_signals n v) k)
  | O =>
    let w := default 0 (sim_window k !! fd) in
    if decide (w ≤ 0) then (inr EAGAIN, k)
    else
      let m := ((Z.to_nat w `min` S (sim_chunk k)) `min` length bs)%nat in
      (inl (Z.of_nat m),
       sim_set_view (set_tx fd (tx_of v fd ++ take m bs) v)
         (sim_set_window (<[fd := w - Z.of_nat m]> (sim_window k)) k))
  end.

Definition sim_ctl (ep : Z) (op : epoll_op) (fd : Z) (ev : option epoll_event) (k : sim) : bool * sim :=
  let v := sim_view k in
  let m := interest_of v ep in
  match op, m !! fd, ev with
  | EPOLL_CTL_ADD, None, Some e | EPOLL_CTL_MOD, Some _, Some e =>
    (true, sim_set_view (set_interest ep (<[fd := ev_ptr e]> m) v) k)
  | EPOLL_CTL_DEL, Some _, _ => (true, sim_set_view (set_interest ep (delete fd m) v) k)
  | _, _, _ => (false, k)
  end.

#[export] Instance stream_end_eq_dec : EqDecision stream_end.
Proof. solve_decision. Defined.

(** The registered descriptors that are readable. *)
Definition sim_ready (v : kview) (ep : Z) : list (Z * loc) :=
  filter (λ x, rx_of v x.1 ≠ [] ∨ end_of v x.1 ≠ Open ∨ default [] (packets v !! x.1) ≠ []) (map_to_list (interest_of v ep)).

Definition sim_wait (ep max : Z) (k : sim) : option (list epoll_event) * sim :=
  (Some ((λ x, mk_event true false false false x.2) <$>
     take (Z.to_nat max) (sim_ready (sim_view k) ep)), k).

Definition sim_next_fd (v : kview) : Z :=
  1 + foldr Z.max 2 (elements (open_fds v ∪ dom (interest v)) ++
    (map_to_list (interest v) ≫= λ x, elements (dom x.2))).

Definition sim_open (k : sim) : option Z * sim :=
  let v := sim_view k in
  let fd := sim_next_fd v in
  (Some fd, sim_set_view (set_opened fd [] Open v) (sim_set_window (<[fd := 65536]> (sim_window k)) k)).

Definition sim_accept (k : sim) : option Z * sim :=
  match sim_backlog k with
  | O => (None, k)
  | S n => sim_open (sim_set_backlog n k)
  end.

#[export] Instance sim_kernel : Kernel := {|
  kernel := sim;
  sys_read := sim_read;
  sys_write := sim_write;
  sys_close fd k := sim_set_view (set_closed fd (sim_view k)) k;
  sys_epoll_create1 := sim_open;
  sys_epoll_ctl := sim_ctl;
  sys_epoll_wait ep max _ := sim_wait ep max;
  sys_accept4 _ := sim_accept;
  sys_getpeername fd k := if decide (fd ∈ open_fds (sim_view k)) then Some 16777343 else None;
  sys_steady_clock k := (sim_now k * 1000000000, sim_tick k);
  sys_system_clock_ms k := (sim_now k * 1000, sim_tick k);
  sys_getaddrinfo _ _ k := (Some 1, k);
  sys_socket := sim_open;
  sys_connect _ _ k :=
    match sim_refused k with O => (true, k) | S n => (false, sim_set_refused n k) end;
  sys_bind _ _ k := (true, k);
  sys_listen _ _ k := (true, k);
  sys_getfl _ k := (0, k);
  sys_setfl _ _ k := (0, k)
|}.

Lemma sim_read_ok fd n k r k' : 0 ≤ n → packets (sim_view k) !! fd = None →
  sim_read fd n k = (r, k') → read_spec fd n (sim_view k) r (sim_view k').
Proof.
  intros Hn Hp. unfold sim_read. rewrite Hp.
  destruct (decide (n ≤ 0)); [intros [= <- <-]; constructor; lia|].
  destruct (rx_of (sim_view k) fd) as [|b bs] eqn:Hr.
  { destruct (end_of (sim_view k) fd) eqn:He; intros [= <- <-]; constructor; auto; lia. }
  intros [= <- <-].
  set (m := ((Z.to_nat n `min` S (sim_chunk k)) `min` length (b :: bs))%nat).
  rewrite <-Hr. apply read_some; rewrite ?Hr; subst m; cbn [length]; lia.
Qed.

Lemma write_some_nat fd bs v m : (m ≤ length bs)%nat →
  write_spec fd bs v (inl (Z.of_nat m)) (set_tx fd (tx_of v fd ++ take m bs) v).
Proof. intros Hm. rewrite <-(Nat2Z.id m) at 2. constructor. lia. Qed.

Lemma sim_write_ok fd bs k r k' :
  sim_write fd bs k = (r, k') → write_spec fd bs (sim_view k) r (sim_view k').
Proof.
  unfold sim_write.
  destruct (signals (sim_view k)) eqn:Hs; [|intros [= <- <-]; by constructor].
  destruct (decide _); intros [= <- <-]; [constructor|].
  apply write_some_nat. lia.
Qed.

Lemma sim_ctl_ok ep op fd ev k b k' :
  sim_ctl ep op fd ev k = (b, k') → ctl_spec ep fd (sim_view k) op ev b (sim_view k').
Proof.
  unfold sim_ctl.
  destruct op, (interest_of (sim_view k) ep !! fd) eqn:Hm, ev; intros [= <- <-];
    first [by econstructor | constructor; done].
Qed.

Lemma sim_wait_ok ep max k r k' : 0 ≤ max →
  sim_wait ep max k = (r, k') → wait_spec ep max (sim_view k) r (sim_view k').
Proof.
  intros Hmax [= <- <-].
  set (l := take (Z.to_nat max) (sim_ready (sim_view k) ep)).
  assert (sim_view k = set_arrived (rx (sim_view k)) (rx_end (sim_view k)) (packets (sim_view k))
    (sim_view k)) as E by by destruct (sim_view k).
  rewrite E at 2. apply wait_events with (fds := l.*1).
  - eapply sublist_NoDup; [apply (NoDup_fst_map_to_list (interest_of (sim_view k) ep))|].
    apply fmap_sublist. unfold l, sim_ready.
    etrans; [apply sublist_take|apply sublist_filter].
  - rewrite length_fmap. unfold l. rewrite length_take. lia.
  - rewrite Forall2_fmap. apply Forall_Forall2_diag, Forall_take, Forall_forall.
    intros [fd p] [_ H]%list_elem_of_filter. by apply elem_of_map_to_list in H.
Qed.

Lemma sim_next_fd_fresh v :
  0 ≤ sim_next_fd v ∧ (sim_next_fd v ∉ open_fds v) ∧ interest v !! sim_next_fd v = None ∧
  ∀ ep, interest_of v ep !! sim_next_fd v = None.
Proof.
  unfold sim_next_fd. set (l := _ ++ _).
  assert (∀ l, 2 ≤ foldr Z.max 2 l ∧ ∀ x, x ∈ l → x ≤ foldr Z.max 2 l) as Hm.
  { clear l. induction l as [|y l [IH1 IH2]]; cbn.
    - split; [lia|]. by intros x ?%elem_of_nil.
    - split; [lia|]. intros x [->|Hx]%elem_of_cons; [lia|]. specialize (IH2 x Hx). lia. }
  destruct (Hm l) as [H1 H2].
  assert (1 + foldr Z.max 2 l ∉ l) as Hn by (intros H; apply H2 in H; lia).
  unfold l at 2 in Hn. rewrite elem_of_app, elem_of_elements, elem_of_union in Hn.
  split; [lia|]. split_and!; [naive_solver|apply not_elem_of_dom; naive_solver|].
  intros ep. unfold interest_of. destruct (interest v !! ep) as [m|] eqn:Hep; cbn; [|done].
  apply not_elem_of_dom. intros Hin. apply Hn. right. apply list_elem_of_bind.
  exists (ep, m). split; [by apply elem_of_elements|by apply elem_of_map_to_list].
Qed.

Lemma sim_open_ok k r k' : sim_open k = (r, k') → open_spec (sim_view k) r (sim_view k').
Proof.
  unfold sim_open. intros [= <- <-]. destruct (sim_next_fd_fresh (sim_view k)) as (?&?&?&?). by constructor.
Qed.

#[export] Instance sim_laws : KernelLaws sim_kernel.
Proof.
  unshelve econstructor; [exact sim_view|..]; cbn.
  - intros. by eapply sim_read_ok.
  - intros fd n k r k' Hn Hp. unfold sim_read.
    destruct (packets (sim_view k) !! fd) as [[|p ps]|] eqn:E; [| |done];
      intros [= <- <-]; by constructor.
  - intros. by eapply sim_write_ok.
  - done.
  - intros. by eapply sim_ctl_ok.
  - intros ep max t k r k' Hm. by apply sim_wait_ok.
  - intros _ k r k'. unfold sim_accept. destruct (sim_backlog k); [intros [= <- <-]; constructor|].
    by intros H%sim_open_ok.
  - intros k r k' H. by apply sim_open_ok.
  - intros k r k' H. by apply sim_open_ok.
  - done.
  - intros _ _ k. by destruct (sim_refused k).
  - done.
  - done.
  - done.
  - done.
  - done.
  - done.
Defined.

(** ** The concrete kernel with peers

    The same kernel, with peers behind its connections: [script fd] is what the
    peer of the descriptor [fd] sends, of a connection made or accepted. *)
Section Scripted.
Context (script : Z → list byte).

Definition scripted_socket (k : sim) : option Z * sim :=
  let v := sim_view k in
  let fd := sim_next_fd v in
  (Some fd, sim_set_view (set_opened fd (script fd) Open v)
     (sim_set_window (<[fd := 65536]> (sim_window k)) k)).

Definition scripted_accept (k : sim) : option Z * sim :=
  match sim_backlog k with
  | O => (None, k)
  | S n => scripted_socket (sim_set_backlog n k)
  end.

Definition scripted_kernel : Kernel := {|
  kernel := sim;
  sys_read := sys_read (Kernel := sim_kernel);
  sys_write := sys_write (Kernel := sim_kernel);
  sys_close := sys_close (Kernel := sim_kernel);
  sys_epoll_create1 := sys_epoll_create1 (Kernel := sim_kernel);
  sys_epoll_ctl := sys_epoll_ctl (Kernel := sim_kernel);
  sys_epoll_wait := sys_epoll_wait (Kernel := sim_kernel);
  sys_accept4 _ := scripted_accept;
  sys_getpeername := sys_getpeername (Kernel := sim_kernel);
  sys_steady_clock := sys_steady_clock (Kernel := sim_kernel);
  sys_system_clock_ms := sys_system_clock_ms (Kernel := sim_kernel);
  sys_getaddrinfo := sys_getaddrinfo (Kernel := sim_kernel);
  sys_socket := scripted_socket;
  sys_connect := sys_connect (Kernel := sim_kernel);
  sys_bind := sys_bind (Kernel := sim_kernel);
  sys_listen := sys_listen (Kernel := sim_kernel);
  sys_getfl := sys_getfl (Kernel := sim_kernel);
  sys_setfl := sys_setfl (Kernel := sim_kernel)
|}.

Lemma scripted_socket_ok k r k' : scripted_socket k = (r, k') → open_spec (sim_view k) r (sim_view k').
Proof.
  intros [= <- <-]. destruct (sim_next_fd_fresh (sim_view k)) as (?&?&?&?). by constructor.
Qed.

Definition scripted_laws : KernelLaws scripted_kernel.
Proof.
  unshelve econstructor; [exact sim_view|..].
  - exact (sys_read_ok (K := sim_kernel)).
  - exact (sys_read_tun_ok (K := sim_kernel)).
  - exact (sys_write_ok (K := sim_kernel)).
  - exact (sys_close_ok (K := sim_kernel)).
  - exact (sys_epoll_ctl_ok (K := sim_kernel)).
  - exact (sys_epoll_wait_ok (K := sim_kernel)).
  - intros ? k r k'. cbn. unfold scripted_accept. destruct (sim_backlog k); [intros [= <- <-]; constructor|].
    by intros H%scripted_socket_ok.
  - exact scripted_socket_ok.
  - exact (sys_epoll_create1_ok (K := sim_kernel)).
  - exact (sys_getaddrinfo_ok (K := sim_kernel)).
  - exact (sys_connect_ok (K := sim_kernel)).
  - exact (sys_bind_ok (K := sim_kernel)).
  - exact (sys_listen_ok (K := sim_kernel)).
  - exact (sys_getfl_ok (K := sim_kernel)).
  - exact (sys_setfl_ok (K := sim_kernel)).
  - exact (sys_steady_clock_ok (K := sim_kernel)).
  - exact (sys_system_clock_ok (K := sim_kernel)).
Defined.
End Scripted.
