(* ===== verification/Protocol.v ===== *)
(** * The wire protocol: packet types and the 6-byte packet header

    Models src/protocol/types.cpp, src/protocol/header.cpp and their headers.
    A [PacketHeader] object is the packed struct: its two fields hold the
    values in network byte order, [header_bytes] is the object's memory (what
    write sends and read fills) and [header_of_bytes] the object found at a
    buffer (the cast the queue applies to its receive buffer). *)
From stdpp Require Import base list gmap.
From Stdlib Require Import ZArith Lia.
From S2P Require Import Prelude Bytes.

#[local] Open Scope Z_scope.

(** [enum PacketType : uint16_t]: the underlying type is fixed, so every 16-bit
    value is a value of the type; the enumerators are the following ones. *)
Abbreviation PacketType := Z.

Definition HEARTBEAT : PacketType := 0.
Definition SWITCH_MIP : PacketType := 1.
Definition AGENT_MIP : PacketType := 2.
Definition CONNECT_TO_SWITCH : PacketType := 3.
Definition AGENT_CONNECTION_TOKEN : PacketType := 4.
Definition AUTH_CONNECT_TO_SWITCH : PacketType := 5.
Definition CONNECTION_ACCEPTED : PacketType := 6.
Definition AGENT_MRP : PacketType := 7.

Record PacketHeader : Type := {
  payload_size : Z;   (* uint32_t, network order *)
  packet_type : Z     (* uint_packet_t = uint16_t, network order *)
}.

(** sizeof(PacketHeader) under #pragma pack(1) *)
Definition PACKET_HEADER_SIZE : Z := 6.

Section Protocol.
Context `{HostOrder}.

Definition ntoh_packet_type (type : Z) : PacketType := ntoh 2 type.
Definition hton_packet_type (type : PacketType) : Z := hton 2 type.

Definition get_payload_size (h : PacketHeader) : Z := ntoh 4 (payload_size h).
Definition get_packet_type (h : PacketHeader) : PacketType :=
  ntoh_packet_type (packet_type h).

Definition PacketHeader_default : PacketHeader :=
  {| payload_size := 0; packet_type := 0 |}.
Definition PacketHeader_make (size : Z) (type : PacketType) : PacketHeader :=
  {| payload_size := hton 4 size; packet_type := hton_packet_type type |}.

(** The six bytes of a header object, and the object at a six-byte buffer. *)
Definition header_bytes (h : PacketHeader) : list byte :=
  to_mem 4 (payload_size h) ++ to_mem 2 (packet_type h).
Definition header_of_bytes (bs : list byte) : PacketHeader :=
  {| payload_size := of_mem (take 4 bs); packet_type := of_mem (take 2 (drop 4 bs)) |}.

Lemma length_header_bytes h : length (header_bytes h) = 6%nat.
Proof. unfold header_bytes. by rewrite length_app, !length_to_mem. Qed.

(** The bytes of a constructed header, whatever the host's byte order. *)
Lemma header_bytes_make size type :
  header_bytes (PacketHeader_make size type) = be_split 4 size ++ be_split 2 type.
Proof. unfold header_bytes, PacketHeader_make, hton_packet_type; cbn. by rewrite !to_mem_hton. Qed.

(** The getters read the big-endian fields of the buffer. *)
Lemma get_payload_size_of_bytes bs :
  (6 ≤ length bs)%nat → get_payload_size (header_of_bytes bs) = be_combine (take 4 bs).
Proof. intros Hl. apply ntoh_of_mem. rewrite length_take. lia. Qed.

Lemma get_packet_type_of_bytes bs :
  (6 ≤ length bs)%nat →
  get_packet_type (header_of_bytes bs) = be_combine (take 2 (drop 4 bs)).
Proof. intros Hl. apply ntoh_of_mem. rewrite length_take, length_drop. lia. Qed.

Lemma get_payload_size_bound h : in_width 32 (get_payload_size h).
Proof. apply (ntoh_bound 4). Qed.
Lemma get_packet_type_bound h : in_width 16 (get_packet_type h).
Proof. apply (ntoh_bound 2). Qed.

Lemma get_payload_size_make size type :
  get_payload_size (PacketHeader_make size type) = u32 size.
Proof. apply (ntoh_hton 4). Qed.
Lemma get_packet_type_make size type :
  get_packet_type (PacketHeader_make size type) = u16 type.
Proof. apply (ntoh_hton 2). Qed.

(** Reading back the bytes of a header object gives the object. *)
Lemma header_of_header_bytes h rest :
  in_width 32 (payload_size h) → in_width 16 (packet_type h) →
  header_of_bytes (header_bytes h ++ rest) = h.
Proof.
  intros H4 H2. unfold header_of_bytes, header_bytes. destruct h as [s t]; cbn in *.
  rewrite <-app_assoc.
  rewrite take_app_length' by (by rewrite length_to_mem).
  rewrite drop_app_length' by (by rewrite length_to_mem).
  rewrite take_app_length' by (by rewrite length_to_mem).
  rewrite !of_mem_to_mem. f_equal; by apply Z.mod_small.
Qed.
End Protocol.
