(* ===== verification/IPv4.v ===== *)
(** * The IPv4 header parser

    Models src/blackbox/ipv4.cpp and include/vnet/blackbox/ipv4.hpp.
    [ipv4_parse] runs in the monad [M IPv4Header]: the state is the caller's
    [out] header, which the C++ function fills field by field and leaves
    partly written when it returns false.  The packet buffer is the list of
    the bytes that may be read; a read outside it is undefined behaviour. *)
From stdpp Require Import base list gmap.
From Stdlib Require Import ZArith Lia.
From S2P Require Import Prelude Bytes.

#[local] Open Scope Z_scope.

Record IPv4Header : Type := {
  version : Z;        (* uint8_t *)
  ihl : Z;            (* uint8_t, header length in 32-bit words *)
  total_length : Z;   (* uint16_t, network order *)
  protocol : Z;       (* uint8_t *)
  src_ip : Z;         (* uint32_t, network order *)
  dst_ip : Z;         (* uint32_t, network order *)
  src_port : Z;       (* uint16_t, network order *)
  dst_port : Z        (* uint16_t, network order *)
}.

(** [IPv4Header hdr{}]: value-initialised, every field zero. *)
Definition IPv4Header_zero : IPv4Header :=
  {| version := 0; ihl := 0; total_length := 0; protocol := 0;
     src_ip := 0; dst_ip := 0; src_port := 0; dst_port := 0 |}.

Definition PROTO_ICMP : Z := 1.
Definition PROTO_TCP : Z := 6.
Definition PROTO_UDP : Z := 17.

(** Assignments to the fields of [out]. *)
Definition out_version (v : Z) (h : IPv4Header) : IPv4Header :=
  {| version := v; ihl := ihl h; total_length := total_length h; protocol := protocol h;
     src_ip := src_ip h; dst_ip := dst_ip h; src_port := src_port h; dst_port := dst_port h |}.
Definition out_ihl (v : Z) (h : IPv4Header) : IPv4Header :=
  {| version := version h; ihl := v; total_length := total_length h; protocol := protocol h;
     src_ip := src_ip h; dst_ip := dst_ip h; src_port := src_port h; dst_port := dst_port h |}.
Definition out_total_length (v : Z) (h : IPv4Header) : IPv4Header :=
  {| version := version h; ihl := ihl h; total_length := v; protocol := protocol h;
     src_ip := src_ip h; dst_ip := dst_ip h; src_port := src_port h; dst_port := dst_port h |}.
Definition out_protocol (v : Z) (h : IPv4Header) : IPv4Header :=
  {| version := version h; ihl := ihl h; total_length := total_length h; protocol := v;
     src_ip := src_ip h; dst_ip := dst_ip h; src_port := src_port h; dst_port := dst_port h |}.
Definition out_ips (s d : Z) (h : IPv4Header) : IPv4Header :=
  {| version := version h; ihl := ihl h; total_length := total_length h; protocol := protocol h;
     src_ip := s; dst_ip := d; src_port := src_port h; dst_port := dst_port h |}.
Definition out_ports (s d : Z) (h : IPv4Header) : IPv4Header :=
  {| version := version h; ihl := ihl h; total_length := total_length h; protocol := protocol h;
     src_ip := src_ip h; dst_ip := dst_ip h; src_port := s; dst_port := d |}.

(** Reading memory: [data[i]], and the [n] bytes at [data + i]. *)
Definition read_u8 {S} (data : list byte) (i : nat) : M S Z := λ s,
  match data !! i with Some b => Ret (b2z b, s) | None => Undef OutOfBounds end.
Definition read_bytes {S} (data : list byte) (i n : nat) : M S (list byte) := λ s,
  if (i + n <=? length data)%nat then Ret (take n (drop i data), s) else Undef OutOfBounds.

Section IPv4.
Context `{HostOrder}.

Definition ipv4_parse (data : option (list byte)) (len : Z) : M IPv4Header bool :=
  match data with
  | None => mret false                                  (* !data *)
  | Some data =>
    if len <? 20 then mret false else
    b0 ← read_u8 data 0;
    let ver := Z.land (Z.shiftr b0 4) 15 in
    let hl := Z.land b0 15 in
    modify (out_version ver);;
    modify (out_ihl hl);;
    if negb (ver =? 4) then mret false else
    if hl <? 5 then mret false else
    let ip_header_bytes := hl * 4 in
    if len <? ip_header_bytes then mret false else
    tl ← read_bytes data 2 2;
    modify (out_total_length (of_mem tl));;
    proto ← read_u8 data 9;
    modify (out_protocol proto);;
    b2 ← read_u8 data 2;
    b3 ← read_u8 data 3;
    let total_host := u16 (Z.lor (Z.shiftl b2 8) b3) in
    if len <? total_host then mret false else
    s ← read_bytes data 12 4;
    d ← read_bytes data 16 4;
    modify (out_ips (of_mem s) (of_mem d));;
    modify (out_ports 0 0);;
    if (proto =? PROTO_TCP) || (proto =? PROTO_UDP) then
      if len <? ip_header_bytes + 4 then mret false else
      sp ← read_bytes data (Z.to_nat ip_header_bytes) 2;
      dp ← read_bytes data (Z.to_nat ip_header_bytes + 2) 2;
      modify (out_ports (of_mem sp) (of_mem dp));;
      mret true
    else mret true
  end.
End IPv4.

Arguments ipv4_parse {_} data len out : simpl never.

(** ** Specification *)

(** Byte [i] of the packet, and the big-endian value of a field. *)
Definition byte_of (data : list byte) (i : nat) : Z := b2z (data !!! i).
Definition field (data : list byte) (i n : nat) : list byte := take n (drop i data).

(** Has the packet transport-layer ports? *)
Definition has_ports (data : list byte) : bool :=
  (byte_of data 9 =? PROTO_TCP) || (byte_of data 9 =? PROTO_UDP).

(** The packets the parser accepts, on the numeric fields of the header. *)
Definition well_formed (data : list byte) (len : Z) : Prop :=
  20 ≤ len ∧
  byte_of data 0 / 16 = 4 ∧
  5 ≤ byte_of data 0 mod 16 ∧
  4 * (byte_of data 0 mod 16) ≤ len ∧
  be_combine (field data 2 2) ≤ len ∧
  (has_ports data = true → 4 * (byte_of data 0 mod 16) + 4 ≤ len).

#[export] Instance well_formed_dec data len : Decision (well_formed data len).
Proof. unfold well_formed. apply _. Defined.

Section Spec.
Context `{HostOrder}.

(** The header the parser reports for an accepted packet. *)
Definition parsed_header (data : list byte) : IPv4Header :=
  let off := (4 * Z.to_nat (byte_of data 0 mod 16))%nat in
  {| version := byte_of data 0 / 16;
     ihl := byte_of data 0 mod 16;
     total_length := of_mem (field data 2 2);
     protocol := byte_of data 9;
     src_ip := of_mem (field data 12 4);
     dst_ip := of_mem (field data 16 4);
     src_port := if has_ports data then of_mem (field data off 2) else 0;
     dst_port := if has_ports data then of_mem (field data (off + 2) 2) else 0 |}.
End Spec.

(** ** Lemmas *)

Lemma land_15 z : Z.land z 15 = z mod 16.
Proof. change 15 with (Z.ones 4). by rewrite Z.land_ones by lia. Qed.

Lemma high_nibble z : 0 ≤ z < 256 → Z.land (Z.shiftr z 4) 15 = z / 16.
Proof.
  intros Hz. rewrite land_15, Z.shiftr_div_pow2 by lia. change (2 ^ 4) with 16.
  apply Z.mod_small. split; [apply Z.div_pos; lia|]. apply Z.div_lt_upper_bound; lia.
Qed.

(** (b2 << 8) | b3 is the big-endian value of the two bytes. *)
Lemma shift_or_be (b c : byte) :
  u16 (Z.lor (Z.shiftl (b2z b) 8) (b2z c)) = be_combine [b; c].
Proof.
  pose proof (b2z_bound b). pose proof (b2z_bound c).
  rewrite lor_shiftl by lia. unfold uint, be_combine; cbn.
  rewrite Z.mod_small; lia.
Qed.

Lemma read_u8_lt {S} data i (s : S) :
  (i < length data)%nat → read_u8 data i s = Ret (byte_of data i, s).
Proof.
  intros Hi. unfold read_u8, byte_of.
  destruct (lookup_lt_is_Some_2 data i Hi) as [b Hb].
  by rewrite Hb, (list_lookup_total_correct _ _ _ Hb).
Qed.

Lemma read_bytes_le {S} data i n (s : S) :
  (i + n ≤ length data)%nat → read_bytes data i n s = Ret (field data i n, s).
Proof. intros Hi. unfold read_bytes. by rewrite (proj2 (Nat.leb_le _ _) Hi). Qed.

Lemma field_2_bytes data i :
  (i + 2 ≤ length data)%nat →
  be_combine (field data i 2) =
  u16 (Z.lor (Z.shiftl (byte_of data i) 8) (byte_of data (i + 1))).
Proof.
  intros Hi. unfold byte_of. rewrite shift_or_be. f_equal. unfold field.
  destruct (lookup_lt_is_Some_2 data i ltac:(lia)) as [b Hb].
  destruct (lookup_lt_is_Some_2 data (i + 1) ltac:(lia)) as [c Hc].
  rewrite (list_lookup_total_correct _ _ _ Hb), (list_lookup_total_correct _ _ _ Hc).
  rewrite (drop_S _ _ _ Hb). cbn. rewrite Nat.add_1_r in Hc. by rewrite (drop_S _ _ _ Hc).
Qed.

Lemma byte_of_bound data i : 0 ≤ byte_of data i < 256.
Proof. apply b2z_bound. Qed.


Section Parser.
Context `{HostOrder}.

(** The run of the parser over a buffer that holds the [len] bytes it is told of. *)
Lemma ipv4_parse_run data len out :
  0 ≤ len ≤ Z.of_nat (length data) →
  ∃ h, ipv4_parse (Some data) len out = Ret (bool_decide (well_formed data len), h) ∧
       (well_formed data len → h = parsed_header data).
Proof.
  intros Hlen. unfold ipv4_parse.
  assert (∀ h, ¬ well_formed data len →
    ∃ h', Ret (false, h) = Ret (bool_decide (well_formed data len), h') ∧
          (well_formed data len → h' = parsed_header data)) as Hrej.
  { intros h Hn. exists h. by rewrite bool_decide_eq_false_2. }
  destruct (Z.ltb_spec len 20); [apply Hrej; intros []; lia|].
  run. rewrite read_u8_lt by lia. pose proof (byte_of_bound data 0).
  rewrite high_nibble, land_15 by done.
  destruct (Z.eqb_spec (byte_of data 0 / 16) 4) as [Hv|]; [|apply Hrej; intros (?&?&?); lia].
  cbn. destruct (Z.ltb_spec (byte_of data 0 mod 16) 5); [apply Hrej; intros (?&?&?&?); lia|].
  destruct (Z.ltb_spec len (byte_of data 0 mod 16 * 4)); [apply Hrej; intros (?&?&?&?&?); lia|].
  rewrite read_bytes_le by lia. rewrite !read_u8_lt by lia.
  pose proof (field_2_bytes data 2) as Hf. cbn [Nat.add] in Hf. rewrite <-Hf by lia.
  destruct (Z.ltb_spec len (be_combine (field data 2 2)));
    [apply Hrej; intros (?&?&?&?&?&?); lia|].
  rewrite !read_bytes_le by lia.
  fold (has_ports data). destruct (has_ports data) eqn:Hp.
  - destruct (Z.ltb_spec len (byte_of data 0 mod 16 * 4 + 4)).
    { apply Hrej. intros (?&?&?&?&?&Hq). specialize (Hq Hp). lia. }
    assert (well_formed data len) as Hw by (unfold well_formed; repeat split; lia).
    rewrite !read_bytes_le by lia. eexists. rewrite bool_decide_eq_true_2 by done.
    split; [reflexivity|]. intros _. unfold parsed_header. rewrite Hp. cbn.
    by replace (Z.to_nat (byte_of data 0 mod 16 * 4))
      with (4 * Z.to_nat (byte_of data 0 mod 16))%nat by lia.
  - assert (well_formed data len) as Hw.
    { unfold well_formed; repeat split; [lia..|]. by rewrite Hp. }
    eexists. rewrite bool_decide_eq_true_2 by done.
    split; [reflexivity|]. intros _. unfold parsed_header. by rewrite Hp.
Qed.

Lemma ipv4_parse_accepts data len out :
  0 ≤ len ≤ Z.of_nat (length data) → well_formed data len →
  ipv4_parse (Some data) len out = Ret (true, parsed_header data).
Proof.
  intros Hl Hw. destruct (ipv4_parse_run data len out Hl) as (h & -> & Hh).
  by rewrite bool_decide_eq_true_2, Hh.
Qed.

Lemma ipv4_parse_rejects data len out :
  0 ≤ len ≤ Z.of_nat (length data) → ¬ well_formed data len →
  ∃ h, ipv4_parse (Some data) len out = Ret (false, h).
Proof.
  intros Hl Hw. destruct (ipv4_parse_run data len out Hl) as (h & -> & _).
  exists h. by rewrite bool_decide_eq_false_2.
Qed.
End Parser.

(** ** A packet builder

    The packets the tests build (make_tcp_packet of tests/blackbox/ipv4_tests.cpp):
    a 20-byte header followed by the two TCP ports.  Addresses are uint32_t in
    network order, ports host integers. *)
Section Builder.
Context `{HostOrder}.

Definition make_tcp_packet (src_ip src_port dst_ip dst_port : Z) : list byte :=
  [x45; x00] ++ be_split 2 24 ++ replicate 5 x00 ++ [x06; x00; x00] ++
  to_mem 4 src_ip ++ to_mem 4 dst_ip ++ be_split 2 src_port ++ be_split 2 dst_port.

Lemma length_make_tcp_packet s sp d dp : length (make_tcp_packet s sp d dp) = 24%nat.
Proof. unfold make_tcp_packet. rewrite !length_app, !length_to_mem, !length_be_split. done. Qed.

Lemma make_tcp_packet_fields s sp d dp :
  let pkt := make_tcp_packet s sp d dp in
  byte_of pkt 0 = 69 ∧ byte_of pkt 9 = 6 ∧ field pkt 2 2 = be_split 2 24 ∧
  field pkt 12 4 = to_mem 4 s ∧ field pkt 16 4 = to_mem 4 d ∧
  field pkt 20 2 = be_split 2 sp ∧ field pkt 22 2 = be_split 2 dp.
Proof.
  assert (length (to_mem 4 s) = 4%nat) as Hs by apply length_to_mem.
  assert (length (to_mem 4 d) = 4%nat) as Hd by apply length_to_mem.
  assert (length (be_split 2 sp) = 2%nat) as Hsp by apply length_be_split.
  assert (length (be_split 2 dp) = 2%nat) as Hdp by apply length_be_split.
  unfold make_tcp_packet.
  destruct (to_mem 4 s) as [|? [|? [|? [|? []]]]]; try done;
  destruct (to_mem 4 d) as [|? [|? [|? [|? []]]]]; try done;
  destruct (be_split 2 sp) as [|? [|? []]]; try done;
  by destruct (be_split 2 dp) as [|? [|? []]].
Qed.

Lemma make_tcp_packet_well_formed s sp d dp : well_formed (make_tcp_packet s sp d dp) 24.
Proof.
  destruct (make_tcp_packet_fields s sp d dp) as (H0&H9&H2&_).
  unfold well_formed, has_ports. rewrite H0, H9, H2, be_combine_split.
  split_and!; try done; vm_compute; congruence.
Qed.
End Builder.

(** ** Properties *)

Section Properties.
Context `{HostOrder}.

(** C28: [ipv4_parse] never reads outside the buffer: given a null pointer, or
    a buffer of at least [len] bytes, it returns; it returns true exactly on
    the well-formed packets (version 4, header length of at least 5 words
    that fits in [len], total length at most [len], room for the ports of
    TCP and UDP), and then the header holds the fields of the packet,
    whatever it held before. *)
Theorem ipv4_parse_correct (data : option (list byte)) (len : Z) (out : IPv4Header) :
  0 ≤ len → (∀ bs, data = Some bs → len ≤ Z.of_nat (length bs)) →
  ∃ ok h, ipv4_parse data len out = Ret (ok, h) ∧
    (ok = true ↔ ∃ bs, data = Some bs ∧ well_formed bs len) ∧
    (ok = true → ∀ bs, data = Some bs → h = parsed_header bs).
Proof.
  intros Hl Hd. destruct data as [bs|].
  - destruct (ipv4_parse_run bs len out) as (h&E&Hh); [by split; [|apply Hd]|].
    exists (bool_decide (well_formed bs len)), h. split; [done|].
    rewrite bool_decide_eq_true. split; [naive_solver|]. by intros ? ? [= <-]; apply Hh.
  - exists false, out. split; [done|]. naive_solver.
Qed.

(** Round trip.  Parsing a TCP packet built from two addresses and two
    ports succeeds and gives back the addresses, and the ports in network
    order, on hosts of either byte order. *)
Theorem ipv4_parse_make_tcp_packet (s sp d dp : Z) (out : IPv4Header) :
  in_width 32 s → in_width 32 d →
  ∃ h, ipv4_parse (Some (make_tcp_packet s sp d dp)) 24 out = Ret (true, h) ∧
    version h = 4 ∧ ihl h = 5 ∧ protocol h = PROTO_TCP ∧ ntoh 2 (total_length h) = 24 ∧
    src_ip h = s ∧ dst_ip h = d ∧ src_port h = hton 2 sp ∧ dst_port h = hton 2 dp.
Proof.
  intros Hs Hd. eexists. split.
  { apply ipv4_parse_accepts; [rewrite length_make_tcp_packet; lia|].
    apply make_tcp_packet_well_formed. }
  destruct (make_tcp_packet_fields s sp d dp) as (H0&H9&H2&H12&H16&H20&H22).
  unfold parsed_header, has_ports. rewrite H0, H9, H2, H12, H16. cbn [version ihl protocol
    total_length src_ip dst_ip src_port dst_port].
  change (4 * Z.to_nat (69 mod 16))%nat with 20%nat. cbn [Nat.add]. rewrite H20, H22.
  rewrite !of_mem_to_mem, ntoh_of_mem by apply length_be_split.
  rewrite !(Z.mod_small _ (256 ^ Z.of_nat 4)) by done. done.
Qed.
End Properties.

Section Witnesses.
#[local] Instance ipv4_witness_order : HostOrder := LittleEndian.

Lemma ipv4_parse_correct_witness :
  ∃ ok h, ipv4_parse (Some (make_tcp_packet 1 2 3 4)) 24 IPv4Header_zero = Ret (ok, h) ∧
    (ok = true ↔ ∃ bs, Some (make_tcp_packet 1 2 3 4) = Some bs ∧ well_formed bs 24).
Proof.
  destruct (ipv4_parse_correct (Some (make_tcp_packet 1 2 3 4)) 24 IPv4Header_zero)
    as (ok&h&E&Hok&_).
  - lia.
  - intros bs [= <-]. vm_compute. done.
  - exists ok, h. by split.
Defined.

Lemma ipv4_parse_make_tcp_packet_witness :
  ∃ h, ipv4_parse (Some (make_tcp_packet 0x0101000a 12345 0x0201000a 80)) 24 IPv4Header_zero
       = Ret (true, h) ∧ src_ip h = 0x0101000a.
Proof.
  destruct (ipv4_parse_make_tcp_packet 0x0101000a 12345 0x0201000a 80 IPv4Header_zero)
    as (h&E&_&_&_&_&Hs&_).
  - unfold in_width; lia.
  - unfold in_width; lia.
  - by exists h.
Defined.
End Witnesses.
