(* ===== verification/Inet.v ===== *)
(** * The libc address conversions

    inet_pton(AF_INET, ...) and inet_ntop(AF_INET, ...) are libc functions and
    not part of the program: they are the operations of the class [Inet], with
    the documented fact the program relies on (the converted address fits the
    uint32_t it is stored into).  [dotted_quad] is one concrete instance, used
    by the concrete runs. *)
From stdpp Require Import base list gmap strings pretty.
From Stdlib Require Import ZArith Lia Ascii.
From S2P Require Import Prelude Bytes.

#[local] Open Scope Z_scope.

Class Inet : Type := {
  inet_pton : string → option Z;   (* None: the call returns 0, not a valid address *)
  inet_ntop : Z → string;
  inet_pton_width : ∀ s a, inet_pton s = Some a → in_width 32 a
}.

(** [s.c_str()]: what a C function sees of a std::string, up to its first NUL. *)
Fixpoint c_str (s : string) : string :=
  match s with
  | EmptyString => EmptyString
  | String c s => if decide (c = Ascii.zero) then EmptyString else String c (c_str s)
  end.

(** ** A concrete instance: dotted-decimal notation *)

Section DottedQuad.
Context `{HostOrder}.

Definition digit (c : ascii) : option Z :=
  let n := Z.of_N (N_of_ascii c) in
  if (48 <=? n) && (n <=? 57) then Some (n - 48) else None.

(** Octets separated by dots; [cur] is the octet being read. *)
Fixpoint octets (s : string) (cur : option Z) : option (list Z) :=
  match s with
  | EmptyString => v ← cur; Some [v]
  | String c s =>
    if decide (c = "."%char) then v ← cur; vs ← octets s None; Some (v :: vs)
    else
      d ← digit c;
      match cur with
      | None => octets s (Some d)
      | Some 0 => None
      | Some v => if 255 <? 10 * v + d then None else octets s (Some (10 * v + d))
      end
  end.

Definition dotted_quad_pton (s : string) : option Z :=
  match octets s None with
  | Some [a; b; c; d] => Some (of_mem [z2b a; z2b b; z2b c; z2b d])
  | _ => None
  end.

Definition dotted_quad_ntop (a : Z) : string :=
  String.concat "." (pretty ∘ b2z <$> to_mem 4 a).

#[refine] Definition dotted_quad : Inet :=
  {| inet_pton := dotted_quad_pton; inet_ntop := dotted_quad_ntop |}.
Proof.
  intros s a. unfold dotted_quad_pton. repeat case_match; try done.
  intros [= <-]. apply of_mem_bound.
Defined.
End DottedQuad.
