(* ===== verification/Config.v ===== *)
(** * The access configuration of a switch

    Models src/blackbox/config.cpp and include/vnet/blackbox/config.hpp: the
    parser of the config file (comments, blank lines, two-token lines, two
    passes) and the lookups the packet engine makes.  The file's content is
    [Some text], or [None] when it cannot be opened.  [load] returns the
    boolean result together with the state the object is left in, which on
    failure is the partly filled one. *)
From stdpp Require Import base list gmap sets strings.
From Stdlib Require Import ZArith Lia Ascii.
From S2P Require Import Prelude Bytes Inet.

#[local] Open Scope Z_scope.

Record Config : Type := {
  name_to_ip_ : gmap string Z;
  ip_to_name_ : gmap Z string;
  agent_acl_ : gmap Z (gset Z);
  internet_acl_ : gmap Z (gset Z)
}.

(** A default-constructed [Config]; also what the four [clear()] calls leave. *)
Definition Config_empty : Config :=
  {| name_to_ip_ := ∅; ip_to_name_ := ∅; agent_acl_ := ∅; internet_acl_ := ∅ |}.

Definition with_assignment (name : string) (ip : Z) (c : Config) : Config :=
  {| name_to_ip_ := <[name := ip]> (name_to_ip_ c);
     ip_to_name_ := <[ip := name]> (ip_to_name_ c);
     agent_acl_ := agent_acl_ c; internet_acl_ := internet_acl_ c |}.

(** [acl[k].insert(v)]: operator[] creates an empty set for a missing key. *)
Definition acl_insert (k v : Z) (m : gmap Z (gset Z)) : gmap Z (gset Z) :=
  <[k := {[v]} ∪ default ∅ (m !! k)]> m.

Definition with_agent_rule (a b : Z) (c : Config) : Config :=
  {| name_to_ip_ := name_to_ip_ c; ip_to_name_ := ip_to_name_ c;
     agent_acl_ := acl_insert b a (acl_insert a b (agent_acl_ c));
     internet_acl_ := internet_acl_ c |}.

Definition with_internet_rule (a x : Z) (c : Config) : Config :=
  {| name_to_ip_ := name_to_ip_ c; ip_to_name_ := ip_to_name_ c;
     agent_acl_ := agent_acl_ c;
     internet_acl_ := acl_insert a x (internet_acl_ c) |}.

Record Line : Type := { num : Z; first : string; second : string }.

Definition INTERNET_PREFIX : string := "::internet:".

(** [s.substr(INTERNET_PREFIX.size())] *)
Definition internet_target (s : string) : string :=
  String.substring (String.length INTERNET_PREFIX)
    (String.length s - String.length INTERNET_PREFIX) s.
Arguments internet_target : simpl never.

(** ** Text processing of the C++ standard library *)

Definition newline : ascii := ascii_of_nat 10.
Definition tab : ascii := ascii_of_nat 9.

(** The lines [while (std::getline(file, raw))] produces. *)
Fixpoint getlines (text : string) : list string :=
  match text with
  | EmptyString => []
  | String c text =>
    if decide (c = newline) then EmptyString :: getlines text
    else match getlines text with
         | [] => [String c EmptyString]
         | l :: ls => String c l :: ls
         end
  end.

(** [raw.substr(raw.find_first_not_of(" \t"))], [None] when there is no such character. *)
Fixpoint skip_blank (raw : string) : option string :=
  match raw with
  | EmptyString => None
  | String c s => if decide (c = " "%char ∨ c = tab) then skip_blank s else Some raw
  end.

(** std::isspace in the "C" locale. *)
Definition is_space (c : ascii) : bool :=
  let n := nat_of_ascii c in ((9 <=? n) && (n <=? 13) || (n =? 32))%nat.

Fixpoint skip_space (s : string) : string :=
  match s with
  | String c s' => if is_space c then skip_space s' else s
  | EmptyString => EmptyString
  end.

Fixpoint read_word (s : string) : string * string :=
  match s with
  | EmptyString => (EmptyString, EmptyString)
  | String c s' => if is_space c then (EmptyString, s)
                   else let '(w, r) := read_word s' in (String c w, r)
  end.

(** [iss >> str]: the extracted word (empty when the extraction fails) and what is left. *)
Definition extract (iss : string) : string * string := read_word (skip_space iss).

(** ** Loading *)

Section Config.
Context `{Inet}.

Definition parse_ipv4 (s : string) : Z :=
  match inet_pton (c_str s) with Some addr => addr | None => 0 end.

Definition is_ipv4 (s : string) : bool :=
  match inet_pton (c_str s) with Some _ => true | None => false end.

(** The reading loop; [None] is its [return false]. *)
Fixpoint read_lines (raws : list string) (line_num : Z) : option (list Line) :=
  match raws with
  | [] => Some []
  | raw :: raws =>
    let line_num := line_num + 1 in
    match skip_blank raw with
    | None => read_lines raws line_num
    | Some s =>
      match s with
      | String "#"%char _ => read_lines raws line_num
      | _ =>
        let '(fst, iss) := extract s in
        let '(snd, _) := extract iss in
        if decide (fst = EmptyString ∨ snd = EmptyString) then None
        else ls ← read_lines raws line_num;
             Some ({| num := line_num; first := fst; second := snd |} :: ls)
      end
    end
  end.

(** Pass 1: IP assignments. *)
Fixpoint load_assignments (lines : list Line) (c : Config) : bool * Config :=
  match lines with
  | [] => (true, c)
  | l :: lines =>
    if negb (is_ipv4 (second l)) then load_assignments lines c else
    let ipv4 := parse_ipv4 (second l) in
    if ipv4 =? 0 then (false, c) else
    match ip_to_name_ c !! ipv4 with
    | Some _ => (false, c)
    | None =>
      match name_to_ip_ c !! first l with
      | Some _ => (false, c)
      | None => load_assignments lines (with_assignment (first l) ipv4 c)
      end
    end
  end.

(** Pass 2: ACL rules. *)
Fixpoint load_rules (lines : list Line) (c : Config) : bool * Config :=
  match lines with
  | [] => (true, c)
  | l :: lines =>
    if is_ipv4 (second l) then load_rules lines c else
    match name_to_ip_ c !! first l with
    | None => (false, c)
    | Some src_ip =>
      if String.prefix INTERNET_PREFIX (second l) then
        let inet_ip := parse_ipv4 (internet_target (second l)) in
        if inet_ip =? 0 then (false, c)
        else load_rules lines (with_internet_rule src_ip inet_ip c)
      else
        match name_to_ip_ c !! second l with
        | None => (false, c)
        | Some dst_ip => load_rules lines (with_agent_rule src_ip dst_ip c)
        end
    end
  end.

Definition load (file : option string) (c : Config) : bool * Config :=
  match file with
  | None => (false, c)
  | Some text =>
    let c := Config_empty in
    match read_lines (getlines text) 0 with
    | None => (false, c)
    | Some lines =>
      match load_assignments lines c with
      | (false, c) => (false, c)
      | (true, c) => load_rules lines c
      end
    end
  end.
End Config.

(** ** Lookups *)

Definition find_agent_for_ip (c : Config) (ipv4 : Z) : string :=
  match ip_to_name_ c !! ipv4 with Some n => n | None => EmptyString end.

Definition find_ip_for_agent (c : Config) (name : string) : Z :=
  match name_to_ip_ c !! name with Some a => a | None => 0 end.

Definition agents (c : Config) : gmap string Z := name_to_ip_ c.

Definition can_agents_communicate (c : Config) (src_ipv4 dst_ipv4 : Z) : bool :=
  match agent_acl_ c !! src_ipv4 with
  | None => false
  | Some s => bool_decide (dst_ipv4 ∈ s)
  end.

Definition can_reach_internet_ip (c : Config) (agent_ipv4 internet_ipv4 : Z) : bool :=
  match internet_acl_ c !! agent_ipv4 with
  | None => false
  | Some s => bool_decide (internet_ipv4 ∈ s)
  end.

Definition has_any_internet_access (c : Config) (agent_ipv4 : Z) : bool :=
  match internet_acl_ c !! agent_ipv4 with
  | None => false
  | Some s => negb (bool_decide (s = ∅))
  end.

(** ** Well-formed configurations *)

(** [v] is in the set the ACL map [m] has for [k]. *)
Definition acl_mem (m : gmap Z (gset Z)) (k v : Z) : Prop := ∃ s, m !! k = Some s ∧ v ∈ s.

Definition acl_nonempty (m : gmap Z (gset Z)) : Prop := ∀ k s, m !! k = Some s → s ≠ ∅.

Record config_wf (c : Config) : Prop := {
  wf_inverse : ∀ n a, name_to_ip_ c !! n = Some a ↔ ip_to_name_ c !! a = Some n;
  wf_entry : ∀ n a, name_to_ip_ c !! n = Some a → n ≠ EmptyString ∧ a ≠ 0 ∧ in_width 32 a;
  wf_agent_sym : ∀ a b, acl_mem (agent_acl_ c) a b → acl_mem (agent_acl_ c) b a;
  wf_agent_known : ∀ a b, acl_mem (agent_acl_ c) a b → is_Some (ip_to_name_ c !! a);
  wf_internet : ∀ a x, acl_mem (internet_acl_ c) a x →
    is_Some (ip_to_name_ c !! a) ∧ x ≠ 0 ∧ in_width 32 x;
  wf_agent_nonempty : acl_nonempty (agent_acl_ c);
  wf_internet_nonempty : acl_nonempty (internet_acl_ c)
}.

Lemma acl_insert_mem k v m a b :
  acl_mem (acl_insert k v m) a b ↔ acl_mem m a b ∨ (a = k ∧ b = v).
Proof.
  unfold acl_mem, acl_insert. destruct (decide (a = k)) as [->|Hne].
  - rewrite lookup_insert_eq. split.
    + intros (s & [= <-] & Hb). apply elem_of_union in Hb as [->%elem_of_singleton|Hb]; [by right|].
      destruct (m !! k) as [s|]; cbn in Hb; [left; by exists s|set_solver].
    + intros [(s & -> & Hs)|[_ ->]]; eexists; (split; [reflexivity|]); cbn; set_solver.
  - rewrite lookup_insert_ne by done. naive_solver.
Qed.

Lemma acl_insert_nonempty k v m : acl_nonempty m → acl_nonempty (acl_insert k v m).
Proof.
  intros Hm a s. unfold acl_insert. rewrite lookup_insert. case_decide; [|apply Hm].
  intros [= <-]. set_solver.
Qed.

(** Two ACL maps with the same members and no empty set are the same map. *)
Lemma acl_map_eq m1 m2 :
  acl_nonempty m1 → acl_nonempty m2 →
  (∀ a b, acl_mem m1 a b ↔ acl_mem m2 a b) → m1 = m2.
Proof.
  intros N1 N2 Heq. apply map_eq. intros k.
  assert (∀ m m', acl_nonempty m → (∀ a b, acl_mem m a b ↔ acl_mem m' a b) →
    m !! k ≠ None → m' !! k ≠ None) as Hdom.
  { intros m m' Hn He Hk. destruct (m !! k) as [s|] eqn:E; [|done].
    destruct (set_choose_L s) as [x Hx]; [by eapply Hn|].
    destruct (proj1 (He k x)) as (s' & -> & _); [by exists s|done]. }
  destruct (m1 !! k) as [s1|] eqn:E1; destruct (m2 !! k) as [s2|] eqn:E2; [..|done].
  - f_equal. apply set_eq. intros x. specialize (Heq k x). unfold acl_mem in Heq.
    rewrite E1, E2 in Heq. naive_solver.
  - by destruct (Hdom m1 m2); rewrite ?E1.
  - destruct (Hdom m2 m1); rewrite ?E2; [done| |done..]. intros; by rewrite Heq.
Qed.

Lemma can_agents_communicate_mem c a b :
  can_agents_communicate c a b = true ↔ acl_mem (agent_acl_ c) a b.
Proof.
  unfold can_agents_communicate, acl_mem.
  destruct (agent_acl_ c !! a); [rewrite bool_decide_eq_true|]; naive_solver.
Qed.

Lemma can_reach_internet_ip_mem c a x :
  can_reach_internet_ip c a x = true ↔ acl_mem (internet_acl_ c) a x.
Proof.
  unfold can_reach_internet_ip, acl_mem.
  destruct (internet_acl_ c !! a); [rewrite bool_decide_eq_true|]; naive_solver.
Qed.

Lemma acl_mem_empty a b : ¬ acl_mem ∅ a b.
Proof. intros (s & Hs & _). by rewrite lookup_empty in Hs. Qed.

Lemma Config_empty_wf : config_wf Config_empty.
Proof.
  split; cbn; try (intros; exfalso; eapply acl_mem_empty; eassumption);
    intros ? ?; rewrite ?lookup_empty; done.
Qed.

Lemma with_assignment_wf n a c :
  config_wf c → n ≠ EmptyString → a ≠ 0 → in_width 32 a →
  ip_to_name_ c !! a = None → name_to_ip_ c !! n = None →
  config_wf (with_assignment n a c).
Proof.
  intros [Hinv Hent Hsym Hkn Hint Hn1 Hn2] ? ? ? Ha Hn.
  assert (∀ x, is_Some (ip_to_name_ c !! x) → is_Some (<[a:=n]> (ip_to_name_ c) !! x)) as Hmono.
  { intros x Hx. rewrite lookup_insert. case_decide; [by eexists|done]. }
  split; cbn; [| |done|by eauto|intros x y Hx; destruct (Hint x y Hx) as (?&?&?); eauto|done|done].
  - intros n' a'. rewrite !lookup_insert. specialize (Hinv n' a').
    repeat case_decide; subst; [done|rewrite <-Hinv|rewrite Hinv|done];
      split; congruence.
  - intros n' a'. rewrite lookup_insert. case_decide; [by intros [= <-]; subst|apply Hent].
Qed.

Lemma with_agent_rule_wf a b c :
  config_wf c → is_Some (ip_to_name_ c !! a) → is_Some (ip_to_name_ c !! b) →
  config_wf (with_agent_rule a b c).
Proof.
  intros [Hinv Hent Hsym Hkn Hint Hn1 Hn2] Ha Hb. split; cbn; try done.
  - intros x y. rewrite !acl_insert_mem.
    intros [[Hx|[-> ->]]|[-> ->]]; [left; left; auto|by right|left; by right].
  - intros x y. rewrite !acl_insert_mem. intros [[Hx|[-> ->]]|[-> ->]]; eauto.
  - by apply acl_insert_nonempty, acl_insert_nonempty.
Qed.

Lemma with_internet_rule_wf a x c :
  config_wf c → is_Some (ip_to_name_ c !! a) → x ≠ 0 → in_width 32 x →
  config_wf (with_internet_rule a x c).
Proof.
  intros [Hinv Hent Hsym Hkn Hint Hn1 Hn2] ? ? ?. split; cbn; try done.
  - intros y z. rewrite !acl_insert_mem. intros [Hy|[-> ->]]; [by apply Hint|done].
  - by apply acl_insert_nonempty.
Qed.

(** ** What a successful load says of the file *)

Section Loading.
Context `{Inet}.

Lemma parse_ipv4_width s : in_width 32 (parse_ipv4 s).
Proof.
  unfold parse_ipv4. destruct (inet_pton (c_str s)) eqn:E; [by eapply inet_pton_width|].
  unfold in_width; lia.
Qed.

(** Tokens are never empty. *)
Definition line_ok (l : Line) : Prop := first l ≠ EmptyString ∧ second l ≠ EmptyString.

Lemma read_lines_ok raws k ls : read_lines raws k = Some ls → Forall line_ok ls.
Proof.
  revert k ls. induction raws as [|raw raws IH]; intros k ls; cbn; [by intros [= <-]|].
  destruct (skip_blank raw) as [s|]; [|apply IH].
  assert (∀ p, (let '(fst, iss) := p in let '(snd, _) := extract iss in
    if decide (fst = EmptyString ∨ snd = EmptyString) then None
    else ls ← read_lines raws (k + 1); Some ({| num := k + 1; first := fst; second := snd |} :: ls))
    = Some ls → Forall line_ok ls) as Hgen.
  { intros [w iss]. destruct (extract iss) as [v ?]. case_decide as Hd; [done|].
    destruct (read_lines raws (k + 1)) as [ls'|] eqn:E; cbn; [|done].
    intros [= <-]. constructor; [unfold line_ok; cbn; tauto|by eapply IH]. }
  destruct s as [|[[] [] [] [] [] [] [] []] s]; try apply Hgen; apply IH.
Qed.

Lemma load_assignments_wf ls c ok c' :
  Forall line_ok ls → config_wf c → load_assignments ls c = (ok, c') → config_wf c'.
Proof.
  revert c. induction ls as [|l ls IH]; intros c Hls Hwf; cbn; [by intros [= <- <-]|].
  inversion_clear Hls as [|? ? Hl Hls']. destruct (is_ipv4 (second l)); cbn; [|by apply IH].
  destruct (Z.eqb_spec (parse_ipv4 (second l)) 0); [by intros [= <- <-]|].
  destruct (ip_to_name_ c !! _) eqn:E1; [by intros [= <- <-]|].
  destruct (name_to_ip_ c !! _) eqn:E2; [by intros [= <- <-]|].
  apply IH; [done|]. apply with_assignment_wf; try done; [apply Hl|apply parse_ipv4_width].
Qed.

Lemma load_rules_wf ls c ok c' :
  config_wf c → load_rules ls c = (ok, c') → config_wf c'.
Proof.
  revert c. induction ls as [|l ls IH]; intros c Hwf; cbn; [by intros [= <- <-]|].
  destruct (is_ipv4 (second l)); [by apply IH|].
  destruct (name_to_ip_ c !! first l) as [src|] eqn:Es; [|by intros [= <- <-]].
  assert (is_Some (ip_to_name_ c !! src)) by (eexists; by apply (wf_inverse _ Hwf)).
  destruct (String.prefix _ _).
  - destruct (Z.eqb_spec (parse_ipv4 (internet_target (second l))) 0); [by intros [= <- <-]|].
    apply IH, with_internet_rule_wf; auto. apply parse_ipv4_width.
  - destruct (name_to_ip_ c !! second l) as [dst|] eqn:Ed; [|by intros [= <- <-]].
    apply IH, with_agent_rule_wf; [done..|]. eexists. by apply (wf_inverse _ Hwf).
Qed.

Lemma load_wf file c : config_wf c → config_wf (load file c).2.
Proof.
  intros Hc. destruct file as [text|]; cbn; [|done].
  destruct (read_lines _ _) as [ls|] eqn:Er; cbn; [|apply Config_empty_wf].
  apply read_lines_ok in Er. destruct (load_assignments ls Config_empty) as [ok c1] eqn:E1.
  apply load_assignments_wf in E1; [|done|apply Config_empty_wf].
  destruct ok; [|done]. destruct (load_rules ls c1) as [ok c2] eqn:E2.
  by eapply load_rules_wf.
Qed.
End Loading.

(** ** The file as a list of entries

    An entry is the pair of tokens of a line; comments, blank lines and line
    numbers are gone.  Validity and meaning of a file are stated on entries,
    with no reference to the two passes. *)

Definition tokens (l : Line) : string * string := (first l, second l).

Section Entries.
Context `{Inet}.
Implicit Types (es : list (string * string)) (ps : list (string * Z)).

Definition assignments es : list (string * Z) :=
  (λ e, (e.1, parse_ipv4 e.2)) <$> filter (λ e, is_ipv4 e.2 = true) es.

(** The entry [n m] is an agent-to-agent rule, or an internet rule for [x]. *)
Definition agent_rule (e : string * string) (n m : string) : Prop :=
  is_ipv4 e.2 = false ∧ String.prefix INTERNET_PREFIX e.2 = false ∧ e = (n, m).
Definition internet_rule (e : string * string) (n : string) (x : Z) : Prop :=
  is_ipv4 e.2 = false ∧ String.prefix INTERNET_PREFIX e.2 = true ∧
  e.1 = n ∧ parse_ipv4 (internet_target e.2) = x.

(** A rule entry names known agents only, and a valid internet address. *)
Definition rule_ok (known : string → Prop) (e : string * string) : Prop :=
  is_ipv4 e.2 = false →
  known e.1 ∧
  if String.prefix INTERNET_PREFIX e.2 then parse_ipv4 (internet_target e.2) ≠ 0
  else known e.2.

Record entries_valid es : Prop := {
  ev_nonzero : Forall (λ p, p.2 ≠ 0) (assignments es);
  ev_names : NoDup (assignments es).*1;
  ev_ips : NoDup (assignments es).*2;
  ev_rules : Forall (rule_ok (λ n, n ∈ (assignments es).*1)) es
}.

(** *** Pass 1 *)

Definition assign_all ps (c : Config) : Config :=
  foldl (λ c p, with_assignment p.1 p.2 c) c ps.

Definition assignable ps (c : Config) : Prop :=
  Forall (λ p, p.2 ≠ 0 ∧ ip_to_name_ c !! p.2 = None ∧ name_to_ip_ c !! p.1 = None) ps ∧
  NoDup ps.*1 ∧ NoDup ps.*2.

Lemma assignable_cons n a ps c :
  assignable ((n, a) :: ps) c ↔
  a ≠ 0 ∧ ip_to_name_ c !! a = None ∧ name_to_ip_ c !! n = None ∧
  assignable ps (with_assignment n a c).
Proof.
  unfold assignable. cbn. rewrite Forall_cons, !NoDup_cons. cbn. rewrite !Forall_forall.
  split.
  - intros (((?&?&?)&Hps)&(Hn&?)&(Ha&?)). repeat split; try done;
      destruct (Hps x) as (?&?&?); try done;
      rewrite lookup_insert_ne; try done; intros ->.
    + by apply Ha, list_elem_of_fmap_2.
    + by apply Hn, list_elem_of_fmap_2.
  - intros (?&?&?&Hps&?&?).
    assert (∀ x, x ∈ ps → x.1 ≠ n ∧ x.2 ≠ a) as Hne.
    { intros x Hx. destruct (Hps x Hx) as (_&Ha&Hn).
      split; intros Heq; rewrite Heq, lookup_insert_eq in *; done. }
    repeat split; try done.
    + by apply (Hps x).
    + destruct (Hne x); [done|]. destruct (Hps x) as (_&Ha&_); [done|].
      by rewrite lookup_insert_ne in Ha.
    + destruct (Hne x); [done|]. destruct (Hps x) as (_&_&Hn); [done|].
      by rewrite lookup_insert_ne in Hn.
    + intros (x&->&Hx)%list_elem_of_fmap_1. by destruct (Hne x Hx).
    + intros (x&->&Hx)%list_elem_of_fmap_1. by destruct (Hne x Hx).
Qed.

Lemma load_assignments_iff ls c c' :
  load_assignments ls c = (true, c') ↔
  assignable (assignments (tokens <$> ls)) c ∧
  c' = assign_all (assignments (tokens <$> ls)) c.
Proof.
  revert c. induction ls as [|l ls IH]; intros c.
  - cbn. split; [intros [= <-]; repeat constructor|by intros [_ ->]].
  - cbn [load_assignments fmap list_fmap]. unfold assignments. rewrite filter_cons.
    change (tokens l).2 with (second l).
    destruct (is_ipv4 (second l)); cbn [negb]; [|apply IH].
    rewrite decide_True by done. cbn [fmap list_fmap assign_all foldl].
    rewrite assignable_cons. fold (assignments (tokens <$> ls)). cbn.
    destruct (Z.eqb_spec (parse_ipv4 (second l)) 0); [naive_solver|].
    destruct (ip_to_name_ c !! _); [naive_solver|].
    destruct (name_to_ip_ c !! _); [naive_solver|].
    rewrite IH. naive_solver.
Qed.

Lemma assign_all_names ps c n a :
  assignable ps c →
  name_to_ip_ (assign_all ps c) !! n = Some a ↔
  name_to_ip_ c !! n = Some a ∨ (n, a) ∈ ps.
Proof.
  revert c. induction ps as [|[m b] ps IH]; intros c; [set_solver|].
  rewrite assignable_cons. intros (?&?&Hn&Hps).
  change (assign_all ((m, b) :: ps) c) with (assign_all ps (with_assignment m b c)).
  rewrite IH, elem_of_cons by done. cbn. rewrite lookup_insert.
  case_decide; subst; naive_solver.
Qed.

Lemma assign_all_acl ps c :
  agent_acl_ (assign_all ps c) = agent_acl_ c ∧
  internet_acl_ (assign_all ps c) = internet_acl_ c.
Proof. revert c. induction ps as [|p ps IH]; intros c; [done|].
  exact (IH (with_assignment p.1 p.2 c)). Qed.

(** *** Pass 2 *)

Lemma load_rules_ok_iff ls c :
  (load_rules ls c).1 = true ↔
  Forall (rule_ok (λ n, is_Some (name_to_ip_ c !! n))) (tokens <$> ls).
Proof.
  revert c. induction ls as [|l ls IH]; intros c; cbn; [by split; [constructor|]|].
  rewrite Forall_cons. unfold rule_ok at 1. cbn.
  destruct (is_ipv4 (second l)); [rewrite IH; naive_solver|].
  destruct (name_to_ip_ c !! first l) as [x|] eqn:E1; cbn;
    [|split; [done|]; intros [Hk _]; destruct (Hk eq_refl) as [[] _]; done].
  destruct (String.prefix _ _).
  - destruct (Z.eqb_spec (parse_ipv4 (internet_target (second l))) 0); [naive_solver|].
    rewrite IH. naive_solver.
  - destruct (name_to_ip_ c !! second l) as [y|] eqn:E2; [rewrite IH; naive_solver|].
    split; [done|]. intros [Hk _]. by destruct (Hk eq_refl) as [_ []].
Qed.

Lemma load_rules_names ls c ok c' :
  load_rules ls c = (ok, c') →
  name_to_ip_ c' = name_to_ip_ c ∧ ip_to_name_ c' = ip_to_name_ c.
Proof.
  revert c. induction ls as [|l ls IH]; intros c; cbn; [by intros [= _ <-]|].
  repeat case_match; try (by intros [= _ <-]); intros E; by apply IH in E.
Qed.

(** Some entry is a rule between the agents of the addresses [a] and [b]
    (in either order), or an internet rule of the agent of [a] for [x]. *)
Definition agents_allowed es (names : gmap string Z) (a b : Z) : Prop :=
  ∃ e n m, e ∈ es ∧ (agent_rule e n m ∨ agent_rule e m n) ∧
           names !! n = Some a ∧ names !! m = Some b.
Definition internet_allowed es (names : gmap string Z) (a x : Z) : Prop :=
  ∃ e n, e ∈ es ∧ internet_rule e n x ∧ names !! n = Some a.

Lemma agents_allowed_cons e es names a b :
  agents_allowed (e :: es) names a b ↔
  agents_allowed [e] names a b ∨ agents_allowed es names a b.
Proof.
  unfold agents_allowed. split.
  - intros (e'&n&m&[->|?]%elem_of_cons&?); [left; exists e, n, m|right; exists e', n, m];
      rewrite ?elem_of_cons; auto.
  - intros [(e'&n&m&->%list_elem_of_singleton&?)|(e'&n&m&?&?)]; [exists e, n, m|exists e', n, m];
      rewrite elem_of_cons; auto.
Qed.

Lemma internet_allowed_cons e es names a x :
  internet_allowed (e :: es) names a x ↔
  internet_allowed [e] names a x ∨ internet_allowed es names a x.
Proof.
  unfold internet_allowed. split.
  - intros (e'&n&[->|?]%elem_of_cons&?); [left; exists e, n|right; exists e', n];
      rewrite ?elem_of_cons; auto.
  - intros [(e'&n&->%list_elem_of_singleton&?)|(e'&n&?&?)]; [exists e, n|exists e', n];
      rewrite elem_of_cons; auto.
Qed.

Lemma agents_allowed_one e names a b :
  agents_allowed [e] names a b ↔
  is_ipv4 e.2 = false ∧ String.prefix INTERNET_PREFIX e.2 = false ∧
  (names !! e.1 = Some a ∧ names !! e.2 = Some b ∨
   names !! e.1 = Some b ∧ names !! e.2 = Some a).
Proof.
  unfold agents_allowed, agent_rule. destruct e as [u v]; cbn. split.
  - intros (e&n&m&->%list_elem_of_singleton&[(?&?&[= -> ->])|(?&?&[= -> ->])]&?&?); auto.
  - intros (?&?&[[??]|[??]]); exists (u, v); [exists u, v|exists v, u];
      rewrite list_elem_of_singleton; auto 10.
Qed.

Lemma internet_allowed_one e names a x :
  internet_allowed [e] names a x ↔
  is_ipv4 e.2 = false ∧ String.prefix INTERNET_PREFIX e.2 = true ∧
  names !! e.1 = Some a ∧ parse_ipv4 (internet_target e.2) = x.
Proof.
  unfold internet_allowed, internet_rule. split.
  - intros (?&n&->%list_elem_of_singleton&(?&?&<-&?)&?); auto.
  - intros (?&?&?&?). exists e, e.1. rewrite list_elem_of_singleton. auto 10.
Qed.

(** The ACLs after pass 2, for the name table [c] has. *)
Lemma load_rules_agent_acl ls c c' a b :
  load_rules ls c = (true, c') →
  acl_mem (agent_acl_ c') a b ↔
  acl_mem (agent_acl_ c) a b ∨ agents_allowed (tokens <$> ls) (name_to_ip_ c) a b.
Proof.
  revert c. induction ls as [|l ls IH]; intros c.
  { intros [= <-]. split; [by left|]. intros [?|(?&?&?&[]%elem_of_nil&_)]; done. }
  cbn. rewrite agents_allowed_cons, agents_allowed_one. cbn.
  destruct (is_ipv4 (second l)) eqn:Eip.
  { intros E. rewrite (IH c) by done. naive_solver. }
  destruct (name_to_ip_ c !! first l) as [x|] eqn:E1; [|done].
  destruct (String.prefix _ _) eqn:Epre.
  - destruct (Z.eqb_spec (parse_ipv4 (internet_target (second l))) 0); [done|].
    intros E. rewrite IH by done. cbn. naive_solver.
  - destruct (name_to_ip_ c !! second l) as [y|] eqn:E2; [|done].
    intros E. rewrite IH by done. cbn. rewrite !acl_insert_mem. split.
    + intros [[[?|[-> ->]]|[-> ->]]|?]; auto 10.
    + intros [?|[(_&_&[[[= ->] [= ->]]|[[= ->] [= ->]]])|?]]; auto 10.
Qed.

Lemma load_rules_internet_acl ls c c' a x :
  load_rules ls c = (true, c') →
  acl_mem (internet_acl_ c') a x ↔
  acl_mem (internet_acl_ c) a x ∨ internet_allowed (tokens <$> ls) (name_to_ip_ c) a x.
Proof.
  revert c. induction ls as [|l ls IH]; intros c.
  { intros [= <-]. split; [by left|]. intros [?|(?&?&[]%elem_of_nil&_)]; done. }
  cbn. rewrite internet_allowed_cons, internet_allowed_one. cbn.
  destruct (is_ipv4 (second l)) eqn:Eip.
  { intros E. rewrite (IH c) by done. naive_solver. }
  destruct (name_to_ip_ c !! first l) as [y|] eqn:E1; [|done].
  destruct (String.prefix _ _) eqn:Epre.
  - destruct (Z.eqb_spec (parse_ipv4 (internet_target (second l))) 0); [done|].
    intros E. rewrite IH by done. cbn. rewrite acl_insert_mem. split.
    + intros [[?|[-> ->]]|?]; auto 10.
    + intros [?|[(_&_&[= ->]&->)|?]]; auto 10.
  - destruct (name_to_ip_ c !! second l) as [z|] eqn:E2; [|done].
    intros E. rewrite IH by done. cbn. naive_solver.
Qed.
End Entries.

(** ** Correctness of [load] *)

Section LoadSpec.
Context `{Inet}.

(** The entries of a file, [None] when some line has fewer than two tokens. *)
Definition file_entries (text : string) : option (list (string * string)) :=
  (λ ls : list Line, tokens <$> ls) <$> read_lines (getlines text) 0.

(** The tables of [c] are those the entries describe. *)
Record describes (es : list (string * string)) (c : Config) : Prop := {
  ds_names : ∀ n a, name_to_ip_ c !! n = Some a ↔ (n, a) ∈ assignments es;
  ds_agents : ∀ a b, can_agents_communicate c a b = true ↔ agents_allowed es (name_to_ip_ c) a b;
  ds_internet : ∀ a x, can_reach_internet_ip c a x = true ↔
    internet_allowed es (name_to_ip_ c) a x
}.

Lemma assignable_empty ps :
  assignable ps Config_empty ↔ Forall (λ p, p.2 ≠ 0) ps ∧ NoDup ps.*1 ∧ NoDup ps.*2.
Proof.
  unfold assignable. cbn. apply and_iff_compat_r. apply Forall_iff. intros p.
  by rewrite !lookup_empty; split; [intros []|].
Qed.

Lemma assign_all_known ps n :
  assignable ps Config_empty →
  is_Some (name_to_ip_ (assign_all ps Config_empty) !! n) ↔ n ∈ ps.*1.
Proof.
  intros Hps. unfold is_Some. setoid_rewrite (assign_all_names ps Config_empty); [|done..].
  cbn. rewrite list_elem_of_fmap. split.
  - intros (a&[Ha|Ha]); [by rewrite lookup_empty in Ha|]. by exists (n, a).
  - intros ([m a]&->&Hm). exists a. by right.
Qed.

Lemma load_true_iff text c c' :
  load (Some text) c = (true, c') ↔
  ∃ ls, read_lines (getlines text) 0 = Some ls ∧
    assignable (assignments (tokens <$> ls)) Config_empty ∧
    load_rules ls (assign_all (assignments (tokens <$> ls)) Config_empty) = (true, c').
Proof.
  cbn. destruct (read_lines _ _) as [ls|]; [|naive_solver].
  destruct (load_assignments ls Config_empty) as [[] c1] eqn:E.
  - apply load_assignments_iff in E as [? ->]. naive_solver.
  - split; [done|]. intros (?&[= <-]&H1&_).
    by rewrite (proj2 (load_assignments_iff ls Config_empty _) (conj H1 eq_refl)) in E.
Qed.

Lemma load_success text c :
  (load (Some text) c).1 = true ↔ ∃ es, file_entries text = Some es ∧ entries_valid es.
Proof.
  split.
  - destruct (load _ _) as [ok c'] eqn:E; cbn; intros ->.
    apply load_true_iff in E as (ls&Er&Ha&Hr). exists (tokens <$> ls).
    unfold file_entries. rewrite Er. split; [done|].
    pose proof (proj1 (assignable_empty _) Ha) as (?&?&?). split; try done.
    pose proof (load_rules_ok_iff ls (assign_all (assignments (tokens <$> ls)) Config_empty)) as Hf.
    rewrite Hr in Hf. destruct Hf as [Hf _].
    eapply Forall_impl; [exact (Hf eq_refl)|]. cbn. intros e He Hip. specialize (He Hip).
    destruct (String.prefix _ _); by rewrite !assign_all_known in He.
  - intros (es&Hes&[Hz Hn Hi Hr]). unfold file_entries in Hes.
    destruct (read_lines _ _) as [ls|] eqn:Er; [|done]. injection Hes as <-.
    pose proof (proj2 (assignable_empty _) (conj Hz (conj Hn Hi))) as Ha.
    destruct (load_rules ls (assign_all (assignments (tokens <$> ls)) Config_empty))
      as [ok c'] eqn:El.
    assert (ok = true) as ->.
    { change ok with (ok, c').1. rewrite <-El. apply load_rules_ok_iff.
      eapply Forall_impl; [exact Hr|]. intros e He Hip. specialize (He Hip).
      destruct (String.prefix _ _); by rewrite !assign_all_known. }
    by rewrite (proj2 (load_true_iff text c c')) by eauto.
Qed.

Lemma load_describes text c c' :
  load (Some text) c = (true, c') →
  ∃ es, file_entries text = Some es ∧ describes es c'.
Proof.
  intros (ls&Er&Ha&Hr)%load_true_iff. exists (tokens <$> ls).
  unfold file_entries. rewrite Er. split; [done|].
  destruct (load_rules_names _ _ _ _ Hr) as [En _].
  destruct (assign_all_acl (assignments (tokens <$> ls)) Config_empty) as [E1 E2].
  split; rewrite ?En.
  - intros n a. rewrite (assign_all_names _ Config_empty) by done. cbn.
    rewrite lookup_empty. naive_solver.
  - intros a b. rewrite can_agents_communicate_mem, (load_rules_agent_acl _ _ _ _ _ Hr), E1.
    split; [intros [Hx|?]; [by apply acl_mem_empty in Hx|done]|by right].
  - intros a x. rewrite can_reach_internet_ip_mem, (load_rules_internet_acl _ _ _ _ _ Hr), E2.
    split; [intros [Hx|?]; [by apply acl_mem_empty in Hx|done]|by right].
Qed.

(** Two well-formed configurations described by the same file are the same object. *)
Lemma describes_unique es es' c c' :
  config_wf c → config_wf c' → describes es c → describes es' c' →
  (∀ e, e ∈ es ↔ e ∈ es') → c = c'.
Proof.
  intros W W' D D' Hes.
  assert (name_to_ip_ c = name_to_ip_ c') as En.
  { apply map_eq. intros n. apply option_eq. intros a.
    rewrite (ds_names _ _ D), (ds_names _ _ D'). unfold assignments.
    rewrite !list_elem_of_fmap. setoid_rewrite list_elem_of_filter. by setoid_rewrite Hes. }
  assert (ip_to_name_ c = ip_to_name_ c') as Ei.
  { apply map_eq. intros a. apply option_eq. intros n.
    rewrite <-(wf_inverse _ W), <-(wf_inverse _ W'). by rewrite En. }
  assert (agent_acl_ c = agent_acl_ c') as Ea.
  { apply acl_map_eq; [apply W|apply W'|]. intros a b.
    rewrite <-!can_agents_communicate_mem, (ds_agents _ _ D), (ds_agents _ _ D'), En.
    unfold agents_allowed. by setoid_rewrite Hes. }
  assert (internet_acl_ c = internet_acl_ c') as Ex.
  { apply acl_map_eq; [apply W|apply W'|]. intros a b.
    rewrite <-!can_reach_internet_ip_mem, (ds_internet _ _ D), (ds_internet _ _ D'), En.
    unfold internet_allowed. by setoid_rewrite Hes. }
  destruct c, c'; cbn in *; congruence.
Qed.

Lemma entries_valid_perm es es' : es ≡ₚ es' → entries_valid es → entries_valid es'.
Proof.
  intros Hp [Hz Hn Hi Hr].
  assert (assignments es ≡ₚ assignments es') as Ha.
  { unfold assignments. by rewrite Hp. }
  split; [by rewrite <-Ha..|].
  rewrite <-Hp. eapply Forall_impl; [exact Hr|]. cbn. intros e He Hip.
  specialize (He Hip). destruct (String.prefix _ _); by rewrite <-!Ha.
Qed.
End LoadSpec.

(** ** Properties *)

Section Properties.
Context `{Inet}.

(** C26: whatever the file holds, and whether or not it loads, [load] keeps
    the configuration well-formed: the two IP tables are inverse of each
    other, names are not empty, addresses are non-zero 32-bit values, the
    agent ACL is symmetric, both ACLs are about known agents only, and no
    ACL set is empty.  This covers the partly filled object a failed load
    leaves behind. *)
Theorem load_keeps_config_wf (file : option string) (c : Config) :
  config_wf c → config_wf (load file c).2.
Proof. apply load_wf. Qed.

(** C25: [load] returns true exactly for the files in which every line that
    is not blank or a comment has two tokens, no assigned address is zero,
    no name and no address is assigned twice, and every rule names known
    agents only or a valid non-zero internet address. *)
Theorem load_succeeds_iff_valid (text : string) (c : Config) :
  (load (Some text) c).1 = true ↔ ∃ es, file_entries text = Some es ∧ entries_valid es.
Proof. apply load_success. Qed.

(** C17: after a successful load the lookups answer what the file says: an
    agent has the address its assignment line gives; two agents can
    communicate iff some line is a rule between them, in either order; an
    agent can reach an internet address iff it has a rule for it, and has
    internet access iff it has some internet rule. *)
Theorem load_lookups_match_file (text : string) (c c' : Config) :
  load (Some text) c = (true, c') →
  ∃ es, file_entries text = Some es ∧ describes es c' ∧
    (∀ n a, (n, a) ∈ assignments es → find_ip_for_agent c' n = a ∧ find_agent_for_ip c' a = n) ∧
    (∀ a, has_any_internet_access c' a = true ↔
      ∃ x, internet_allowed es (name_to_ip_ c') a x).
Proof.
  intros E. destruct (load_describes _ _ _ E) as (es&Hes&D). exists es. split_and!; [done..| |].
  - pose proof (load_wf (Some text) Config_empty Config_empty_wf) as W.
    assert (load (Some text) Config_empty = (true, c')) as E' by done.
    rewrite E' in W. cbn in W. intros n a Ha%(ds_names _ _ D).
    unfold find_ip_for_agent, find_agent_for_ip. rewrite Ha.
    apply (wf_inverse _ W) in Ha. by rewrite Ha.
  - pose proof (load_wf (Some text) Config_empty Config_empty_wf) as W.
    assert (load (Some text) Config_empty = (true, c')) as E' by done.
    rewrite E' in W. cbn in W. intros a. setoid_rewrite <-(ds_internet _ _ D).
    unfold has_any_internet_access, can_reach_internet_ip.
    destruct (internet_acl_ c' !! a) as [s|] eqn:Ea; [|naive_solver].
    rewrite negb_true_iff, bool_decide_eq_false. setoid_rewrite bool_decide_eq_true.
    split; [apply set_choose_L|intros [x Hx] ->; set_solver].
Qed.

(** C27: the order of the lines does not matter.  Two files with the same
    entries in any order load alike: one succeeds iff the other does, and
    then the two configurations are equal.  In particular rules may come
    before the assignments they refer to. *)
Theorem load_order_independent (t t' : string) (es es' : list (string * string)) (c c' : Config) :
  file_entries t = Some es → file_entries t' = Some es' → es ≡ₚ es' →
  (load (Some t) c).1 = (load (Some t') c').1 ∧
  ((load (Some t) c).1 = true → load (Some t) c = load (Some t') c').
Proof.
  intros Et Et' Hp.
  assert ((load (Some t) c).1 = true ↔ (load (Some t') c').1 = true) as Hiff.
  { rewrite !load_success, Et, Et'. split; intros (?&[= <-]&?); eexists; (split; [done|]);
      by eapply entries_valid_perm. }
  assert ((load (Some t) c).1 = (load (Some t') c').1) as Hok.
  { apply eq_bool_prop_intro. split; intros ?%Is_true_true; apply Is_true_true; tauto. }
  split; [done|]. intros E1. rewrite E1 in Hok.
  pose proof (load_wf (Some t) Config_empty Config_empty_wf) as W1.
  pose proof (load_wf (Some t') Config_empty Config_empty_wf) as W2.
  change (load (Some t) Config_empty) with (load (Some t) c) in W1.
  change (load (Some t') Config_empty) with (load (Some t') c') in W2.
  destruct (load (Some t) c) as [? d] eqn:D1, (load (Some t') c') as [? d'] eqn:D2.
  cbn in E1, Hok, W1, W2. subst. f_equal.
  apply load_describes in D1 as (?&?&?), D2 as (?&?&?). simplify_eq.
  eapply describes_unique; [done..|]. intros e. by rewrite Hp.
Qed.
End Properties.

(** A file with its rule before its assignments, and the same file in order. *)
Definition sample_text : string :=
  "# agents" +:+ String newline ("a  10.0.1.1" +:+ String newline ("g 10.0.0.1" +:+
  String newline ("a g" +:+ String newline "g ::internet:8.8.8.8"))).
Definition sample_text_shuffled : string :=
  "a g" +:+ String newline ("g ::internet:8.8.8.8" +:+ String newline ("a  10.0.1.1" +:+
  String newline ("g 10.0.0.1"))).

Section Witnesses.
#[local] Instance witness_order : HostOrder := LittleEndian.
#[local] Instance witness_inet : Inet := dotted_quad.

Lemma load_keeps_config_wf_witness : config_wf (load (Some sample_text) Config_empty).2.
Proof. apply load_keeps_config_wf, Config_empty_wf. Defined.

Lemma load_lookups_match_file_witness :
  ∃ es, file_entries sample_text = Some es ∧
    describes es (load (Some sample_text) Config_empty).2.
Proof.
  destruct (load_lookups_match_file sample_text Config_empty
              (load (Some sample_text) Config_empty).2) as (es&?&?&_); [|by exists es].
  vm_compute. reflexivity.
Defined.

Lemma load_order_independent_witness :
  load (Some sample_text) Config_empty = load (Some sample_text_shuffled) Config_empty.
Proof.
  eapply (load_order_independent sample_text sample_text_shuffled).
  - vm_compute. reflexivity.
  - vm_compute. reflexivity.
  - apply (Permutation_app_comm [_; _] [_; _]).
  - vm_compute. reflexivity.
Defined.
End Witnesses.
