(* ===== verification/Routing.v ===== *)
(** * The routing table of a switch

    Models src/blackbox/routing_table.cpp and its header: the map from a
    destination address to the file descriptor of the next switch. *)
From stdpp Require Import base list gmap.
From Stdlib Require Import ZArith Lia.
From S2P Require Import Prelude.

#[local] Open Scope Z_scope.

Record RoutingTable : Type := { routes_ : gmap Z Z }.

Definition RoutingTable_empty : RoutingTable := {| routes_ := ∅ |}.

Definition set_route (dest_ipv4 next_switch_fd : Z) (t : RoutingTable) : RoutingTable :=
  {| routes_ := <[dest_ipv4 := next_switch_fd]> (routes_ t) |}.

Definition remove_route (dest_ipv4 : Z) (t : RoutingTable) : RoutingTable :=
  {| routes_ := delete dest_ipv4 (routes_ t) |}.

(** The iterator loop: [its] are the elements still to be visited, in the
    (unspecified) order of the hash table; erasing one leaves the others. *)
Fixpoint erase_routes (its : list (Z * Z)) (switch_fd : Z) (m : gmap Z Z) : gmap Z Z :=
  match its with
  | [] => m
  | (dest, next) :: its =>
    if next =? switch_fd then erase_routes its switch_fd (delete dest m)
    else erase_routes its switch_fd m
  end.

Definition remove_routes_for_switch (switch_fd : Z) (t : RoutingTable) : RoutingTable :=
  {| routes_ := erase_routes (map_to_list (routes_ t)) switch_fd (routes_ t) |}.

Definition lookup_route (t : RoutingTable) (dest_ipv4 : Z) : Z :=
  match routes_ t !! dest_ipv4 with Some fd => fd | None => -1 end.

Definition routes_size (t : RoutingTable) : nat := size (routes_ t).

Definition clear_routes (t : RoutingTable) : RoutingTable := {| routes_ := ∅ |}.

(** ** Lemmas *)

Lemma erase_routes_lookup its fd m k :
  erase_routes its fd m !! k =
  if decide ((k, fd) ∈ its) then None else m !! k.
Proof.
  revert m. induction its as [|[d n] its IH]; intros m; cbn; [done|].
  destruct (Z.eqb_spec n fd) as [->|Hne]; rewrite IH.
  - destruct (decide ((k, fd) ∈ its)), (decide ((k, fd) ∈ (d, fd) :: its)) as [Hin|Hin];
      try done; try set_solver.
    + apply elem_of_cons in Hin as [[= ->]|]; [by rewrite lookup_delete_eq|done].
    + rewrite lookup_delete_ne; [done|]. intros ->. apply Hin. by left.
  - destruct (decide ((k, fd) ∈ its)), (decide ((k, fd) ∈ (d, n) :: its)) as [Hin|Hin];
      try done; [exfalso; apply Hin; by right|].
    apply elem_of_cons in Hin as [[= -> ->]|]; done.
Qed.

(** In whatever order the table is enumerated, the loop erases exactly the
    routes through [fd]. *)
Lemma erase_routes_filter its fd m :
  its ≡ₚ map_to_list m → erase_routes its fd m = filter (λ kv, kv.2 ≠ fd) m.
Proof.
  intros Hp. apply map_eq. intros k. rewrite erase_routes_lookup.
  rewrite map_lookup_filter.
  assert ((k, fd) ∈ its ↔ m !! k = Some fd) as Hin by (rewrite Hp; apply elem_of_map_to_list).
  destruct (decide ((k, fd) ∈ its)) as [Hk|Hk]; rewrite Hin in Hk.
  - rewrite Hk. cbn. by rewrite option_guard_False by (cbn; tauto).
  - destruct (m !! k) as [n|]; cbn; [|done].
    rewrite option_guard_True; [done|]. cbn. congruence.
Qed.

Lemma remove_routes_for_switch_lookup fd t d :
  routes_ (remove_routes_for_switch fd t) !! d =
  if decide (routes_ t !! d = Some fd) then None else routes_ t !! d.
Proof.
  cbn. rewrite erase_routes_lookup.
  apply decide_ext, elem_of_map_to_list.
Qed.
