(* ===== verification/Proto.v ===== *)
(** * The protobuf messages

    The message types of proto/mip.proto and proto/state.proto as records.
    Their serialization is generated code: [Message] has its two operations and
    the documented facts the program relies on, [countable_message] is one
    concrete encoding, used by the concrete runs. *)
From stdpp Require Import base option list gmap strings countable.
From Stdlib Require Import ZArith Lia.
From S2P Require Import Prelude Bytes.

#[local] Open Scope Z_scope.

Record PacketSwitchMIP : Type := mk_PacketSwitchMIP {
  sm_name : string; sm_auth_key : string; sm_network : string; sm_port : Z (* uint32 *)
}.
Record PacketAgentMIP : Type := mk_PacketAgentMIP {
  am_name : string; am_auth_key : string; am_network : string
}.
Record PacketConnectToSwitch : Type := mk_PacketConnectToSwitch {
  cs_switch_name : string; cs_switch_ipv4 : Z (* fixed32 *);
  cs_connection_token : Z (* fixed64 *); cs_switch_port : Z (* uint32 *)
}.
Record PacketAgentConnectionToken : Type := mk_PacketAgentConnectionToken {
  ct_agent_name : string; ct_connection_token : Z (* fixed64 *)
}.
Record PacketAuthConnectToSwitch : Type := mk_PacketAuthConnectToSwitch {
  ac_connection_token : Z (* fixed64 *)
}.
Record PacketConnectionAccepted : Type := mk_PacketConnectionAccepted {}.
Record PacketAgentMRP : Type := mk_PacketAgentMRP { mrp_name : string; mrp_auth_key : string }.

(** The state dump. *)
Module Dump.
Record SwitchState : Type := mk_SwitchState {
  sw_name : string; sw_network : string; sw_ipv4 : string; sw_port : Z; sw_connected_at_ms : Z
}.
Record AgentState : Type := mk_AgentState {
  ag_name : string; ag_assigned_switch : string; ag_connected_at_ms : Z
}.
Record PendingToken : Type := mk_PendingToken {
  pt_agent_name : string; pt_token : Z; pt_switch_name : string; pt_created_at_ms : Z
}.
Record ConductorState : Type := mk_ConductorState {
  dumped_at_ms : Z;
  switches : list SwitchState;
  agents : list AgentState;
  pending_tokens : list PendingToken
}.
End Dump.

(** [default_instance]: the message [Clear] leaves.  [ParseFromArray data size]
    is the message at the bytes [data] when the call returns true. *)
Class Message (T : Type) : Type := {
  default_instance : T;
  SerializeToString : T → option (list byte);
  ParseFromArray : list byte → Z → option T;
  parse_serialize m bs :
    SerializeToString m = Some bs → ParseFromArray bs (Z.of_nat (length bs)) = Some m;
  parse_empty : ParseFromArray [] 0 = Some default_instance;
  (** A serialized message is smaller than 2 GiB. *)
  serialize_size m bs : SerializeToString m = Some bs → Z.of_nat (length bs) < 2 ^ 31
}.

Lemma serialize_empty `{Message T} m : SerializeToString m = Some [] → m = default_instance.
Proof. intros E%parse_serialize. cbn in E. rewrite parse_empty in E. by injection E. Qed.

(** ** A concrete encoding

    The default message is the empty string, another one the bits of its code
    as a positive, one per byte. *)
Fixpoint bits (p : positive) : list byte :=
  match p with
  | xH => [x02]
  | xO p => x00 :: bits p
  | xI p => x01 :: bits p
  end.
Fixpoint of_bits (bs : list byte) : option positive :=
  match bs with
  | [x02] => Some xH
  | x00 :: bs => xO <$> of_bits bs
  | x01 :: bs => xI <$> of_bits bs
  | _ => None
  end.

Lemma of_bits_bits p : of_bits (bits p) = Some p.
Proof. induction p as [p IH|p IH|]; cbn; [by rewrite IH..|done]. Qed.

Section CountableMessage.
Context `{Countable T} (d : T).

#[refine] Definition countable_message : Message T := {|
  default_instance := d;
  SerializeToString m :=
    let bs := if decide (m = d) then [] else bits (encode m) in
    if decide (Z.of_nat (length bs) < 2 ^ 31) then Some bs else None;
  ParseFromArray bs n :=
    match take (Z.to_nat n) bs with [] => Some d | bs => p ← of_bits bs; decode p end
|}.
Proof.
  - intros m bs. cbv zeta. destruct (decide (Z.of_nat _ < _)) as [Hlt|]; [|done]. intros [= <-].
    rewrite Nat2Z.id, firstn_all. destruct (decide (m = d)) as [->|Hm]; [done|].
    assert (∀ p, ∃ b l, bits p = b :: l) as Hne by by intros []; cbn; eauto.
    destruct (Hne (encode m)) as (b&l&E). rewrite E, <-E, of_bits_bits. cbn. apply decode_encode.
  - done.
  - intros m bs. cbv zeta. destruct (decide (Z.of_nat _ < _)) as [Hlt|]; [|done]. by intros [= <-].
Defined.
End CountableMessage.

#[export] Instance PacketAuthConnectToSwitch_eq_dec : EqDecision PacketAuthConnectToSwitch.
Proof. solve_decision. Defined.
#[export] Instance PacketAuthConnectToSwitch_countable : Countable PacketAuthConnectToSwitch :=
  inj_countable' ac_connection_token mk_PacketAuthConnectToSwitch (λ '(mk_PacketAuthConnectToSwitch _), eq_refl).
#[export] Instance PacketAgentConnectionToken_eq_dec : EqDecision PacketAgentConnectionToken.
Proof. solve_decision. Defined.
#[export] Instance PacketAgentConnectionToken_countable : Countable PacketAgentConnectionToken :=
  inj_countable' (λ m, (ct_agent_name m, ct_connection_token m))
    (λ '(a, t), mk_PacketAgentConnectionToken a t) (λ '(mk_PacketAgentConnectionToken _ _), eq_refl).
#[export] Instance PacketConnectionAccepted_eq_dec : EqDecision PacketConnectionAccepted.
Proof. solve_decision. Defined.
#[export] Instance PacketConnectionAccepted_countable : Countable PacketConnectionAccepted :=
  inj_countable' (λ _, tt) (λ _, mk_PacketConnectionAccepted) (λ '(mk_PacketConnectionAccepted), eq_refl).
#[export] Instance PacketConnectToSwitch_eq_dec : EqDecision PacketConnectToSwitch.
Proof. solve_decision. Defined.
#[export] Instance PacketConnectToSwitch_countable : Countable PacketConnectToSwitch :=
  inj_countable' (λ m, (cs_switch_name m, cs_switch_ipv4 m, cs_connection_token m, cs_switch_port m))
    (λ '(n, i, t, p), mk_PacketConnectToSwitch n i t p) (λ '(mk_PacketConnectToSwitch _ _ _ _), eq_refl).
#[export] Instance PacketSwitchMIP_eq_dec : EqDecision PacketSwitchMIP.
Proof. solve_decision. Defined.
#[export] Instance PacketSwitchMIP_countable : Countable PacketSwitchMIP :=
  inj_countable' (λ m, (sm_name m, sm_auth_key m, sm_network m, sm_port m))
    (λ '(n, a, k, p), mk_PacketSwitchMIP n a k p) (λ '(mk_PacketSwitchMIP _ _ _ _), eq_refl).
#[export] Instance PacketAgentMIP_eq_dec : EqDecision PacketAgentMIP.
Proof. solve_decision. Defined.
#[export] Instance PacketAgentMIP_countable : Countable PacketAgentMIP :=
  inj_countable' (λ m, (am_name m, am_auth_key m, am_network m))
    (λ '(n, a, k), mk_PacketAgentMIP n a k) (λ '(mk_PacketAgentMIP _ _ _), eq_refl).
#[export] Instance PacketAgentMRP_eq_dec : EqDecision PacketAgentMRP.
Proof. solve_decision. Defined.
#[export] Instance PacketAgentMRP_countable : Countable PacketAgentMRP :=
  inj_countable' (λ m, (mrp_name m, mrp_auth_key m))
    (λ '(n, a), mk_PacketAgentMRP n a) (λ '(mk_PacketAgentMRP _ _), eq_refl).

(** The concrete encoding of every message, for the concrete runs. *)
Definition switch_mip_codec : Message PacketSwitchMIP := countable_message (mk_PacketSwitchMIP "" "" "" 0).
Definition agent_mip_codec : Message PacketAgentMIP := countable_message (mk_PacketAgentMIP "" "" "").
Definition connect_to_switch_codec : Message PacketConnectToSwitch :=
  countable_message (mk_PacketConnectToSwitch "" 0 0 0).
Definition agent_connection_token_codec : Message PacketAgentConnectionToken :=
  countable_message (mk_PacketAgentConnectionToken "" 0).
Definition auth_connect_to_switch_codec : Message PacketAuthConnectToSwitch :=
  countable_message (mk_PacketAuthConnectToSwitch 0).
Definition connection_accepted_codec : Message PacketConnectionAccepted :=
  countable_message mk_PacketConnectionAccepted.
Definition agent_mrp_codec : Message PacketAgentMRP := countable_message (mk_PacketAgentMRP "" "").
