(* ===== verification/Registry.v ===== *)
(** * The agent registry of a switch

    Models src/blackbox/agent_registry.cpp and its header: the entries a switch
    owns, on a heap, and the three indices of pointers to them.  The operations
    run in [M AgentRegistry]; following a pointer to a freed entry is
    [Undef UseAfterFree]. *)
From stdpp Require Import base list gmap strings.
From Stdlib Require Import ZArith Lia.
From S2P Require Import Prelude.

#[local] Open Scope Z_scope.

Record AgentEntry : Type := {
  name : string;
  virtual_ipv4 : Z;   (* network order *)
  fd : Z
}.

Record AgentRegistry : Type := {
  entries : gmap loc AgentEntry;   (* the live AgentEntry objects *)
  by_ipv4_ : gmap Z loc;
  by_fd_ : gmap Z loc;
  by_name_ : gmap string loc
}.

Definition AgentRegistry_empty : AgentRegistry :=
  {| entries := ∅; by_ipv4_ := ∅; by_fd_ := ∅; by_name_ := ∅ |}.

(** [*p] for a pointer to an entry. *)
Definition deref (p : loc) : M AgentRegistry AgentEntry := λ r,
  match entries r !! p with Some e => Ret (e, r) | None => Undef UseAfterFree end.

(** The three [erase] calls and [delete entry] of [remove_entry]. *)
Definition erase_entry (p : loc) (e : AgentEntry) (r : AgentRegistry) : AgentRegistry :=
  {| entries := delete p (entries r);
     by_ipv4_ := delete (virtual_ipv4 e) (by_ipv4_ r);
     by_fd_ := delete (fd e) (by_fd_ r);
     by_name_ := delete (name e) (by_name_ r) |}.

(** The new entry, stored under its three keys. *)
Definition store_entry (p : loc) (e : AgentEntry) (r : AgentRegistry) : AgentRegistry :=
  {| entries := <[p := e]> (entries r);
     by_ipv4_ := <[virtual_ipv4 e := p]> (by_ipv4_ r);
     by_fd_ := <[fd e := p]> (by_fd_ r);
     by_name_ := <[name e := p]> (by_name_ r) |}.

Definition remove_entry (entry : option loc) : M AgentRegistry () :=
  match entry with
  | None => mret ()
  | Some p => e ← deref p; modify (erase_entry p e)
  end.

Definition find_by_ipv4 (r : AgentRegistry) (ipv4 : Z) : option loc := by_ipv4_ r !! ipv4.
Definition find_by_fd (r : AgentRegistry) (fd : Z) : option loc := by_fd_ r !! fd.
Definition find_by_name (r : AgentRegistry) (name : string) : option loc := by_name_ r !! name.
Definition registry_size (r : AgentRegistry) : nat := size (by_name_ r).

Definition unregister_by_fd (fd : Z) : M AgentRegistry () :=
  r ← get_st;
  match find_by_fd r fd with None => mret () | Some p => remove_entry (Some p) end.

Definition unregister_by_name (name : string) : M AgentRegistry () :=
  r ← get_st;
  match find_by_name r name with None => mret () | Some p => remove_entry (Some p) end.

(** [delete] of every entry of [by_name_], then the three [clear]s. *)
Fixpoint delete_all (its : list (string * loc)) : M AgentRegistry () :=
  match its with
  | [] => mret ()
  | (_, p) :: its =>
    deref p;;
    modify (λ r, {| entries := delete p (entries r); by_ipv4_ := by_ipv4_ r;
                    by_fd_ := by_fd_ r; by_name_ := by_name_ r |});;
    delete_all its
  end.

Definition AgentRegistry_destroy : M AgentRegistry () :=
  r ← get_st;
  delete_all (map_to_list (by_name_ r));;
  modify (λ r, {| entries := entries r; by_ipv4_ := ∅; by_fd_ := ∅; by_name_ := ∅ |}).

Section Register.
Context `{Malloc}.

Definition register_agent (name : string) (virtual_ipv4 fd : Z)
    : M AgentRegistry (option loc) :=
  r ← get_st;
  match find_by_name r name with
  | Some p => remove_entry (Some p)
  | None => mret ()
  end;;
  r ← get_st;
  match malloc (entries r) with
  | None => mret None
  | Some p =>
    modify (store_entry p {| name := name; virtual_ipv4 := virtual_ipv4; fd := fd |});;
    mret (Some p)
  end.
End Register.

Arguments find_by_ipv4 : simpl never.
Arguments find_by_fd : simpl never.
Arguments find_by_name : simpl never.

(** ** Invariants *)

(** No index holds a dangling pointer or a pointer under a wrong key, and
    [by_name_] indexes every live entry, so none is leaked. *)
Record registry_wf (r : AgentRegistry) : Prop := {
  rw_ipv4 : ∀ a p, by_ipv4_ r !! a = Some p → ∃ e, entries r !! p = Some e ∧ virtual_ipv4 e = a;
  rw_fd : ∀ f p, by_fd_ r !! f = Some p → ∃ e, entries r !! p = Some e ∧ fd e = f;
  rw_name : ∀ n p, by_name_ r !! n = Some p ↔ ∃ e, entries r !! p = Some e ∧ name e = n
}.

(** The other two indices are complete as well. *)
Definition registry_complete (r : AgentRegistry) : Prop :=
  ∀ p e, entries r !! p = Some e → by_ipv4_ r !! virtual_ipv4 e = Some p ∧ by_fd_ r !! fd e = Some p.

(** The address index alone is complete. *)
Definition ipv4_complete (r : AgentRegistry) : Prop :=
  ∀ p e, entries r !! p = Some e → by_ipv4_ r !! virtual_ipv4 e = Some p.

(** The agent registered under a name. *)
Definition agent (r : AgentRegistry) (n : string) : option AgentEntry :=
  p ← by_name_ r !! n; entries r !! p.

Lemma AgentRegistry_empty_wf : registry_wf AgentRegistry_empty.
Proof.
  split; cbn; [intros ? ?; by rewrite lookup_empty..|].
  intros n p. rewrite !lookup_empty. split; [done|by intros (?&?&?)].
Qed.

Lemma AgentRegistry_empty_complete : registry_complete AgentRegistry_empty.
Proof. intros p e. cbn. by rewrite lookup_empty. Qed.

Lemma agent_Some r n e :
  registry_wf r → agent r n = Some e ↔ ∃ p, entries r !! p = Some e ∧ name e = n.
Proof.
  intros W. unfold agent. split.
  - intros (p&Hp&He)%bind_Some. exists p. split; [done|].
    apply (rw_name _ W) in Hp as (e'&?&?). congruence.
  - intros (p&He&Hn). apply bind_Some. exists p. split; [|done]. apply (rw_name _ W). eauto.
Qed.

(** Distinct live entries have distinct names. *)
Lemma names_injective r p q e e' :
  registry_wf r → entries r !! p = Some e → entries r !! q = Some e' → name e = name e' → p = q.
Proof.
  intros W He He' Hn.
  assert (by_name_ r !! name e = Some p) by (apply (rw_name _ W); eauto).
  assert (by_name_ r !! name e = Some q) by (apply (rw_name _ W); rewrite Hn; eauto).
  congruence.
Qed.

Lemma erase_entry_wf r p e :
  registry_wf r → entries r !! p = Some e → registry_wf (erase_entry p e r).
Proof.
  intros W He. split; cbn.
  - intros a q [? Hq]%lookup_delete_Some. apply (rw_ipv4 _ W) in Hq as (e'&Hq&?). exists e'.
    rewrite lookup_delete_ne; [done|]. intros ->. congruence.
  - intros f q [? Hq]%lookup_delete_Some. apply (rw_fd _ W) in Hq as (e'&Hq&?). exists e'.
    rewrite lookup_delete_ne; [done|]. intros ->. congruence.
  - intros n q. rewrite lookup_delete_Some, (rw_name _ W). setoid_rewrite lookup_delete_Some.
    split.
    + intros (Hn&e'&?&?). exists e'. split; [|done]. split; [|done]. intros ->. congruence.
    + intros (e'&[? ?]&<-). split; [|by eauto]. intros Hn. by eapply names_injective in Hn.
Qed.

Lemma erase_entry_complete r p e :
  registry_wf r → registry_complete r → entries r !! p = Some e →
  registry_complete (erase_entry p e r).
Proof.
  intros W C He q e'. cbn. intros [? Hq]%lookup_delete_Some.
  destruct (C q e' Hq) as [Hi Hf], (C p e He) as [Hi' Hf'].
  rewrite !lookup_delete_ne; [done|..]; intros Heq; congruence.
Qed.

Lemma erase_entry_ipv4_complete r p e :
  ipv4_complete r → entries r !! p = Some e → ipv4_complete (erase_entry p e r).
Proof.
  intros C He q e'. cbn. intros [? Hq]%lookup_delete_Some.
  rewrite lookup_delete_ne; [by apply C|]. intros Heq.
  apply C in Hq, He. congruence.
Qed.

Lemma store_entry_wf r p e :
  registry_wf r → entries r !! p = None → by_name_ r !! name e = None →
  registry_wf (store_entry p e r).
Proof.
  intros W Hp Hn.
  assert (∀ q e', entries r !! q = Some e' → <[p:=e]> (entries r) !! q = Some e') as Hk.
  { intros q e' Hq. rewrite lookup_insert_ne; [done|]. intros ->. congruence. }
  split; cbn.
  - intros a q. rewrite lookup_insert. case_decide.
    + intros [= <-]. exists e. by rewrite lookup_insert_eq.
    + intros (e'&?&?)%(rw_ipv4 _ W). eauto.
  - intros f q. rewrite lookup_insert. case_decide.
    + intros [= <-]. exists e. by rewrite lookup_insert_eq.
    + intros (e'&?&?)%(rw_fd _ W). eauto.
  - intros n q. rewrite lookup_insert. case_decide as Heq.
    + subst. split.
      * intros [= <-]. exists e. by rewrite lookup_insert_eq.
      * intros (e'&He'&Hn'). destruct (decide (p = q)) as [|]; [by subst|].
        rewrite lookup_insert_ne in He' by done.
        assert (by_name_ r !! name e = Some q) by (apply (rw_name _ W); eauto). congruence.
    + rewrite (rw_name _ W). split.
      * intros (e'&?&?). eauto.
      * intros (e'&He'&Hn'). rewrite lookup_insert in He'. case_decide; [congruence|eauto].
Qed.

Lemma store_entry_complete r p e :
  registry_complete r → registry_wf r →
  by_ipv4_ r !! virtual_ipv4 e = None → by_fd_ r !! fd e = None →
  registry_complete (store_entry p e r).
Proof.
  intros C W Hi Hf q e'. cbn. rewrite (lookup_insert (entries r)). case_decide.
  - intros [= <-]. by rewrite !lookup_insert_eq; subst.
  - intros Hq. destruct (C q e' Hq). rewrite !lookup_insert_ne; [done|..]; congruence.
Qed.

(** ** What each operation does *)

Lemma agent_erase r p e n :
  registry_wf r → entries r !! p = Some e →
  agent (erase_entry p e r) n = if decide (n = name e) then None else agent r n.
Proof.
  intros W He. unfold agent, erase_entry; cbn. rewrite lookup_delete.
  destruct (decide (name e = n)) as [->|Hne]; [by rewrite decide_True|].
  rewrite (decide_False (P := n = name e)) by congruence.
  destruct (by_name_ r !! n) as [q|] eqn:Hq; cbn; [|done].
  rewrite lookup_delete_ne; [done|]. intros ->.
  apply (rw_name _ W) in Hq as (e'&?&?). congruence.
Qed.

Lemma agent_store r p e n :
  registry_wf r → entries r !! p = None →
  agent (store_entry p e r) n = if decide (n = name e) then Some e else agent r n.
Proof.
  intros W Hp. unfold agent, store_entry; cbn. rewrite lookup_insert.
  destruct (decide (name e = n)) as [->|Hne].
  - rewrite decide_True by done. cbn. by rewrite lookup_insert_eq.
  - rewrite (decide_False (P := n = name e)) by congruence.
    destruct (by_name_ r !! n) as [q|] eqn:Hq; cbn; [|done].
    rewrite lookup_insert_ne; [done|]. intros ->.
    apply (rw_name _ W) in Hq as (e'&?&?). congruence.
Qed.

Lemma remove_entry_run r p e :
  entries r !! p = Some e → remove_entry (Some p) r = Ret ((), erase_entry p e r).
Proof. intros He. unfold remove_entry. run. unfold deref. by rewrite He. Qed.

(** Both [unregister] operations: nothing when the key is unknown, else the
    entry found under it is erased. *)
Lemma unregister_by_fd_run r f :
  registry_wf r →
  unregister_by_fd f r =
    match p ← by_fd_ r !! f; e ← entries r !! p; Some (p, e) with
    | Some (p, e) => Ret ((), erase_entry p e r)
    | None => Ret ((), r)
    end.
Proof.
  intros W. unfold unregister_by_fd, find_by_fd. run.
  destruct (by_fd_ r !! f) as [p|] eqn:Hp; cbn; [|done].
  apply (rw_fd _ W) in Hp as (e&He&_). rewrite He. cbn.
  exact (remove_entry_run r p e He).
Qed.

Lemma unregister_by_name_run r n :
  registry_wf r →
  unregister_by_name n r =
    match p ← by_name_ r !! n; e ← entries r !! p; Some (p, e) with
    | Some (p, e) => Ret ((), erase_entry p e r)
    | None => Ret ((), r)
    end.
Proof.
  intros W. unfold unregister_by_name, find_by_name. run.
  destruct (by_name_ r !! n) as [p|] eqn:Hp; cbn; [|done].
  apply (rw_name _ W) in Hp as (e&He&_). rewrite He. cbn.
  exact (remove_entry_run r p e He).
Qed.

(** The registry after the old entry of a name, if any, was removed. *)
Definition without_name (n : string) (r : AgentRegistry) : AgentRegistry :=
  match p ← by_name_ r !! n; e ← entries r !! p; Some (p, e) with
  | Some (p, e) => erase_entry p e r
  | None => r
  end.

Lemma without_name_wf n r : registry_wf r → registry_wf (without_name n r).
Proof.
  intros W. unfold without_name. destruct (by_name_ r !! n) as [p|]; cbn; [|done].
  destruct (entries r !! p) eqn:He; cbn; [|done]. by apply erase_entry_wf.
Qed.

Lemma without_name_complete n r :
  registry_wf r → registry_complete r → registry_complete (without_name n r).
Proof.
  intros W C. unfold without_name. destruct (by_name_ r !! n) as [p|]; cbn; [|done].
  destruct (entries r !! p) eqn:He; cbn; [|done]. by apply erase_entry_complete.
Qed.

Lemma without_name_ipv4_complete n r : ipv4_complete r → ipv4_complete (without_name n r).
Proof.
  intros C. unfold without_name. destruct (by_name_ r !! n) as [p|]; cbn; [|done].
  destruct (entries r !! p) eqn:He; cbn; [|done]. by apply erase_entry_ipv4_complete.
Qed.

Lemma without_name_agent n r m :
  registry_wf r → agent (without_name n r) m = if decide (m = n) then None else agent r m.
Proof.
  intros W. unfold without_name. destruct (by_name_ r !! n) as [p|] eqn:Hp; cbn.
  - apply (rw_name _ W) in Hp as (e&He&<-). rewrite He. cbn. by apply agent_erase.
  - case_decide as Hd; [|done]. subst. unfold agent. by rewrite Hp.
Qed.

Lemma without_name_free n r : registry_wf r → by_name_ (without_name n r) !! n = None.
Proof.
  intros W. unfold without_name. destruct (by_name_ r !! n) as [p|] eqn:Hp; cbn; [|done].
  apply (rw_name _ W) in Hp as (e&He&<-). rewrite He. cbn. apply lookup_delete_eq.
Qed.

Lemma without_name_entries n r q e :
  registry_wf r → entries (without_name n r) !! q = Some e → entries r !! q = Some e ∧ name e ≠ n.
Proof.
  intros W Hq. assert (entries r !! q = Some e) as Hq'.
  { revert Hq. unfold without_name. destruct (by_name_ r !! n) as [p|]; cbn; [|done].
    destruct (entries r !! p); cbn; [|done]. by intros [_ ?]%lookup_delete_Some. }
  split; [done|]. intros Hn.
  assert (by_name_ (without_name n r) !! n = Some q) as Hb.
  { apply (rw_name _ (without_name_wf n r W)). eauto. }
  by rewrite without_name_free in Hb.
Qed.

Section RegisterFacts.
Context `{Malloc}.

Lemma register_agent_run r n a f :
  registry_wf r →
  register_agent n a f r =
    match malloc (entries (without_name n r)) with
    | None => Ret (None, without_name n r)
    | Some p =>
      Ret (Some p, store_entry p {| name := n; virtual_ipv4 := a; fd := f |} (without_name n r))
    end.
Proof.
  intros W. unfold register_agent, find_by_name, without_name. run.
  destruct (by_name_ r !! n) as [p|] eqn:Hp; cbn.
  - apply (rw_name _ W) in Hp as (e&He&_). rewrite He. cbn.
    change ((deref p ≫= λ e0, modify (erase_entry p e0)) r) with (remove_entry (Some p) r).
    rewrite (remove_entry_run r p e He). cbn. by case_match.
  - by case_match.
Qed.

(** A successful registration: the entry is found under its three keys, and
    the agents are the old ones with this one added or replaced. *)
Lemma register_agent_ok r n a f p r' :
  registry_wf r → register_agent n a f r = Ret (Some p, r') →
  let e := {| name := n; virtual_ipv4 := a; fd := f |} in
  registry_wf r' ∧ entries r' !! p = Some e ∧
  find_by_ipv4 r' a = Some p ∧ find_by_fd r' f = Some p ∧ find_by_name r' n = Some p ∧
  ∀ m, agent r' m = if decide (m = n) then Some e else agent r m.
Proof.
  intros W E e. rewrite register_agent_run in E by done.
  destruct (malloc _) as [q|] eqn:Em; simplify_eq. apply malloc_fresh in Em.
  pose proof (without_name_wf n r W) as W'. split_and!.
  - apply store_entry_wf; [done..|]. by apply without_name_free.
  - cbn. by rewrite lookup_insert_eq.
  - unfold find_by_ipv4; cbn. by rewrite lookup_insert_eq.
  - unfold find_by_fd; cbn. by rewrite lookup_insert_eq.
  - unfold find_by_name; cbn. by rewrite lookup_insert_eq.
  - intros m. rewrite agent_store by done. cbn. case_decide; [done|].
    rewrite without_name_agent by done. by rewrite decide_False.
Qed.

Lemma register_agent_complete r n a f p r' :
  registry_wf r → registry_complete r →
  (∀ m e, agent r m = Some e → m ≠ n → virtual_ipv4 e ≠ a ∧ fd e ≠ f) →
  register_agent n a f r = Ret (Some p, r') → registry_complete r'.
Proof.
  intros W C Hfree E. rewrite register_agent_run in E by done.
  destruct (malloc _) as [q|] eqn:Em; simplify_eq. apply malloc_fresh in Em.
  pose proof (without_name_wf n r W) as W'.
  assert (∀ x e, entries (without_name n r) !! x = Some e → virtual_ipv4 e ≠ a ∧ fd e ≠ f) as Hne.
  { intros x e He. apply without_name_entries in He as [He Hn]; [|done].
    apply (Hfree (name e)); [|done]. apply agent_Some; eauto. }
  apply store_entry_complete; [by apply without_name_complete|done|..].
  - destruct (by_ipv4_ _ !! _) as [x|] eqn:Ex; [|done].
    apply (rw_ipv4 _ W') in Ex as (e&He&Ha). by destruct (Hne _ _ He).
  - destruct (by_fd_ _ !! _) as [x|] eqn:Ex; [|done].
    apply (rw_fd _ W') in Ex as (e&He&Ha). by destruct (Hne _ _ He).
Qed.
End RegisterFacts.

(** ** Sequences of calls *)

Inductive registry_call : Type :=
  | Register (n : string) (a f : Z)
  | UnregisterFd (f : Z)
  | UnregisterName (n : string).

Section Calls.
Context `{Malloc}.

Definition run_call (c : registry_call) : M AgentRegistry () :=
  match c with
  | Register n a f => register_agent n a f;; mret ()
  | UnregisterFd f => unregister_by_fd f
  | UnregisterName n => unregister_by_name n
  end.

Fixpoint run_calls (cs : list registry_call) : M AgentRegistry () :=
  match cs with
  | [] => mret ()
  | c :: cs => run_call c;; run_calls cs
  end.

Lemma run_call_wf c r :
  registry_wf r → ∃ r', run_call c r = Ret ((), r') ∧ registry_wf r'.
Proof.
  intros W. destruct c as [n a f|f|n]; cbn.
  - destruct (register_agent n a f r) as [[[p|] r']| | |] eqn:E;
      pose proof E as E'; rewrite register_agent_run in E' by done;
      destruct (malloc _); simplify_eq; run; rewrite E; eexists; (split; [done|]).
    + by eapply register_agent_ok.
    + by apply without_name_wf.
  - rewrite unregister_by_fd_run by done. destruct (by_fd_ r !! f) as [p|]; cbn; [|by eauto].
    destruct (entries r !! p) eqn:He; cbn; [|by eauto].
    eexists; split; [done|]. by apply erase_entry_wf.
  - rewrite unregister_by_name_run by done. destruct (by_name_ r !! n) as [p|]; cbn; [|by eauto].
    destruct (entries r !! p) eqn:He; cbn; [|by eauto].
    eexists; split; [done|]. by apply erase_entry_wf.
Qed.

Lemma run_calls_wf cs r :
  registry_wf r → ∃ r', run_calls cs r = Ret ((), r') ∧ registry_wf r'.
Proof.
  revert r. induction cs as [|c cs IH]; intros r W; cbn; [by exists r|].
  destruct (run_call_wf c r W) as (r1&E1&W1). destruct (IH r1 W1) as (r2&E2&W2).
  exists r2. run. by rewrite E1.
Qed.
End Calls.

(** The destructor frees entries one by one: each pointer of the list must be
    live and occur once. *)
Lemma delete_all_run its r :
  NoDup its.*2 → (∀ n p, (n, p) ∈ its → is_Some (entries r !! p)) →
  delete_all its r = Ret ((), {| entries := foldr delete (entries r) its.*2;
    by_ipv4_ := by_ipv4_ r; by_fd_ := by_fd_ r; by_name_ := by_name_ r |}).
Proof.
  revert r. induction its as [|[n p] its IH]; intros r Hnd Hlive; cbn; [by destruct r|].
  inversion_clear Hnd as [|? ? Hp Hnd']. run. unfold deref.
  destruct (Hlive n p) as [e ->]; [by left|]. rewrite IH; cbn.
  - do 3 f_equal. clear -Hp. induction its as [|[m q] its IH]; cbn; [done|].
    cbn in Hp. apply not_elem_of_cons in Hp as [? ?]. by rewrite IH, delete_delete.
  - done.
  - intros m q Hq. rewrite lookup_delete_ne; [apply (Hlive m q); by right|].
    intros ->. apply Hp. apply list_elem_of_fmap. by exists (m, q).
Qed.

Lemma destroy_run r :
  registry_wf r → AgentRegistry_destroy r = Ret ((), AgentRegistry_empty).
Proof.
  intros W. unfold AgentRegistry_destroy. run. rewrite delete_all_run; cbn.
  - do 2 f_equal. unfold AgentRegistry_empty. f_equal. apply map_eq. intros p.
    rewrite lookup_empty. destruct (decide (p ∈ (map_to_list (by_name_ r)).*2)) as [Hin|Hout].
    + by apply lookup_foldr_delete.
    + rewrite lookup_foldr_delete_not_elem_of by done.
      destruct (entries r !! p) as [e|] eqn:He; [|done].
      exfalso. apply Hout, list_elem_of_fmap. exists (name e, p). split; [done|].
      apply elem_of_map_to_list, (rw_name _ W). eauto.
  - apply NoDup_fmap_2_strong; [|apply NoDup_map_to_list].
    intros [n p] [m q] Hn%elem_of_map_to_list Hm%elem_of_map_to_list. cbn. intros ->.
    apply (rw_name _ W) in Hn as (?&?&<-), Hm as (?&?&<-). by simplify_eq.
  - intros n p Hp%elem_of_map_to_list. apply (rw_name _ W) in Hp as (e&?&_). eauto.
Qed.

(** ** The abstract directory

    What the registry promises to its client: a finite map from agent names to
    their address and file descriptor.  The promise is made to a client that
    never registers an address or a descriptor another agent holds. *)

Abbreviation directory := (gmap string (Z * Z)).

Definition spec_call (c : registry_call) (m : directory) : directory :=
  match c with
  | Register n a f => <[n := (a, f)]> m
  | UnregisterFd f => filter (λ kv, kv.2.2 ≠ f) m
  | UnregisterName n => delete n m
  end.

Definition call_allowed (c : registry_call) (m : directory) : Prop :=
  match c with
  | Register n a f => ∀ k b g, m !! k = Some (b, g) → k ≠ n → b ≠ a ∧ g ≠ f
  | _ => True
  end.

Fixpoint calls_allowed (cs : list registry_call) (m : directory) : Prop :=
  match cs with
  | [] => True
  | c :: cs => call_allowed c m ∧ calls_allowed cs (spec_call c m)
  end.

Record refines (r : AgentRegistry) (m : directory) : Prop := {
  rf_wf : registry_wf r;
  rf_complete : registry_complete r;
  rf_agents : ∀ n, (λ e, (virtual_ipv4 e, fd e)) <$> agent r n = m !! n
}.

Lemma refines_lookup r m n a f :
  refines r m → m !! n = Some (a, f) ↔
  ∃ p, find_by_name r n = Some p ∧ find_by_ipv4 r a = Some p ∧ find_by_fd r f = Some p ∧
       entries r !! p = Some {| name := n; virtual_ipv4 := a; fd := f |}.
Proof.
  intros [W C A]. rewrite <-A. split.
  - intros ([n' a' f']&He&[= -> ->])%fmap_Some_1. cbn. apply agent_Some in He as (p&He&<-); [|done].
    exists p. destruct (C p _ He). split_and!; try done. apply (rw_name _ W). eauto.
  - intros (p&Hn&_&_&He). unfold agent. unfold find_by_name in Hn. rewrite Hn. cbn. by rewrite He.
Qed.

Section Refinement.
Context `{Malloc}.

Lemma erase_fd_refines r m f :
  refines r m → ∃ r', unregister_by_fd f r = Ret ((), r') ∧
    refines r' (spec_call (UnregisterFd f) m).
Proof.
  intros [W C A]. rewrite unregister_by_fd_run by done.
  assert (∀ n e, agent r n = Some e → fd e = f → ∃ p, by_fd_ r !! f = Some p ∧
    entries r !! p = Some e) as Hfd.
  { intros n e (p&He&_)%agent_Some <-; [|done]. exists p. by destruct (C p e He). }
  destruct (by_fd_ r !! f) as [p|] eqn:Hp; cbn.
  - pose proof Hp as (e&He&Hf)%(rw_fd _ W). rewrite He. cbn.
    eexists; split; [done|]. split; [by apply erase_entry_wf|by apply erase_entry_complete|].
    intros n. rewrite agent_erase by done. unfold spec_call. rewrite map_lookup_filter, <-A.
    case_decide as Hn.
    + subst. rewrite (proj2 (agent_Some r (name e) e W)) by eauto. cbn.
      by rewrite option_guard_False by (cbn; tauto).
    + destruct (agent r n) as [e'|] eqn:En; cbn; [|done].
      rewrite option_guard_True; [done|]. cbn. intros Hf'.
      destruct (Hfd n e' En Hf') as (q&[= <-]&?). simplify_eq.
      by apply agent_Some in En as (?&?&?).
  - exists r. split; [done|]. split; [done..|]. intros n. unfold spec_call. rewrite map_lookup_filter, <-A.
    destruct (agent r n) as [e'|] eqn:En; cbn; [|done].
    rewrite option_guard_True; [done|]. cbn. intros Hf'. by destruct (Hfd n e' En Hf') as (?&?&?).
Qed.

Lemma erase_name_refines r m n :
  refines r m → ∃ r', unregister_by_name n r = Ret ((), r') ∧
    refines r' (spec_call (UnregisterName n) m).
Proof.
  intros [W C A]. exists (without_name n r). rewrite unregister_by_name_run by done.
  split; [unfold without_name; by destruct (by_name_ r !! n ≫= _) as [[]|]|].
  split; [by apply without_name_wf|by apply without_name_complete|]. intros k. cbn.
  rewrite without_name_agent, lookup_delete, <-A by done.
  destruct (decide (k = n)), (decide (n = k)); cbn; congruence.
Qed.

Lemma register_refines r m n a f :
  (∀ h : gmap loc AgentEntry, malloc h ≠ None) → refines r m → call_allowed (Register n a f) m →
  ∃ p r', register_agent n a f r = Ret (Some p, r') ∧ refines r' (spec_call (Register n a f) m).
Proof.
  intros Hm [W C A] Hfree. destruct (malloc (entries (without_name n r))) as [p|] eqn:Em;
    [|by destruct (Hm _ Em)].
  assert (∃ r', register_agent n a f r = Ret (Some p, r')) as [r' Er].
  { eexists. rewrite register_agent_run by done. by rewrite Em. }
  exists p, r'. split; [done|]. destruct (register_agent_ok _ _ _ _ _ _ W Er) as (W'&_&_&_&_&A').
  split; [done| |].
  - refine (register_agent_complete _ _ _ _ _ _ W C _ Er). intros k e He Hk.
    apply (Hfree k); [by rewrite <-A, He|done].
  - intros k. rewrite A'. cbn. rewrite lookup_insert, <-A.
    destruct (decide (k = n)), (decide (n = k)); cbn; congruence.
Qed.

Lemma run_calls_refine cs r m :
  (∀ h : gmap loc AgentEntry, malloc h ≠ None) → refines r m → calls_allowed cs m →
  ∃ r', run_calls cs r = Ret ((), r') ∧ refines r' (foldl (flip spec_call) m cs).
Proof.
  intros Hm. revert r m. induction cs as [|c cs IH]; intros r m R; cbn; [by exists r|].
  intros [Hc Hcs].
  assert (∃ r1, run_call c r = Ret ((), r1) ∧ refines r1 (spec_call c m)) as (r1&E1&R1).
  { destruct c as [n a f|f|n]; cbn.
    - destruct (register_refines r m n a f) as (p&r1&E&?); try done. exists r1. run. by rewrite E.
    - by apply erase_fd_refines.
    - by apply erase_name_refines. }
  destruct (IH r1 _ R1 Hcs) as (r2&E2&?). exists r2. run. by rewrite E1.
Qed.
End Refinement.

(** ** Properties *)

Section Properties.
Context `{Malloc}.

(** C16: no sequence of calls makes the registry follow a dangling pointer,
    whatever names, addresses and descriptors are reused and whether or not
    allocations fail; every index entry points to a live entry with that
    key and every live entry is indexed by its name; and the destructor then
    frees every entry exactly once. *)
Theorem registry_memory_safe (cs : list registry_call) :
  ∃ r, run_calls cs AgentRegistry_empty = Ret ((), r) ∧ registry_wf r ∧
       AgentRegistry_destroy r = Ret ((), AgentRegistry_empty).
Proof.
  destruct (run_calls_wf cs _ AgentRegistry_empty_wf) as (r&E&W).
  exists r. split_and!; [done..|]. by apply destroy_run.
Qed.

(** C24: the registry implements the abstract directory.  For a client that
    never gives two agents the same address or descriptor, a sequence of
    calls leaves the registry representing the map the calls describe: an
    agent is in the map iff the three lookups find the same entry holding
    its name, address and descriptor, and [size] counts the agents. *)
Theorem registry_refines_directory (cs : list registry_call) :
  (∀ h : gmap loc AgentEntry, malloc h ≠ None) → calls_allowed cs ∅ →
  ∃ r, run_calls cs AgentRegistry_empty = Ret ((), r) ∧
    (∀ n a f, foldl (flip spec_call) ∅ cs !! n = Some (a, f) ↔
      ∃ p, find_by_name r n = Some p ∧ find_by_ipv4 r a = Some p ∧ find_by_fd r f = Some p ∧
           entries r !! p = Some {| name := n; virtual_ipv4 := a; fd := f |}) ∧
    registry_size r = size (foldl (flip spec_call) ∅ cs).
Proof.
  intros Hm Ha.
  destruct (run_calls_refine cs AgentRegistry_empty ∅ Hm) as (r&E&R); [|done|].
  { split; [apply AgentRegistry_empty_wf|apply AgentRegistry_empty_complete|]. intros n.
    unfold agent. cbn. by rewrite !lookup_empty. }
  exists r. split; [done|]. split; [intros; by apply refines_lookup|].
  unfold registry_size. destruct R as [W C A]. rewrite <-!size_dom. f_equal.
  apply set_eq. intros n. rewrite !elem_of_dom, <-A, fmap_is_Some. unfold agent.
  split; [|intros (?&(p&->&?)%bind_Some); by eexists].
  intros [p Hp]. rewrite Hp. pose proof Hp as (e&He&_)%(rw_name _ W). cbn. rewrite He. by eexists.
Qed.
End Properties.

Lemma registry_refines_directory_witness :
  ∃ r, run_calls (H := malloc_first_fit)
         [Register "a" 1 5; Register "b" 2 6; Register "a" 1 7; UnregisterFd 5]
         AgentRegistry_empty = Ret ((), r) ∧ registry_size r = 2%nat.
Proof.
  destruct (registry_refines_directory (H := malloc_first_fit)
    [Register "a" 1 5; Register "b" 2 6; Register "a" 1 7; UnregisterFd 5]) as (r&E&_&Hs).
  - done.
  - cbn. split_and!; try done.
    + intros k b g [[<- [= <- <-]]|[? Hk]]%lookup_insert_Some ?; [done|].
      first [done|by rewrite lookup_empty in Hk].
    + intros k b g [[<- [= <- <-]]|[? [[<- [= <- <-]]|[? Hk]]%lookup_insert_Some]]%lookup_insert_Some ?;
        [done|done|]. first [done|by rewrite lookup_empty in Hk].
  - exists r. split; [exact E|]. rewrite Hs. vm_compute. reflexivity.
Defined.
