(* ===== verification/BlackBox.v ===== *)
(** * The packet engine of a switch

    Models src/blackbox/blackbox.cpp and include/vnet/blackbox/blackbox.hpp:
    the decision made for each raw IPv4 packet and the lifecycle hooks.  The
    engine owns a [Config], an [AgentRegistry] and a [RoutingTable]; its
    operations run in [M BlackBox].  Log output is not modelled, the pointers
    it follows are. *)
From stdpp Require Import base list gmap sets strings.
From Stdlib Require Import ZArith Lia.
From S2P Require Import Prelude Bytes IPv4 Inet Config Routing Registry.

#[local] Open Scope Z_scope.

Inductive SourceType : Type := AGENT | SWITCH | TUN.

Inductive PacketAction : Type :=
  | DELIVER_LOCAL | FORWARD_SWITCH | FORWARD_INTERNET | REQUEST_ROUTE | DROP.

Inductive DropReason : Type :=
  | NONE | MALFORMED_PACKET | SOURCE_SPOOF | SOURCE_UNKNOWN | DEST_UNREACHABLE | ACL_DENIED.

Record PacketDecision : Type := {
  action : PacketAction;
  target_fd : Z;
  dest_ipv4 : Z;
  drop_reason : DropReason
}.

#[export] Instance PacketAction_eq_dec : EqDecision PacketAction.
Proof. solve_decision. Defined.
#[export] Instance DropReason_eq_dec : EqDecision DropReason.
Proof. solve_decision. Defined.

Definition mk_decision (a : PacketAction) (fd ip : Z) (r : DropReason) : PacketDecision :=
  {| action := a; target_fd := fd; dest_ipv4 := ip; drop_reason := r |}.

Definition drop (r : DropReason) : PacketDecision := mk_decision DROP (-1) 0 r.

Record BlackBox : Type := {
  config_ : Config;
  registry_ : AgentRegistry;
  routing_ : RoutingTable;
  tun_fd_ : Z
}.

Definition BlackBox_new (config : Config) (tun_fd : Z) : BlackBox :=
  {| config_ := config; registry_ := AgentRegistry_empty;
     routing_ := RoutingTable_empty; tun_fd_ := tun_fd |}.

Definition with_registry (r : AgentRegistry) (b : BlackBox) : BlackBox :=
  {| config_ := config_ b; registry_ := r; routing_ := routing_ b; tun_fd_ := tun_fd_ b |}.
Definition with_routing (t : RoutingTable) (b : BlackBox) : BlackBox :=
  {| config_ := config_ b; registry_ := registry_ b; routing_ := t; tun_fd_ := tun_fd_ b |}.

(** A call on the [registry_] member, and an access through an entry pointer. *)
Definition on_registry {A} (m : M AgentRegistry A) : M BlackBox A := zoom registry_ with_registry m.
Definition entry_at (p : loc) : M BlackBox AgentEntry := on_registry (deref p).

(** ** Lifecycle hooks *)

Section Hooks.
Context `{Malloc}.

Definition on_agent_authenticated (name : string) (fd : Z) : M BlackBox bool :=
  b ← get_st;
  let ipv4 := find_ip_for_agent (config_ b) name in
  if ipv4 =? 0 then mret false else
  entry ← on_registry (register_agent name ipv4 fd);
  match entry with
  | None => mret false
  | Some _ => mret true
  end.
End Hooks.

Definition on_agent_disconnected (fd : Z) : M BlackBox () :=
  b ← get_st;
  match find_by_fd (registry_ b) fd with
  | Some p => entry_at p;; mret ()    (* entry->name, for the log *)
  | None => mret ()
  end;;
  on_registry (unregister_by_fd fd).

Definition on_route_update (dest_ipv4 next_switch_fd : Z) : M BlackBox () :=
  modify (λ b,
    if next_switch_fd <? 0 then with_routing (remove_route dest_ipv4 (routing_ b)) b
    else with_routing (set_route dest_ipv4 next_switch_fd (routing_ b)) b).

Definition on_switch_disconnected (switch_fd : Z) : M BlackBox () :=
  modify (λ b, with_routing (remove_routes_for_switch switch_fd (routing_ b)) b).

(** ** Packet processing *)

Definition route_to_destination (src_ipv4 dest_ipv4 : Z) : M BlackBox PacketDecision :=
  b ← get_st;
  let dest_agent := find_agent_for_ip (config_ b) dest_ipv4 in
  if negb (bool_decide (dest_agent = EmptyString)) then
    if negb (can_agents_communicate (config_ b) src_ipv4 dest_ipv4) then mret (drop ACL_DENIED) else
    match find_by_ipv4 (registry_ b) dest_ipv4 with
    | Some local =>
      e ← entry_at local; mret (mk_decision DELIVER_LOCAL (fd e) 0 NONE)
    | None =>
      let next_switch := lookup_route (routing_ b) dest_ipv4 in
      if 0 <=? next_switch then mret (mk_decision FORWARD_SWITCH next_switch 0 NONE)
      else mret (mk_decision REQUEST_ROUTE (-1) dest_ipv4 NONE)
    end
  else
    if tun_fd_ b <? 0 then mret (drop DEST_UNREACHABLE) else
    if negb (can_reach_internet_ip (config_ b) src_ipv4 dest_ipv4) then mret (drop ACL_DENIED)
    else mret (mk_decision FORWARD_INTERNET (tun_fd_ b) 0 NONE).

Definition process_from_agent (source_fd : Z) (hdr : IPv4Header) : M BlackBox PacketDecision :=
  b ← get_st;
  match find_by_fd (registry_ b) source_fd with
  | None => mret (drop SOURCE_UNKNOWN)
  | Some p =>
    sender ← entry_at p;
    if negb (src_ip hdr =? virtual_ipv4 sender) then mret (drop SOURCE_SPOOF)
    else route_to_destination (virtual_ipv4 sender) (dst_ip hdr)
  end.

Definition process_from_switch (hdr : IPv4Header) : M BlackBox PacketDecision :=
  b ← get_st;
  match find_by_ipv4 (registry_ b) (dst_ip hdr) with
  | Some p => dest ← entry_at p; mret (mk_decision DELIVER_LOCAL (fd dest) 0 NONE)
  | None => mret (drop DEST_UNREACHABLE)
  end.

Definition process_from_tun (hdr : IPv4Header) : M BlackBox PacketDecision :=
  b ← get_st;
  match find_by_ipv4 (registry_ b) (dst_ip hdr) with
  | None => mret (drop DEST_UNREACHABLE)
  | Some p =>
    if negb (can_reach_internet_ip (config_ b) (dst_ip hdr) (src_ip hdr)) then mret (drop ACL_DENIED)
    else dest ← entry_at p; mret (mk_decision DELIVER_LOCAL (fd dest) 0 NONE)
  end.

Section Process.
Context `{HostOrder}.

Definition process (source_type : SourceType) (source_fd : Z)
    (raw_ipv4 : option (list byte)) (len : Z) : M BlackBox PacketDecision :=
  '(ok, hdr) ← with_local IPv4Header_zero (ipv4_parse raw_ipv4 len);
  if negb ok then mret (drop MALFORMED_PACKET) else
  match source_type with
  | AGENT => process_from_agent source_fd hdr
  | SWITCH => process_from_switch hdr
  | TUN => process_from_tun hdr
  end.
End Process.

(** ** The engine's invariant *)

Record blackbox_wf (b : BlackBox) : Prop := {
  bw_config : config_wf (config_ b);
  bw_registry : registry_wf (registry_ b);
  bw_ipv4 : ipv4_complete (registry_ b);
  bw_assigned : ∀ p e, entries (registry_ b) !! p = Some e →
    name_to_ip_ (config_ b) !! name e = Some (virtual_ipv4 e);
  bw_routes : ∀ d f, routes_ (routing_ b) !! d = Some f → 0 ≤ f
}.

Lemma BlackBox_new_wf c t : config_wf c → blackbox_wf (BlackBox_new c t).
Proof.
  intros W. split; cbn; [done|apply AgentRegistry_empty_wf|..].
  - intros p e. cbn. by rewrite lookup_empty.
  - intros p e. by rewrite lookup_empty.
  - intros d f. by rewrite lookup_empty.
Qed.

(** Changing the registry only. *)
Lemma with_registry_wf b r :
  blackbox_wf b → registry_wf r → ipv4_complete r →
  (∀ p e, entries r !! p = Some e → name_to_ip_ (config_ b) !! name e = Some (virtual_ipv4 e)) →
  blackbox_wf (with_registry r b).
Proof. intros [] ???. by split. Qed.

(** Changing the routes only. *)
Lemma with_routing_wf b t :
  blackbox_wf b → (∀ d f, routes_ t !! d = Some f → 0 ≤ f) → blackbox_wf (with_routing t b).
Proof. intros [] ?. by split. Qed.

Lemma entry_at_run b p e :
  entries (registry_ b) !! p = Some e → entry_at p b = Ret (e, b).
Proof. intros He. unfold entry_at, on_registry, zoom, deref. rewrite He. by destruct b. Qed.

Section HookFacts.
Context `{Malloc}.

(** The registry after a successful authentication of [n] on [f]. *)
Lemma authenticated_run b n f :
  blackbox_wf b →
  ∃ ok r, on_agent_authenticated n f b = Ret (ok, with_registry r b) ∧
    blackbox_wf (with_registry r b) ∧
    (ok = true → ∃ a, name_to_ip_ (config_ b) !! n = Some a ∧
      ∀ m, agent r m = if decide (m = n)
        then Some {| name := n; virtual_ipv4 := a; fd := f |} else agent (registry_ b) m) ∧
    (ok = false → ∀ m, agent r m = agent (registry_ b) m ∨ (m = n ∧ agent r m = None)).
Proof.
  intros W. unfold on_agent_authenticated. run. unfold find_ip_for_agent.
  assert (with_registry (registry_ b) b = b) as Hb by by destruct b.
  destruct (name_to_ip_ (config_ b) !! n) as [a|] eqn:Ha.
  2: { exists false, (registry_ b). rewrite Hb. split_and!; [done..|]. by left. }
  destruct (wf_entry _ (bw_config _ W) n a Ha) as (_&Hz&_).
  rewrite (proj2 (Z.eqb_neq a 0)) by done. unfold on_registry, zoom.
  pose proof (bw_registry _ W) as WR. pose proof (without_name_wf n _ WR) as WR'.
  pose proof (without_name_ipv4_complete n _ (bw_ipv4 _ W)) as CR'.
  rewrite register_agent_run by done.
  destruct (malloc _) as [p|] eqn:Em.
  - exists true. eexists. split; [reflexivity|]. apply malloc_fresh in Em. split; [|split; [|done]].
    + apply with_registry_wf; [done|..].
      * apply store_entry_wf; [done..|]. by apply without_name_free.
      * intros q e. cbn. rewrite lookup_insert. case_decide as Hq; [intros [= <-]|intros He].
        { cbn. by rewrite lookup_insert_eq, Hq. }
        rewrite lookup_insert_ne; [by apply CR'|]. intros ->.
        apply without_name_entries in He as [He Hn]; [|done]. apply Hn.
        apply (bw_assigned _ W), (wf_inverse _ (bw_config _ W)) in He.
        apply (wf_inverse _ (bw_config _ W)) in Ha. congruence.
      * intros q e. cbn. rewrite lookup_insert. case_decide; [by intros [= <-]|].
        intros [He _]%without_name_entries; [|done]. by apply (bw_assigned _ W q).
    + intros _. exists a. split; [done|]. intros m. rewrite agent_store by done. cbn.
      case_decide; [done|]. rewrite without_name_agent by done. by rewrite decide_False.
  - exists false. eexists. split; [reflexivity|]. split; [|split; [done|]].
    + apply with_registry_wf; [done..|].
      intros q e [He _]%without_name_entries; [|done]. by apply (bw_assigned _ W q).
    + intros _ m. rewrite without_name_agent by done. case_decide; [by right|by left].
Qed.
End HookFacts.

Lemma disconnected_run b f :
  blackbox_wf b →
  ∃ r, on_agent_disconnected f b = Ret ((), with_registry r b) ∧
    blackbox_wf (with_registry r b) ∧ unregister_by_fd f (registry_ b) = Ret ((), r).
Proof.
  intros W. pose proof (bw_registry _ W) as WR.
  assert (with_registry (registry_ b) b = b) as Hb by by destruct b.
  unfold on_agent_disconnected, find_by_fd. run.
  pose proof (unregister_by_fd_run (registry_ b) f WR) as Hu.
  destruct (by_fd_ (registry_ b) !! f) as [p|] eqn:Hp.
  - apply (rw_fd _ WR) in Hp as (e&He&_). cbn in Hu. rewrite He in Hu. cbn in Hu.
    rewrite (entry_at_run b p e He). exists (erase_entry p e (registry_ b)).
    unfold on_registry, zoom. rewrite Hu. split_and!; [done| |done].
    apply with_registry_wf; [done|by apply erase_entry_wf|apply erase_entry_ipv4_complete; [apply W|done]|].
    intros q e'. cbn. intros [_ He']%lookup_delete_Some. by apply (bw_assigned _ W q).
  - cbn in Hu. exists (registry_ b). unfold on_registry, zoom. rewrite Hu, Hb. done.
Qed.

Lemma route_update_wf b d f : blackbox_wf b →
  ∃ b', on_route_update d f b = Ret ((), b') ∧ blackbox_wf b' ∧ config_ b' = config_ b ∧
    registry_ b' = registry_ b.
Proof.
  intros W. eexists. split; [reflexivity|].
  destruct (Z.ltb_spec f 0); (split; [|done]); apply with_routing_wf; try done; cbn; intros d' f'.
  - intros [_ Hr]%lookup_delete_Some. by apply (bw_routes _ W d').
  - intros [[_ <-]|[_ Hr]]%lookup_insert_Some; [lia|]. by apply (bw_routes _ W d').
Qed.

Lemma switch_disconnected_wf b f : blackbox_wf b →
  ∃ b', on_switch_disconnected f b = Ret ((), b') ∧ blackbox_wf b' ∧ config_ b' = config_ b ∧
    registry_ b' = registry_ b.
Proof.
  intros W. eexists. split; [reflexivity|]. split; [|done]. apply with_routing_wf; [done|].
  intros d' f'. rewrite remove_routes_for_switch_lookup. case_decide; [done|]. apply W.
Qed.

(** ** The packet policy

    What the engine promises, stated on the agents registered with the switch
    and the configuration's lookups: [policy b st f s d dec] says that for a
    packet received on descriptor [f] of kind [st], with source [s] and
    destination [d], the decision is [dec]. *)

(** The agent whose address is [a], among those registered with the switch. *)
Definition local_agent (b : BlackBox) (a : Z) (e : AgentEntry) : Prop :=
  ∃ p, find_by_ipv4 (registry_ b) a = Some p ∧ entries (registry_ b) !! p = Some e.
(** The agent the switch knows behind descriptor [f]. *)
Definition fd_agent (b : BlackBox) (f : Z) (e : AgentEntry) : Prop :=
  ∃ p, find_by_fd (registry_ b) f = Some p ∧ entries (registry_ b) !! p = Some e.

Definition no_local_agent (b : BlackBox) (a : Z) : Prop := ∀ e, ¬ local_agent b a e.
Definition no_fd_agent (b : BlackBox) (f : Z) : Prop := ∀ e, ¬ fd_agent b f e.

Definition is_agent_ip (b : BlackBox) (a : Z) : Prop := is_Some (ip_to_name_ (config_ b) !! a).

(** Where a packet of a local agent, from its own address, goes. *)
Inductive route_policy (b : BlackBox) (s d : Z) : PacketDecision → Prop :=
  | RouteAgentDenied :
      is_agent_ip b d → can_agents_communicate (config_ b) s d = false →
      route_policy b s d (drop ACL_DENIED)
  | RouteLocal e :
      is_agent_ip b d → can_agents_communicate (config_ b) s d = true → local_agent b d e →
      route_policy b s d (mk_decision DELIVER_LOCAL (fd e) 0 NONE)
  | RouteRemote f :
      is_agent_ip b d → can_agents_communicate (config_ b) s d = true → no_local_agent b d →
      routes_ (routing_ b) !! d = Some f →
      route_policy b s d (mk_decision FORWARD_SWITCH f 0 NONE)
  | RouteUnknown :
      is_agent_ip b d → can_agents_communicate (config_ b) s d = true → no_local_agent b d →
      routes_ (routing_ b) !! d = None →
      route_policy b s d (mk_decision REQUEST_ROUTE (-1) d NONE)
  | RouteNoTun :
      ¬ is_agent_ip b d → tun_fd_ b < 0 → route_policy b s d (drop DEST_UNREACHABLE)
  | RouteInternetDenied :
      ¬ is_agent_ip b d → 0 ≤ tun_fd_ b → can_reach_internet_ip (config_ b) s d = false →
      route_policy b s d (drop ACL_DENIED)
  | RouteInternet :
      ¬ is_agent_ip b d → 0 ≤ tun_fd_ b → can_reach_internet_ip (config_ b) s d = true →
      route_policy b s d (mk_decision FORWARD_INTERNET (tun_fd_ b) 0 NONE).

Inductive policy (b : BlackBox) (f s d : Z) : SourceType → PacketDecision → Prop :=
  | AgentUnknown : no_fd_agent b f → policy b f s d AGENT (drop SOURCE_UNKNOWN)
  | AgentSpoof e : fd_agent b f e → s ≠ virtual_ipv4 e → policy b f s d AGENT (drop SOURCE_SPOOF)
  | AgentRoute e dec : fd_agent b f e → s = virtual_ipv4 e → route_policy b s d dec →
      policy b f s d AGENT dec
  | SwitchLocal e : local_agent b d e →
      policy b f s d SWITCH (mk_decision DELIVER_LOCAL (fd e) 0 NONE)
  | SwitchNone : no_local_agent b d → policy b f s d SWITCH (drop DEST_UNREACHABLE)
  | TunNone : no_local_agent b d → policy b f s d TUN (drop DEST_UNREACHABLE)
  | TunDenied e : local_agent b d e → can_reach_internet_ip (config_ b) d s = false →
      policy b f s d TUN (drop ACL_DENIED)
  | TunLocal e : local_agent b d e → can_reach_internet_ip (config_ b) d s = true →
      policy b f s d TUN (mk_decision DELIVER_LOCAL (fd e) 0 NONE).

(** A lookup finds a live entry or nothing. *)
Lemma find_local b a :
  registry_wf (registry_ b) →
  (find_by_ipv4 (registry_ b) a = None ∧ no_local_agent b a) ∨
  ∃ p e, find_by_ipv4 (registry_ b) a = Some p ∧ entries (registry_ b) !! p = Some e ∧
    local_agent b a e ∧ virtual_ipv4 e = a.
Proof.
  intros W. destruct (find_by_ipv4 (registry_ b) a) as [p|] eqn:Hp.
  - right. pose proof Hp as (e&He&Ha)%(rw_ipv4 _ W). exists p, e. split_and!; [done..| |done].
    by exists p.
  - left. split; [done|]. intros e (p&Hp'&_). congruence.
Qed.

Lemma find_fd b f :
  registry_wf (registry_ b) →
  (find_by_fd (registry_ b) f = None ∧ no_fd_agent b f) ∨
  ∃ p e, find_by_fd (registry_ b) f = Some p ∧ entries (registry_ b) !! p = Some e ∧
    fd_agent b f e ∧ fd e = f.
Proof.
  intros W. destruct (find_by_fd (registry_ b) f) as [p|] eqn:Hp.
  - right. pose proof Hp as (e&He&Ha)%(rw_fd _ W). exists p, e. split_and!; [done..| |done].
    by exists p.
  - left. split; [done|]. intros e (p&Hp'&_). congruence.
Qed.

Lemma find_agent_for_ip_empty c a :
  config_wf c → find_agent_for_ip c a = EmptyString ↔ ¬ is_Some (ip_to_name_ c !! a).
Proof.
  intros W. unfold find_agent_for_ip. destruct (ip_to_name_ c !! a) as [n|] eqn:E.
  - split; [|intros []; by eexists]. intros ->. apply (wf_inverse _ W), (wf_entry _ W) in E.
    by destruct E.
  - split; [by intros _ []|done].
Qed.

Lemma route_to_destination_policy b s d :
  blackbox_wf b → ∃ dec, route_to_destination s d b = Ret (dec, b) ∧ route_policy b s d dec.
Proof.
  intros W. unfold route_to_destination. run.
  pose proof (find_agent_for_ip_empty _ d (bw_config _ W)) as Hd.
  destruct (bool_decide _) eqn:Ed; cbn.
  - apply bool_decide_eq_true in Ed. apply Hd in Ed.
    destruct (Z.ltb_spec (tun_fd_ b) 0); [eexists; split; [done|]; by apply RouteNoTun|].
    destruct (can_reach_internet_ip _ _ _) eqn:Ea; cbn; (eexists; split; [done|]);
      [by apply RouteInternet|by apply RouteInternetDenied].
  - apply bool_decide_eq_false in Ed.
    assert (is_agent_ip b d) as Hip.
    { unfold is_agent_ip. destruct (ip_to_name_ (config_ b) !! d) eqn:E; [by eexists|].
      exfalso. apply Ed, Hd. by intros []. }
    destruct (can_agents_communicate _ _ _) eqn:Ea; cbn;
      [|eexists; split; [done|]; by apply RouteAgentDenied].
    destruct (find_local b d (bw_registry _ W)) as [[-> Hl]|(p&e&->&He&Hl&_)].
    + unfold lookup_route. destruct (routes_ (routing_ b) !! d) as [f|] eqn:Er.
      * rewrite (proj2 (Z.leb_le 0 f)) by by apply (bw_routes _ W d).
        eexists; split; [done|]. by apply RouteRemote.
      * eexists; split; [done|]. by apply RouteUnknown.
    + rewrite (entry_at_run b p e He). eexists; split; [done|]. by apply RouteLocal.
Qed.

Section ProcessFacts.
Context `{HostOrder}.

(** Source and destination of an accepted packet, as the engine compares them. *)
Definition packet_src (raw : list byte) : Z := of_mem (field raw 12 4).
Definition packet_dst (raw : list byte) : Z := of_mem (field raw 16 4).

Lemma process_malformed b st f raw len :
  0 ≤ len ≤ Z.of_nat (length raw) → ¬ well_formed raw len →
  process st f (Some raw) len b = Ret (drop MALFORMED_PACKET, b).
Proof.
  intros Hl Hw. unfold process, with_local. run.
  by destruct (ipv4_parse_rejects raw len IPv4Header_zero Hl Hw) as [h ->].
Qed.

Lemma process_policy b st f raw len :
  blackbox_wf b → 0 ≤ len ≤ Z.of_nat (length raw) → well_formed raw len →
  ∃ dec, process st f (Some raw) len b = Ret (dec, b) ∧
         policy b f (packet_src raw) (packet_dst raw) st dec.
Proof.
  intros W Hl Hw. unfold process, with_local. run.
  rewrite (ipv4_parse_accepts raw len _ Hl Hw). cbn.
  pose proof (bw_registry _ W) as WR. destruct st.
  - unfold process_from_agent. run. cbn.
    destruct (find_fd b f WR) as [[-> Hn]|(p&e&->&He&Hf&_)];
      [eexists; split; [done|]; by apply AgentUnknown|].
    rewrite (entry_at_run b p e He). cbn.
    destruct (Z.eqb_spec (of_mem (field raw 12 4)) (virtual_ipv4 e)) as [Hs|Hs]; cbn.
    + destruct (route_to_destination_policy b (virtual_ipv4 e) (of_mem (field raw 16 4)) W)
        as (dec&E&Hr). exists dec. split; [exact E|].
      eapply AgentRoute; [done..|]. unfold packet_src. by rewrite Hs.
    + eexists; split; [done|]. by eapply AgentSpoof.
  - unfold process_from_switch. run. cbn.
    destruct (find_local b (of_mem (field raw 16 4)) WR) as [[-> Hn]|(p&e&->&He&Hf&_)];
      [eexists; split; [done|]; by apply SwitchNone|].
    rewrite (entry_at_run b p e He). eexists; split; [done|]. by apply SwitchLocal.
  - unfold process_from_tun. run. cbn.
    destruct (find_local b (of_mem (field raw 16 4)) WR) as [[-> Hn]|(p&e&->&He&Hf&_)];
      [eexists; split; [done|]; by apply TunNone|].
    destruct (can_reach_internet_ip _ _ _) eqn:Ea; cbn.
    + rewrite (entry_at_run b p e He). eexists; split; [done|]. by eapply TunLocal.
    + eexists; split; [done|]. by eapply TunDenied.
Qed.
End ProcessFacts.

(** ** Consequences of the policy *)

Lemma local_agent_unique b a e e' : local_agent b a e → local_agent b a e' → e = e'.
Proof. intros (p&?&?) (q&?&?). congruence. Qed.
Lemma fd_agent_unique b f e e' : fd_agent b f e → fd_agent b f e' → e = e'.
Proof. intros (p&?&?) (q&?&?). congruence. Qed.

Lemma route_policy_unique b s d x y : route_policy b s d x → route_policy b s d y → x = y.
Proof.
  intros [] []; try done; try congruence; try lia;
    try (match goal with H : local_agent b d ?e, N : no_local_agent b d |- _ => by destruct (N e) end).
  by rewrite (local_agent_unique b d e e0).
Qed.

Lemma policy_unique b f s d st x y : policy b f s d st x → policy b f s d st y → x = y.
Proof.
  intros P Q. destruct P; inversion Q; subst; try done; try congruence;
    repeat match goal with
    | H : local_agent b d ?e, H' : local_agent b d ?e' |- _ =>
        pose proof (local_agent_unique _ _ _ _ H H'); subst; clear H'
    | H : fd_agent b f ?e, H' : fd_agent b f ?e' |- _ =>
        pose proof (fd_agent_unique _ _ _ _ H H'); subst; clear H'
    | H : local_agent b d ?e, N : no_local_agent b d |- _ => by destruct (N e)
    | H : fd_agent b f ?e, N : no_fd_agent b f |- _ => by destruct (N e)
    end; try done; try congruence.
  by eapply route_policy_unique.
Qed.

(** Every local delivery goes to the agent that has the destination address. *)
Lemma policy_delivers b f s d st dec :
  policy b f s d st dec → action dec = DELIVER_LOCAL →
  ∃ e, local_agent b d e ∧ target_fd dec = fd e.
Proof. intros [| |? ? _ _ []| | | | |] Ha; try done; eauto. Qed.

(** Forwarding to a switch follows the route of the destination. *)
Lemma policy_forwards b f s d st dec :
  policy b f s d st dec → action dec = FORWARD_SWITCH →
  routes_ (routing_ b) !! d = Some (target_fd dec).
Proof. intros [| |? ? _ _ []| | | | |] Ha; done. Qed.

(** The sender of a packet that is not dropped is a registered agent using its
    own address, and the configuration allows the traffic. *)
Lemma policy_agent_allowed b f s d dec :
  policy b f s d AGENT dec → action dec ≠ DROP →
  ∃ e, fd_agent b f e ∧ s = virtual_ipv4 e ∧
    (is_agent_ip b d ∧ can_agents_communicate (config_ b) s d = true ∨
     ¬ is_agent_ip b d ∧ can_reach_internet_ip (config_ b) s d = true ∧
     action dec = FORWARD_INTERNET ∧ target_fd dec = tun_fd_ b ∧ 0 ≤ tun_fd_ b).
Proof.
  inversion_clear 1 as [| |e ? He Hs Hr| | | | |]; intros Ha; try done.
  exists e. split_and!; [done..|]. destruct Hr; try done; auto 10.
Qed.

(** ** Runs of the engine *)

Inductive event : Type :=
  | Authenticated (n : string) (f : Z)
  | Disconnected (f : Z)
  | RouteUpdate (d f : Z)
  | SwitchGone (f : Z)
  | Packet (st : SourceType) (f : Z) (raw : list byte) (len : Z).

(** The caller passes the number of bytes the buffer holds, or less. *)
Definition event_ok (ev : event) : Prop :=
  match ev with Packet _ _ raw len => 0 ≤ len ≤ Z.of_nat (length raw) | _ => True end.

Section Runs.
Context `{HostOrder} `{Malloc}.

Definition run_event (ev : event) : M BlackBox () :=
  match ev with
  | Authenticated n f => on_agent_authenticated n f;; mret ()
  | Disconnected f => on_agent_disconnected f
  | RouteUpdate d f => on_route_update d f
  | SwitchGone f => on_switch_disconnected f
  | Packet st f raw len => process st f (Some raw) len;; mret ()
  end.

Fixpoint run_events (evs : list event) : M BlackBox () :=
  match evs with
  | [] => mret ()
  | ev :: evs => run_event ev;; run_events evs
  end.

Lemma run_event_wf ev b :
  blackbox_wf b → event_ok ev →
  ∃ b', run_event ev b = Ret ((), b') ∧ blackbox_wf b' ∧
        config_ b' = config_ b ∧ tun_fd_ b' = tun_fd_ b.
Proof.
  intros W Hok. destruct ev as [n f|f|d f|f|st f raw len]; cbn.
  - destruct (authenticated_run b n f W) as (ok&r&E&W'&_). run. rewrite E. by eexists.
  - destruct (disconnected_run b f W) as (r&E&W'&_). by eexists.
  - destruct (route_update_wf b d f W) as (b'&E&W'&_). injection E as <-.
    eexists. split; [done|]. split; [done|]. by case_match.
  - destruct (switch_disconnected_wf b f W) as (b'&E&W'&_). injection E as <-. by eexists.
  - run. destruct (decide (well_formed raw len)) as [Hw|Hw].
    + destruct (process_policy b st f raw len W Hok Hw) as (dec&->&_). by exists b.
    + rewrite process_malformed by done. by exists b.
Qed.

Lemma run_events_wf evs b :
  blackbox_wf b → Forall event_ok evs →
  ∃ b', run_events evs b = Ret ((), b') ∧ blackbox_wf b' ∧
        config_ b' = config_ b ∧ tun_fd_ b' = tun_fd_ b.
Proof.
  revert b. induction evs as [|ev evs IH]; intros b W Hok; cbn; [by exists b|].
  inversion_clear Hok. destruct (run_event_wf ev b W) as (b1&E1&W1&Hc1&Ht1); [done|].
  destruct (IH b1 W1) as (b2&E2&W2&Hc2&Ht2); [done|].
  exists b2. run. rewrite E1. split_and!; [done..| |]; congruence.
Qed.
End Runs.

(** ** Properties *)

Section Properties.
Context `{HostOrder}.

(** C2: [process] decides exactly by the policy.  On a well-formed packet
    held by the buffer it returns, leaving the engine unchanged, the one
    decision the policy gives for the kind of source, the descriptor and the
    two addresses; any other packet is dropped as malformed. *)
Theorem process_implements_policy (b b' : BlackBox) (st : SourceType) (f : Z)
    (raw : list byte) (len : Z) (dec : PacketDecision) :
  blackbox_wf b → 0 ≤ len ≤ Z.of_nat (length raw) →
  process st f (Some raw) len b = Ret (dec, b') ↔
  b' = b ∧ (if decide (well_formed raw len)
            then policy b f (packet_src raw) (packet_dst raw) st dec
            else dec = drop MALFORMED_PACKET).
Proof.
  intros W Hl. case_decide as Hw.
  - destruct (process_policy b st f raw len W Hl Hw) as (dec'&->&P). split.
    + by intros [= <- <-].
    + intros [-> Q]. by rewrite (policy_unique _ _ _ _ _ _ _ P Q).
  - rewrite process_malformed by done. split; [by intros [= <- <-]|by intros [-> ->]].
Qed.

(** C1: anti-spoofing and isolation.  If a packet that arrives on an agent's
    descriptor is not dropped, then an agent is registered on that
    descriptor, the source address is the one the configuration assigns to
    that agent's name, and the configuration allows the agent to talk to the
    destination: an agent-to-agent rule when the destination is an agent's
    address, an internet rule, and a TUN device to send it to, otherwise. *)
Theorem forwarded_packets_are_authorised (b b' : BlackBox) (f : Z) (raw : list byte) (len : Z)
    (dec : PacketDecision) :
  blackbox_wf b → 0 ≤ len ≤ Z.of_nat (length raw) →
  process AGENT f (Some raw) len b = Ret (dec, b') → action dec ≠ DROP →
  ∃ e, fd_agent b f e ∧ fd e = f ∧
    name_to_ip_ (config_ b) !! name e = Some (packet_src raw) ∧
    (is_agent_ip b (packet_dst raw) ∧
       can_agents_communicate (config_ b) (packet_src raw) (packet_dst raw) = true ∨
     ¬ is_agent_ip b (packet_dst raw) ∧
       can_reach_internet_ip (config_ b) (packet_src raw) (packet_dst raw) = true ∧
       action dec = FORWARD_INTERNET ∧ target_fd dec = tun_fd_ b ∧ 0 ≤ tun_fd_ b).
Proof.
  intros W Hl E Ha. destruct (decide (well_formed raw len)) as [Hw|Hw].
  - destruct (process_policy b AGENT f raw len W Hl Hw) as (dec'&E'&P). rewrite E in E'. injection E' as <- ->.
    destruct (policy_agent_allowed _ _ _ _ _ P Ha) as (e&He&Hs&Hr). exists e.
    pose proof He as (p&Hp&Hpe). split_and!; [done| | |done].
    + apply (rw_fd _ (bw_registry _ W)) in Hp as (e'&?&?). congruence.
    + rewrite Hs. by apply (bw_assigned _ W p).
  - rewrite process_malformed in E by done. by simplify_eq.
Qed.

(** C18: a packet is delivered locally only to the agent that owns its
    destination address, whatever the source: the target descriptor is the
    one of a registered agent to whose name the configuration assigns the
    destination address. *)
Theorem local_delivery_reaches_owner (b b' : BlackBox) (st : SourceType) (f : Z)
    (raw : list byte) (len : Z) (dec : PacketDecision) :
  blackbox_wf b → 0 ≤ len ≤ Z.of_nat (length raw) →
  process st f (Some raw) len b = Ret (dec, b') → action dec = DELIVER_LOCAL →
  ∃ n e, agent (registry_ b) n = Some e ∧ target_fd dec = fd e ∧
    name_to_ip_ (config_ b) !! n = Some (packet_dst raw).
Proof.
  intros W Hl E Ha. destruct (decide (well_formed raw len)) as [Hw|Hw].
  - destruct (process_policy b st f raw len W Hl Hw) as (dec'&E'&P). rewrite E in E'. injection E' as <- ->.
    destruct (policy_delivers _ _ _ _ _ _ P Ha) as (e&(p&Hp&Hpe)&Ht). exists (name e), e.
    split_and!; [apply agent_Some; [apply W|eauto]|done|].
    rewrite (bw_assigned _ W p e Hpe).
    apply (rw_ipv4 _ (bw_registry _ W)) in Hp as (e'&?&?). congruence.
  - rewrite process_malformed in E by done. simplify_eq.
Qed.

(** Conversations between two agents of a switch work in both
    directions.  If a packet from one registered agent is delivered to
    another's descriptor, then any well-formed packet back is delivered to
    the first agent's descriptor. *)
Theorem local_conversation_symmetric (b b1 : BlackBox) (f : Z) (raw raw' : list byte)
    (len len' : Z) (dec : PacketDecision) :
  blackbox_wf b → registry_complete (registry_ b) →
  0 ≤ len ≤ Z.of_nat (length raw) → 0 ≤ len' ≤ Z.of_nat (length raw') →
  process AGENT f (Some raw) len b = Ret (dec, b1) → action dec = DELIVER_LOCAL →
  well_formed raw' len' → packet_src raw' = packet_dst raw → packet_dst raw' = packet_src raw →
  process AGENT (target_fd dec) (Some raw') len' b = Ret (mk_decision DELIVER_LOCAL f 0 NONE, b).
Proof.
  intros W C Hl Hl' E Ha Hw' Hs Hd.
  destruct (decide (well_formed raw len)) as [Hw|Hw];
    [|rewrite process_malformed in E by done; by simplify_eq].
  destruct (process_policy b AGENT f raw len W Hl Hw) as (?&E'&P). rewrite E in E'. injection E' as <- ->.
  destruct (policy_delivers _ _ _ _ _ _ P Ha) as (e2&(p2&Hp2&He2)&Ht).
  destruct (policy_agent_allowed _ _ _ _ _ P) as (e1&(p1&Hp1&He1)&Hs1&[[Hip Hacl]|(_&_&?&_)]);
    [congruence| |congruence].
  pose proof (rw_ipv4 _ (bw_registry _ W) _ _ Hp2) as (?&?&Hv2).
  pose proof (rw_fd _ (bw_registry _ W) _ _ Hp1) as (?&?&Hf1). simplify_eq.
  destruct (process_policy b AGENT (target_fd dec) raw' len' W Hl' Hw') as (dec'&->&P').
  do 2 f_equal. rewrite Hs, Hd, Hs1 in P'. rewrite Hs1 in Hacl.
  eapply policy_unique; [exact P'|]. eapply (AgentRoute _ _ _ _ e2).
  - exists p2. split; [|done]. rewrite Ht. by apply C.
  - done.
  - apply RouteLocal.
    + unfold is_agent_ip. exists (name e1).
      by apply (wf_inverse _ (bw_config _ W)), (bw_assigned _ W p1).
    + apply can_agents_communicate_mem, (wf_agent_sym _ (bw_config _ W)).
      by apply can_agents_communicate_mem.
    + exists p1. split; [|done]. by apply C.
Qed.

(** Return traffic.  If an agent's packet was sent to the internet, then
    a well-formed packet from that internet address to the agent, arriving
    from the TUN device, is delivered to the agent. *)
Theorem internet_return_traffic_allowed (b b1 : BlackBox) (f g : Z) (raw raw' : list byte)
    (len len' : Z) (dec : PacketDecision) :
  blackbox_wf b → 0 ≤ len ≤ Z.of_nat (length raw) → 0 ≤ len' ≤ Z.of_nat (length raw') →
  process AGENT f (Some raw) len b = Ret (dec, b1) → action dec = FORWARD_INTERNET →
  well_formed raw' len' → packet_src raw' = packet_dst raw → packet_dst raw' = packet_src raw →
  process TUN g (Some raw') len' b = Ret (mk_decision DELIVER_LOCAL f 0 NONE, b).
Proof.
  intros W Hl Hl' E Ha Hw' Hs Hd.
  destruct (decide (well_formed raw len)) as [Hw|Hw];
    [|rewrite process_malformed in E by done; by simplify_eq].
  destruct (process_policy b AGENT f raw len W Hl Hw) as (?&E'&P). rewrite E in E'. injection E' as <- ->.
  assert (∃ e p, find_by_fd (registry_ b) f = Some p ∧ entries (registry_ b) !! p = Some e ∧
    packet_src raw = virtual_ipv4 e ∧
    can_reach_internet_ip (config_ b) (packet_src raw) (packet_dst raw) = true)
    as (e&p&Hp&He&Hse&Hacl).
  { inversion P as [| |e ? (p&?&?) Hse Hr| | | | |]; subst; try done.
    exists e, p. split_and!; [done..|]. by destruct Hr. }
  pose proof (rw_fd _ (bw_registry _ W) _ _ Hp) as (?&?&Hf). simplify_eq.
  destruct (process_policy b TUN g raw' len' W Hl' Hw') as (dec'&->&P').
  do 2 f_equal. rewrite Hs, Hd in P'. eapply policy_unique; [exact P'|].
  apply (TunLocal _ _ _ _ e); [|done]. exists p. split; [|done].
  rewrite Hse. by apply (bw_ipv4 _ W).
Qed.

(** A disconnected agent receives nothing.  When each registered agent
    has its own descriptor, after [on_agent_disconnected] no agent is
    registered on the descriptor and no packet is delivered to it. *)
Theorem disconnect_stops_delivery (b b1 b2 : BlackBox) (f g : Z) (st : SourceType)
    (raw : list byte) (len : Z) (dec : PacketDecision) :
  blackbox_wf b → registry_complete (registry_ b) →
  on_agent_disconnected f b = Ret ((), b1) →
  0 ≤ len ≤ Z.of_nat (length raw) → process st g (Some raw) len b1 = Ret (dec, b2) →
  (∀ n e, agent (registry_ b1) n = Some e → fd e ≠ f) ∧
  (action dec = DELIVER_LOCAL → target_fd dec ≠ f).
Proof.
  intros W C Ed Hl E. destruct (disconnected_run b f W) as (r&Er&W1&Hu).
  rewrite Er in Ed. injection Ed as <-. cbn.
  assert (∀ n e, agent r n = Some e → fd e ≠ f) as Hgone.
  { intros n e Hn. pose proof (bw_registry _ W1) as WR1. cbn in WR1.
    apply agent_Some in Hn as (p&Hp&_); [|done]. intros Hf.
    rewrite unregister_by_fd_run in Hu by apply W.
    destruct (by_fd_ (registry_ b) !! f) as [q|] eqn:Eq; cbn in Hu.
    - pose proof Eq as (eq&Heq&_)%(rw_fd _ (bw_registry _ W)). rewrite Heq in Hu. cbn in Hu.
      injection Hu as <-. cbn in Hp. apply lookup_delete_Some in Hp as [? Hp].
      destruct (C p e Hp). congruence.
    - injection Hu as <-. destruct (C p e Hp). congruence. }
  split; [done|]. intros Ha.
  destruct (decide (well_formed raw len)) as [Hw|Hw];
    [|rewrite process_malformed in E by done; by simplify_eq].
  destruct (process_policy _ st g raw len W1 Hl Hw) as (?&E'&P). rewrite E in E'. injection E' as <- ->.
  destruct (policy_delivers _ _ _ _ _ _ P Ha) as (e&(p&_&He)&->).
  apply (Hgone (name e)). apply agent_Some; [apply W1|eauto].
Qed.

(** A lost peer switch is never used again: after
    [on_switch_disconnected] no packet is forwarded to its descriptor, and
    the routes through the other switches are unchanged. *)
Theorem switch_disconnect_drops_routes (b b1 b2 : BlackBox) (f g : Z) (st : SourceType)
    (raw : list byte) (len : Z) (dec : PacketDecision) :
  blackbox_wf b → on_switch_disconnected f b = Ret ((), b1) →
  0 ≤ len ≤ Z.of_nat (length raw) → process st g (Some raw) len b1 = Ret (dec, b2) →
  (action dec = FORWARD_SWITCH → target_fd dec ≠ f) ∧
  (∀ d h, h ≠ f → lookup_route (routing_ b) d = h → lookup_route (routing_ b1) d = h).
Proof.
  intros W Ed Hl E. destruct (switch_disconnected_wf b f W) as (b'&Eb&W1&_).
  rewrite Ed in Eb. injection Eb as <-. injection Ed as <-. split.
  - intros Ha. destruct (decide (well_formed raw len)) as [Hw|Hw];
      [|rewrite process_malformed in E by done; by simplify_eq].
    destruct (process_policy _ st g raw len W1 Hl Hw) as (?&E'&P). rewrite E in E'. injection E' as <- ->.
    apply policy_forwards in P; [|done]. intros Hf. revert P.
    change (routing_ (with_routing ?t b)) with t. rewrite remove_routes_for_switch_lookup.
    case_decide; [done|]. congruence.
  - intros d h Hh. unfold lookup_route. cbn [routing_ with_routing].
    rewrite remove_routes_for_switch_lookup. case_decide as Hr; [|done].
    rewrite Hr. congruence.
Qed.

(** C23: memory safety of the engine.  From a well-formed configuration, any
    sequence of hook calls and packets runs without undefined behaviour,
    whatever names and descriptors the hooks are given and whether or not
    allocations fail, provided each packet buffer holds the bytes it is said
    to hold; the engine stays well-formed. *)
Theorem engine_runs_safely `{Malloc} (c : Config) (t : Z) (evs : list event) :
  config_wf c → Forall event_ok evs →
  ∃ b, run_events evs (BlackBox_new c t) = Ret ((), b) ∧ blackbox_wf b ∧
       config_ b = c ∧ tun_fd_ b = t.
Proof. intros Hc Hok. apply (run_events_wf evs (BlackBox_new c t)); [by apply BlackBox_new_wf|done]. Qed.
End Properties.

(** ** A concrete engine

    Two agents, [a] on descriptor 10 and [g] on 11, that may talk to each
    other; [g] may reach 8.8.8.8; a peer switch on 20 is the route to [h]. *)

Section Witnesses.
#[local] Instance box_order : HostOrder := LittleEndian.
#[local] Instance box_inet : Inet := dotted_quad.
#[local] Instance box_malloc : Malloc := malloc_first_fit.

Definition ip_a : Z := 0x0101000a.
Definition ip_g : Z := 0x0100000a.
Definition ip_h : Z := 0x0201000a.
Definition ip_dns : Z := 0x08080808.

Definition sample_box_text : string :=
  sample_text +:+ String newline ("h 10.0.1.2" +:+ String newline "a h").

Definition sample_box_config : Config := (load (Some sample_box_text) Config_empty).2.

Definition sample_events : list event :=
  [Authenticated "a" 10; Authenticated "g" 11; RouteUpdate ip_h 20].

Definition sample_box : BlackBox :=
  match run_events sample_events (BlackBox_new sample_box_config 100) with
  | Ret (_, b) => b
  | _ => BlackBox_new sample_box_config 100
  end.

Lemma sample_box_config_wf : config_wf sample_box_config.
Proof. apply load_wf, Config_empty_wf. Qed.

Lemma sample_box_wf : blackbox_wf sample_box.
Proof.
  unfold sample_box.
  destruct (run_events_wf sample_events (BlackBox_new sample_box_config 100)) as (b&->&W&_);
    [apply BlackBox_new_wf, sample_box_config_wf|by repeat constructor|done].
Qed.

Lemma sample_box_complete : registry_complete (registry_ sample_box).
Proof.
  assert (map_Forall (λ p e, by_ipv4_ (registry_ sample_box) !! virtual_ipv4 e = Some p ∧
    by_fd_ (registry_ sample_box) !! fd e = Some p) (entries (registry_ sample_box))) as Hf.
  { apply (bool_decide_unpack _). vm_compute. exact I. }
  exact Hf.
Qed.

Definition pkt (s d : Z) : list byte := make_tcp_packet s 1234 d 80.

Lemma pkt_len s d : 0 ≤ 24 ≤ Z.of_nat (length (pkt s d)).
Proof. unfold pkt. rewrite length_make_tcp_packet. lia. Qed.

Lemma pkt_wf s d : well_formed (pkt s d) 24.
Proof. apply make_tcp_packet_well_formed. Qed.

Lemma process_implements_policy_witness :
  policy sample_box 10 (packet_src (pkt ip_a ip_h)) (packet_dst (pkt ip_a ip_h)) AGENT
    (mk_decision FORWARD_SWITCH 20 0 NONE).
Proof.
  destruct (process_implements_policy sample_box sample_box AGENT 10 (pkt ip_a ip_h) 24
    (mk_decision FORWARD_SWITCH 20 0 NONE) sample_box_wf (pkt_len _ _)) as [H _].
  destruct H as [_ H]; [vm_compute; reflexivity|].
  rewrite decide_True in H by apply pkt_wf. exact H.
Defined.

Lemma forwarded_packets_are_authorised_witness :
  ∃ e, fd_agent sample_box 11 e ∧
    name_to_ip_ (config_ sample_box) !! name e = Some (packet_src (pkt ip_g ip_dns)).
Proof.
  destruct (forwarded_packets_are_authorised sample_box sample_box 11 (pkt ip_g ip_dns) 24
    (mk_decision FORWARD_INTERNET 100 0 NONE)) as (e&He&_&Hn&_).
  - apply sample_box_wf.
  - apply pkt_len.
  - vm_compute. reflexivity.
  - done.
  - by exists e.
Defined.

Lemma local_delivery_reaches_owner_witness :
  ∃ n e, agent (registry_ sample_box) n = Some e ∧ 11 = fd e.
Proof.
  destruct (local_delivery_reaches_owner sample_box sample_box AGENT 10 (pkt ip_a ip_g) 24
    (mk_decision DELIVER_LOCAL 11 0 NONE)) as (n&e&He&Ht&_).
  - apply sample_box_wf.
  - apply pkt_len.
  - vm_compute. reflexivity.
  - done.
  - by exists n, e.
Defined.

Lemma local_conversation_symmetric_witness :
  process AGENT 11 (Some (pkt ip_g ip_a)) 24 sample_box =
  Ret (mk_decision DELIVER_LOCAL 10 0 NONE, sample_box).
Proof.
  apply (local_conversation_symmetric sample_box sample_box 10 (pkt ip_a ip_g) (pkt ip_g ip_a)
    24 24 (mk_decision DELIVER_LOCAL 11 0 NONE)).
  - apply sample_box_wf.
  - apply sample_box_complete.
  - apply pkt_len.
  - apply pkt_len.
  - vm_compute. reflexivity.
  - done.
  - apply pkt_wf.
  - vm_compute. reflexivity.
  - vm_compute. reflexivity.
Defined.

Lemma internet_return_traffic_allowed_witness :
  process TUN 100 (Some (pkt ip_dns ip_g)) 24 sample_box =
  Ret (mk_decision DELIVER_LOCAL 11 0 NONE, sample_box).
Proof.
  apply (internet_return_traffic_allowed sample_box sample_box 11 100 (pkt ip_g ip_dns)
    (pkt ip_dns ip_g) 24 24 (mk_decision FORWARD_INTERNET 100 0 NONE)).
  - apply sample_box_wf.
  - apply pkt_len.
  - apply pkt_len.
  - vm_compute. reflexivity.
  - done.
  - apply pkt_wf.
  - vm_compute. reflexivity.
  - vm_compute. reflexivity.
Defined.

(** The engine after a hook, for the concrete runs. *)
Definition after_hook (m : M BlackBox ()) : BlackBox :=
  match m sample_box with Ret (_, b) => b | _ => sample_box end.

Lemma disconnect_stops_delivery_witness :
  registry_size (registry_ (after_hook (on_agent_disconnected 11))) = 1%nat ∧
  ∀ n e, agent (registry_ (after_hook (on_agent_disconnected 11))) n = Some e → fd e ≠ 11.
Proof.
  split; [vm_compute; reflexivity|].
  apply (disconnect_stops_delivery sample_box (after_hook (on_agent_disconnected 11))
    (after_hook (on_agent_disconnected 11)) 11 10 AGENT (pkt ip_a ip_g) 24
    (mk_decision REQUEST_ROUTE (-1) ip_g NONE)).
  - apply sample_box_wf.
  - apply sample_box_complete.
  - vm_compute. reflexivity.
  - apply pkt_len.
  - vm_compute. reflexivity.
Defined.

Lemma switch_disconnect_drops_routes_witness :
  lookup_route (routing_ sample_box) ip_h = 20 ∧
  ∀ d h, h ≠ 20 → lookup_route (routing_ sample_box) d = h →
    lookup_route (routing_ (after_hook (on_switch_disconnected 20))) d = h.
Proof.
  split; [vm_compute; reflexivity|].
  apply (switch_disconnect_drops_routes sample_box (after_hook (on_switch_disconnected 20))
    (after_hook (on_switch_disconnected 20)) 20 10 AGENT (pkt ip_a ip_h) 24
    (mk_decision REQUEST_ROUTE (-1) ip_h NONE)).
  - apply sample_box_wf.
  - vm_compute. reflexivity.
  - apply pkt_len.
  - vm_compute. reflexivity.
Defined.

Lemma engine_runs_safely_witness :
  ∃ b, run_events sample_events (BlackBox_new sample_box_config 100) = Ret ((), b) ∧
       blackbox_wf b.
Proof.
  destruct (engine_runs_safely sample_box_config 100 sample_events) as (b&E&W&_).
  - apply sample_box_config_wf.
  - by repeat constructor.
  - by exists b.
Defined.
End Witnesses.
