(* ===== verification/Network.v ===== *)
(** * Two switches

    The packet engines of two switches with the same configuration: what the
    decisions of src/blackbox/blackbox.cpp mean together, for a packet that
    the first one forwards and the second one delivers, and for the reply. *)
From stdpp Require Import base list gmap sets strings.
From Stdlib Require Import ZArith Lia.
From S2P Require Import Prelude Bytes IPv4 Inet Config Routing Registry BlackBox.

#[local] Open Scope Z_scope.

Section Network.
Context `{HostOrder}.

(** A decision other than a malformed packet is one of the policy. *)
Lemma decided_by_policy b b' st f raw len dec :
  blackbox_wf b → 0 ≤ len ≤ Z.of_nat (length raw) → process st f (Some raw) len b = Ret (dec, b') →
  dec ≠ drop MALFORMED_PACKET →
  b' = b ∧ well_formed raw len ∧ policy b f (packet_src raw) (packet_dst raw) st dec.
Proof.
  intros W Hl E Hd. destruct (decide (well_formed raw len)) as [Hw|Hw].
  - destruct (process_policy b st f raw len W Hl Hw) as (dec'&E'&P). rewrite E in E'. by injection E' as <- ->.
  - rewrite process_malformed in E by done. by injection E as <- <-.
Qed.

(** The agent of a registry that a lookup finds. *)
Lemma local_agent_owner b a e :
  blackbox_wf b → local_agent b a e →
  agent (registry_ b) (name e) = Some e ∧ virtual_ipv4 e = a ∧ name_to_ip_ (config_ b) !! name e = Some a.
Proof.
  intros W (p&Hp&He). apply (rw_ipv4 _ (bw_registry _ W)) in Hp as (e'&He'&Ha). simplify_eq.
  split_and!; [apply agent_Some; [apply W|eauto]|done|by apply (bw_assigned _ W p)].
Qed.

Lemma fd_agent_owner b f e :
  blackbox_wf b → fd_agent b f e →
  agent (registry_ b) (name e) = Some e ∧ fd e = f ∧
  name_to_ip_ (config_ b) !! name e = Some (virtual_ipv4 e) ∧ local_agent b (virtual_ipv4 e) e.
Proof.
  intros W (p&Hp&He). apply (rw_fd _ (bw_registry _ W)) in Hp as (e'&He'&Ha). simplify_eq.
  split_and!; [apply agent_Some; [apply W|eauto]|done|by apply (bw_assigned _ W p)|].
  exists p. split; [by apply (bw_ipv4 _ W)|done].
Qed.

(** C15: a conversation across two switches.  If the first switch forwards a packet of one of its
    agents and the second delivers it, then the sender is the agent registered on that descriptor,
    under its own address; the receiver is the agent of the second switch to whose name the
    configuration assigns the destination; and the configuration allows the two to communicate.
    And when the second switch has a route back, it forwards any reply of the receiver along it,
    and the first switch delivers the reply to the sender. *)
Theorem conversation_across_switches (b1 b1' b2 b2' : BlackBox) (f g : Z) (raw : list byte) (len : Z)
    (dec1 dec2 : PacketDecision) :
  blackbox_wf b1 → blackbox_wf b2 → registry_complete (registry_ b2) → config_ b2 = config_ b1 →
  0 ≤ len ≤ Z.of_nat (length raw) →
  process AGENT f (Some raw) len b1 = Ret (dec1, b1') → action dec1 = FORWARD_SWITCH →
  process SWITCH g (Some raw) len b2 = Ret (dec2, b2') → action dec2 = DELIVER_LOCAL →
  (∃ n1 e1 n2 e2, agent (registry_ b1) n1 = Some e1 ∧ fd e1 = f ∧
     name_to_ip_ (config_ b1) !! n1 = Some (packet_src raw) ∧
     agent (registry_ b2) n2 = Some e2 ∧ fd e2 = target_fd dec2 ∧
     name_to_ip_ (config_ b1) !! n2 = Some (packet_dst raw) ∧
     can_agents_communicate (config_ b1) (packet_src raw) (packet_dst raw) = true) ∧
  ∀ raw' len' h r,
    0 ≤ len' ≤ Z.of_nat (length raw') → well_formed raw' len' →
    packet_src raw' = packet_dst raw → packet_dst raw' = packet_src raw →
    no_local_agent b2 (packet_src raw) → routes_ (routing_ b2) !! packet_src raw = Some r →
    process AGENT (target_fd dec2) (Some raw') len' b2 = Ret (mk_decision FORWARD_SWITCH r 0 NONE, b2) ∧
    process SWITCH h (Some raw') len' b1 = Ret (mk_decision DELIVER_LOCAL f 0 NONE, b1).
Proof.
  intros W1 W2 C2 Hcfg Hl E1 Ha1 E2 Ha2.
  destruct (decided_by_policy b1 b1' AGENT f raw len dec1 W1 Hl E1) as (->&_&P1); [by intros ->|].
  destruct (decided_by_policy b2 b2' SWITCH g raw len dec2 W2 Hl E2) as (->&_&P2); [by intros ->|].
  destruct (policy_agent_allowed _ _ _ _ _ P1) as (e1&He1&Hs&[[Hip Hacl]|(_&_&?&_)]); [congruence| |congruence].
  destruct (policy_delivers _ _ _ _ _ _ P2 Ha2) as (e2&He2&Ht).
  destruct (fd_agent_owner b1 f e1 W1 He1) as (Hn1&Hf1&Hc1&Hloc1). rewrite <-Hs in Hc1, Hloc1.
  destruct (local_agent_owner b2 _ e2 W2 He2) as (Hn2&Hv2&Hc2). rewrite Hcfg in Hc2.
  split; [by exists (name e1), e1, (name e2), e2|].
  intros raw' len' h r Hl' Hw' Hsrc Hdst Hno Hr. split.
  - destruct (process_policy b2 AGENT (target_fd dec2) raw' len' W2 Hl' Hw') as (dec'&->&P').
    do 2 f_equal. rewrite Hsrc, Hdst in P'. eapply policy_unique; [exact P'|].
    destruct He2 as (p2&_&Hp2). apply (AgentRoute _ _ _ _ e2); [|by rewrite Hv2|].
    + exists p2. rewrite Ht. split; [by apply C2|done].
    + apply RouteRemote; [|rewrite Hcfg|done|done].
      * unfold is_agent_ip. rewrite Hcfg. exists (name e1). by apply (wf_inverse _ (bw_config _ W1)).
      * apply can_agents_communicate_mem, (wf_agent_sym _ (bw_config _ W1)).
        by apply can_agents_communicate_mem.
  - destruct (process_policy b1 SWITCH h raw' len' W1 Hl' Hw') as (dec'&->&P').
    do 2 f_equal. rewrite Hsrc, Hdst in P'. eapply policy_unique; [exact P'|]. rewrite <-Hf1.
    by apply SwitchLocal.
Qed.
End Network.

(** ** A concrete network

    The engine of [BlackBox]'s examples, whose route to [h] is the switch on
    descriptor 20, and that switch: [h] on 40, and the route to [a] on 30. *)

#[local] Instance net_order : HostOrder := LittleEndian.
#[local] Instance net_malloc : Malloc := malloc_first_fit.

Definition peer_events : list event := [Authenticated "h" 40; RouteUpdate ip_a 30].
Definition peer_box : BlackBox :=
  match run_events peer_events (BlackBox_new sample_box_config 200) with
  | Ret (_, b) => b
  | _ => BlackBox_new sample_box_config 200
  end.

Lemma peer_box_wf : blackbox_wf peer_box.
Proof.
  unfold peer_box.
  destruct (run_events_wf peer_events (BlackBox_new sample_box_config 200)) as (b&->&W&_);
    [apply BlackBox_new_wf, sample_box_config_wf|by repeat constructor|done].
Qed.

Lemma peer_box_complete : registry_complete (registry_ peer_box).
Proof.
  assert (map_Forall (λ p e, by_ipv4_ (registry_ peer_box) !! virtual_ipv4 e = Some p ∧
    by_fd_ (registry_ peer_box) !! fd e = Some p) (entries (registry_ peer_box))) as Hf.
  { apply (bool_decide_unpack _). vm_compute. exact I. }
  exact Hf.
Qed.

Lemma conversation_across_switches_witness :
  process AGENT 40 (Some (pkt ip_h ip_a)) 24 peer_box = Ret (mk_decision FORWARD_SWITCH 30 0 NONE, peer_box) ∧
  process SWITCH 20 (Some (pkt ip_h ip_a)) 24 sample_box = Ret (mk_decision DELIVER_LOCAL 10 0 NONE, sample_box).
Proof.
  destruct (conversation_across_switches sample_box sample_box peer_box peer_box 10 30 (pkt ip_a ip_h) 24
    (mk_decision FORWARD_SWITCH 20 0 NONE) (mk_decision DELIVER_LOCAL 40 0 NONE)) as [_ Hreply].
  - apply sample_box_wf.
  - apply peer_box_wf.
  - apply peer_box_complete.
  - vm_compute. reflexivity.
  - apply pkt_len.
  - vm_compute. reflexivity.
  - done.
  - vm_compute. reflexivity.
  - done.
  - apply (Hreply (pkt ip_h ip_a) 24 20 30).
    + apply pkt_len.
    + apply pkt_wf.
    + vm_compute. reflexivity.
    + vm_compute. reflexivity.
    + intros e (p&Hp&_). vm_compute in Hp. discriminate Hp.
    + vm_compute. reflexivity.
Defined.
