(* ===== verification/Framing.v ===== *)
(** * Framing of a byte stream into packets

    The reference the read path of the queue and the blocking helpers are
    compared with: a stream is a sequence of frames, each a 6-byte header
    (payload size and type, big-endian) followed by the payload.  [frame] is
    what the send paths write, [split_frames] cuts a stream into the complete
    frames it starts with and the bytes left over. *)
From stdpp Require Import base option list gmap.
From Stdlib Require Import ZArith Lia.
From S2P Require Import Prelude Bytes Protocol.

#[local] Open Scope Z_scope.

(** A packet: its type and its payload. *)
Abbreviation packet := (Z * list byte)%type.

(** The payload size and the type in the header a stream starts with. *)
Definition stream_size (bs : list byte) : Z := be_combine (take 4 bs).
Definition stream_type (bs : list byte) : Z := be_combine (take 2 (drop 4 bs)).

(** The first packet of a stream and what follows it. *)
Definition parse_frame (bs : list byte) : option (packet * list byte) :=
  if decide (length bs < 6)%nat then None
  else
    let n := Z.to_nat (stream_size bs) in
    if decide (length bs < 6 + n)%nat then None
    else Some ((stream_type bs, take n (drop 6 bs)), drop (6 + n) bs).

Fixpoint split_frames_aux (fuel : nat) (bs : list byte) : list packet * list byte :=
  match fuel with
  | O => ([], bs)
  | S fuel =>
    match parse_frame bs with
    | None => ([], bs)
    | Some (fr, rest) => let '(frs, tail) := split_frames_aux fuel rest in (fr :: frs, tail)
    end
  end.

(** A frame is not empty, so the length of the stream is enough fuel. *)
Definition split_frames (bs : list byte) : list packet * list byte :=
  split_frames_aux (length bs) bs.

Lemma parse_frame_shorter bs fr rest :
  parse_frame bs = Some (fr, rest) → (length rest < length bs)%nat.
Proof.
  unfold parse_frame. destruct (decide (length bs < 6)%nat); [done|].
  destruct (decide (length bs < _)%nat); [done|]. intros [= _ <-].
  rewrite length_drop. lia.
Qed.

Lemma split_frames_aux_fuel n m bs :
  (length bs ≤ n)%nat → (length bs ≤ m)%nat → split_frames_aux n bs = split_frames_aux m bs.
Proof.
  revert m bs. induction n as [|n IH]; intros [|m] bs Hn Hm; try done.
  - by destruct bs; [|cbn in *; lia].
  - by destruct bs; [|cbn in *; lia].
  - cbn. destruct (parse_frame bs) as [[fr rest]|] eqn:Hp; [|done].
    apply parse_frame_shorter in Hp. rewrite (IH m) by lia. done.
Qed.

Lemma split_frames_some bs fr rest :
  parse_frame bs = Some (fr, rest) →
  split_frames bs = (fr :: (split_frames rest).1, (split_frames rest).2).
Proof.
  intros Hp. pose proof (parse_frame_shorter _ _ _ Hp) as Hl. unfold split_frames.
  destruct (length bs) as [|n] eqn:E; [lia|]. cbn. rewrite Hp.
  rewrite (split_frames_aux_fuel n (length rest)) by lia.
  by destruct (split_frames_aux _ _).
Qed.

Lemma split_frames_none bs : parse_frame bs = None → split_frames bs = ([], bs).
Proof. intros Hp. unfold split_frames. destruct (length bs); cbn; [done|]. by rewrite Hp. Qed.

(** Induction on a stream, one frame at a time. *)
Lemma stream_ind (P : list byte → Prop) :
  (∀ bs, parse_frame bs = None → P bs) →
  (∀ bs fr rest, parse_frame bs = Some (fr, rest) → P rest → P bs) →
  ∀ bs, P bs.
Proof.
  intros Hn Hs bs. remember (length bs) as n eqn:E. revert bs E.
  induction (lt_wf n) as [n _ IH]. intros bs ->.
  destruct (parse_frame bs) as [[fr rest]|] eqn:Hp; [|by apply Hn].
  eapply Hs; [done|]. by eapply IH; [eapply parse_frame_shorter|].
Qed.

Section Frame.
Context `{HostOrder}.

(** The bytes [send] and [send_protobuf_packet] put on the wire for a packet. *)
Definition frame (pkt : packet) : list byte :=
  header_bytes (PacketHeader_make (Z.of_nat (length pkt.2)) pkt.1) ++ pkt.2.

Definition frames (pkts : list packet) : list byte := concat (frame <$> pkts).

(** A packet whose size and type fit the header. *)
Definition packet_wf (pkt : packet) : Prop :=
  in_width 32 (Z.of_nat (length pkt.2)) ∧ in_width 16 pkt.1.

Lemma frames_cons pkt pkts : frames (pkt :: pkts) = frame pkt ++ frames pkts.
Proof. done. Qed.

Lemma stream_size_bound bs : in_width 32 (stream_size bs).
Proof.
  unfold stream_size, in_width. pose proof (be_combine_bound (take 4 bs)) as Hb.
  assert (256 ^ Z.of_nat (length (take 4 bs)) ≤ 2 ^ 32); [|lia].
  change (2 ^ 32) with (256 ^ 4). apply Z.pow_le_mono_r; [lia|]. rewrite length_take. lia.
Qed.

Lemma stream_type_bound bs : in_width 16 (stream_type bs).
Proof.
  unfold stream_type, in_width. pose proof (be_combine_bound (take 2 (drop 4 bs))) as Hb.
  assert (256 ^ Z.of_nat (length (take 2 (drop 4 bs))) ≤ 2 ^ 16); [|lia].
  change (2 ^ 16) with (256 ^ 2). apply Z.pow_le_mono_r; [lia|]. rewrite length_take. lia.
Qed.

Lemma length_frame pkt : length (frame pkt) = (6 + length pkt.2)%nat.
Proof. unfold frame. by rewrite length_app, length_header_bytes. Qed.

(** A frame starts with its size and its type, in network order. *)
Lemma frame_fields pkt rest : packet_wf pkt →
  stream_size (frame pkt ++ rest) = Z.of_nat (length pkt.2) ∧
  stream_type (frame pkt ++ rest) = pkt.1 ∧
  drop 6 (frame pkt ++ rest) = pkt.2 ++ rest.
Proof.
  intros [H4 H2]. unfold stream_size, stream_type, frame. rewrite header_bytes_make, <-!app_assoc.
  split; [|split].
  - rewrite take_app_length' by by rewrite length_be_split.
    rewrite be_combine_split. by apply Z.mod_small.
  - rewrite drop_app_length' by by rewrite length_be_split.
    rewrite take_app_length' by by rewrite length_be_split.
    rewrite be_combine_split. by apply Z.mod_small.
  - rewrite (app_assoc (be_split 4 _)), drop_app_length'; [done|].
    by rewrite length_app, !length_be_split.
Qed.

Lemma parse_frame_app pkt rest :
  packet_wf pkt → parse_frame (frame pkt ++ rest) = Some (pkt, rest).
Proof.
  intros Hw. destruct (frame_fields pkt rest Hw) as (Hs&Ht&Hd). unfold parse_frame.
  rewrite Hs, Ht, Nat2Z.id, <-drop_drop, Hd, length_app, length_frame.
  do 2 (rewrite decide_False by lia).
  rewrite take_app_length, drop_app_length. by destruct pkt.
Qed.

Lemma parse_frame_inv bs pkt rest :
  parse_frame bs = Some (pkt, rest) → packet_wf pkt ∧ bs = frame pkt ++ rest.
Proof.
  unfold parse_frame. destruct (decide (length bs < 6)%nat) as [|H1]; [done|].
  destruct (decide (length bs < _)%nat) as [|H2]; [done|].
  intros [= <- <-]. pose proof (stream_size_bound bs) as Hb. pose proof (stream_type_bound bs) as Ht.
  assert (length (take (Z.to_nat (stream_size bs)) (drop 6 bs)) = Z.to_nat (stream_size bs)) as Hl.
  { rewrite length_take, length_drop. lia. }
  unfold packet_wf, frame; cbn. rewrite Hl, Z2Nat.id by apply Hb. split; [done|].
  rewrite header_bytes_make. unfold stream_size at 1, stream_type.
  rewrite !be_split_combine by (rewrite length_take, ?length_drop; lia).
  rewrite <-!app_assoc.
  assert (take (Z.to_nat (stream_size bs)) (drop 6 bs) ++ drop (6 + Z.to_nat (stream_size bs)) bs
    = drop 2 (drop 4 bs)) as E by by rewrite <-drop_drop, take_drop, drop_drop.
  etrans; [|apply (f_equal (app _)), (f_equal (app _)); symmetry; exact E]. by rewrite !take_drop.
Qed.

(** Writing the packets of a stream back gives the stream. *)
Lemma frames_split_frames bs :
  frames (split_frames bs).1 ++ (split_frames bs).2 = bs ∧
  Forall packet_wf (split_frames bs).1 ∧ parse_frame (split_frames bs).2 = None.
Proof.
  induction bs as [bs Hp|bs pkt rest Hp (IH1&IH2&IH3)] using stream_ind.
  - rewrite split_frames_none by done. by split_and!; [|constructor|].
  - rewrite (split_frames_some _ _ _ Hp). cbn [fst snd].
    destruct (parse_frame_inv _ _ _ Hp) as [Hw E]. rewrite frames_cons.
    rewrite <-app_assoc, IH1. by split_and!; [|constructor|].
Qed.

(** Cutting the stream of a list of packets gives the packets. *)
Lemma split_frames_frames pkts rest :
  Forall packet_wf pkts → parse_frame rest = None →
  split_frames (frames pkts ++ rest) = (pkts, rest).
Proof.
  intros Hw Hr. induction Hw as [|pkt pkts Hp Hw IH]; [by apply split_frames_none|].
  rewrite frames_cons, <-app_assoc.
  rewrite (split_frames_some _ pkt (frames pkts ++ rest)) by by apply parse_frame_app.
  by rewrite IH.
Qed.
End Frame.
