(* ===== verification/NetQueue.v ===== *)
(** * The network queue

    Models src/netqueue/ and include/vnet/netqueue/: the per-descriptor state
    machine, the queue's operations on its elements, the framing of the byte
    stream into packets, and the buffered write path.

    The elements are heap objects ([elements] is the heap): an access to an
    element that was deleted is [Undef UseAfterFree].  [net_buffer] is the part
    of the 66000-byte array written so far, a write past its end is
    [Undef BufferOverflow] and a read of bytes never written
    [Undef OutOfBounds].  The handlers are arguments of the operations that
    call them, since they are computations on the state that holds the queue.
    The loops whose end depends on the kernel take fuel. *)
From stdpp Require Import base option list gmap sets.
From Stdlib Require Import ZArith Lia.
From S2P Require Import Prelude Bytes Kernel Protocol.

#[local] Open Scope Z_scope.

(** ** Data *)

Inductive FiniteStateMachine : Type :=
  | TUN_RECEIVE | TUN_READY | TUN_ERROR | TUN_EOF
  | SCK_HEADER | SCK_PAYLOAD | SCK_READY | SCK_ERROR | SCK_EOF.

#[export] Instance FiniteStateMachine_eq_dec : EqDecision FiniteStateMachine.
Proof. solve_decision. Defined.

Definition NET_BUFFER_SIZE : Z := 66000.
Definition WRITE_BUFFER_MAX : Z := 65536.
Definition EPOLL_MAX_EVENTS : Z := 32.

Record NetworkElement : Type := mk_element {
  el_state : FiniteStateMachine;
  el_fd : Z;
  el_ptr : option loc;
  net_buffer_used : Z;          (* size_t *)
  net_buffer : list byte;       (* the bytes of the array written so far *)
  write_buffer : list byte;
  write_buffer_offset : Z       (* size_t *)
}.

(** The constructor leaves [net_buffer] uninitialised. *)
Definition NetworkElement_new (fd : Z) (ptr : option loc) (state : FiniteStateMachine) :
    NetworkElement := mk_element state fd ptr 0 [] [] 0.

Definition with_state (s : FiniteStateMachine) (e : NetworkElement) : NetworkElement :=
  mk_element s (el_fd e) (el_ptr e) (net_buffer_used e) (net_buffer e)
    (write_buffer e) (write_buffer_offset e).
Definition with_used (n : Z) (e : NetworkElement) : NetworkElement :=
  mk_element (el_state e) (el_fd e) (el_ptr e) n (net_buffer e)
    (write_buffer e) (write_buffer_offset e).
Definition with_net_buffer (bs : list byte) (e : NetworkElement) : NetworkElement :=
  mk_element (el_state e) (el_fd e) (el_ptr e) (net_buffer_used e) bs
    (write_buffer e) (write_buffer_offset e).
Definition with_write_buffer (bs : list byte) (off : Z) (e : NetworkElement) : NetworkElement :=
  mk_element (el_state e) (el_fd e) (el_ptr e) (net_buffer_used e) (net_buffer e) bs off.

Inductive close_reason : Type := CLOSE_ERROR | CLOSE_EPOLL | CLOSE_HANGUP.

(** A pointer into the receive buffer of an element. *)
Record buffer_ptr : Type := mk_buffer_ptr { buf_element : loc; buf_offset : Z }.

Record close_data : Type := mk_close_data {
  cd_net_element : loc; cd_ptr_data : option loc; cd_fd : Z; cd_reason : close_reason
}.
Record socket_data : Type := mk_socket_data {
  sd_net_element : loc; sd_ptr_data : option loc; sd_fd : Z;
  sd_packet_type : PacketType; sd_packet_buffer : buffer_ptr; sd_payload_size : Z;
  sd_full_buffer : buffer_ptr; sd_full_buffer_size : Z
}.
Record tun_data : Type := mk_tun_data {
  td_net_element : loc; td_ptr_data : option loc; td_fd : Z;
  td_ip_buffer : buffer_ptr; td_ip_buffer_size : Z
}.

(** The three function pointers ([None] is a null pointer) and their first
    argument, of a type [D] the queue does not look at. *)
Record NetworkQueueHandler (D W : Type) : Type := mk_handler {
  h_onClose : option (option D → close_data → M W ());
  h_onSocketReady : option (option D → socket_data → M W ());
  h_onTunReady : option (option D → tun_data → M W ());
  h_ptr_data : option D
}.
Arguments mk_handler {D W}.
Arguments h_onClose {D W}.
Arguments h_onSocketReady {D W}.
Arguments h_onTunReady {D W}.
Arguments h_ptr_data {D W}.

Definition doNothingOnClose {D W} (_ : option D) (_ : close_data) : M W () := mret ().
Definition doNothingOnSocketReady {D W} (_ : option D) (_ : socket_data) : M W () := mret ().
Definition doNothingOnTunReady {D W} (_ : option D) (_ : tun_data) : M W () := mret ().

(** The default member initialisers. *)
Definition NetworkQueueHandler_default {D W} : NetworkQueueHandler D W :=
  mk_handler (Some doNothingOnClose) (Some doNothingOnSocketReady) (Some doNothingOnTunReady) None.

(** A call through a function pointer. *)
Definition call {D W X} (f : option (option D → X → M W ())) (d : option D) (x : X) : M W () :=
  match f with
  | None => undef NullDeref
  | Some f => f d x
  end.

Record NetQueue : Type := mk_queue {
  epoll_fd : Z;
  epoll_timeout : Z;
  elements : gmap loc NetworkElement;
  fd_to_network_element : gmap Z loc
}.

Definition with_elements (es : gmap loc NetworkElement) (q : NetQueue) : NetQueue :=
  mk_queue (epoll_fd q) (epoll_timeout q) es (fd_to_network_element q).
Definition with_fds (m : gmap Z loc) (q : NetQueue) : NetQueue :=
  mk_queue (epoll_fd q) (epoll_timeout q) (elements q) m.

(** Whether inserting a new key into the map succeeds in allocating its node. *)
Class NodeAlloc : Type := node_alloc : gmap Z loc → bool.

(** The state of a process: its queue, the kernel and the state of its handlers. *)
Record World `{K : Kernel} (A : Type) : Type := mk_world {
  queue : NetQueue;
  kern : kernel;
  app : A
}.
Arguments mk_world {K A}.
Arguments queue {K A}.
Arguments kern {K A}.
Arguments app {K A}.

Section NetQueue.
Context `{HostOrder} `{K : Kernel} `{Malloc} `{NodeAlloc} {A D : Type}.
Abbreviation W := (@World K A).
Implicit Types (p : loc) (w : W).

Definition set_queue (q : NetQueue) w : W := mk_world q (kern w) (app w).
Definition set_kern (k : kernel) w : W := mk_world (queue w) k (app w).
Definition set_app (a : A) w : W := mk_world (queue w) (kern w) a.

Definition syscall {R} (f : kernel → R * kernel) : M W R := λ w,
  let '(r, k) := f (kern w) in Ret (r, set_kern k w).

(** The state of the handlers. *)
Definition get_app : M W A := λ w, Ret (app w, w).
Definition modify_app (f : A → A) : M W () := λ w, Ret ((), set_app (f (app w)) w).

(** ** Access to the elements *)

Definition deref p : M W NetworkElement := λ w,
  match elements (queue w) !! p with
  | Some e => Ret (e, w)
  | None => Undef UseAfterFree
  end.
Definition set_element p (e : NetworkElement) w : W :=
  set_queue (with_elements (<[p := e]> (elements (queue w))) (queue w)) w.
Definition update p (f : NetworkElement → NetworkElement) : M W () := λ w,
  match elements (queue w) !! p with
  | Some e => Ret ((), set_element p (f e) w)
  | None => Undef UseAfterFree
  end.
Definition delete_element p : M W () := λ w,
  match elements (queue w) !! p with
  | Some _ => Ret ((), set_queue (with_elements (delete p (elements (queue w))) (queue w)) w)
  | None => Undef UseAfterFree
  end.

(** The bytes [bs] stored at [off] in the receive buffer. *)
Definition overwrite (off : Z) (bs buf : list byte) : list byte :=
  take (Z.to_nat off) buf ++ bs ++ drop (Z.to_nat off + length bs) buf.

(** [read (fd, net_buffer + off, n)]: the number of bytes read. *)
Definition read_into p (fd off n : Z) : M W (Z + errno) :=
  r ← syscall (sys_read fd n);
  match r with
  | inr err => mret (inr err)
  | inl bs =>
    e ← deref p;
    if NET_BUFFER_SIZE <? off + Z.of_nat (length bs) then undef BufferOverflow
    else if Z.of_nat (length (net_buffer e)) <? off then undef OutOfBounds
    else
      update p (with_net_buffer (overwrite off bs (net_buffer e)));;
      mret (inl (Z.of_nat (length bs)))
  end.

(** The [n] bytes at a pointer into a receive buffer. *)
Definition load_buffer (b : buffer_ptr) (n : Z) : M W (list byte) :=
  e ← deref (buf_element b);
  if Z.of_nat (length (net_buffer e)) <? buf_offset b + n then undef OutOfBounds
  else mret (take (Z.to_nat n) (drop (Z.to_nat (buf_offset b)) (net_buffer e))).

(** The receive buffer cast to a packet header. *)
Definition load_header p : M W PacketHeader :=
  bs ← load_buffer (mk_buffer_ptr p 0) PACKET_HEADER_SIZE;
  mret (header_of_bytes bs).

(** ** Lookup, insertion, removal *)

Definition get_network_element_from_fd (fd : Z) : M W (option loc) := λ w,
  Ret (fd_to_network_element (queue w) !! fd, w).

(** [operator new] of an element initialised to [e]. *)
Definition new_element (e : NetworkElement) : M W (option loc) := λ w,
  match malloc (elements (queue w)) with
  | None => Ret (None, w)
  | Some p => Ret (Some p, set_element p e w)
  end.

Definition insert_fd (fd : Z) p : M W () := λ w,
  Ret ((), set_queue (with_fds (<[fd := p]> (fd_to_network_element (queue w))) (queue w)) w).
Definition erase_fd (fd : Z) : M W () := λ w,
  Ret ((), set_queue (with_fds (delete fd (fd_to_network_element (queue w))) (queue w)) w).

(** Whether [fd_to_network_element[fd] = ...] completes. *)
Definition can_insert_fd (fd : Z) : M W bool := λ w,
  let m := fd_to_network_element (queue w) in
  Ret (bool_decide (is_Some (m !! fd)) || node_alloc m, w).

Definition epoll_ctl (op : epoll_op) (fd : Z) (ev : option epoll_event) : M W bool := λ w,
  syscall (sys_epoll_ctl (epoll_fd (queue w)) op fd ev) w.

Definition real_close (fd : Z) : M W () := syscall (λ k, ((), sys_close fd k)).

Definition put (fd : Z) (data : option loc) (state : FiniteStateMachine) : M W (option loc) :=
  element ← new_element (NetworkElement_new fd data state);
  match element with
  | None => mret None
  | Some p =>
    let event := mk_event true false false false p in
    added ← epoll_ctl EPOLL_CTL_ADD fd (Some event);
    if negb added then delete_element p;; mret None
    else
      inserted ← can_insert_fd fd;
      if inserted : bool then insert_fd fd p;; mret (Some p)
      else
        delete_element p;;
        _ ← epoll_ctl EPOLL_CTL_DEL fd (Some event);
        mret None
  end.

Definition put_tun (tun_fd : Z) (data : option loc) : M W (option loc) := put tun_fd data TUN_RECEIVE.
Definition put_sck (sck_fd : Z) (data : option loc) : M W (option loc) := put sck_fd data SCK_HEADER.

(** [close (NetworkElement* )] *)
Definition close_element (element : option loc) : M W () :=
  match element with
  | None => mret ()
  | Some p =>
    e ← deref p;
    let fd := el_fd e in
    it ← get_network_element_from_fd fd;
    if bool_decide (it = Some p) then
      _ ← epoll_ctl EPOLL_CTL_DEL fd None;
      real_close fd;;
      delete_element p;;
      erase_fd fd
    else mret ()
  end.

(** [close (int)] *)
Definition close_fd (fd : Z) : M W () :=
  element ← get_network_element_from_fd fd;
  match element with
  | None => mret ()
  | Some p => close_element (Some p)
  end.

(** ** The write path *)

Fixpoint flush_write_buffer (fuel : nat) p : M W bool :=
  match fuel with
  | O => no_fuel
  | S fuel =>
    e ← deref p;
    let size := Z.of_nat (length (write_buffer e)) in
    if write_buffer_offset e <? size then
      r ← syscall (sys_write (el_fd e) (drop (Z.to_nat (write_buffer_offset e)) (write_buffer e)));
      match r with
      | inr EINTR => flush_write_buffer fuel p
      | inr EAGAIN => mret true
      | inr EOTHER => mret false
      | inl r =>
        if r =? 0 then mret false
        else
          update p (with_write_buffer (write_buffer e) (u64 (write_buffer_offset e + r)));;
          flush_write_buffer fuel p
      end
    else
      update p (with_write_buffer [] 0);;
      _ ← epoll_ctl EPOLL_CTL_MOD (el_fd e) (Some (mk_event true false false false p));
      mret true
  end.

(** The direct writes of [send]: [total] bytes of [data] are already written. *)
Fixpoint send_direct (fuel : nat) (fd : Z) p (data : list byte) (total : Z) : M W bool :=
  match fuel with
  | O => no_fuel
  | S fuel =>
    let n := Z.of_nat (length data) in
    if total <? n then
      r ← syscall (sys_write fd (drop (Z.to_nat total) data));
      match r with
      | inr EINTR => send_direct fuel fd p data total
      | inr EAGAIN =>
        let remaining := u64 (n - total) in
        if WRITE_BUFFER_MAX <? remaining then
          update p (with_state SCK_ERROR);; mret false
        else
          update p (with_write_buffer (drop (Z.to_nat total) data) 0);;
          _ ← epoll_ctl EPOLL_CTL_MOD fd (Some (mk_event true true false false p));
          mret true
      | inr EOTHER => mret false
      | inl r =>
        if r =? 0 then mret false else send_direct fuel fd p data (u64 (total + r))
      end
    else mret true
  end.

(** [send (int, const void*, size_t)] *)
Definition send (fuel : nat) (fd : Z) (data : list byte) : M W bool :=
  element ← get_network_element_from_fd fd;
  match element with
  | None => mret false
  | Some p =>
    e ← deref p;
    if bool_decide (write_buffer e = []) then send_direct fuel fd p data 0
    else
      let already_buffered := u64 (Z.of_nat (length (write_buffer e)) - write_buffer_offset e) in
      if WRITE_BUFFER_MAX <? u64 (already_buffered + Z.of_nat (length data)) then
        update p (with_state SCK_ERROR);; mret false
      else
        update p (with_write_buffer (write_buffer e ++ data) (write_buffer_offset e));;
        mret true
  end.

(** [send (int, PacketType, const Message&)]; [body] is the serialized
    message, [None] when SerializeToString fails. *)
Definition send_packet (fuel : nat) (fd : Z) (type : PacketType) (body : option (list byte)) : M W bool :=
  match body with
  | None => mret false
  | Some body =>
    let hdr := PacketHeader_make (u32 (Z.of_nat (length body))) type in
    ok ← send fuel fd (header_bytes hdr);
    if negb ok then mret false
    else if bool_decide (body = []) then mret true
    else
      ok ← send fuel fd body;
      if negb ok then mret false else mret true
  end.

Definition send_heartbeat (fuel : nat) (fd : Z) : M W bool :=
  send fuel fd (header_bytes (PacketHeader_make 0 HEARTBEAT)).

(** ** The read path *)

Definition set_state p (s : FiniteStateMachine) : M W () := update p (with_state s).

Section Handler.
Variable handler : NetworkQueueHandler D W.

(** One turn of the loop of [process]; [true] when it returns. *)
Definition process_step p : M W bool :=
  element ← deref p;
  let fd := el_fd element in
  let used := net_buffer_used element in
  match el_state element with
  | SCK_HEADER =>
    let nb_rem := u64 (PACKET_HEADER_SIZE - used) in
    nb_read ← read_into p fd used nb_rem;
    match nb_read with
    | inr EAGAIN => mret true
    | inr _ => set_state p SCK_ERROR;; mret false
    | inl nb_read =>
      if nb_read =? 0 then set_state p SCK_EOF;; mret false
      else
        let used := u64 (used + nb_read) in
        update p (with_used used);;
        (if used =? PACKET_HEADER_SIZE then set_state p SCK_PAYLOAD else mret ());;
        mret false
    end
  | SCK_PAYLOAD =>
    header ← load_header p;
    let buffer_size := u64 (get_payload_size header + PACKET_HEADER_SIZE) in
    number_read ← read_into p fd used (u64 (buffer_size - used));
    match number_read with
    | inr EAGAIN => mret true
    | inr _ => set_state p SCK_ERROR;; mret false
    | inl number_read =>
      let used := u64 (used + number_read) in
      update p (with_used used);;
      (if used =? buffer_size then set_state p SCK_READY else mret ());;
      mret false
    end
  | SCK_READY =>
    header ← load_header p;
    call (h_onSocketReady handler) (h_ptr_data handler)
      (mk_socket_data p (el_ptr element) fd
         (get_packet_type header) (mk_buffer_ptr p PACKET_HEADER_SIZE) (get_payload_size header)
         (mk_buffer_ptr p 0) used);;
    update p (with_used 0);;
    set_state p SCK_HEADER;;
    mret false
  | SCK_ERROR | SCK_EOF => mret true
  | TUN_RECEIVE =>
    nb_read ← read_into p fd 0 NET_BUFFER_SIZE;
    match nb_read with
    | inr EAGAIN => mret true
    | inr _ => set_state p TUN_ERROR;; mret false
    | inl nb_read =>
      if nb_read =? 0 then set_state p TUN_EOF;; mret false
      else
        update p (with_used nb_read);;
        set_state p TUN_READY;;
        mret false
    end
  | TUN_READY =>
    call (h_onTunReady handler) (h_ptr_data handler)
      (mk_tun_data p (el_ptr element) fd (mk_buffer_ptr p 0) used);;
    set_state p TUN_RECEIVE;;
    mret false
  | TUN_EOF | TUN_ERROR => mret true
  end.

Fixpoint process (fuel : nat) p : M W () :=
  match fuel with
  | O => no_fuel
  | S fuel =>
    returned ← process_step p;
    if returned : bool then mret () else process fuel p
  end.

(** The reason to close an element after its input was processed. *)
Definition error_reason (s : FiniteStateMachine) : option close_reason :=
  match s with
  | SCK_ERROR | TUN_ERROR => Some CLOSE_ERROR
  | SCK_EOF | TUN_EOF => Some CLOSE_HANGUP
  | _ => None
  end.

(** The body of the loop of [wait_and_process] on one event. *)
Definition handle_event (fuel : nat) (elements_closed : gset loc) (ev : epoll_event) : M W (gset loc) :=
  let p := ev_ptr ev in
  if bool_decide (p ∈ elements_closed) then mret elements_closed
  else
    reason ← (if ev_in ev then process fuel p;; e ← deref p; mret (error_reason (el_state e))
              else mret None);
    reason ← (if ev_out ev then
                flushed ← flush_write_buffer fuel p;
                mret (if flushed : bool then reason else Some CLOSE_ERROR)
              else mret reason);
    let reason := if ev_err ev then Some CLOSE_ERROR else reason in
    let reason := if ev_hup ev then Some CLOSE_HANGUP else reason in
    reason ← match reason with
             | Some _ => mret reason
             | None =>
               e ← deref p;
               rearmed ← epoll_ctl EPOLL_CTL_MOD (el_fd e)
                 (Some (mk_event true (negb (bool_decide (write_buffer e = []))) false false p));
               mret (if rearmed : bool then None else Some CLOSE_EPOLL)
             end;
    match reason with
    | None => mret elements_closed
    | Some reason =>
      e ← deref p;
      call (h_onClose handler) (h_ptr_data handler) (mk_close_data p (el_ptr e) (el_fd e) reason);;
      close_element (Some p);;
      mret ({[p]} ∪ elements_closed)
    end.

Fixpoint handle_events (fuel : nat) (elements_closed : gset loc) (evs : list epoll_event) : M W () :=
  match evs with
  | [] => mret ()
  | ev :: evs =>
    elements_closed ← handle_event fuel elements_closed ev;
    handle_events fuel elements_closed evs
  end.

Definition wait_and_process (fuel : nat) : M W () :=
  q ← (λ w, Ret (queue w, w));
  events ← syscall (sys_epoll_wait (epoll_fd q) EPOLL_MAX_EVENTS (epoll_timeout q));
  match events with
  | None => mret ()
  | Some evs => handle_events fuel ∅ evs
  end.

(** ** Construction and destruction *)

Definition NetQueue_new (timeout : Z) : M W () :=
  match h_onClose handler, h_onSocketReady handler, h_onTunReady handler with
  | Some _, Some _, Some _ =>
    ep ← syscall sys_epoll_create1;
    match ep with
    | None => throw RuntimeError
    | Some ep => if ep <? 0 then throw RuntimeError
                 else modify (set_queue (mk_queue ep timeout ∅ ∅))
    end
  | _, _, _ => throw InvalidArgument
  end.
End Handler.

Fixpoint close_all (l : list (Z * loc)) : M W () :=
  match l with
  | [] => mret ()
  | (fd, p) :: l => real_close fd;; delete_element p;; close_all l
  end.

(** [~NetQueue ()] *)
Definition NetQueue_destroy : M W () :=
  q ← (λ w, Ret (queue w, w));
  if epoll_fd q <? 0 then mret ()
  else
    close_all (map_to_list (fd_to_network_element q));;
    modify (λ w, set_queue (with_fds ∅ (queue w)) w);;
    real_close (epoll_fd q).
End NetQueue.
