(* ===== verification/Heap.v ===== *)
(** * The heap objects of the programs

    The conductor, the switches and the agents keep the metadata of their
    connections in heap objects that they create with [new], hand to the queue
    as user pointers and [delete] when the connection closes.  [AppHeap] says
    where the state of a program keeps these objects; an access to an object
    that was deleted is [Undef UseAfterFree]. *)
From stdpp Require Import base option list gmap.
From Stdlib Require Import ZArith Lia.
From S2P Require Import Prelude Kernel NetQueue.

(** The state [A] has a heap of objects of type [C]. *)
Class AppHeap (A C : Type) : Type := {
  heap : A → gmap loc C;
  set_heap : gmap loc C → A → A;
  heap_set_heap h a : heap (set_heap h a) = h;
  set_heap_set_heap h h' a : set_heap h (set_heap h' a) = set_heap h a;
  set_heap_heap a : set_heap (heap a) a = a
}.

Section Heap.
Context `{K : Kernel} `{Malloc} {A C : Type} {AH : AppHeap A C}.
Abbreviation W := (@World K A).
Implicit Types (p : loc) (w : W) (c : C).

(** The object at a pointer. *)
Definition deref_obj (ptr : option loc) : M W C :=
  match ptr with
  | None => undef NullDeref
  | Some p => λ w,
    match heap (app w) !! p with
    | Some c => Ret (c, w)
    | None => Undef UseAfterFree
    end
  end.

(** Assignments to the fields of the object at a pointer. *)
Definition update_obj (ptr : option loc) (f : C → C) : M W () :=
  c ← deref_obj ptr;
  match ptr with
  | None => mret ()
  | Some p => modify_app (λ s, set_heap (<[p := f c]> (heap s)) s)
  end.

(** [delete p] *)
Definition delete_obj p : M W () :=
  _ ← deref_obj (Some p);
  modify_app (λ s, set_heap (delete p (heap s)) s).

(** [new C (...)], with the value of the new object. *)
Definition new_obj c : M W loc := λ w,
  match malloc (heap (app w)) with
  | None => Throw BadAlloc
  | Some p => Ret (p, set_app (set_heap (<[p := c]> (heap (app w))) (app w)) w)
  end.

(** ** Their runs *)

(** [w] with the object at [p] replaced. *)
Definition set_obj p c w : W := set_app (set_heap (<[p := c]> (heap (app w))) (app w)) w.
Definition delete_at p w : W := set_app (set_heap (delete p (heap (app w))) (app w)) w.

Lemma deref_obj_run w p c : heap (app w) !! p = Some c → deref_obj (Some p) w = Ret (c, w).
Proof. intros Hc. unfold deref_obj. by rewrite Hc. Qed.

Lemma deref_obj_dangling w p : heap (app w) !! p = None → deref_obj (Some p) w = Undef UseAfterFree.
Proof. intros Hc. unfold deref_obj. by rewrite Hc. Qed.

Lemma update_obj_run w p c f :
  heap (app w) !! p = Some c → update_obj (Some p) f w = Ret ((), set_obj p (f c) w).
Proof. intros Hc. unfold update_obj. by erewrite bind_ret by by apply deref_obj_run. Qed.

Lemma delete_obj_run w p c :
  heap (app w) !! p = Some c → delete_obj p w = Ret ((), delete_at p w).
Proof. intros Hc. unfold delete_obj. by erewrite bind_ret by by apply deref_obj_run. Qed.

(** Deleting an object that was just created. *)
Lemma delete_new_app w p c :
  heap (app w) !! p = None → app (delete_at p (set_obj p c w)) = app w.
Proof.
  intros Hp. cbn. by rewrite heap_set_heap, set_heap_set_heap, delete_insert_id, set_heap_heap.
Qed.

(** An allocation returns an address that was not live, or throws. *)
Lemma new_obj_run w c :
  (∃ p, heap (app w) !! p = None ∧ new_obj c w = Ret (p, set_obj p c w)) ∨ new_obj c w = Throw BadAlloc.
Proof.
  unfold new_obj. destruct (malloc (heap (app w))) as [p|] eqn:Hp; [left|by right].
  exists p. split; [by eapply malloc_fresh|done].
Qed.
End Heap.
