(* ===== verification/ReadPath.v ===== *)
(** * The read path of the queue implements the framing of the stream

    Theorems about [NetQueue.process] on a socket element: whatever the sizes
    of the reads, it calls the handler once per complete frame, in order, keeps
    the bytes of the incomplete one, and ends in the state the end of the
    stream calls for.  The handler is any that leaves the element's descriptor
    and the pending input alone ([frame_handler]). *)
From stdpp Require Import base option list gmap sets.
From Stdlib Require Import ZArith Lia.
From S2P Require Import Prelude Bytes Kernel Protocol Framing NetQueue.

#[local] Open Scope Z_scope.

(** Compute the fields of an updated element, and nothing else. *)
Ltac el_cbn := cbn [el_state el_fd el_ptr net_buffer_used net_buffer write_buffer
  write_buffer_offset with_state with_used with_net_buffer with_write_buffer].

Section ReadPath.
Context `{HostOrder} `{K : Kernel} `{KL : !KernelLaws K} {A D : Type}.
Abbreviation W := (@World K A).
Implicit Types (p : loc) (w : W) (e : NetworkElement) (k : kernel).

(** [w] with the kernel state [k] and the element [e] at [p]: what the steps
    of [process] other than the handler calls change. *)
Definition at_element p w k e : W := set_element p e (set_kern k w).

Lemma at_element_self p w e :
  elements (queue w) !! p = Some e → at_element p w (kern w) e = w.
Proof.
  intros He. unfold at_element, set_element, set_kern, set_queue, with_elements; cbn.
  rewrite insert_id by done. by destruct w as [[] ? ?].
Qed.

Lemma deref_at p w k e : deref p (at_element p w k e) = Ret (e, at_element p w k e).
Proof. unfold deref; cbn. by rewrite lookup_insert_eq. Qed.

Lemma update_at p w k e f :
  update p f (at_element p w k e) = Ret ((), at_element p w k (f e)).
Proof.
  unfold update; cbn. rewrite lookup_insert_eq.
  unfold at_element, set_element, set_kern, set_queue, with_elements; cbn.
  by rewrite insert_insert_eq.
Qed.

Lemma syscall_at {R} p w k e (f : kernel → R * kernel) r k' :
  f k = (r, k') → syscall f (at_element p w k e) = Ret (r, at_element p w k' e).
Proof. intros Hf. unfold syscall; cbn. by rewrite Hf. Qed.

Lemma bind_at {R T} p w k e (m : M W R) (g : R → M W T) r w' :
  m (at_element p w k e) = Ret (r, w') → (m ≫= g) (at_element p w k e) = g r w'.
Proof. apply bind_ret. Qed.

Lemma load_buffer_at p w k e off n :
  0 ≤ off → off + n ≤ Z.of_nat (length (net_buffer e)) →
  load_buffer (mk_buffer_ptr p off) n (at_element p w k e) =
  Ret (take (Z.to_nat n) (drop (Z.to_nat off) (net_buffer e)), at_element p w k e).
Proof.
  intros H0 Hl. unfold load_buffer. erewrite bind_at by apply deref_at. cbn.
  by rewrite (proj2 (Z.ltb_ge _ _)) by lia.
Qed.

(** ** The receive buffer *)

(** The bytes of the packet being received. *)
Definition buffered e : list byte := take (Z.to_nat (net_buffer_used e)) (net_buffer e).
(** The bytes received and not yet handled, then those to come. *)
Definition unread e k : list byte := buffered e ++ rx_of (view k) (el_fd e).

Lemma overwrite_nil off buf : overwrite off [] buf = buf.
Proof. unfold overwrite; cbn. by rewrite Nat.add_0_r, take_drop. Qed.

Lemma take_overwrite off bs buf :
  0 ≤ off ≤ Z.of_nat (length buf) →
  take (Z.to_nat (off + Z.of_nat (length bs))) (overwrite off bs buf) =
  take (Z.to_nat off) buf ++ bs.
Proof.
  intros Ho. unfold overwrite. rewrite app_assoc. apply take_app_length'.
  rewrite length_app, length_take. lia.
Qed.

Lemma length_overwrite off bs buf :
  0 ≤ off ≤ Z.of_nat (length buf) →
  length (overwrite off bs buf) = ((Z.to_nat off + length bs) `max` length buf)%nat.
Proof.
  intros Ho. unfold overwrite. rewrite !length_app, length_take, length_drop. lia.
Qed.

(** What the loop relies on when it looks at the element. *)
Definition header_size e : Z := stream_size (net_buffer e).

Record receiving e : Prop := {
  rcv_used : 0 ≤ net_buffer_used e ≤ Z.of_nat (length (net_buffer e));
  rcv_size : Z.of_nat (length (net_buffer e)) ≤ NET_BUFFER_SIZE;
  rcv_state :
    match el_state e with
    | SCK_HEADER => net_buffer_used e < PACKET_HEADER_SIZE
    | SCK_PAYLOAD =>
      PACKET_HEADER_SIZE ≤ net_buffer_used e ≤ PACKET_HEADER_SIZE + header_size e
    | SCK_READY => net_buffer_used e = PACKET_HEADER_SIZE + header_size e
    | _ => False
    end
}.

Lemma stream_size_take n bs : (4 ≤ n)%nat → stream_size (take n bs) = stream_size bs.
Proof. intros Hn. unfold stream_size. rewrite take_take. f_equal. f_equal. lia. Qed.
Lemma stream_size_app bs cs : (4 ≤ length bs)%nat → stream_size (bs ++ cs) = stream_size bs.
Proof. intros Hn. unfold stream_size. by rewrite take_app_le by lia. Qed.

Lemma stream_type_take n bs : (6 ≤ n)%nat → stream_type (take n bs) = stream_type bs.
Proof. intros Hn. unfold stream_type. rewrite !take_drop_commute, take_take. do 3 f_equal. lia. Qed.
Lemma stream_type_app bs cs : (6 ≤ length bs)%nat → stream_type (bs ++ cs) = stream_type bs.
Proof. intros Hn. unfold stream_type. by rewrite !take_drop_commute, take_app_le by lia. Qed.

Lemma load_header_at p w k e :
  PACKET_HEADER_SIZE ≤ Z.of_nat (length (net_buffer e)) →
  load_header p (at_element p w k e) =
  Ret (header_of_bytes (take 6 (net_buffer e)), at_element p w k e) ∧
  get_payload_size (header_of_bytes (take 6 (net_buffer e))) = header_size e ∧
  get_packet_type (header_of_bytes (take 6 (net_buffer e))) = stream_type (net_buffer e).
Proof.
  unfold PACKET_HEADER_SIZE. intros Hl. split; [|split].
  - unfold load_header. erewrite bind_at by (apply load_buffer_at; unfold PACKET_HEADER_SIZE; lia).
    done.
  - rewrite get_payload_size_of_bytes by (rewrite length_take; lia).
    by rewrite take_take.
  - rewrite get_packet_type_of_bytes by (rewrite length_take; lia).
    unfold stream_type. f_equal. by rewrite !take_drop_commute, take_take.
Qed.

(** One read into the buffer, by what the stream holds. *)
Lemma read_into_empty p w k e off :
  packets (view k) !! el_fd e = None →
  0 ≤ off ≤ Z.of_nat (length (net_buffer e)) → Z.of_nat (length (net_buffer e)) ≤ NET_BUFFER_SIZE →
  ∃ k', view k' = view k ∧
    read_into p (el_fd e) off 0 (at_element p w k e) = Ret (inl 0, at_element p w k' e).
Proof.
  intros Hs Ho Hl. destruct (sys_read (el_fd e) 0 k) as [r k'] eqn:Hr. exists k'.
  pose proof (sys_read_ok _ _ _ _ _ (Z.le_refl 0) Hs Hr) as Hk.
  inversion Hk; subst; try lia. split; [done|].
  unfold read_into. erewrite bind_at by by apply syscall_at. cbn.
  erewrite bind_at by apply deref_at.
  rewrite (proj2 (Z.ltb_ge _ _)) by lia. rewrite (proj2 (Z.ltb_ge _ _)) by lia.
  erewrite bind_at by apply update_at. rewrite overwrite_nil. by destruct e.
Qed.

Lemma read_into_at p w k e off n :
  packets (view k) !! el_fd e = None →
  0 < n → 0 ≤ off ≤ Z.of_nat (length (net_buffer e)) →
  Z.of_nat (length (net_buffer e)) ≤ NET_BUFFER_SIZE → off + n ≤ NET_BUFFER_SIZE →
  let rx := rx_of (view k) (el_fd e) in
  ∃ k', (rx ≠ [] ∧ ∃ m, 0 < Z.of_nat m ≤ n ∧ (m ≤ length rx)%nat ∧
         view k' = set_rx (el_fd e) (drop m rx) (view k) ∧
         read_into p (el_fd e) off n (at_element p w k e) =
         Ret (inl (Z.of_nat m),
              at_element p w k' (with_net_buffer (overwrite off (take m rx) (net_buffer e)) e)))
    ∨ (rx = [] ∧ view k' = view k ∧
       read_into p (el_fd e) off n (at_element p w k e) =
       Ret (match end_of (view k) (el_fd e) with
            | Open => inr EAGAIN | Shutdown => inl 0 | Broken => inr EOTHER end,
            at_element p w k' e)).
Proof.
  intros Hs Hn Ho Hl Hb rx. destruct (sys_read (el_fd e) n k) as [r k'] eqn:Hr. exists k'.
  pose proof (sys_read_ok _ _ _ _ _ (Z.lt_le_incl _ _ Hn) Hs Hr) as Hk.
  assert (∀ bs, r = inl bs → off + Z.of_nat (length bs) ≤ NET_BUFFER_SIZE →
    read_into p (el_fd e) off n (at_element p w k e) = Ret (inl (Z.of_nat (length bs)),
      at_element p w k' (with_net_buffer (overwrite off bs (net_buffer e)) e))) as Hin.
  { intros bs -> Hbs. unfold read_into. erewrite bind_at by by apply syscall_at. cbn.
    erewrite bind_at by apply deref_at.
    rewrite (proj2 (Z.ltb_ge _ _)) by lia. rewrite (proj2 (Z.ltb_ge _ _)) by lia.
    by erewrite bind_at by apply update_at. }
  assert (∀ err, r = inr err → read_into p (el_fd e) off n (at_element p w k e) =
    Ret (inr err, at_element p w k' e)) as Herr.
  { intros err ->. unfold read_into. by erewrite bind_at by by apply syscall_at. }
  assert (with_net_buffer (overwrite off [] (net_buffer e)) e = e) as Hnil.
  { rewrite overwrite_nil. by destruct e. }
  inversion Hk as [|m Hm Hm'|? He Hd|? He Hd|? He Hd]; subst; try lia.
  - left. split; [unfold rx; by intros E; rewrite E in Hm'; cbn in *; lia|]. exists m. split_and!; try done; try lia.
    rewrite Hin with (bs := take m rx); [|done|rewrite length_take; lia].
    by rewrite length_take, Nat.min_l.
  - right. rewrite Hd, (Hin []) by (done || cbn; lia). by rewrite Hnil.
  - right. by rewrite Hd, (Herr EAGAIN).
  - right. by rewrite Hd, (Herr EOTHER).
Qed.

(** ** Streams whose packets fit the receive buffer *)

Definition MAX_PAYLOAD : Z := NET_BUFFER_SIZE - PACKET_HEADER_SIZE.

(** No header of the stream announces more than the receive buffer holds. *)
Definition fits (bs : list byte) : Prop :=
  Forall (λ pkt : packet, Z.of_nat (length pkt.2) ≤ MAX_PAYLOAD) (split_frames bs).1 ∧
  ((6 ≤ length (split_frames bs).2)%nat → stream_size (split_frames bs).2 ≤ MAX_PAYLOAD).

Lemma fits_head bs : fits bs → (6 ≤ length bs)%nat → stream_size bs ≤ MAX_PAYLOAD.
Proof.
  unfold fits. intros [Hf Hl] H6. destruct (parse_frame bs) as [[pkt rest]|] eqn:Hp.
  - rewrite (split_frames_some _ _ _ Hp) in Hf. inversion Hf as [|? ? Hpkt _]; subst.
    destruct (parse_frame_inv _ _ _ Hp) as [Hw ->].
    destruct (frame_fields pkt rest Hw) as [-> _]. done.
  - rewrite split_frames_none in Hl by done. by apply Hl.
Qed.

Lemma fits_tail bs pkt rest : parse_frame bs = Some (pkt, rest) → fits bs → fits rest.
Proof.
  intros Hp. unfold fits. rewrite (split_frames_some _ _ _ Hp). cbn [fst snd].
  intros [[_ Hf]%Forall_cons Hl]. done.
Qed.

(** ** The steps of the loop *)

Section Frames.
Context (handler : NetworkQueueHandler D W) (p : loc) (f : A → packet → A).

(** What the theorems ask of [onSocketReady]: given the packet in the element's
    buffer it returns, it updates its own state by [f], and it neither removes
    the element nor reads from its descriptor.  It may send, also on the same
    descriptor, and use the other elements. *)
Definition frame_handler : Prop := ∀ w e,
  elements (queue w) !! p = Some e → el_state e = SCK_READY → receiving e →
  packets (view (kern w)) !! el_fd e = None →
  let n := header_size e in
  let payload := take (Z.to_nat n) (drop 6 (net_buffer e)) in
  ∃ w' e',
    call (h_onSocketReady handler) (h_ptr_data handler)
      (mk_socket_data p (el_ptr e) (el_fd e) (stream_type (net_buffer e))
         (mk_buffer_ptr p PACKET_HEADER_SIZE) n
         (mk_buffer_ptr p 0) (net_buffer_used e)) w = Ret ((), w') ∧
    app w' = f (app w) (stream_type (net_buffer e), payload) ∧
    elements (queue w') !! p = Some e' ∧ el_fd e' = el_fd e ∧
    Z.of_nat (length (net_buffer e')) ≤ NET_BUFFER_SIZE ∧
    rx_of (view (kern w')) (el_fd e) = rx_of (view (kern w)) (el_fd e) ∧
    end_of (view (kern w')) (el_fd e) = end_of (view (kern w)) (el_fd e) ∧
    packets (view (kern w')) !! el_fd e = None.

(** The outcome of handling all complete packets of the pending input, and
    the bytes left over. *)
Definition summary (a : A) e k : A * list byte :=
  let '(pkts, rest) := split_frames (unread e k) in (foldl f a pkts, rest).

(** An upper bound on the turns before the input is drained. *)
Definition potential e k : nat :=
  (3 * length (rx_of (view k) (el_fd e)) +
   match el_state e with SCK_PAYLOAD => 2 | SCK_READY => 1 | _ => 0 end)%nat.

(** An element receiving a stream of packets that fit. *)
Record in_stream e k : Prop := {
  is_receiving : receiving e;
  is_socket : packets (view k) !! el_fd e = None;
  is_fitting : fits (unread e k)
}.

(** [e'] and [k'] are a later point of the same reception. *)
Definition progress (a : A) e k (a' : A) e' k' : Prop :=
  in_stream e' k' ∧ el_fd e' = el_fd e ∧
  end_of (view k') (el_fd e) = end_of (view k) (el_fd e) ∧
  summary a' e' k' = summary a e k ∧ (potential e' k' < potential e k)%nat.

Lemma unread_read e k k' m :
  receiving e →
  view k' = set_rx (el_fd e) (drop m (rx_of (view k) (el_fd e))) (view k) →
  (m ≤ length (rx_of (view k) (el_fd e)))%nat →
  let rx := rx_of (view k) (el_fd e) in
  let e' := with_used (net_buffer_used e + Z.of_nat m)
    (with_net_buffer (overwrite (net_buffer_used e) (take m rx) (net_buffer e)) e) in
  unread e' k' = unread e k ∧ rx_of (view k') (el_fd e) = drop m rx ∧
  end_of (view k') (el_fd e) = end_of (view k) (el_fd e) ∧
  packets (view k') !! el_fd e = packets (view k) !! el_fd e.
Proof.
  intros [Hu _ _] Hv Hm rx e'. subst e'.
  assert (rx_of (view k') (el_fd e) = drop m rx) as Hr by by rewrite Hv, rx_of_set_rx.
  unfold unread, buffered; cbn. rewrite Hr. split_and!; [|done|by rewrite Hv..].
  replace (Z.of_nat m) with (Z.of_nat (length (take m rx)))
    by (rewrite length_take; unfold rx; lia).
  rewrite take_overwrite by done. by rewrite <-app_assoc, take_drop.
Qed.

Lemma u64_small z : 0 ≤ z < 2 ^ 64 → u64 z = z.
Proof. intros Hz. apply uint_small. unfold in_width. lia. Qed.

Lemma with_state_id e : with_state (el_state e) e = e.
Proof. by destruct e. Qed.

Lemma with_used_id e : with_used (net_buffer_used e) e = e.
Proof. by destruct e. Qed.

(** The progress of a read, from its effect on the element. *)
Lemma progress_read a e k k' m s :
  in_stream e k →
  view k' = set_rx (el_fd e) (drop m (rx_of (view k) (el_fd e))) (view k) →
  (0 < m ≤ length (rx_of (view k) (el_fd e)))%nat →
  let rx := rx_of (view k) (el_fd e) in
  let e' := with_state s (with_used (net_buffer_used e + Z.of_nat m)
    (with_net_buffer (overwrite (net_buffer_used e) (take m rx) (net_buffer e)) e)) in
  receiving e' → progress a e k a e' k'.
Proof.
  intros [Hr Hs Hf] Hv Hm rx e' Hr'.
  destruct (unread_read e k k' m Hr Hv ltac:(lia)) as (Hu&Hx&He&Hp).
  assert (unread e' k' = unread e k) as Hu' by exact Hu.
  split_and!; [split|..]; unfold summary; rewrite ?Hu'; try done.
  - cbn. by rewrite Hp.
  - unfold potential; cbn. rewrite Hx, length_drop. destruct s, (el_state e); lia.
Qed.

Lemma process_step_header a w e k :
  in_stream e k → el_state e = SCK_HEADER → rx_of (view k) (el_fd e) ≠ [] →
  ∃ e' k', process_step handler p (at_element p w k e) = Ret (false, at_element p w k' e') ∧
    progress a e k a e' k'.
Proof.
  intros Hin Hst Hrx. pose proof (is_receiving _ _ Hin) as [Hu Hl Hs]. rewrite Hst in Hs.
  unfold PACKET_HEADER_SIZE in *.
  destruct (read_into_at p w k e (net_buffer_used e) (6 - net_buffer_used e))
    as (k'&[(_&m&Hm&Hm'&Hv&Hread)|(Hd&_)]); try done; try lia; [by apply is_socket| |].
  { unfold NET_BUFFER_SIZE in *. lia. }
  set (rx := rx_of _ _) in *. set (buf := overwrite _ _ _) in *.
  unfold process_step. erewrite bind_at by apply deref_at. rewrite Hst.
  unfold PACKET_HEADER_SIZE. rewrite u64_small by lia.
  erewrite bind_at by apply Hread. cbv beta iota zeta.
  rewrite (proj2 (Z.eqb_neq _ _)) by lia. erewrite bind_at by apply update_at.
  rewrite u64_small by (unfold NET_BUFFER_SIZE in *; lia).
  assert (length buf = ((Z.to_nat (net_buffer_used e) + m) `max` length (net_buffer e))%nat) as Hb.
  { unfold buf. rewrite length_overwrite by done. by rewrite length_take, Nat.min_l. }
  unfold NET_BUFFER_SIZE in *.
  destruct (Z.eqb_spec (net_buffer_used e + Z.of_nat m) 6) as [E|E].
  - erewrite bind_at by apply update_at. eexists _, k'. split; [done|].
    apply progress_read; [done..|unfold rx in *; lia|]. fold rx buf.
    pose proof (stream_size_bound buf) as [Hz _].
    split; unfold header_size, PACKET_HEADER_SIZE, NET_BUFFER_SIZE; el_cbn; lia.
  - eexists _, k'. split; [done|]. rewrite <-(with_state_id (with_used _ _)); el_cbn.
    apply progress_read; [done..|unfold rx in *; lia|]. fold rx buf.
    split; el_cbn; rewrite ?Hst; unfold PACKET_HEADER_SIZE, NET_BUFFER_SIZE; lia.
Qed.

(** The fields of a received header are those of the pending input. *)
Lemma header_unread e k :
  PACKET_HEADER_SIZE ≤ net_buffer_used e ≤ Z.of_nat (length (net_buffer e)) →
  header_size e = stream_size (unread e k) ∧ stream_type (net_buffer e) = stream_type (unread e k).
Proof.
  unfold PACKET_HEADER_SIZE, unread, buffered, header_size. intros Hu.
  rewrite stream_size_app, stream_size_take by (rewrite ?length_take; lia). split; [done|].
  by rewrite stream_type_app, stream_type_take by (rewrite ?length_take; lia).
Qed.

Lemma header_size_overwrite off bs buf :
  4 ≤ off ≤ Z.of_nat (length buf) → stream_size (overwrite off bs buf) = stream_size buf.
Proof.
  intros Ho. unfold overwrite. rewrite stream_size_app by (rewrite length_take; lia).
  apply stream_size_take. lia.
Qed.

Lemma header_size_fits e k :
  in_stream e k → PACKET_HEADER_SIZE ≤ net_buffer_used e → 0 ≤ header_size e ≤ MAX_PAYLOAD.
Proof.
  intros [[Hu _ _] _ Hf] H6. destruct (header_unread e k ltac:(lia)) as [E _].
  split; [apply stream_size_bound|]. rewrite E. apply fits_head; [done|].
  unfold unread, buffered, PACKET_HEADER_SIZE in *. rewrite length_app, length_take. lia.
Qed.

Lemma process_step_payload a w e k :
  in_stream e k → el_state e = SCK_PAYLOAD →
  rx_of (view k) (el_fd e) ≠ [] ∨ net_buffer_used e = PACKET_HEADER_SIZE + header_size e →
  ∃ e' k', process_step handler p (at_element p w k e) = Ret (false, at_element p w k' e') ∧
    progress a e k a e' k'.
Proof.
  intros Hin Hst Hrx. pose proof (is_receiving _ _ Hin) as [Hu Hl Hs]. rewrite Hst in Hs.
  destruct (header_size_fits e k Hin) as [Hz Hmax]; [lia|].
  unfold MAX_PAYLOAD, NET_BUFFER_SIZE, PACKET_HEADER_SIZE in *.
  destruct (load_header_at p w k e) as (Hload&Hsz&_); [unfold PACKET_HEADER_SIZE; lia|].
  unfold process_step. erewrite bind_at by apply deref_at. rewrite Hst.
  erewrite bind_at by apply Hload. unfold PACKET_HEADER_SIZE. rewrite Hsz, !u64_small by (rewrite ?u64_small; lia).
  destruct (decide (net_buffer_used e = 6 + header_size e)) as [E|E].
  - replace (header_size e + 6 - net_buffer_used e) with 0 by lia.
    destruct (read_into_empty p w k e (net_buffer_used e)) as (k'&Hv&Hread);
      [by apply is_socket|done|unfold NET_BUFFER_SIZE; lia|].
    erewrite bind_at by apply Hread. cbv beta iota zeta.
    erewrite bind_at by apply update_at. rewrite Z.add_0_r, u64_small by lia.
    rewrite (proj2 (Z.eqb_eq _ _)) by lia. erewrite bind_at by apply update_at.
    eexists _, k'. split; [done|]. rewrite with_used_id.
    destruct Hin as [? ? Hf]. split_and!; [split|..]; try done; unfold summary, unread; el_cbn; rewrite ?Hv; try done.
    unfold potential; el_cbn. rewrite Hst, Hv. lia.
  - destruct Hrx as [Hrx|]; [|lia].
    destruct (read_into_at p w k e (net_buffer_used e) (header_size e + 6 - net_buffer_used e))
      as (k'&[(_&m&Hm&Hm'&Hv&Hread)|(Hd&_)]);
      [by apply is_socket|lia|lia|unfold NET_BUFFER_SIZE; lia|unfold NET_BUFFER_SIZE; lia| |done].
    set (rx := rx_of _ _) in *. set (buf := overwrite _ _ _) in *.
    erewrite bind_at by apply Hread. cbv beta iota zeta.
    erewrite bind_at by apply update_at. rewrite u64_small by lia.
    assert (length buf = ((Z.to_nat (net_buffer_used e) + m) `max` length (net_buffer e))%nat) as Hb.
    { unfold buf. rewrite length_overwrite by done. by rewrite length_take, Nat.min_l. }
    assert (stream_size buf = header_size e) as Hsz' by (apply header_size_overwrite; lia).
    destruct (Z.eqb_spec (net_buffer_used e + Z.of_nat m) (header_size e + 6)) as [E'|E'].
    + erewrite bind_at by apply update_at. eexists _, k'. split; [done|].
      apply progress_read; [done..|unfold rx in *; lia|]. fold rx buf.
      split; unfold header_size, PACKET_HEADER_SIZE, NET_BUFFER_SIZE; el_cbn; lia.
    + eexists _, k'. split; [done|]. rewrite <-(with_state_id (with_used _ _)); el_cbn.
      apply progress_read; [done..|unfold rx in *; lia|]. fold rx buf.
      split; el_cbn; rewrite ?Hst; unfold header_size, PACKET_HEADER_SIZE, NET_BUFFER_SIZE; el_cbn; lia.
Qed.

(** The packet in the buffer of a ready element is the first of its input. *)
Lemma parse_ready e k :
  in_stream e k → el_state e = SCK_READY →
  parse_frame (unread e k) =
  Some ((stream_type (net_buffer e), take (Z.to_nat (header_size e)) (drop 6 (net_buffer e))),
        rx_of (view k) (el_fd e)).
Proof.
  intros Hin Hst. pose proof (is_receiving _ _ Hin) as [Hu Hl Hs]. rewrite Hst in Hs.
  pose proof (stream_size_bound (net_buffer e)) as [Hz _]. fold (header_size e) in Hz.
  destruct (header_unread e k) as [Esz Ety]; [lia|].
  unfold parse_frame. rewrite <-Esz, <-Ety. unfold unread, buffered.
  unfold PACKET_HEADER_SIZE in *. rewrite length_app, length_take.
  do 2 rewrite decide_False by lia. rewrite Hs.
  replace (Z.to_nat (6 + header_size e)) with (6 + Z.to_nat (header_size e))%nat by lia.
  do 2 f_equal; [f_equal|apply drop_app_length'; rewrite length_take; lia].
  rewrite drop_app_le by (rewrite length_take; lia).
  rewrite <-take_drop_commute, take_app_length'; [done|]. rewrite length_take, length_drop. lia.
Qed.

Lemma process_step_ready w e k :
  frame_handler → in_stream e k → el_state e = SCK_READY →
  ∃ w' e' k', process_step handler p (at_element p w k e) = Ret (false, at_element p w' k' e') ∧
    progress (app w) e k (app w') e' k'.
Proof.
  intros Hh Hin Hst. pose proof (parse_ready e k Hin Hst) as Hp.
  destruct Hin as [Hr Hs Hf]. pose proof (rcv_state _ Hr) as Hsz. rewrite Hst in Hsz.
  pose proof (stream_size_bound (net_buffer e)) as [Hz _]. fold (header_size e) in Hz.
  destruct (Hh (at_element p w k e) e) as (w'&e'&Hcall&Happ&He'&Hfd&Hlen&Hrx&Hend&Hpk);
    [cbn; by rewrite lookup_insert_eq|exact Hst|exact Hr|exact Hs|].
  cbn [at_element set_element set_kern set_queue kern app] in *.
  destruct (load_header_at p w k e) as (Hload&Hsize&Htype).
  { pose proof (rcv_used _ Hr). lia. }
  exists w', (with_state SCK_HEADER (with_used 0 e')), (kern w'). split.
  - unfold process_step. erewrite bind_at by apply deref_at. rewrite Hst.
    erewrite bind_at by apply Hload. rewrite Hsize, Htype.
    erewrite bind_at by apply Hcall. rewrite <-(at_element_self p w' e') at 1 by done.
    erewrite bind_at by apply update_at. by erewrite bind_at by apply update_at.
  - split_and!; [split|..]; unfold summary, unread, potential; el_cbn; rewrite ?Hfd, ?Hrx, ?Hst; try done.
    + split; unfold PACKET_HEADER_SIZE; el_cbn; lia.
    + by eapply fits_tail in Hp.
    + change (buffered (with_state _ _)) with (@nil byte). cbn [Datatypes.app]. fold (unread e k).
      rewrite (split_frames_some _ _ _ Hp). destruct (split_frames (rx_of _ _)). cbn. by rewrite Happ.
    + lia.
Qed.

(** The turn that finds the stream drained. *)
Lemma process_step_drained w e k :
  in_stream e k → rx_of (view k) (el_fd e) = [] →
  el_state e = SCK_HEADER ∨
    (el_state e = SCK_PAYLOAD ∧ net_buffer_used e < PACKET_HEADER_SIZE + header_size e) →
  ∃ k', view k' = view k ∧
    process_step handler p (at_element p w k e) =
    Ret (match end_of (view k) (el_fd e), el_state e with
         | Open, _ => (true, at_element p w k' e)
         | Broken, _ => (false, at_element p w k' (with_state SCK_ERROR e))
         | Shutdown, SCK_HEADER => (false, at_element p w k' (with_state SCK_EOF e))
         | Shutdown, _ => (false, at_element p w k' e)
         end).
Proof.
  intros Hin Hrx Hst. pose proof Hin as [[Hu Hl Hs] Hsock Hf].
  unfold process_step. erewrite bind_at by apply deref_at.
  destruct Hst as [Hst|[Hst Hlt]]; rewrite Hst in *.
  - unfold PACKET_HEADER_SIZE in *. rewrite u64_small by lia.
    destruct (read_into_at p w k e (net_buffer_used e) (6 - net_buffer_used e))
      as (k'&[(Hd&_)|(_&Hv&Hread)]); [done|lia|done|done|unfold NET_BUFFER_SIZE in *; lia|done|].
    exists k'. split; [done|]. erewrite bind_at by apply Hread.
    destruct (end_of (view k) (el_fd e)); cbv beta iota zeta; rewrite ?Z.eqb_refl; [done|..];
      by erewrite bind_at by apply update_at.
  - destruct (header_size_fits e k Hin) as [Hz Hmax]; [lia|].
    unfold MAX_PAYLOAD, NET_BUFFER_SIZE, PACKET_HEADER_SIZE in *.
    destruct (load_header_at p w k e) as (Hload&Hsz&_); [unfold PACKET_HEADER_SIZE; lia|].
    erewrite bind_at by apply Hload. unfold PACKET_HEADER_SIZE.
    rewrite Hsz, !u64_small by (rewrite ?u64_small; lia).
    destruct (read_into_at p w k e (net_buffer_used e) (header_size e + 6 - net_buffer_used e))
      as (k'&[(Hd&_)|(_&Hv&Hread)]);
      [done|lia|lia|unfold NET_BUFFER_SIZE; lia|unfold NET_BUFFER_SIZE; lia|done|].
    exists k'. split; [done|]. erewrite bind_at by apply Hread.
    destruct (end_of (view k) (el_fd e)); cbv beta iota zeta; [done| |
      by erewrite bind_at by apply update_at].
    erewrite bind_at by apply update_at. rewrite Z.add_0_r, u64_small, with_used_id by lia.
    by rewrite (proj2 (Z.eqb_neq _ _)) by lia.
Qed.

(** ** The whole loop *)

Lemma process_continue fuel w w' :
  process_step handler p w = Ret (false, w') → process handler (S fuel) p w = process handler fuel p w'.
Proof. intros Hs. exact (bind_ret _ _ _ _ _ Hs). Qed.

Lemma process_return fuel w w' :
  process_step handler p w = Ret (true, w') → process handler (S fuel) p w = Ret ((), w').
Proof. intros Hs. exact (bind_ret _ _ _ _ _ Hs). Qed.

(** The stream is drained: no complete packet is pending. *)
Definition drained e k : Prop :=
  rx_of (view k) (el_fd e) = [] ∧
  (el_state e = SCK_HEADER ∨
    (el_state e = SCK_PAYLOAD ∧ net_buffer_used e < PACKET_HEADER_SIZE + header_size e)).

(** Before that, every turn makes progress. *)
Lemma process_step_progress w e k :
  frame_handler → in_stream e k → ¬ drained e k →
  ∃ w' e' k', process_step handler p (at_element p w k e) = Ret (false, at_element p w' k' e') ∧
    progress (app w) e k (app w') e' k'.
Proof.
  unfold drained. intros Hh Hin Hd. pose proof (rcv_state _ (is_receiving _ _ Hin)) as Hs.
  destruct (el_state e) eqn:Hst; try done.
  - destruct (process_step_header (app w) w e k) as (e'&k'&?&?); [done|done| |by exists w, e', k'].
    intros E. apply Hd. eauto.
  - destruct (process_step_payload (app w) w e k) as (e'&k'&?&?); [done|done| |by exists w, e', k'].
    destruct (decide (rx_of (view k) (el_fd e) = [])) as [E|]; [right|by left].
    destruct (decide (net_buffer_used e = PACKET_HEADER_SIZE + header_size e)); [done|].
    exfalso. apply Hd. split; [done|]. right. split; [done|]. lia.
  - by apply process_step_ready.
Qed.

#[export] Instance drained_dec e k : Decision (drained e k).
Proof. unfold drained. apply _. Defined.

Lemma drained_unread e k : in_stream e k → drained e k →
  split_frames (unread e k) = ([], buffered e) ∧
  (el_state e = SCK_HEADER ↔ (length (buffered e) < 6)%nat).
Proof.
  intros Hin [Hrx Hst]. pose proof (is_receiving _ _ Hin) as [Hu Hl Hs].
  assert (length (buffered e) = Z.to_nat (net_buffer_used e)) as Hlen.
  { unfold buffered. rewrite length_take. lia. }
  assert (unread e k = buffered e) as Hun by (unfold unread; by rewrite Hrx, app_nil_r).
  unfold PACKET_HEADER_SIZE in *. rewrite Hlen. split.
  - rewrite Hun. apply split_frames_none. unfold parse_frame. rewrite Hlen.
    destruct Hst as [E|[E Hlt]]; rewrite E in Hs.
    + by rewrite decide_True by lia.
    + destruct (header_unread e k) as [Esz _]; [unfold PACKET_HEADER_SIZE; lia|]. rewrite Hun in Esz.
      rewrite <-Esz, decide_False, decide_True by lia. done.
  - destruct Hst as [E|[E Hlt]]; rewrite E in *; split; intros; try done; lia.
Qed.

(** The state of the element when the loop returns. *)
Definition final_state (end_ : stream_end) (rest : list byte) : FiniteStateMachine :=
  match end_ with
  | Open => if decide (length rest < 6)%nat then SCK_HEADER else SCK_PAYLOAD
  | Shutdown => SCK_EOF
  | Broken => SCK_ERROR
  end.

(** The loop never returns on a stream that ends inside a payload. *)
Definition stuck e k : Prop :=
  end_of (view k) (el_fd e) = Shutdown ∧ (6 ≤ length (split_frames (unread e k)).2)%nat.

Definition delivered w e k w' e' k' : Prop :=
  (app w', buffered e') = summary (app w) e k ∧
  el_fd e' = el_fd e ∧ rx_of (view k') (el_fd e) = [] ∧
  end_of (view k') (el_fd e) = end_of (view k) (el_fd e) ∧
  el_state e' = final_state (end_of (view k) (el_fd e)) (buffered e') ∧
  (end_of (view k) (el_fd e) = Open → in_stream e' k').

Lemma process_drained w e k fuel :
  in_stream e k → drained e k → ¬ stuck e k → (2 ≤ fuel)%nat →
  ∃ e' k', process handler fuel p (at_element p w k e) = Ret ((), at_element p w k' e') ∧
    delivered w e k w e' k'.
Proof.
  intros Hin Hd Hns Hf. destruct fuel as [|[|fuel]]; [lia..|].
  destruct (drained_unread e k Hin Hd) as [Hsp Hh].
  destruct (process_step_drained w e k Hin (proj1 Hd) (proj2 Hd)) as (k'&Hv&Hstep).
  unfold stuck, delivered, summary in *. rewrite Hsp in *. cbn [fst snd] in *.
  destruct (end_of (view k) (el_fd e)) eqn:He.
  - exists e, k'. split; [by erewrite process_return by apply Hstep|].
    rewrite Hv. split_and!; try done; [apply (proj1 Hd)| |].
    + unfold final_state. destruct (decide _) as [|Hn]; [by apply Hh|].
      destruct (proj2 Hd) as [E|[E _]]; [by apply Hh in E|done].
    + intros _. destruct Hin as [? ? Hfit]. split; [done|by rewrite Hv|].
      by unfold unread in *; rewrite Hv.
  - assert (el_state e = SCK_HEADER) as Hst.
    { apply Hh. destruct (decide (length (buffered e) < 6)%nat); [done|]. exfalso. apply Hns. split; [done|lia]. }
    rewrite Hst in Hstep. exists (with_state SCK_EOF e), k'.
    split; [|rewrite Hv; split_and!; try done; apply (proj1 Hd)].
    erewrite process_continue by apply Hstep. apply process_return.
    unfold process_step. by erewrite bind_at by apply deref_at.
  - exists (with_state SCK_ERROR e), k'.
    split; [|rewrite Hv; split_and!; try done; apply (proj1 Hd)].
    erewrite process_continue by apply Hstep. apply process_return.
    unfold process_step. by erewrite bind_at by apply deref_at.
Qed.

Lemma process_in_stream n w e k fuel :
  (potential e k ≤ n)%nat → frame_handler → in_stream e k → ¬ stuck e k → (n + 2 ≤ fuel)%nat →
  ∃ w' e' k', process handler fuel p (at_element p w k e) = Ret ((), at_element p w' k' e') ∧
    delivered w e k w' e' k'.
Proof.
  intros Hn Hh. revert w e k fuel Hn. induction n as [|n IH]; intros w e k fuel Hn Hin Hns Hf;
    (destruct (decide (drained e k)) as [Hd|Hd];
      [destruct (process_drained w e k fuel) as (e'&k'&?&?); [done..|lia|by exists w, e', k']|]);
    (destruct (process_step_progress w e k) as (w1&e1&k1&Hstep&Hin1&Hfd&Hend&Hsum&Hpot); [done..|]);
    [lia|].
  destruct fuel as [|fuel]; [lia|]. erewrite process_continue by apply Hstep.
  destruct (IH w1 e1 k1 fuel) as (w'&e'&k'&Hp&Hd1&Hfd1&Hrx&Hend1&Hst&Hin'); [lia|done| |lia|].
  - unfold stuck in *. rewrite Hfd, Hend. intros [Hsd H6]. apply Hns. split; [done|].
    unfold summary in Hsum. destruct (split_frames _), (split_frames _). by simplify_eq.
  - exists w', e', k'. split; [done|]. rewrite Hfd in *. rewrite Hend in *.
    split_and!; try done; by rewrite ?Hd1, ?Hsum.
Qed.

Lemma process_stuck fuel w e k :
  frame_handler → in_stream e k → stuck e k →
  process handler fuel p (at_element p w k e) = OutOfFuel.
Proof.
  intros Hh. revert w e k. induction fuel as [|fuel IH]; [done|]. intros w e k Hin Hs.
  destruct (decide (drained e k)) as [Hd|Hd].
  - destruct (drained_unread e k Hin Hd) as [Hsp Hst]. destruct Hs as [Hend H6].
    rewrite Hsp in H6. cbn [snd] in H6.
    destruct (process_step_drained w e k Hin (proj1 Hd) (proj2 Hd)) as (k'&Hv&Hstep).
    rewrite Hend in Hstep.
    destruct (proj2 Hd) as [E|[E _]]; [apply Hst in E; lia|]. rewrite E in Hstep.
    erewrite process_continue by apply Hstep. apply IH.
    + destruct Hin as [? ? Hf]. split; [done|by rewrite Hv|]. by unfold unread in *; rewrite Hv.
    + unfold stuck, unread in *. by rewrite Hv, Hsp.
  - destruct (process_step_progress w e k) as (w1&e1&k1&Hstep&Hin1&Hfd&Hend&Hsum&_); [done..|].
    erewrite process_continue by apply Hstep. apply IH; [done|].
    unfold stuck in *. rewrite Hfd, Hend. unfold summary in Hsum.
    destruct (split_frames _), (split_frames _). by simplify_eq.
Qed.
End Frames.

(** ** Packets larger than the receive buffer *)

(** A read of [n] bytes, [n] unbounded: what arrives past the array overflows it. *)
Lemma read_into_unbounded p w k e off n :
  packets (view k) !! el_fd e = None →
  0 < n → 0 ≤ off ≤ Z.of_nat (length (net_buffer e)) →
  rx_of (view k) (el_fd e) ≠ [] →
  let rx := rx_of (view k) (el_fd e) in
  ∃ k' m, 0 < Z.of_nat m ≤ n ∧ (m ≤ length rx)%nat ∧
    view k' = set_rx (el_fd e) (drop m rx) (view k) ∧
    read_into p (el_fd e) off n (at_element p w k e) =
    if NET_BUFFER_SIZE <? off + Z.of_nat m then Undef BufferOverflow
    else Ret (inl (Z.of_nat m),
              at_element p w k' (with_net_buffer (overwrite off (take m rx) (net_buffer e)) e)).
Proof.
  intros Hs Hn Ho Hrx rx. destruct (sys_read (el_fd e) n k) as [r k'] eqn:Hr.
  pose proof (sys_read_ok _ _ _ _ _ (Z.lt_le_incl _ _ Hn) Hs Hr) as Hk.
  inversion Hk as [|m Hm Hm'|? He Hd|? He Hd|? He Hd]; subst; try lia; try done.
  exists k', m. split_and!; try done; try lia.
  unfold read_into. erewrite bind_at by by apply syscall_at. cbn.
  erewrite bind_at by apply deref_at. rewrite length_take, Nat.min_l by done.
  destruct (_ <? _); [done|]. rewrite (proj2 (Z.ltb_ge _ _)) by lia.
  by erewrite bind_at by apply update_at.
Qed.

(** The error a handler's own send left on its element is lost: when [onSocketReady] returns with
    the element in [SCK_ERROR], [process] goes on reading as if nothing had happened. *)
Theorem handler_error_is_overwritten (handler : NetworkQueueHandler D W) p w e w' e' :
  elements (queue w) !! p = Some e → el_state e = SCK_READY → receiving e →
  call (h_onSocketReady handler) (h_ptr_data handler)
    (mk_socket_data p (el_ptr e) (el_fd e) (stream_type (net_buffer e))
       (mk_buffer_ptr p PACKET_HEADER_SIZE) (header_size e) (mk_buffer_ptr p 0) (net_buffer_used e)) w = Ret ((), w') →
  elements (queue w') !! p = Some e' → el_state e' = SCK_ERROR →
  process_step handler p w = Ret (false, at_element p w' (kern w') (with_state SCK_HEADER (with_used 0 e'))).
Proof.
  intros He Hst Hr Hcall He' _. pose proof (rcv_state _ Hr) as Hsz. rewrite Hst in Hsz.
  pose proof (stream_size_bound (net_buffer e)) as [Hz _]. fold (header_size e) in Hz.
  destruct (load_header_at p w (kern w) e) as (Hload&Hsize&Htype); [pose proof (rcv_used _ Hr); lia|].
  rewrite <-(at_element_self p w e) by done. unfold process_step.
  erewrite bind_at by apply deref_at. rewrite Hst. erewrite bind_at by apply Hload. rewrite Hsize, Htype.
  rewrite at_element_self by done. erewrite bind_ret by apply Hcall.
  rewrite <-(at_element_self p w' e') at 1 by done.
  erewrite bind_at by apply update_at. by erewrite bind_at by apply update_at.
Qed.

(** C31: the read path has no bound on the size a header announces: once an element is receiving
    a payload of more than [MAX_PAYLOAD] bytes and the peer sends enough of it to pass the end of
    the 66000-byte buffer, [process] writes past the buffer, whatever the sizes of the reads. *)
Theorem oversized_packet_overflows (handler : NetworkQueueHandler D W) p w e fuel :
  elements (queue w) !! p = Some e → packets (view (kern w)) !! el_fd e = None →
  el_state e = SCK_PAYLOAD →
  PACKET_HEADER_SIZE ≤ net_buffer_used e ≤ Z.of_nat (length (net_buffer e)) ≤ NET_BUFFER_SIZE →
  MAX_PAYLOAD < header_size e →
  NET_BUFFER_SIZE < net_buffer_used e + Z.of_nat (length (rx_of (view (kern w)) (el_fd e))) →
  (length (rx_of (view (kern w)) (el_fd e)) ≤ fuel)%nat →
  process handler fuel p w = Undef BufferOverflow.
Proof.
  intros He. rewrite <-(at_element_self p w e) by done. cbn [at_element set_element set_kern set_queue kern].
  generalize (kern w). clear He. revert e. induction fuel as [|fuel IH]; intros e k Hsk Hst Hu Hmax Hrx Hf.
  { unfold NET_BUFFER_SIZE in *. destruct (rx_of _ _); cbn in *; lia. }
  pose proof (stream_size_bound (net_buffer e)) as [_ Hw]. fold (header_size e) in Hw.
  unfold MAX_PAYLOAD, NET_BUFFER_SIZE, PACKET_HEADER_SIZE in *.
  destruct (load_header_at p w k e) as (Hload&Hsz&_); [unfold PACKET_HEADER_SIZE; lia|].
  destruct (read_into_unbounded p w k e (net_buffer_used e) (header_size e + 6 - net_buffer_used e))
    as (k'&m&Hm&Hm'&Hv&Hread); [done|lia|lia|by intros E; rewrite E in Hrx; cbn in Hrx; lia|].
  set (rx := rx_of _ _) in *. set (buf := overwrite _ _ _) in *.
  assert (∀ T (g : Z + errno → M W T),
    (read_into p (el_fd e) (net_buffer_used e) (header_size e + 6 - net_buffer_used e) ≫= g)
      (at_element p w k e) =
    if NET_BUFFER_SIZE <? net_buffer_used e + Z.of_nat m then Undef BufferOverflow
    else g (inl (Z.of_nat m)) (at_element p w k' (with_net_buffer buf e))) as Hbind.
  { intros T g. unfold mbind, M_bind. rewrite Hread. by destruct (_ <? _). }
  destruct (Z.ltb_spec NET_BUFFER_SIZE (net_buffer_used e + Z.of_nat m)) as [Hov|Hok].
  - cbn [process]. unfold process_step. unfold mbind at 1, M_bind at 1.
    erewrite bind_at by apply deref_at. rewrite Hst. erewrite bind_at by apply Hload.
    unfold PACKET_HEADER_SIZE. rewrite Hsz, u64_small, u64_small by (rewrite ?u64_small; lia).
    by rewrite Hbind.
  - unfold NET_BUFFER_SIZE in Hok. erewrite process_continue.
    2: { unfold process_step. erewrite bind_at by apply deref_at. rewrite Hst.
      erewrite bind_at by apply Hload. unfold PACKET_HEADER_SIZE.
      rewrite Hsz, u64_small, u64_small by (rewrite ?u64_small; lia). rewrite Hbind.
      cbv beta iota zeta. erewrite bind_at by apply update_at. rewrite u64_small by lia.
      rewrite (proj2 (Z.eqb_neq _ _)) by lia. reflexivity. }
    assert (length buf = ((Z.to_nat (net_buffer_used e) + m) `max` length (net_buffer e))%nat) as Hb.
    { unfold buf. rewrite length_overwrite by lia. by rewrite length_take, Nat.min_l. }
    assert (stream_size buf = header_size e) as Hsz' by (apply header_size_overwrite; lia).
    apply IH; el_cbn; unfold header_size; el_cbn; rewrite ?Hv, ?rx_of_set_rx, ?length_drop;
      try done; try (fold rx; lia).
Qed.

(** ** The properties *)

Section Properties.
Context (handler : NetworkQueueHandler D W) (p : loc) (f : A → packet → A) (w : W) (e : NetworkElement).
Hypothesis (element_at : elements (queue w) !! p = Some e).
Hypothesis (handler_ok : frame_handler handler p f).
Hypothesis (reception : in_stream e (kern w)).

(** C10: reading an element's socket implements the framing of its stream: [process] hands the
    complete packets of the bytes received so far and to come to the handler, each once and in
    order, keeps the bytes of the last, incomplete one, consumes all the input, and leaves the
    element waiting, at its end or in error as the stream says; a later call goes on from there.
    It returns as soon as the fuel covers three turns per pending byte. *)
Theorem process_delivers_packets fuel :
  ¬ stuck e (kern w) →
  (3 * length (rx_of (view (kern w)) (el_fd e)) + 5 ≤ fuel)%nat →
  let '(pkts, rest) := split_frames (unread e (kern w)) in
  ∃ w' e', process handler fuel p w = Ret ((), w') ∧
    elements (queue w') !! p = Some e' ∧ el_fd e' = el_fd e ∧
    app w' = foldl f (app w) pkts ∧ buffered e' = rest ∧
    rx_of (view (kern w')) (el_fd e) = [] ∧
    el_state e' = final_state (end_of (view (kern w)) (el_fd e)) rest ∧
    (end_of (view (kern w)) (el_fd e) = Open → in_stream e' (kern w')).
Proof.
  intros Hns Hf.
  destruct (process_in_stream handler p f _ w e (kern w) fuel (le_n _) handler_ok reception Hns)
    as (w'&e'&k'&Hp&Hd&Hfd&Hrx&_&Hst&Hin).
  { unfold potential. destruct (el_state e); lia. }
  rewrite at_element_self in Hp by done. unfold summary in Hd.
  destruct (split_frames (unread e (kern w))) as [pkts rest]. injection Hd as Happ Hbuf.
  exists (at_element p w' k' e'), e'. rewrite Hbuf in Hst. split_and!; try done.
  cbn. by rewrite lookup_insert_eq.
Qed.

(** A peer that closes its connection in the middle of a packet body makes the read loop spin:
    [process] does not return, whatever the fuel (read returns 0, which the payload state of the
    machine does not take for an end of file). *)
Theorem process_spins_on_truncated_packet fuel :
  end_of (view (kern w)) (el_fd e) = Shutdown →
  (PACKET_HEADER_SIZE ≤ Z.of_nat (length (split_frames (unread e (kern w))).2)) →
  process handler fuel p w = OutOfFuel.
Proof.
  intros He Hl. rewrite <-(at_element_self p w e) by done.
  apply (process_stuck handler p f); [done..|]. split; [done|]. unfold PACKET_HEADER_SIZE in Hl. lia.
Qed.
End Properties.

(** C30: end to end, what a sender frames is what the receiver's handler gets: on a connection
    whose pending bytes are the frames of [pkts], [process] hands exactly [pkts] to the handler,
    whatever the byte order of the two hosts and however the bytes were split on the way. *)
Theorem framed_packets_are_delivered (handler : NetworkQueueHandler D W) p f w e pkts fuel :
  elements (queue w) !! p = Some e → frame_handler handler p f →
  el_state e = SCK_HEADER → net_buffer_used e = 0 →
  Z.of_nat (length (net_buffer e)) ≤ NET_BUFFER_SIZE →
  packets (view (kern w)) !! el_fd e = None →
  rx_of (view (kern w)) (el_fd e) = frames pkts →
  Forall packet_wf pkts → Forall (λ pkt : packet, Z.of_nat (length pkt.2) ≤ MAX_PAYLOAD) pkts →
  (3 * length (frames pkts) + 5 ≤ fuel)%nat →
  ∃ w', process handler fuel p w = Ret ((), w') ∧ app w' = foldl f (app w) pkts.
Proof.
  intros He Hh Hst Hu Hl Hsk Hrx Hw Hmax Hf.
  assert (split_frames (unread e (kern w)) = (pkts, [])) as Hsp.
  { unfold unread, buffered. rewrite Hu, Hrx. cbn [Z.to_nat take Datatypes.app].
    rewrite <-(app_nil_r (frames pkts)). by apply split_frames_frames. }
  destruct (process_in_stream handler p f _ w e (kern w) fuel (le_n _) Hh)
    as (w'&e'&k'&Hp&Hd&_).
  - split; [split| |]; rewrite ?Hst, ?Hu; unfold PACKET_HEADER_SIZE; try lia; try done.
    unfold fits. rewrite Hsp. split; [done|]. cbn. lia.
  - unfold stuck. rewrite Hsp. cbn. lia.
  - unfold potential. rewrite Hst, Hrx. lia.
  - rewrite at_element_self in Hp by done. unfold summary in Hd. rewrite Hsp in Hd.
    exists (at_element p w' k' e'). split; [done|]. by injection Hd.
Qed.
End ReadPath.

(** ** A concrete run

    A handler that keeps a log of the packets it is given. *)
Section Log.
Context `{HostOrder} `{K : Kernel} `{KL : !KernelLaws K} {D : Type}.

Definition log_packet (_ : option D) (d : socket_data) : M (@World K (list packet)) () :=
  payload ← load_buffer (sd_packet_buffer d) (sd_payload_size d);
  modify (λ w, set_app (app w ++ [(sd_packet_type d, payload)]) w).

Definition log_handler : NetworkQueueHandler D (@World K (list packet)) :=
  mk_handler (Some doNothingOnClose) (Some log_packet) (Some doNothingOnTunReady) None.

Lemma log_handler_ok p : frame_handler log_handler p (λ l pkt, l ++ [pkt]).
Proof.
  intros w e He Hst [Hu Hl Hs] Hsk n payload. rewrite Hst in Hs.
  pose proof (stream_size_bound (net_buffer e)) as [Hz _]. fold (header_size e) n in Hz, Hs.
  exists (set_app (app w ++ [(stream_type (net_buffer e), payload)]) w), e. split; [|by split_and!].
  cbn [call log_handler h_onSocketReady]. unfold log_packet.
  erewrite (bind_ret (load_buffer _ _)); [reflexivity|].
  rewrite <-(at_element_self p w e) at 1 by done. cbn [sd_packet_buffer sd_payload_size].
  rewrite load_buffer_at by (unfold PACKET_HEADER_SIZE in *; lia).
  by rewrite at_element_self.
Qed.
End Log.

#[local] Instance read_order : HostOrder := LittleEndian.

Definition sample_packets : list packet :=
  [(HEARTBEAT, []); (SWITCH_MIP, [x01; x02; x03]); (HEARTBEAT, []); (AGENT_MIP, [x0a])].

(** A process with one connection, element 1 on descriptor 5, that received
    [bytes], in reads of at most [chunk + 1] bytes. *)
Definition sample_element : NetworkElement := NetworkElement_new 5 None SCK_HEADER.
Definition sample_world (chunk : nat) (bytes : list byte) (end_ : stream_end) : @World sim_kernel (list packet) :=
  mk_world (mk_queue 3 (-1) {[1%positive := sample_element]} {[5 := 1%positive]})
    (mk_sim (mk_kview {[5 := bytes]} {[5 := end_]} ∅ 0 {[3; 5]} {[3 := {[5 := 1%positive]}]} ∅)
       chunk {[5 := 65536]} 0 0 0) [].
Definition sample_handler : NetworkQueueHandler () (@World sim_kernel (list packet)) := log_handler.

Lemma sample_in_stream chunk bytes end_ :
  fits bytes → in_stream sample_element (kern (sample_world chunk bytes end_)).
Proof.
  intros Hf. split; [split; unfold NET_BUFFER_SIZE, PACKET_HEADER_SIZE; cbn; lia|done|exact Hf].
Qed.

Lemma process_delivers_packets_witness :
  ∃ w' e', process sample_handler 100 1%positive
      (sample_world 2 (frames sample_packets ++ [x00; x00]) Open) = Ret ((), w') ∧
    app w' = sample_packets ∧ elements (queue w') !! 1%positive = Some e' ∧ buffered e' = [x00; x00] ∧
    el_state e' = SCK_HEADER.
Proof.
  assert (fits (frames sample_packets ++ [x00; x00])) as Hfit.
  { unfold fits. split; [|vm_compute; lia].
    apply (bool_decide_unpack _). vm_compute. exact I. }
  pose proof (process_delivers_packets sample_handler 1%positive (λ l pkt, l ++ [pkt])
    (sample_world 2 (frames sample_packets ++ [x00; x00]) Open) sample_element
    eq_refl (log_handler_ok _) (sample_in_stream 2 _ Open Hfit) 100) as Hp.
  assert (split_frames (unread sample_element
    (kern (sample_world 2 (frames sample_packets ++ [x00; x00]) Open))) = (sample_packets, [x00; x00])) as Hsp
    by (vm_compute; reflexivity).
  rewrite Hsp in Hp. destruct Hp as (w'&e'&Hp&He&_&Happ&Hbuf&_&Hst&_).
  - by intros [Hs _].
  - vm_compute. lia.
  - exists w', e'. by split_and!.
Defined.

Lemma process_spins_on_truncated_packet_witness :
  process sample_handler 1000 1%positive
    (sample_world 2 (take 8 (frames [(SWITCH_MIP, [x01; x02; x03])])) Shutdown) = OutOfFuel.
Proof.
  assert (fits (take 8 (frames [(SWITCH_MIP, [x01; x02; x03])]))) as Hfit.
  { unfold fits. split; [|vm_compute; discriminate].
    apply (bool_decide_unpack _). vm_compute. exact I. }
  apply (process_spins_on_truncated_packet sample_handler 1%positive (λ l pkt, l ++ [pkt])
    (sample_world 2 _ Shutdown) sample_element eq_refl (log_handler_ok _)
    (sample_in_stream 2 _ Shutdown Hfit)).
  - reflexivity.
  - vm_compute. discriminate.
Defined.

(** An element that received a header announcing 66000 bytes. *)
Definition oversized_element : NetworkElement :=
  mk_element SCK_PAYLOAD 5 None 6 (header_bytes (PacketHeader_make 66000 SWITCH_MIP)) [] 0.
Definition oversized_world : @World sim_kernel (list packet) :=
  mk_world (mk_queue 3 (-1) {[1%positive := oversized_element]} {[5 := 1%positive]})
    (mk_sim (mk_kview {[5 := repeat x00 (Z.to_nat 66000)]} {[5 := Open]} ∅ 0 {[3; 5]}
       {[3 := {[5 := 1%positive]}]} ∅) (Z.to_nat 4096) {[5 := 65536]} 0 0 0) [].

Lemma oversized_packet_overflows_witness :
  process sample_handler (Z.to_nat 66000) 1%positive oversized_world = Undef BufferOverflow.
Proof.
  assert (length (rx_of (view (kern oversized_world)) 5) = Z.to_nat 66000) as Hl.
  { change (length (repeat x00 (Z.to_nat 66000)) = Z.to_nat 66000). apply repeat_length. }
  apply (oversized_packet_overflows sample_handler 1%positive oversized_world oversized_element).
  - reflexivity.
  - reflexivity.
  - reflexivity.
  - vm_compute. repeat split; discriminate.
  - vm_compute. reflexivity.
  - change (el_fd oversized_element) with 5. rewrite Hl. vm_compute. reflexivity.
  - change (el_fd oversized_element) with 5. by rewrite Hl.
Defined.

Lemma framed_packets_are_delivered_witness :
  ∃ w', process sample_handler 200 1%positive
      (sample_world 0 (frames sample_packets) Shutdown) = Ret ((), w') ∧ app w' = sample_packets.
Proof.
  destruct (framed_packets_are_delivered sample_handler 1%positive (λ l pkt, l ++ [pkt])
    (sample_world 0 (frames sample_packets) Shutdown) sample_element sample_packets 200)
    as (w'&Hp&Happ); try reflexivity.
  - apply log_handler_ok.
  - vm_compute. discriminate.
  - repeat constructor; vm_compute; discriminate.
  - apply (bool_decide_unpack _). vm_compute. exact I.
  - vm_compute. lia.
  - exists w'. split; [done|]. rewrite Happ. vm_compute. reflexivity.
Defined.
