(* ===== verification/TunPath.v ===== *)
(** * The TUN path of the queue

    Theorems about [NetQueue.process] on a TUN element: the device gives one
    packet per read, [onTunReady] is given each of them, once and in order,
    cut to the size of the receive buffer. *)
From stdpp Require Import base option list gmap sets.
From Stdlib Require Import ZArith Lia.
From S2P Require Import Prelude Bytes Kernel Protocol Framing NetQueue ReadPath.

#[local] Open Scope Z_scope.

Section TunPath.
Context `{HostOrder} `{K : Kernel} `{KL : !KernelLaws K} {A D : Type}.
Abbreviation W := (@World K A).
Implicit Types (w : W) (e : NetworkElement) (k : kernel).

(** The packets up to the first empty one, which is taken for the end of the
    device, and whether there is one with those behind it. *)
Fixpoint until_empty (pks : list (list byte)) : list (list byte) * option (list (list byte)) :=
  match pks with
  | [] => ([], None)
  | [] :: pks => ([], Some pks)
  | pk :: pks => let '(l, r) := until_empty pks in (pk :: l, r)
  end.

(** What a read of the whole buffer gives of a packet. *)
Definition cut (pk : list byte) : list byte := take (Z.to_nat NET_BUFFER_SIZE) pk.

Lemma cut_size pk : Z.of_nat (length (cut pk)) ≤ NET_BUFFER_SIZE.
Proof. unfold cut, NET_BUFFER_SIZE. rewrite length_take. lia. Qed.

Lemma cut_nonempty pk : pk ≠ [] → 0 < Z.of_nat (length (cut pk)).
Proof. intros Hpk. unfold cut, NET_BUFFER_SIZE. rewrite length_take. destruct pk; [done|cbn [length]; lia]. Qed.

(** A read of a device into the start of the buffer. *)
Lemma read_into_tun p w k e pks :
  packets (view k) !! el_fd e = Some pks →
  ∃ k', match pks with
    | [] => view k' = view k ∧
        read_into p (el_fd e) 0 NET_BUFFER_SIZE (at_element p w k e) = Ret (inr EAGAIN, at_element p w k' e)
    | pk :: pks => view k' = set_packets (el_fd e) pks (view k) ∧
        read_into p (el_fd e) 0 NET_BUFFER_SIZE (at_element p w k e) =
        Ret (inl (Z.of_nat (length (cut pk))),
          at_element p w k' (with_net_buffer (overwrite 0 (cut pk) (net_buffer e)) e))
    end.
Proof.
  intros Hp. destruct (sys_read (el_fd e) NET_BUFFER_SIZE k) as [r k'] eqn:Hr. exists k'.
  assert (tun_read_spec (el_fd e) NET_BUFFER_SIZE (view k) r (view k')) as Hs
    by (apply sys_read_tun_ok; [done|by rewrite Hp|done]).
  inversion Hs as [pk pks' Hpk E Hv|Hpk E Hv]; subst r; rewrite Hp in Hpk; injection Hpk as ->;
    (split; [done|]); unfold read_into; erewrite bind_at by (by apply syscall_at).
  - cbv beta iota. erewrite bind_at by apply deref_at. fold (cut pk). pose proof (cut_size pk).
    rewrite (proj2 (Z.ltb_ge _ _)) by lia. rewrite (proj2 (Z.ltb_ge _ _)) by lia.
    by erewrite bind_at by apply update_at.
  - done.
Qed.

Section Packets.
Context (handler : NetworkQueueHandler D W) (p : loc) (f : A → list byte → A).

(** What the theorem asks of [onTunReady]: given the packet in the element's
    buffer it returns, it updates its own state by [f], and it neither removes
    the element nor reads from the device. *)
Definition tun_handler : Prop := ∀ w e,
  elements (queue w) !! p = Some e → el_state e = TUN_READY →
  0 < net_buffer_used e ≤ Z.of_nat (length (net_buffer e)) →
  ∃ w' e',
    call (h_onTunReady handler) (h_ptr_data handler)
      (mk_tun_data p (el_ptr e) (el_fd e) (mk_buffer_ptr p 0) (net_buffer_used e)) w = Ret ((), w') ∧
    app w' = f (app w) (buffered e) ∧
    elements (queue w') !! p = Some e' ∧ el_fd e' = el_fd e ∧
    packets (view (kern w')) !! el_fd e = packets (view (kern w)) !! el_fd e.

(** A packet: the turn that reads it, and the turn that hands it over. *)
Lemma process_tun_packet fuel w k e pk pks :
  tun_handler → el_state e = TUN_RECEIVE → packets (view k) !! el_fd e = Some (pk :: pks) → pk ≠ [] →
  ∃ w' k' e', process handler (S (S fuel)) p (at_element p w k e) = process handler fuel p (at_element p w' k' e') ∧
    app w' = f (app w) (cut pk) ∧ el_fd e' = el_fd e ∧ el_state e' = TUN_RECEIVE ∧
    packets (view k') !! el_fd e = Some pks.
Proof.
  intros Hh Hst Hp Hne. destruct (read_into_tun p w k e _ Hp) as (k1&Hv&Hread).
  pose proof (cut_nonempty pk Hne) as Hc. set (n := Z.of_nat (length (cut pk))) in *.
  set (e1 := with_state TUN_READY (with_used n (with_net_buffer (overwrite 0 (cut pk) (net_buffer e)) e))).
  assert (process_step handler p (at_element p w k e) = Ret (false, at_element p w k1 e1)) as E1.
  { unfold process_step. erewrite bind_at by apply deref_at. rewrite Hst.
    erewrite bind_at by apply Hread. cbv beta iota. rewrite (proj2 (Z.eqb_neq _ _)) by lia.
    unfold set_state. erewrite bind_at by apply update_at. by erewrite bind_at by apply update_at. }
  set (w1 := at_element p w k1 e1).
  assert (buffered e1 = cut pk) as Hbuf.
  { unfold buffered, e1; el_cbn. unfold n. pose proof (take_overwrite 0 (cut pk) (net_buffer e)) as Ht.
    rewrite Z.add_0_l in Ht. rewrite Ht by lia. done. }
  assert (elements (queue w1) !! p = Some e1) as He1 by (cbn; by rewrite lookup_insert_eq).
  destruct (Hh w1 e1 He1) as (w2&e2&Hcall&Happ&He2&Hfd&Hpk); [done| |].
  { unfold e1; el_cbn. unfold n. split; [done|]. rewrite length_overwrite by lia. lia. }
  exists w2, (kern w2), (with_state TUN_RECEIVE e2). rewrite Hbuf in Happ. split_and!; [|done|done|done|].
  - rewrite (process_continue _ _ _ _ _ E1). fold w1. apply process_continue.
    unfold process_step, w1. erewrite bind_at by apply deref_at. cbn [el_state e1 with_state]. fold w1.
    unfold mbind at 1, M_bind at 1. rewrite Hcall. rewrite <-(at_element_self p w2 e2) at 1 by done.
    unfold set_state. by erewrite bind_at by apply update_at.
  - change (el_fd e1) with (el_fd e) in Hpk. rewrite Hpk. unfold w1. cbn. rewrite Hv. cbn.
    by rewrite lookup_insert_eq.
Qed.

(** The end of the input: nothing more, or an empty packet. *)
Lemma process_tun_end fuel w k e pks :
  el_state e = TUN_RECEIVE → packets (view k) !! el_fd e = Some pks → pks = [] ∨ head pks = Some [] →
  ∃ k' e', process handler (S (S fuel)) p (at_element p w k e) = Ret ((), at_element p w k' e') ∧
    el_fd e' = el_fd e ∧ el_state e' = (match pks with [] => TUN_RECEIVE | _ => TUN_EOF end) ∧
    packets (view k') !! el_fd e = Some (tail pks).
Proof.
  intros Hst Hp Hend. destruct (read_into_tun p w k e _ Hp) as (k1&Hread).
  destruct pks as [|pk pks]; cbn [tail]; destruct Hread as [Hv Hread].
  - exists k1, e. split_and!; [|done|done|by rewrite Hv]. apply process_return.
    unfold process_step. erewrite bind_at by apply deref_at. rewrite Hst. by erewrite bind_at by apply Hread.
  - destruct Hend as [?|[= ->]]; [done|]. exists k1, (with_state TUN_EOF e).
    unfold cut in Hread. rewrite take_nil, overwrite_nil in Hread.
    assert (with_net_buffer (net_buffer e) e = e) as E by by destruct e. rewrite E in Hread. clear E.
    split_and!; [|done|done|rewrite Hv; apply lookup_insert_eq]. erewrite process_continue.
    2: { unfold process_step. erewrite bind_at by apply deref_at. rewrite Hst.
      erewrite bind_at by apply Hread. cbv beta iota.
      change (Z.of_nat (length (@nil byte)) =? 0) with true. cbv iota.
      unfold set_state. by erewrite bind_at by apply update_at. }
    apply process_return. unfold process_step. by erewrite bind_at by apply deref_at.
Qed.

Lemma process_tun_run pks : ∀ fuel w k e,
  tun_handler → el_state e = TUN_RECEIVE → packets (view k) !! el_fd e = Some pks →
  (2 * length pks + 2 ≤ fuel)%nat →
  ∃ w' k' e', process handler fuel p (at_element p w k e) = Ret ((), at_element p w' k' e') ∧
    el_fd e' = el_fd e ∧ app w' = foldl f (app w) (cut <$> (until_empty pks).1) ∧
    el_state e' = (match (until_empty pks).2 with None => TUN_RECEIVE | Some _ => TUN_EOF end) ∧
    packets (view k') !! el_fd e = Some (default [] (until_empty pks).2).
Proof.
  induction pks as [|[|b pk] pks IH]; intros [|[|fuel]] w k e Hh Hst Hp Hf; cbn [length] in Hf; try lia.
  - destruct (process_tun_end fuel w k e [] Hst Hp) as (k'&e'&?&?&?&?); [by left|]. by exists w, k', e'.
  - destruct (process_tun_end fuel w k e _ Hst Hp) as (k'&e'&?&?&?&?); [by right|]. by exists w, k', e'.
  - destruct (process_tun_packet fuel w k e _ _ Hh Hst Hp) as (w1&k1&e1&->&Happ&Hfd&Hst1&Hp1); [done|].
    rewrite <-Hfd in Hp1.
    destruct (IH fuel w1 k1 e1 Hh Hst1 Hp1) as (w'&k'&e'&E&Hfd'&Happ'&Hst'&Hp'); [lia|].
    exists w', k', e'. cbn. destruct (until_empty pks) as [l r]. cbn [fst snd fmap list_fmap foldl] in *.
    rewrite Happ in Happ'. split_and!; [done|congruence|done|done|by rewrite <-Hfd].
Qed.

(** C29: the packets of a TUN device: [process] hands every packet the device has to [onTunReady],
    each once and in order, cut to the 66000 bytes of the receive buffer, up to an empty packet,
    which it takes for the end of the device (those behind it stay unread); it returns as soon as
    the fuel covers two turns per packet. *)
Theorem process_delivers_tun_packets w e pks fuel :
  elements (queue w) !! p = Some e → tun_handler → el_state e = TUN_RECEIVE →
  packets (view (kern w)) !! el_fd e = Some pks → (2 * length pks + 2 ≤ fuel)%nat →
  let '(delivered, behind) := until_empty pks in
  ∃ w' e', process handler fuel p w = Ret ((), w') ∧
    elements (queue w') !! p = Some e' ∧ el_fd e' = el_fd e ∧
    app w' = foldl f (app w) (cut <$> delivered) ∧
    el_state e' = (match behind with None => TUN_RECEIVE | Some _ => TUN_EOF end) ∧
    packets (view (kern w')) !! el_fd e = Some (default [] behind).
Proof.
  intros He Hh Hst Hp Hf. destruct (process_tun_run pks fuel w (kern w) e Hh Hst Hp Hf)
    as (w'&k'&e'&E&Hfd&Happ&Hst'&Hp'). rewrite at_element_self in E by done.
  destruct (until_empty pks) as [l r]. exists (at_element p w' k' e'), e'.
  split_and!; try done. cbn. by rewrite lookup_insert_eq.
Qed.
End Packets.
End TunPath.

(** ** A concrete run

    A handler that keeps a log of the packets it is given. *)
Section Log.
Context `{HostOrder} `{K : Kernel} `{KL : !KernelLaws K} {D : Type}.

Definition log_tun (_ : option D) (d : tun_data) : M (@World K (list (list byte))) () :=
  pk ← load_buffer (td_ip_buffer d) (td_ip_buffer_size d);
  modify_app (λ l, l ++ [pk]).

Definition log_tun_handler : NetworkQueueHandler D (@World K (list (list byte))) :=
  mk_handler (Some doNothingOnClose) (Some doNothingOnSocketReady) (Some log_tun) None.

Lemma log_tun_handler_ok p : tun_handler log_tun_handler p (λ l pk, l ++ [pk]).
Proof.
  intros w e He Hst Hu. exists (set_app (app w ++ [buffered e]) w), e. split; [|by split_and!].
  cbn [call log_tun_handler h_onTunReady]. unfold log_tun.
  rewrite <-(at_element_self p w e) at 1 by done. cbn [td_ip_buffer td_ip_buffer_size].
  erewrite bind_at by (apply load_buffer_at; lia). by rewrite at_element_self.
Qed.
End Log.

#[local] Instance tun_order : HostOrder := LittleEndian.

(** A process with one TUN device, element 1 on descriptor 5, that has [pks]. *)
Definition tun_element : NetworkElement := NetworkElement_new 5 None TUN_RECEIVE.
Definition tun_world (pks : list (list byte)) : @World sim_kernel (list (list byte)) :=
  mk_world (mk_queue 3 (-1) {[1%positive := tun_element]} {[5 := 1%positive]})
    (mk_sim (mk_kview ∅ ∅ ∅ 0 {[3; 5]} {[3 := {[5 := 1%positive]}]} {[5 := pks]}) 0 ∅ 0 0 0) [].

Lemma process_delivers_tun_packets_witness :
  ∃ w', process (log_tun_handler (D := ())) 10 1%positive (tun_world [[x45; x00]; [x60]; []; [x01]]) = Ret ((), w') ∧
    app w' = [[x45; x00]; [x60]] ∧ packets (view (kern w')) !! 5 = Some [[x01]].
Proof.
  destruct (process_delivers_tun_packets (log_tun_handler (D := ())) 1%positive (λ l pk, l ++ [pk])
    (tun_world [[x45; x00]; [x60]; []; [x01]]) tun_element [[x45; x00]; [x60]; []; [x01]] 10)
    as (w'&e'&E&_&_&Happ&_&Hp).
  - reflexivity.
  - apply log_tun_handler_ok.
  - reflexivity.
  - reflexivity.
  - cbn; lia.
  - exists w'. split; [exact E|]. split; [rewrite Happ; vm_compute; reflexivity|exact Hp].
Defined.
