(* ===== verification/WritePath.v ===== *)
(** * The write path of the queue keeps the order of the bytes sent

    Theorems about [NetQueue.send], [send_packet], [send_heartbeat] and
    [flush_write_buffer].  The output of a connection is what the kernel has
    accepted followed by what the element's write buffer still holds: the
    operations only ever append to it, a successful one exactly what it was
    asked to send, and flushing moves the boundary.  The loops end once the
    fuel covers the bytes and the signals that can still interrupt a write. *)
From stdpp Require Import base option list gmap sets.
From Stdlib Require Import ZArith Lia.
From S2P Require Import Prelude Bytes Kernel Protocol Framing NetQueue ReadPath.

#[local] Open Scope Z_scope.

Section WritePath.
Context `{HostOrder} `{K : Kernel} `{KL : !KernelLaws K} {A : Type}.
Abbreviation W := (@World K A).
Implicit Types (p : loc) (w : W) (e : NetworkElement) (k : kernel).

(** The bytes accepted by [send] and not yet written. *)
Definition pending e : list byte := drop (Z.to_nat (write_buffer_offset e)) (write_buffer e).

(** The bytes of the connection the kernel has accepted: those on the wire. *)
Definition wire e k : list byte := tx_of (view k) (el_fd e).

(** Everything handed to the connection, oldest byte first. *)
Definition output e k : list byte := tx_of (view k) (el_fd e) ++ pending e.

(** The write buffer of an element between two operations. *)
Record sendable e : Prop := {
  snd_offset : 0 ≤ write_buffer_offset e ≤ Z.of_nat (length (write_buffer e));
  snd_pending : Z.of_nat (length (pending e)) ≤ WRITE_BUFFER_MAX;
  snd_size : Z.of_nat (length (write_buffer e)) < 2 ^ 63
}.

Lemma length_pending e : sendable e →
  Z.of_nat (length (pending e)) = Z.of_nat (length (write_buffer e)) - write_buffer_offset e.
Proof. intros [Ho _ _]. unfold pending. rewrite length_drop. lia. Qed.

(** epoll_ctl does not touch the bytes. *)
Lemma ctl_spec_stream ep fd v op ev b v' fd' :
  ctl_spec ep fd v op ev b v' → tx_of v' fd' = tx_of v fd' ∧ signals v' = signals v.
Proof. by inversion 1; subst. Qed.

Lemma epoll_ctl_at p w k e op fd ev :
  ∃ b k', epoll_ctl op fd ev (at_element p w k e) = Ret (b, at_element p w k' e) ∧
    (∀ fd', tx_of (view k') fd' = tx_of (view k) fd') ∧ signals (view k') = signals (view k).
Proof.
  destruct (sys_epoll_ctl (epoll_fd (queue w)) op fd ev k) as [b k'] eqn:E. exists b, k'.
  pose proof (sys_epoll_ctl_ok _ _ _ _ _ _ _ E) as Hs.
  split; [unfold epoll_ctl; by apply syscall_at|].
  split; [intros fd'; apply (ctl_spec_stream _ _ _ _ _ _ _ fd' Hs)|apply (ctl_spec_stream _ _ _ _ _ _ _ 0 Hs)].
Qed.

(** ** Flushing *)

(** [e'] and [k'] hold the same output as [e] and [k]. *)
Definition same_output e k e' k' : Prop :=
  output e' k' = output e k ∧ el_fd e' = el_fd e ∧ sendable e' ∧
  (signals (view k') ≤ signals (view k))%nat ∧
  (length (write_buffer e') ≤ length (write_buffer e))%nat.

(** What a successful write of [r] bytes leaves. *)
Lemma pending_advance e r :
  sendable e → 0 ≤ r ≤ Z.of_nat (length (pending e)) →
  let e' := with_write_buffer (write_buffer e) (write_buffer_offset e + r) e in
  sendable e' ∧ pending e' = drop (Z.to_nat r) (pending e).
Proof.
  intros Hse Hr. pose proof (length_pending e Hse) as Hlen. destruct Hse as [Ho Hp Hz]. intros e'.
  assert (pending e' = drop (Z.to_nat r) (pending e)) as E.
  { unfold pending, e'; el_cbn. rewrite drop_drop. f_equal. lia. }
  split; [|done]. split; [subst e'; el_cbn; lia|rewrite E, length_drop; lia|done].
Qed.

Lemma same_output_view e k k' :
  sendable e → tx_of (view k') (el_fd e) = tx_of (view k) (el_fd e) →
  (signals (view k') ≤ signals (view k))%nat → same_output e k e k'.
Proof. intros Hse Ht Hs. unfold same_output, output. by rewrite Ht. Qed.

Lemma same_output_trans e k e1 k1 e2 k2 :
  same_output e k e1 k1 → same_output e1 k1 e2 k2 → same_output e k e2 k2.
Proof. intros (?&?&?&?&?) (?&?&?&?&?). unfold same_output. split_and!; try done; [congruence..|lia|lia]. Qed.

Lemma flush_at p w e k fuel :
  sendable e → (length (pending e) + signals (view k) + 1 ≤ fuel)%nat →
  ∃ b e' k', flush_write_buffer fuel p (at_element p w k e) = Ret (b, at_element p w k' e') ∧
    same_output e k e' k' ∧ el_state e' = el_state e ∧
    (pending e = [] → b = true ∧ write_buffer e' = []).
Proof.
  revert e k. induction fuel as [|fuel IH]; intros e k Hse Hf; [lia|].
  pose proof Hse as [Ho Hp Hz]. pose proof (length_pending e Hse) as Hlen.
  cbn [flush_write_buffer]. erewrite bind_at by apply deref_at.
  destruct (Z.ltb_spec (write_buffer_offset e) (Z.of_nat (length (write_buffer e)))) as [Hlt|Hge].
  - fold (pending e). destruct (sys_write (el_fd e) (pending e) k) as [r k'] eqn:Hw.
    assert (pending e ≠ []) as Hne by (intros E; rewrite E in Hlen; cbn in Hlen; lia).
    pose proof (sys_write_ok _ _ _ _ _ Hw) as Hk.
    erewrite bind_at by by apply syscall_at.
    inversion Hk as [r' Hr E Hv|E Hv|n Hs E Hv|E Hv]; subst r; cbv beta iota zeta.
    + destruct (pending_advance e r' Hse Hr) as [Hse1 Hp1].
      destruct (Z.eqb_spec r' 0) as [->|Hr0].
      * exists false, e, k'. split; [done|]. split; [|done].
        apply same_output_view; [done|rewrite <-Hv, tx_of_set_tx; cbn; by rewrite app_nil_r|by rewrite <-Hv].
      * erewrite bind_at by apply update_at. rewrite u64_small by lia.
        destruct (IH (with_write_buffer (write_buffer e) (write_buffer_offset e + r') e) k')
          as (b&e'&k''&Hfl&Hsame&Hst&_); [done| |].
        { rewrite Hp1, length_drop, <-Hv. cbn. lia. }
        rewrite Hfl. exists b, e', k''. split; [done|]. split; [|done].
        eapply same_output_trans; [|exact Hsame].
        unfold same_output, output. rewrite Hp1, <-Hv. el_cbn.
        by rewrite tx_of_set_tx, <-app_assoc, take_drop.
    + exists true, e, k'. split; [done|]. split; [|done]. apply same_output_view; by rewrite <-?Hv.
    + destruct (IH e k') as (b&e'&k''&Hfl&Hsame&Hst&Hemp); [done| |].
      { rewrite <-Hv. cbn. lia. }
      rewrite Hfl. exists b, e', k''. split; [done|]. split; [|done].
      eapply same_output_trans; [|exact Hsame]. apply same_output_view; rewrite <-?Hv; try done.
      cbn. lia.
    + exists false, e, k'. split; [done|]. split; [|done]. apply same_output_view; by rewrite <-?Hv.
  - assert (pending e = []) as Hnil by (apply nil_length_inv; lia).
    erewrite bind_at by apply update_at. el_cbn.
    destruct (epoll_ctl_at p w k (with_write_buffer [] 0 e) EPOLL_CTL_MOD (el_fd e)
      (Some (mk_event true false false false p))) as (b&k'&Hctl&Htx&Hsig).
    erewrite bind_at by apply Hctl.
    exists true, (with_write_buffer [] 0 e), k'. split; [done|]. split; [|done].
    unfold same_output, output. rewrite Hnil, Htx, Hsig. split_and!; try done; el_cbn; cbn; lia.
Qed.

(** ** Sending *)

(** The output of [e'] and [k'] is that of [e] and [k] followed by [bs]. *)
Definition sent e k (bs : list byte) e' k' : Prop :=
  output e' k' = output e k ++ bs ∧ el_fd e' = el_fd e ∧ sendable e' ∧
  (signals (view k') ≤ signals (view k))%nat ∧
  (length (write_buffer e') ≤ length (write_buffer e) + length bs)%nat.

Lemma sent_nothing e k k' s :
  sendable e → tx_of (view k') (el_fd e) = tx_of (view k) (el_fd e) →
  (signals (view k') ≤ signals (view k))%nat → sent e k [] (with_state s e) k'.
Proof.
  intros [? ? ?] Ht Hs. unfold sent, output, pending. el_cbn. rewrite Ht, app_nil_r.
  split_and!; try done. cbn. lia.
Qed.

Lemma sent_unchanged e k k' :
  sendable e → tx_of (view k') (el_fd e) = tx_of (view k) (el_fd e) →
  (signals (view k') ≤ signals (view k))%nat → sent e k [] e k'.
Proof. intros. rewrite <-(with_state_id e) at 2. by apply sent_nothing. Qed.

Lemma sent_trans e k bs1 e1 k1 bs2 e2 k2 :
  sent e k bs1 e1 k1 → sent e1 k1 bs2 e2 k2 → sent e k (bs1 ++ bs2) e2 k2.
Proof.
  intros (Ho1&Hf1&_&Hs1&Hl1) (Ho2&Hf2&Hse&Hs2&Hl2). unfold sent. rewrite length_app.
  split_and!; [by rewrite Ho2, Ho1, <-app_assoc|congruence|done|lia|lia].
Qed.

Lemma sendable_empty e : sendable e → write_buffer e = [] → pending e = [].
Proof. intros _ E. unfold pending. by rewrite E, drop_nil. Qed.

(** The bytes of the remainder [rest] of the data that were sent or buffered,
    all of them exactly when the result is [true]. *)
Definition accepted (b : bool) (rest bs : list byte) : Prop :=
  bs `prefix_of` rest ∧ (b = true ↔ bs = rest).

Lemma accepted_nothing rest : rest ≠ [] → accepted false rest [].
Proof. intros Hr. split; [apply prefix_nil|]. by split; intros E. Qed.

Lemma accepted_more b n rest bs :
  accepted b (drop n rest) bs → accepted b rest (take n rest ++ bs).
Proof.
  intros [[k Hk] Hb]. split.
  - exists k. by rewrite <-app_assoc, <-Hk, take_drop.
  - rewrite Hb. rewrite <-(take_drop n rest) at 3. split; [by intros ->|]. apply app_inv_head.
Qed.

Lemma accepted_app_true b front rest bs :
  accepted b rest bs → accepted b (front ++ rest) (front ++ bs).
Proof.
  intros [Hpre Hb]. split; [by apply prefix_app|]. rewrite Hb. split; [by intros ->|]. apply app_inv_head.
Qed.

Lemma accepted_app_false front rest bs : accepted false front bs → accepted false (front ++ rest) bs.
Proof.
  intros [Hpre Hno]. split; [by apply prefix_app_r|]. split; [done|]. intros ->.
  apply prefix_length in Hpre. rewrite length_app in Hpre.
  assert (rest = []) as -> by (apply nil_length_inv; lia). apply Hno. by rewrite app_nil_r.
Qed.

(** What the kernel does not take now goes to the empty write buffer. *)
Lemma sent_buffered e k k' rest :
  sendable e → write_buffer e = [] → Z.of_nat (length rest) ≤ WRITE_BUFFER_MAX →
  Z.of_nat (length rest) < 2 ^ 63 → tx_of (view k') (el_fd e) = tx_of (view k) (el_fd e) →
  (signals (view k') ≤ signals (view k))%nat → sent e k rest (with_write_buffer rest 0 e) k'.
Proof.
  intros Hse Hwb Hmax Hlen Htx Hsig. unfold sent, output. rewrite (sendable_empty e) by done.
  unfold pending; el_cbn. rewrite Htx, app_nil_r, drop_0.
  split_and!; try done; [|lia]. split; unfold pending; el_cbn; rewrite ?drop_0; lia.
Qed.

Lemma send_direct_at p w e k data total fuel :
  sendable e → write_buffer e = [] →
  0 ≤ total ≤ Z.of_nat (length data) → Z.of_nat (length data) < 2 ^ 63 →
  (length data - Z.to_nat total + signals (view k) + 1 ≤ fuel)%nat →
  ∃ b e' k' bs, send_direct fuel (el_fd e) p data total (at_element p w k e) =
      Ret (b, at_element p w k' e') ∧
    accepted b (drop (Z.to_nat total) data) bs ∧ sent e k bs e' k'.
Proof.
  intros Hse Hwb. revert total k. induction fuel as [|fuel IH]; intros total k Ht Hmax Hf; [lia|].
  cbn [send_direct]. set (rest := drop (Z.to_nat total) data).
  assert (Z.of_nat (length rest) = Z.of_nat (length data) - total) as Hlen
    by (unfold rest; rewrite length_drop; lia).
  destruct (Z.ltb_spec total (Z.of_nat (length data))) as [Hlt|Hge].
  - destruct (sys_write (el_fd e) rest k) as [r k'] eqn:Hw.
    assert (rest ≠ []) as Hne by (intros E; rewrite E in Hlen; cbn in Hlen; lia).
    pose proof (sys_write_ok _ _ _ _ _ Hw) as Hk.
    erewrite bind_at by by apply syscall_at.
    inversion Hk as [r' Hr E Hv|E Hv|n Hs E Hv|E Hv]; subst r; cbv beta iota zeta.
    + destruct (Z.eqb_spec r' 0) as [->|Hr0].
      * exists false, e, k', []. split; [done|]. split; [by apply accepted_nothing|].
        apply sent_unchanged; [done| |by rewrite <-Hv]. rewrite <-Hv, tx_of_set_tx. cbn. by rewrite app_nil_r.
      * rewrite u64_small by lia.
        destruct (IH (total + r') k') as (b&e'&k''&bs&Hsd&Hacc&Hsent); [lia|done|rewrite <-Hv; cbn; lia|].
        rewrite Hsd. exists b, e', k'', (take (Z.to_nat r') rest ++ bs). split; [done|].
        split.
        -- apply accepted_more. unfold rest. rewrite drop_drop.
           by replace (Z.to_nat total + Z.to_nat r')%nat with (Z.to_nat (total + r')) by lia.
        -- eapply sent_trans; [|exact Hsent]. unfold sent, output.
           rewrite (sendable_empty e) by done. rewrite <-Hv, tx_of_set_tx, !app_nil_r.
           split_and!; try done. lia.
    + rewrite u64_small by lia. destruct (Z.ltb_spec WRITE_BUFFER_MAX (Z.of_nat (length data) - total)).
      * erewrite bind_at by apply update_at. exists false, (with_state SCK_ERROR e), k', [].
        split; [done|]. split; [by apply accepted_nothing|]. apply sent_nothing; by rewrite <-?Hv.
      * erewrite bind_at by apply update_at.
        destruct (epoll_ctl_at p w k' (with_write_buffer rest 0 e) EPOLL_CTL_MOD (el_fd e)
          (Some (mk_event true true false false p))) as (b&k2&Hctl&Htx&Hsig).
        erewrite bind_at by apply Hctl. exists true, (with_write_buffer rest 0 e), k2, rest.
        split; [done|]. split; [by split|]. apply sent_buffered; try done; rewrite ?Htx, ?Hsig, <-?Hv; [lia..|done|lia].
    + destruct (IH total k') as (b&e'&k''&bs&Hsd&Hacc&Hsent); [lia|done|rewrite <-Hv; cbn; lia|].
      rewrite Hsd. exists b, e', k'', bs. split; [done|]. split; [done|].
      change bs with ([] ++ bs). eapply sent_trans; [|exact Hsent].
      apply sent_unchanged; rewrite <-?Hv; try done. cbn. lia.
    + exists false, e, k', []. split; [done|]. split; [by apply accepted_nothing|].
      apply sent_unchanged; by rewrite <-?Hv.
  - assert (rest = []) as Hnil by (apply nil_length_inv; lia).
    exists true, e, k, []. split; [done|]. rewrite Hnil. split; [by split|].
    by apply sent_unchanged.
Qed.

(** The element of a descriptor, as the operations find it. *)
Lemma get_element_at p w k e fd :
  fd_to_network_element (queue w) !! fd = Some p →
  get_network_element_from_fd fd (at_element p w k e) = Ret (Some p, at_element p w k e).
Proof. intros Hm. unfold get_network_element_from_fd; cbn. by rewrite Hm. Qed.

Lemma send_at p w e k data fuel :
  fd_to_network_element (queue w) !! el_fd e = Some p → sendable e →
  Z.of_nat (length (write_buffer e) + length data) < 2 ^ 63 →
  (length data + signals (view k) + 1 ≤ fuel)%nat →
  ∃ b e' k' bs, send fuel (el_fd e) data (at_element p w k e) = Ret (b, at_element p w k' e') ∧
    accepted b data bs ∧ sent e k bs e' k'.
Proof.
  intros Hm Hse Hlen Hf. unfold send. erewrite bind_at by by apply get_element_at.
  cbv beta iota zeta. erewrite bind_at by apply deref_at.
  pose proof (length_pending e Hse) as Hp. pose proof Hse as [Ho Hpm Hz].
  destruct (bool_decide_reflect (write_buffer e = [])) as [Hwb|Hwb].
  - destruct (send_direct_at p w e k data 0 fuel) as (b&e'&k'&bs&Hsd&Hacc&Hsent); [done..|lia|lia|lia|].
    by exists b, e', k', bs.
  - rewrite <-Hp, (u64_small (Z.of_nat (length (pending e)))) by (unfold WRITE_BUFFER_MAX in *; lia).
    rewrite u64_small by (unfold WRITE_BUFFER_MAX in *; lia).
    destruct (Z.ltb_spec WRITE_BUFFER_MAX (Z.of_nat (length (pending e)) + Z.of_nat (length data))).
    + erewrite bind_at by apply update_at. exists false, (with_state SCK_ERROR e), k, [].
      split; [done|]. split; [|by apply sent_nothing].
      apply accepted_nothing. intros ->. cbn in *. lia.
    + erewrite bind_at by apply update_at.
      eexists true, _, k, data. split; [done|]. split; [by split|].
      assert (pending (with_write_buffer (write_buffer e ++ data) (write_buffer_offset e) e) =
        pending e ++ data) as Hpe.
      { unfold pending; el_cbn. by rewrite drop_app_le by lia. }
      unfold sent, output. rewrite Hpe. el_cbn. rewrite app_assoc, length_app. split_and!; try done.
      split; rewrite ?Hpe, ?length_app; el_cbn; rewrite ?length_app; lia.
Qed.

(** A whole packet. *)
Lemma send_packet_at p w e k type body fuel :
  fd_to_network_element (queue w) !! el_fd e = Some p → sendable e →
  in_width 32 (Z.of_nat (length body)) →
  Z.of_nat (length (write_buffer e) + length (frame (type, body))) < 2 ^ 63 →
  (length (frame (type, body)) + signals (view k) + 1 ≤ fuel)%nat →
  ∃ b e' k' bs, send_packet fuel (el_fd e) type (Some body) (at_element p w k e) =
      Ret (b, at_element p w k' e') ∧
    accepted b (frame (type, body)) bs ∧ sent e k bs e' k'.
Proof.
  intros Hm Hse Hw Hlen Hf. unfold send_packet. rewrite uint_small by done.
  set (hdr := PacketHeader_make _ type).
  assert (frame (type, body) = header_bytes hdr ++ body) as Hfr by done.
  rewrite Hfr, length_app, length_header_bytes in *.
  destruct (send_at p w e k (header_bytes hdr) fuel) as (b1&e1&k1&bs1&Hs1&Ha1&Hsent1);
    [done|done|rewrite length_header_bytes; lia|rewrite length_header_bytes; lia|].
  erewrite bind_at by apply Hs1. destruct b1; cbn [negb].
  - destruct Ha1 as [_ Hall]. rewrite (proj1 Hall) in Hsent1 by done.
    destruct (bool_decide_reflect (body = [])) as [->|Hne].
    + exists true, e1, k1, (header_bytes hdr). split; [done|]. rewrite app_nil_r. split; [by split|done].
    + pose proof Hsent1 as (_&Hfd1&Hse1&Hsig1&Hlen1). rewrite length_header_bytes in Hlen1.
      rewrite <-Hfd1.
      destruct (send_at p w e1 k1 body fuel) as (b2&e2&k2&bs2&Hs2&Ha2&Hsent2);
        [by rewrite Hfd1|done|lia|lia|].
      erewrite bind_at by apply Hs2. exists b2, e2, k2, (header_bytes hdr ++ bs2).
      split; [by destruct b2|]. split; [by apply accepted_app_true|by eapply sent_trans].
  - exists false, e1, k1, bs1. split; [done|]. split; [by apply accepted_app_false|done].
Qed.

(** ** Sequences of operations on a connection *)

Inductive out_op : Type :=
  | OpPacket (type : PacketType) (body : list byte)
  | OpHeartbeat
  | OpFlush.

Definition run_op (fuel : nat) (fd : Z) p (op : out_op) : M W bool :=
  match op with
  | OpPacket type body => send_packet fuel fd type (Some body)
  | OpHeartbeat => send_heartbeat fuel fd
  | OpFlush => flush_write_buffer fuel p
  end.

(** The operations in turn, up to the first that fails. *)
Fixpoint run_ops (fuel : nat) (fd : Z) p (ops : list out_op) : M W bool :=
  match ops with
  | [] => mret true
  | op :: ops =>
    ok ← run_op fuel fd p op;
    if ok : bool then run_ops fuel fd p ops else mret false
  end.

Definition op_packets (op : out_op) : list packet :=
  match op with
  | OpPacket type body => [(type, body)]
  | OpHeartbeat => [(HEARTBEAT, [])]
  | OpFlush => []
  end.

Definition op_wf (op : out_op) : Prop :=
  match op with OpPacket _ body => in_width 32 (Z.of_nat (length body)) | _ => True end.

Lemma run_op_at p w e k op fuel :
  fd_to_network_element (queue w) !! el_fd e = Some p → sendable e → op_wf op →
  let bytes := frames (op_packets op) in
  Z.of_nat (length (write_buffer e) + length bytes) < 2 ^ 63 →
  (Z.to_nat WRITE_BUFFER_MAX + length bytes + signals (view k) + 1 ≤ fuel)%nat →
  ∃ b e' k' bs, run_op fuel (el_fd e) p op (at_element p w k e) = Ret (b, at_element p w k' e') ∧
    bs `prefix_of` bytes ∧ (b = true → bs = bytes) ∧ sent e k bs e' k'.
Proof.
  intros Hm Hse Hw bytes Hlen Hf. pose proof (snd_pending _ Hse) as Hp.
  destruct op as [type body| |]; unfold bytes, frames in *; cbn [op_packets fmap list_fmap concat] in *;
    rewrite ?app_nil_r in *.
  - destruct (send_packet_at p w e k type body fuel) as (b&e'&k'&bs&Hs&[Hpre Hiff]&Hsent); [done..|lia|].
    exists b, e', k', bs. by split_and!; [| |intros ?; apply Hiff|].
  - destruct (send_at p w e k (frame (HEARTBEAT, [])) fuel) as (b&e'&k'&bs&Hs&[Hpre Hiff]&Hsent);
      [done..|lia|].
    exists b, e', k', bs. split_and!; [|done|intros ?; by apply Hiff|done].
    unfold frame in Hs. rewrite app_nil_r in Hs. exact Hs.
  - destruct (flush_at p w e k fuel) as (b&e'&k'&Hfl&(Hout&Hfd&Hse'&Hsig&Hl)&_); [done|cbn in *; lia|].
    exists b, e', k', []. split; [done|]. split_and!; try done. unfold sent. rewrite app_nil_r.
    split_and!; try done. cbn. lia.
Qed.

Lemma run_ops_at p w e k ops fuel :
  fd_to_network_element (queue w) !! el_fd e = Some p → sendable e → Forall op_wf ops →
  let bytes := frames (ops ≫= op_packets) in
  Z.of_nat (length (write_buffer e) + length bytes) < 2 ^ 63 →
  (Z.to_nat WRITE_BUFFER_MAX + length bytes + signals (view k) + 1 ≤ fuel)%nat →
  ∃ b e' k' bs, run_ops fuel (el_fd e) p ops (at_element p w k e) = Ret (b, at_element p w k' e') ∧
    bs `prefix_of` bytes ∧ (b = true → bs = bytes) ∧ sent e k bs e' k'.
Proof.
  intros Hm Hse Hw. revert e k Hm Hse. induction Hw as [|op ops Hop Hw IH]; intros e k Hm Hse bytes Hlen Hf.
  { exists true, e, k, []. split; [done|]. split_and!; try done.
    by apply sent_unchanged. }
  assert (bytes = frames (op_packets op) ++ frames (ops ≫= op_packets)) as Hb.
  { unfold bytes, frames. cbn. by rewrite fmap_app, concat_app. }
  rewrite Hb, length_app in *.
  destruct (run_op_at p w e k op fuel) as (b1&e1&k1&bs1&Hs1&Hpre1&Hall1&Hsent1); [done..|lia|lia|].
  cbn [run_ops]. erewrite bind_at by apply Hs1. destruct b1.
  - rewrite Hall1 in Hsent1 by done. pose proof Hsent1 as (_&Hfd1&Hse1&Hsig1&Hlen1).
    destruct (IH e1 k1) as (b2&e2&k2&bs2&Hs2&Hpre2&Hall2&Hsent2); [by rewrite Hfd1|done|lia|lia|].
    rewrite Hfd1 in Hs2. exists b2, e2, k2, (frames (op_packets op) ++ bs2). split; [done|].
    split_and!; [by apply prefix_app|intros Hb2; by rewrite Hall2|by eapply sent_trans].
  - exists false, e1, k1, bs1. split; [done|]. by split_and!; [apply prefix_app_r| |].
Qed.

(** ** The properties *)

Section Properties.
Context (p : loc) (w : W) (e : NetworkElement).
Hypothesis (element_at : elements (queue w) !! p = Some e).
Hypothesis (registered : fd_to_network_element (queue w) !! el_fd e = Some p).
Hypothesis (element_sendable : sendable e).

(** C36: [send] never loses, duplicates or reorders a byte: it returns, and the output of the
    connection (what the kernel accepted, then the write buffer) grows by exactly the data when
    it returns true and by a proper prefix of it when it returns false; the write buffer never
    holds more than 64 KB. *)
Theorem send_appends_to_output data fuel :
  Z.of_nat (length (write_buffer e) + length data) < 2 ^ 63 →
  (length data + signals (view (kern w)) + 1 ≤ fuel)%nat →
  ∃ b w' e' bs, send fuel (el_fd e) data w = Ret (b, w') ∧ elements (queue w') !! p = Some e' ∧
    output e' (kern w') = output e (kern w) ++ bs ∧ bs `prefix_of` data ∧ (b = true ↔ bs = data) ∧
    Z.of_nat (length (pending e')) ≤ WRITE_BUFFER_MAX.
Proof.
  intros Hl Hf. destruct (send_at p w e (kern w) data fuel) as (b&e'&k'&bs&Hs&[Hpre Hiff]&Hout&_&Hse&_);
    [done..|].
  rewrite at_element_self in Hs by done. exists b, (at_element p w k' e'), e', bs.
  split_and!; try done; [|apply Hse]. cbn. by rewrite lookup_insert_eq.
Qed.

(** Flushing writes buffered bytes in order and loses none, also when the kernel takes them
    in pieces, refuses more or fails; it returns, it reports failure only for a failed write, and
    a buffer with nothing left is cleared. *)
Theorem flush_keeps_output fuel :
  (length (pending e) + signals (view (kern w)) + 1 ≤ fuel)%nat →
  ∃ b w' e', flush_write_buffer fuel p w = Ret (b, w') ∧ elements (queue w') !! p = Some e' ∧
    output e' (kern w') = output e (kern w) ∧ el_state e' = el_state e ∧ sendable e' ∧
    (pending e = [] → b = true ∧ write_buffer e' = []).
Proof.
  intros Hf. destruct (flush_at p w e (kern w) fuel) as (b&e'&k'&Hs&(Hout&_&Hse&_)&Hst&Hnil); [done..|].
  rewrite at_element_self in Hs by done. exists b, (at_element p w k' e'), e'.
  split_and!; try done. cbn. by rewrite lookup_insert_eq.
Qed.

(** C14: what reaches the wire.  Take a sequence of packets, heartbeats and flushes on a
    connection, run until the first operation that fails: it returns, and whatever the kernel does
    with the writes, the bytes the kernel has accepted are a prefix of those the connection owed
    before (accepted, or in its write buffer) followed by the frames of the packets.  If all the
    operations succeed, the rest of these bytes is exactly the write buffer, of at most 64 KB: the
    wire carries all the frames as soon as the buffer is empty, and not necessarily before. *)
Theorem connection_output_is_frames ops fuel :
  Forall op_wf ops →
  Z.of_nat (length (write_buffer e) + length (frames (ops ≫= op_packets))) < 2 ^ 63 →
  (Z.to_nat WRITE_BUFFER_MAX + length (frames (ops ≫= op_packets)) +
    signals (view (kern w)) + 1 ≤ fuel)%nat →
  let owed := wire e (kern w) ++ pending e ++ frames (ops ≫= op_packets) in
  ∃ b w' e', run_ops fuel (el_fd e) p ops w = Ret (b, w') ∧ elements (queue w') !! p = Some e' ∧
    el_fd e' = el_fd e ∧ wire e' (kern w') `prefix_of` owed ∧
    Z.of_nat (length (pending e')) ≤ WRITE_BUFFER_MAX ∧
    (b = true → wire e' (kern w') ++ pending e' = owed) ∧
    (b = true → pending e' = [] → wire e' (kern w') = owed).
Proof.
  intros Hw Hl Hf owed.
  destruct (run_ops_at p w e (kern w) ops fuel) as (b&e'&k'&bs&Hs&Hpre&Hall&Hout&Hfd&Hse&_); [done..|].
  rewrite at_element_self in Hs by done. exists b, (at_element p w k' e'), e'.
  assert (wire e' k' ++ pending e' = wire e (kern w) ++ pending e ++ bs) as E
    by (rewrite (app_assoc (wire e (kern w))); exact Hout).
  assert (b = true → wire e' k' ++ pending e' = owed) as Hok by (intros Hb; by rewrite E, Hall).
  split_and!; try done.
  - cbn. by rewrite lookup_insert_eq.
  - etrans; [by apply prefix_app_r|]. cbn [kern at_element set_element set_queue set_kern].
    rewrite E. by do 2 apply prefix_app.
  - apply Hse.
  - intros Hb Hnil. rewrite <-(Hok Hb), Hnil. symmetry. apply app_nil_r.
Qed.

(** A send that would overflow the write buffer returns false and does nothing but mark the
    element as failed: the connection is not closed, no byte is written and no handler is
    called. *)
Theorem send_overflow_marks_element data fuel :
  write_buffer e ≠ [] →
  WRITE_BUFFER_MAX < Z.of_nat (length (pending e) + length data) < 2 ^ 63 →
  send fuel (el_fd e) data w = Ret (false, set_element p (with_state SCK_ERROR e) w).
Proof.
  intros Hne Hov. pose proof (length_pending e element_sendable) as Hp.
  rewrite <-(at_element_self p w e) at 1 by done. unfold send.
  erewrite bind_at by by apply get_element_at. cbv beta iota zeta. erewrite bind_at by apply deref_at.
  rewrite bool_decide_false by done. rewrite <-Hp, (u64_small (Z.of_nat (length (pending e)))) by lia.
  rewrite u64_small by lia. rewrite (proj2 (Z.ltb_lt _ _)) by lia.
  by erewrite bind_at by apply update_at.
Qed.
End Properties.
End WritePath.

(** ** Concrete runs *)

#[local] Instance write_order : HostOrder := LittleEndian.

(** One connection, element 1 on descriptor 5, whose peer still accepts
    [window] bytes; two signals will interrupt the first writes. *)
Definition out_element (wb : list byte) : NetworkElement := mk_element SCK_HEADER 5 None 0 [] wb 0.
Definition out_world (window : Z) (wb : list byte) : @World sim_kernel () :=
  mk_world (mk_queue 3 (-1) {[1%positive := out_element wb]} {[5 := 1%positive]})
    (mk_sim (mk_kview {[5 := []]} {[5 := Open]} ∅ 2 {[3; 5]} {[3 := {[5 := 1%positive]}]} ∅)
       2 {[5 := window]} 0 0 0) ().

Lemma out_element_sendable wb :
  Z.of_nat (length wb) ≤ WRITE_BUFFER_MAX → sendable (out_element wb).
Proof.
  intros Hl. unfold WRITE_BUFFER_MAX in *.
  split; unfold pending; cbn [out_element write_buffer write_buffer_offset]; rewrite ?drop_0;
    unfold WRITE_BUFFER_MAX; lia.
Qed.

Definition sample_data : list byte := [x01; x02; x03; x04; x05; x06; x07].

Lemma send_appends_to_output_witness :
  ∃ b w' e', send 20 5 sample_data (out_world 4 []) = Ret (b, w') ∧
    elements (queue w') !! 1%positive = Some e' ∧ (b = true → output e' (kern w') = sample_data).
Proof.
  destruct (send_appends_to_output 1%positive (out_world 4 []) (out_element []) eq_refl eq_refl
    (out_element_sendable [] (ltac:(vm_compute; discriminate) : 0 ≤ WRITE_BUFFER_MAX)) sample_data 20)
    as (b&w'&e'&bs&Hs&He&Hout&_&Hall&_); [vm_compute; reflexivity|vm_compute; lia|].
  exists b, w', e'. split; [exact Hs|]. split; [exact He|].
  intros Hb. rewrite (proj1 Hall Hb) in Hout. exact Hout.
Defined.

Lemma flush_keeps_output_witness :
  ∃ b w' e', flush_write_buffer 20 1%positive (out_world 2 sample_data) = Ret (b, w') ∧
    elements (queue w') !! 1%positive = Some e' ∧ output e' (kern w') = sample_data.
Proof.
  destruct (flush_keeps_output 1%positive (out_world 2 sample_data) (out_element sample_data)
    eq_refl (out_element_sendable sample_data (ltac:(vm_compute; discriminate) : 7 ≤ WRITE_BUFFER_MAX)) 20)
    as (b&w'&e'&Hs&He&Hout&_); [vm_compute; lia|].
  exists b, w', e'. split; [exact Hs|]. split; [exact He|exact Hout].
Defined.

(** The same runs evaluated: what is left in the write buffer. *)
Definition left_pending (r : outcome (bool * @World sim_kernel ())) : option (bool * list byte) :=
  match r with
  | Ret (b, w) => e ← elements (queue w) !! 1%positive; Some (b, pending e)
  | _ => None
  end.

Example send_partial_write :
  left_pending (send 20 5 sample_data (out_world 4 [])) = Some (true, [x05; x06; x07]).
Proof. vm_compute. reflexivity. Qed.

Example flush_partial_write :
  left_pending (flush_write_buffer 20 1%positive (out_world 2 sample_data)) =
  Some (true, [x03; x04; x05; x06; x07]).
Proof. vm_compute. reflexivity. Qed.

Definition sample_ops : list out_op :=
  [OpPacket SWITCH_MIP [x01; x02]; OpFlush; OpHeartbeat; OpPacket AGENT_MIP []].

Lemma connection_output_is_frames_witness :
  ∃ b w' e', run_ops (Z.to_nat 66000) 5 1%positive sample_ops (out_world 9 []) = Ret (b, w') ∧
    elements (queue w') !! 1%positive = Some e' ∧
    (b = true → wire e' (kern w') ++ pending e' =
       frames [(SWITCH_MIP, [x01; x02]); (HEARTBEAT, []); (AGENT_MIP, [])]).
Proof.
  destruct (connection_output_is_frames 1%positive (out_world 9 []) (out_element []) eq_refl eq_refl
    (out_element_sendable [] (ltac:(vm_compute; discriminate) : 0 ≤ WRITE_BUFFER_MAX)) sample_ops (Z.to_nat 66000))
    as (b&w'&e'&Hs&He&_&_&_&Hall&_).
  - repeat constructor; vm_compute; discriminate.
  - vm_compute. reflexivity.
  - unfold WRITE_BUFFER_MAX.
    assert (length (frames (sample_ops ≫= op_packets)) = 20%nat) as -> by (vm_compute; reflexivity).
    change (signals (view (kern (out_world 9 [])))) with 2%nat. lia.
  - exists b, w', e'. split; [exact Hs|]. split; [exact He|exact Hall].
Defined.

(** The same run, with the fuel it needs. *)
Example sample_ops_run :
  left_pending (run_ops 40 5 1%positive sample_ops (out_world 9 [])) =
  Some (true, drop 9 (frames [(SWITCH_MIP, [x01; x02]); (HEARTBEAT, []); (AGENT_MIP, [])])).
Proof. vm_compute. reflexivity. Qed.

Lemma send_overflow_marks_element_witness :
  let wb := repeat x00 (Z.to_nat 65530) in
  send 1 5 [x01; x02; x03; x04; x05; x06; x07] (out_world 9 wb) =
  Ret (false, set_element 1%positive (with_state SCK_ERROR (out_element wb)) (out_world 9 wb)).
Proof.
  intros wb. assert (length wb = Z.to_nat 65530) as Hl by apply repeat_length.
  apply (send_overflow_marks_element 1%positive (out_world 9 wb) (out_element wb) eq_refl eq_refl).
  - apply out_element_sendable. rewrite Hl. unfold WRITE_BUFFER_MAX. lia.
  - cbn [out_element write_buffer]. intros E. rewrite E in Hl. cbn in Hl. lia.
  - unfold pending, WRITE_BUFFER_MAX. cbn [out_element write_buffer write_buffer_offset].
    rewrite drop_0, Nat2Z.inj_add, Hl. cbn [length]. lia.
Defined.
