(* ===== verification/QueueInv.v ===== *)
(** * The queue owns its elements

    The invariant of [NetQueue] ([queue_wf]): its map, its heap and the epoll
    interest list describe the same elements, none leaked and none dangling,
    and every element's receive buffer is consistent.  The operations keep it;
    [wait_and_process] keeps it, and follows no dangling pointer, for all
    handlers that keep it and remove no element. *)
From stdpp Require Import base option list gmap sets.
From Stdlib Require Import ZArith Lia.
From S2P Require Import Prelude Bytes Kernel Protocol Framing NetQueue ReadPath.

#[local] Open Scope Z_scope.

(** The receive side of an element, whatever its state. *)
Definition element_wf (e : NetworkElement) : Prop :=
  0 ≤ net_buffer_used e ≤ Z.of_nat (length (net_buffer e)) ∧
  Z.of_nat (length (net_buffer e)) ≤ NET_BUFFER_SIZE ∧
  match el_state e with
  | SCK_HEADER => net_buffer_used e < PACKET_HEADER_SIZE
  | SCK_PAYLOAD => PACKET_HEADER_SIZE ≤ net_buffer_used e ≤ PACKET_HEADER_SIZE + header_size e
  | SCK_READY => net_buffer_used e = PACKET_HEADER_SIZE + header_size e
  | _ => True
  end.

Section QueueInv.
Context `{HostOrder} `{K : Kernel} `{KL : !KernelLaws K} `{Malloc} `{NodeAlloc} {A D : Type}.
Abbreviation W := (@World K A).
Implicit Types (p : loc) (w : W) (e : NetworkElement) (k : kernel) (m : gmap Z loc).

Abbreviation fds w := (fd_to_network_element (queue w)).

Record queue_wf w : Prop := {
  wf_registered fd p : fds w !! fd = Some p → ∃ e, elements (queue w) !! p = Some e ∧ el_fd e = fd;
  wf_owned p e : elements (queue w) !! p = Some e → fds w !! el_fd e = Some p;
  wf_interest : interest_of (view (kern w)) (epoll_fd (queue w)) = fds w;
  wf_not_epoll : fds w !! epoll_fd (queue w) = None;
  wf_epoll_open : epoll_fd (queue w) ∈ open_fds (view (kern w));
  wf_elements p e : elements (queue w) !! p = Some e → element_wf e
}.

(** ** Replacing an element and the kernel state *)

(** The calls that register, open and close nothing, and those that do not
    touch the registrations of the epoll descriptor [ep] and close nothing. *)
Definition same_reg k k' : Prop :=
  interest (view k') = interest (view k) ∧ open_fds (view k') = open_fds (view k).
Definition same_reg_at (ep : Z) k k' : Prop :=
  interest_of (view k') ep = interest_of (view k) ep ∧ open_fds (view k) ⊆ open_fds (view k').

Lemma interest_at k k' ep : same_reg k k' → same_reg_at ep k k'.
Proof. intros [E Ho]. split; [unfold interest_of; by rewrite E|by rewrite Ho]. Qed.

Lemma queue_wf_at p w k e e' :
  queue_wf w → elements (queue w) !! p = Some e →
  element_wf e' → el_fd e' = el_fd e →
  same_reg_at (epoll_fd (queue w)) (kern w) k →
  queue_wf (at_element p w k e').
Proof.
  intros [Hreg Hown Hint Hep Hopen Hel] He Hwf Hfd [Hi Ho]. split; cbn.
  - intros fd q Hq. destruct (Hreg fd q Hq) as (e1&He1&<-).
    destruct (decide (p = q)) as [->|Hne].
    + rewrite lookup_insert_eq. exists e'. split; [done|]. congruence.
    + rewrite lookup_insert_ne by done. eauto.
  - intros q e1. rewrite lookup_insert_Some. intros [[<- <-]|[Hne Hq]]; [rewrite Hfd|]; eauto.
  - by rewrite Hi.
  - done.
  - by apply Ho.
  - intros q e1. rewrite lookup_insert_Some. intros [[<- <-]|[Hne Hq]]; eauto.
Qed.

(** The effect of a call on the interest lists only. *)
Lemma read_interest fd n k r k' :
  0 ≤ n → sys_read fd n k = (r, k') →
  same_reg k k' ∧ (∀ bs, r = inl bs → Z.of_nat (length bs) ≤ n).
Proof.
  intros Hn Hr. destruct (packets (view k) !! fd) eqn:Hp.
  - assert (tun_read_spec fd n (view k) r (view k')) as Hs
      by (apply sys_read_tun_ok; [done|by rewrite Hp|done]).
    unfold same_reg. inversion Hs as [pk ps Hpk E Hv|Hpk E Hv]; subst r; (split; [done|]).
    + intros bs [= <-]. rewrite length_take. lia.
    + by intros.
  - pose proof (sys_read_ok _ _ _ _ _ Hn Hp Hr) as Hs.
    unfold same_reg. inversion Hs as [|j Hj Hj' E Hv| | |]; subst; (split; [done|]); intros bs [= <-]; cbn; try lia.
    rewrite length_take. lia.
Qed.

Lemma write_interest fd bs k r k' :
  sys_write fd bs k = (r, k') → same_reg k k'.
Proof.
  intros Hw. pose proof (sys_write_ok _ _ _ _ _ Hw) as Hs. unfold same_reg. by inversion Hs.
Qed.

(** Modifying the registration of an element with its own address. *)
Lemma ctl_mod_interest ep fd p ev k b k' :
  sys_epoll_ctl ep EPOLL_CTL_MOD fd (Some ev) k = (b, k') → ev_ptr ev = p →
  interest_of (view k) ep !! fd = Some p →
  same_reg_at ep k k'.
Proof.
  unfold same_reg_at. intros Hc Hev Hi. pose proof (sys_epoll_ctl_ok _ _ _ _ _ _ _ Hc) as Hs.
  inversion Hs as [| ? q Hq E1 E2 E3 Hv | |]; subst; [|done].
  rewrite interest_of_set. by rewrite insert_id.
Qed.

(** ** The loop of [process] *)

(** The user pointers of the elements. *)
Definition user_data w : gmap loc (option loc) := el_ptr <$> elements (queue w).

Section Invariant.
(** What the handlers maintain between the calls: an invariant of their state
    and the user pointers of the queue. *)
Context (I : A → gmap loc (option loc) → Prop).

(** The invariants, with the registrations [m] in place. *)
Definition owns m w : Prop := queue_wf w ∧ m ⊆ fds w ∧ I (app w) (user_data w).

(** The undefined behaviour the invariant does not exclude. *)
Definition overflow_only (u : ub) : Prop := u = BufferOverflow.

Lemma owns_element m w fd p :
  owns m w → m !! fd = Some p → ∃ e, elements (queue w) !! p = Some e ∧ el_fd e = fd.
Proof. intros (Hwf&Hm&_) Hp. eapply wf_registered; [done|]. by eapply lookup_weaken. Qed.

Lemma user_data_at w p k e e' :
  elements (queue w) !! p = Some e → el_ptr e' = el_ptr e → user_data (at_element p w k e') = user_data w.
Proof.
  intros He Hptr. unfold user_data; cbn. rewrite fmap_insert, Hptr. apply insert_id.
  by rewrite lookup_fmap, He.
Qed.

Lemma owns_at m w p k e e' :
  owns m w → elements (queue w) !! p = Some e → element_wf e' →
  el_fd e' = el_fd e ∧ el_ptr e' = el_ptr e →
  same_reg_at (epoll_fd (queue w)) (kern w) k →
  owns m (at_element p w k e').
Proof.
  intros (Hwf&Hm&HI) He Hwf' [Hfd Hptr] Hk. split; [by eapply queue_wf_at|]. split; [done|].
  by rewrite (user_data_at w p k e e').
Qed.

(** A read into the buffer, by its outcome. *)
Lemma read_into_cases p w k e fd off n :
  0 ≤ off ≤ Z.of_nat (length (net_buffer e)) → 0 ≤ n →
  ∃ k', same_reg k k' ∧
    (read_into p fd off n (at_element p w k e) = Undef BufferOverflow ∨
     (∃ err, read_into p fd off n (at_element p w k e) = Ret (inr err, at_element p w k' e)) ∨
     (∃ bs, Z.of_nat (length bs) ≤ n ∧ off + Z.of_nat (length bs) ≤ NET_BUFFER_SIZE ∧
        read_into p fd off n (at_element p w k e) = Ret (inl (Z.of_nat (length bs)),
          at_element p w k' (with_net_buffer (overwrite off bs (net_buffer e)) e)))).
Proof.
  intros Ho Hn. destruct (sys_read fd n k) as [r k'] eqn:Hr. exists k'.
  destruct (read_interest fd n k r k' Hn Hr) as [Hi Hbs]. split; [done|].
  unfold read_into. erewrite bind_at by by apply syscall_at.
  destruct r as [bs|err]; [|by right; left; exists err].
  erewrite bind_at by apply deref_at.
  destruct (Z.ltb_spec NET_BUFFER_SIZE (off + Z.of_nat (length bs))); [by left|right; right].
  rewrite (proj2 (Z.ltb_ge _ _)) by lia. erewrite bind_at by apply update_at.
  exists bs. split_and!; [by apply Hbs|lia|done].
Qed.

(** What the theorems ask of the handlers: given an element that is registered
    and whose buffer holds the packet, they keep the invariants and every
    registration, and reach no undefined behaviour.  [onClose] is called before
    the queue removes the element: it gives up the element's user pointer.  The
    agent's handlers satisfy this ([Agent.AgentDispatch_keeps]); a handler that
    calls [close] on the element it was called for does not, as onAgentMIP when
    no switch is registered and onAuthConnectToSwitch on an unknown token. *)
Record handler_keeps (handler : NetworkQueueHandler D W) : Prop := {
  keeps_onClose : ∃ g, h_onClose handler = Some g ∧ ∀ m d,
    m !! cd_fd d = Some (cd_net_element d) →
    hoare overflow_only (λ w, owns m w ∧ user_data w !! cd_net_element d = Some (cd_ptr_data d))
      (g (h_ptr_data handler) d)
      (λ _ w, queue_wf w ∧ m ⊆ fds w ∧ I (app w) (delete (cd_net_element d) (user_data w)));
  keeps_onSocketReady : ∃ g, h_onSocketReady handler = Some g ∧ ∀ m d,
    m !! sd_fd d = Some (sd_net_element d) →
    hoare overflow_only
      (λ w, owns m w ∧ ∃ e, elements (queue w) !! sd_net_element d = Some e ∧
         el_ptr e = sd_ptr_data d ∧ sd_packet_buffer d = mk_buffer_ptr (sd_net_element d) PACKET_HEADER_SIZE ∧
         0 ≤ sd_payload_size d ∧
         PACKET_HEADER_SIZE + sd_payload_size d ≤ Z.of_nat (length (net_buffer e)))
      (g (h_ptr_data handler) d) (λ _, owns m);
  keeps_onTunReady : ∃ g, h_onTunReady handler = Some g ∧ ∀ m d,
    m !! td_fd d = Some (td_net_element d) →
    hoare overflow_only (owns m) (g (h_ptr_data handler) d) (λ _, owns m)
}.

Section Handler.
Context (handler : NetworkQueueHandler D W) (Hh : handler_keeps handler).

Lemma update_owns {allowed} m fd p f :
  m !! fd = Some p → (∀ e, element_wf e → element_wf (f e) ∧ el_fd (f e) = el_fd e ∧ el_ptr (f e) = el_ptr e) →
  hoare allowed (owns m) (update p f) (λ _, owns m).
Proof.
  intros Hm Hf w Ho. destruct (owns_element m w fd p Ho Hm) as (e&He&_).
  rewrite <-(at_element_self p w e) by done. rewrite update_at.
  destruct (Hf e) as (Hwf&Hfd&Hptr); [by eapply wf_elements; [apply Ho|]|]. by eapply owns_at.
Qed.

(** Resetting the buffer and moving to a state that starts a reception. *)
Lemma reset_owns m fd p :
  m !! fd = Some p →
  hoare overflow_only (owns m) (update p (with_used 0);; set_state p SCK_HEADER;; mret false) (λ _, owns m).
Proof.
  intros Hm w Ho. destruct (owns_element m w fd p Ho Hm) as (e&He&_).
  rewrite <-(at_element_self p w e) by done. unfold set_state.
  erewrite bind_at by apply update_at. erewrite bind_at by apply update_at.
  destruct (wf_elements _ (proj1 Ho) p e He) as (Hu&Hl&_).
  eapply owns_at; [done..| |by split|done].
  unfold element_wf, PACKET_HEADER_SIZE; el_cbn. lia.
Qed.

Lemma undef_at {R T} p w k e (mm : M W R) (g : R → M W T) u :
  mm (at_element p w k e) = Undef u → (mm ≫= g) (at_element p w k e) = Undef u.
Proof. intros E. unfold mbind, M_bind. by rewrite E. Qed.


(** The element after [bs] was stored behind what the buffer held. *)
Lemma element_wf_read e bs s :
  element_wf e → net_buffer_used e + Z.of_nat (length bs) ≤ NET_BUFFER_SIZE →
  let e' := with_state s (with_used (net_buffer_used e + Z.of_nat (length bs))
    (with_net_buffer (overwrite (net_buffer_used e) bs (net_buffer e)) e)) in
  match s with
  | SCK_HEADER => net_buffer_used e' < PACKET_HEADER_SIZE
  | SCK_PAYLOAD => PACKET_HEADER_SIZE ≤ net_buffer_used e' ≤ PACKET_HEADER_SIZE + header_size e'
  | SCK_READY => net_buffer_used e' = PACKET_HEADER_SIZE + header_size e'
  | _ => True
  end → element_wf e'.
Proof.
  intros (Hu&Hl&_) Hb e' Hs.
  assert (length (net_buffer e') =
    ((Z.to_nat (net_buffer_used e) + length bs) `max` length (net_buffer e))%nat) as Hlen
    by by apply length_overwrite.
  unfold NET_BUFFER_SIZE in *. split_and!; [| |unfold NET_BUFFER_SIZE; lia|done];
    rewrite ?Hlen; unfold e'; el_cbn; lia.
Qed.

Lemma element_wf_error e s :
  element_wf e → s = SCK_ERROR ∨ s = SCK_EOF ∨ s = TUN_ERROR ∨ s = TUN_EOF →
  element_wf (with_state s e).
Proof. intros (Hu&Hl&_) Hs. split_and!; el_cbn; try lia. by destruct Hs as [-> |[-> |[-> | ->]]]. Qed.

Lemma step_header_owns m p e w :
  owns m w → elements (queue w) !! p = Some e → el_state e = SCK_HEADER →
  match process_step handler p w with
  | Ret (_, w') => owns m w' | Undef u => overflow_only u | _ => True
  end.
Proof.
  intros Ho He Hst. rewrite <-(at_element_self p w e) by done.
  pose proof (wf_elements _ (proj1 Ho) p e He) as Hwf. pose proof Hwf as (Hu&Hl&Hs).
  rewrite Hst in Hs. unfold PACKET_HEADER_SIZE, NET_BUFFER_SIZE in *.
  unfold process_step. erewrite bind_at by apply deref_at. rewrite Hst.
  unfold PACKET_HEADER_SIZE. rewrite u64_small by lia.
  destruct (read_into_cases p w (kern w) e (el_fd e) (net_buffer_used e) (6 - net_buffer_used e))
    as (k'&Hi&[E|[(err&E)|(bs&Hn&Hb&E)]]); [done|lia|by erewrite undef_at by apply E|..];
    erewrite bind_at by apply E; cbv beta iota zeta.
  - destruct err; [by eapply owns_at; eauto using interest_at|..];
      (erewrite bind_at by apply update_at);
      (eapply owns_at; [done|done| |by split|by apply interest_at]); apply element_wf_error; auto.
  - destruct (Z.eqb_spec (Z.of_nat (length bs)) 0) as [E0|E0].
    { erewrite bind_at by apply update_at.
      assert (bs = []) as -> by (apply nil_length_inv; lia). rewrite overwrite_nil.
      eapply owns_at; [done|done| |by split|by apply interest_at].
      change (element_wf (with_state SCK_EOF (with_net_buffer (net_buffer e) e))).
      destruct e. apply element_wf_error; auto. }
    erewrite bind_at by apply update_at. rewrite u64_small by lia.
    destruct (Z.eqb_spec (net_buffer_used e + Z.of_nat (length bs)) 6) as [E6|E6].
    + erewrite bind_at by apply update_at.
      eapply owns_at; [done|done| |by split|by apply interest_at].
      apply element_wf_read; [done|done|]. el_cbn. unfold PACKET_HEADER_SIZE, header_size; el_cbn.
      pose proof (stream_size_bound (overwrite (net_buffer_used e) bs (net_buffer e))) as [? _]. lia.
    + rewrite <-(with_state_id (with_used _ _)); el_cbn. rewrite Hst.
      eapply owns_at; [done|done| |by split|by apply interest_at].
      apply element_wf_read; [done|done|]. el_cbn. unfold PACKET_HEADER_SIZE. lia.
Qed.

Lemma step_payload_owns m p e w :
  owns m w → elements (queue w) !! p = Some e → el_state e = SCK_PAYLOAD →
  match process_step handler p w with
  | Ret (_, w') => owns m w' | Undef u => overflow_only u | _ => True
  end.
Proof.
  intros Ho He Hst. rewrite <-(at_element_self p w e) by done.
  pose proof (wf_elements _ (proj1 Ho) p e He) as Hwf. pose proof Hwf as (Hu&Hl&Hs).
  rewrite Hst in Hs. pose proof (stream_size_bound (net_buffer e)) as [_ Hz]. fold (header_size e) in Hz.
  unfold PACKET_HEADER_SIZE, NET_BUFFER_SIZE in *.
  unfold process_step. erewrite bind_at by apply deref_at. rewrite Hst.
  destruct (load_header_at p w (kern w) e) as (Hload&Hsz&_); [unfold PACKET_HEADER_SIZE; lia|].
  erewrite bind_at by apply Hload. unfold PACKET_HEADER_SIZE.
  rewrite Hsz, !u64_small by (rewrite ?u64_small; lia).
  destruct (read_into_cases p w (kern w) e (el_fd e) (net_buffer_used e)
    (header_size e + 6 - net_buffer_used e))
    as (k'&Hi&[E|[(err&E)|(bs&Hn&Hb&E)]]); [done|lia|by erewrite undef_at by apply E|..];
    erewrite bind_at by apply E; cbv beta iota zeta.
  - destruct err; [by eapply owns_at; eauto using interest_at|..];
      (erewrite bind_at by apply update_at);
      (eapply owns_at; [done|done| |by split|by apply interest_at]); apply element_wf_error; auto.
  - erewrite bind_at by apply update_at. rewrite u64_small by (unfold NET_BUFFER_SIZE in *; lia).
    assert (stream_size (overwrite (net_buffer_used e) bs (net_buffer e)) = header_size e) as Hsz'
      by (apply header_size_overwrite; lia).
    destruct (Z.eqb_spec (net_buffer_used e + Z.of_nat (length bs)) (header_size e + 6)) as [E6|E6].
    + erewrite bind_at by apply update_at.
      eapply owns_at; [done|done| |by split|by apply interest_at].
      apply element_wf_read; [done|done|]. el_cbn. unfold PACKET_HEADER_SIZE, header_size at 1; el_cbn. lia.
    + rewrite <-(with_state_id (with_used _ _)); el_cbn. rewrite Hst.
      eapply owns_at; [done|done| |by split|by apply interest_at].
      apply element_wf_read; [done|done|]. el_cbn. unfold PACKET_HEADER_SIZE, header_size at 1; el_cbn. lia.
Qed.

Lemma step_ready_owns m fd p e w :
  owns m w → m !! fd = Some p → elements (queue w) !! p = Some e → el_state e = SCK_READY → el_fd e = fd →
  match process_step handler p w with
  | Ret (_, w') => owns m w' | Undef u => overflow_only u | _ => True
  end.
Proof.
  intros Ho Hm He Hst Hfd. pose proof (wf_elements _ (proj1 Ho) p e He) as (Hu&Hl&Hs). rewrite Hst in Hs.
  destruct (keeps_onSocketReady _ Hh) as (g&Hg&Hkeep).
  pose proof (stream_size_bound (net_buffer e)) as [Hz _]. fold (header_size e) in Hz.
  assert (hoare overflow_only (λ w', owns m w' ∧ w' = w) (process_step handler p) (λ _, owns m)) as Hstep;
    [|by apply Hstep].
  intros ? [_ ->]. rewrite <-(at_element_self p w e) by done. unfold process_step.
  erewrite bind_at by apply deref_at. rewrite Hst.
  destruct (load_header_at p w (kern w) e) as (Hload&Hsz&Hty); [lia|].
  erewrite bind_at by apply Hload. rewrite Hsz, Hty, at_element_self by done. rewrite Hg. cbn [call].
  eapply (hoare_bind _ (λ w', w' = w) _ (λ _, owns m)); [| |done].
  - intros ? ->. apply (Hkeep m); cbn; [congruence|]. split; [done|]. exists e. split_and!; try done.
    rewrite <-Hs. lia.
  - intros _. by eapply reset_owns.
Qed.

Lemma step_tun_owns m fd p e w :
  owns m w → m !! fd = Some p → elements (queue w) !! p = Some e → el_fd e = fd →
  el_state e = TUN_RECEIVE ∨ el_state e = TUN_READY →
  match process_step handler p w with
  | Ret (_, w') => owns m w' | Undef u => overflow_only u | _ => True
  end.
Proof.
  intros Ho Hm He Hfd Hst. pose proof (wf_elements _ (proj1 Ho) p e He) as Hwf. pose proof Hwf as (Hu&Hl&_).
  assert (hoare overflow_only (λ w', owns m w' ∧ w' = w) (process_step handler p) (λ _, owns m)) as Hstep;
    [|by apply Hstep].
  intros ? [_ ->]. rewrite <-(at_element_self p w e) by done. unfold process_step.
  erewrite bind_at by apply deref_at. destruct Hst as [Hst|Hst]; rewrite Hst.
  - unfold NET_BUFFER_SIZE in *.
    destruct (read_into_cases p w (kern w) e (el_fd e) 0 66000)
      as (k'&Hi&[E|[(err&E)|(bs&Hn&Hb&E)]]); [lia|done|by erewrite undef_at by apply E|..];
      erewrite bind_at by apply E; cbv beta iota zeta.
    + destruct err; [by eapply owns_at; eauto using interest_at|..];
        (erewrite bind_at by apply update_at);
        (eapply owns_at; [done|done| |by split|by apply interest_at]); apply element_wf_error; auto.
    + assert (Z.of_nat (length bs) ≤ Z.of_nat (length (overwrite 0 bs (net_buffer e))) ≤ 66000) as Hlen.
      { rewrite length_overwrite by lia. lia. }
      destruct (Z.of_nat (length bs) =? 0).
      * erewrite bind_at by apply update_at. eapply owns_at; [done|done| |by split|by apply interest_at].
        assert (Z.of_nat (length (net_buffer e)) ≤ Z.of_nat (length (overwrite 0 bs (net_buffer e)))).
        { rewrite length_overwrite by lia. lia. }
        unfold element_wf, NET_BUFFER_SIZE; el_cbn. split_and!; try done; lia.
      * erewrite bind_at by apply update_at. erewrite bind_at by apply update_at.
        eapply owns_at; [done|done| |by split|by apply interest_at].
        unfold element_wf, NET_BUFFER_SIZE; el_cbn. split_and!; try done; lia.
  - rewrite at_element_self by done. destruct (keeps_onTunReady _ Hh) as (g&Hg&Hkeep). rewrite Hg.
    cbn [call]. eapply (hoare_bind _ (owns m) _ (λ _, owns m)); [| |done].
    + apply Hkeep. cbn. congruence.
    + intros _. eapply hoare_bind; [eapply (update_owns _ fd)|intros []; by apply hoare_ret]; [done|].
      intros e1 (Hu1&Hl1&_). by split.
Qed.

Lemma process_step_owns m fd p :
  m !! fd = Some p → hoare overflow_only (owns m) (process_step handler p) (λ _, owns m).
Proof.
  intros Hm w Ho. destruct (owns_element m w fd p Ho Hm) as (e&He&Hfd).
  destruct (el_state e) eqn:Hst;
    try (by eapply step_tun_owns; eauto); try (by eapply step_header_owns);
    try (by eapply step_payload_owns); try (by eapply step_ready_owns);
    rewrite <-(at_element_self p w e) by done; unfold process_step;
    erewrite bind_at by apply deref_at; rewrite Hst; cbn; rewrite at_element_self; done.
Qed.

Lemma process_owns fuel m fd p :
  m !! fd = Some p → hoare overflow_only (owns m) (process handler fuel p) (λ _, owns m).
Proof.
  intros Hm. induction fuel as [|fuel IH]; [by intros w Hw|]. cbn [process].
  eapply hoare_bind; [by eapply process_step_owns|]. intros []; [|done]. by apply hoare_ret.
Qed.

(** ** Flushing, closing and the event loop *)

(** Re-arming the registration of an element. *)
Lemma rearm_at m w p k e i o r :
  owns m (at_element p w k e) →
  ∃ b k', epoll_ctl EPOLL_CTL_MOD (el_fd e) (Some (mk_event i o r r p)) (at_element p w k e) =
      Ret (b, at_element p w k' e) ∧ owns m (at_element p w k' e).
Proof.
  intros Ho.
  destruct (sys_epoll_ctl (epoll_fd (queue w)) EPOLL_CTL_MOD (el_fd e)
    (Some (mk_event i o r r p)) k) as [b k'] eqn:E.
  exists b, k'. split; [unfold epoll_ctl; by apply syscall_at|].
  assert (elements (queue (at_element p w k e)) !! p = Some e) as He by (cbn; by rewrite lookup_insert_eq).
  assert (at_element p (at_element p w k e) k' e = at_element p w k' e) as <-.
  { unfold at_element, set_element, set_kern, set_queue, with_elements; cbn. by rewrite insert_insert_eq. }
  eapply owns_at; [done|done|by eapply wf_elements; [apply Ho|]|by split|].
  cbn. eapply ctl_mod_interest; [exact E|done|].
  pose proof (wf_interest _ (proj1 Ho)) as Hi. cbn in Hi. rewrite Hi.
  by apply (wf_owned _ (proj1 Ho) p e).
Qed.

Lemma flush_owns fuel m fd p :
  m !! fd = Some p → hoare overflow_only (owns m) (flush_write_buffer fuel p) (λ _, owns m).
Proof.
  intros Hm. induction fuel as [|fuel IH]; [by intros w Hw|]. intros w Ho.
  destruct (owns_element m w fd p Ho Hm) as (e&He&Hfd).
  rewrite <-(at_element_self p w e) by done. cbn [flush_write_buffer]. erewrite bind_at by apply deref_at.
  pose proof (wf_elements _ (proj1 Ho) p e He) as Hwf.
  assert (∀ k' bs off, same_reg (kern w) k' →
    owns m (at_element p w k' (with_write_buffer bs off e))) as Hwb.
  { intros k' bs off Hi. by eapply owns_at; [| | | |apply interest_at]. }
  destruct (_ <? _).
  - destruct (sys_write (el_fd e) (drop (Z.to_nat (write_buffer_offset e)) (write_buffer e)) (kern w))
      as [r k'] eqn:Hw.
    pose proof (write_interest _ _ _ _ _ Hw) as Hi.
    erewrite bind_at by by apply syscall_at.
    assert (owns m (at_element p w k' e)) as Ho'.
    { specialize (Hwb k' (write_buffer e) (write_buffer_offset e) Hi). by destruct e. }
    destruct r as [r|[]]; [|done|by apply IH|done].
    destruct (r =? 0); [done|]. erewrite bind_at by apply update_at. by apply IH, Hwb.
  - erewrite bind_at by apply update_at.
    destruct (rearm_at m w p (kern w) (with_write_buffer [] 0 e) true false false) as (b&k'&E&Ho');
      [by apply Hwb|].
    by erewrite bind_at by apply E.
Qed.

(** The well-formedness of the queue does not depend on the state of the handlers. *)
Lemma set_app_wf w a : queue_wf w → queue_wf (set_app a w).
Proof. by intros []; split. Qed.

(** The element of [fd] leaves the queue. *)
Definition closed_world fd p (k : kernel) w : W :=
  mk_world (mk_queue (epoll_fd (queue w)) (epoll_timeout (queue w))
    (delete p (elements (queue w))) (delete fd (fds w))) k (app w).

Lemma close_element_run w fd p :
  queue_wf w → fds w !! fd = Some p →
  ∃ k, close_element (Some p) w = Ret ((), closed_world fd p k w) ∧
    open_fds (view k) = open_fds (view (kern w)) ∖ {[fd]} ∧
    interest_of (view k) (epoll_fd (queue w)) = delete fd (fds w).
Proof.
  intros Hwf Hp. destruct (wf_registered _ Hwf fd p Hp) as (e&He&Hfd).
  destruct (sys_epoll_ctl (epoll_fd (queue w)) EPOLL_CTL_DEL fd None (kern w)) as [b k1] eqn:E.
  exists (sys_close fd k1). split.
  - unfold close_element. rewrite (bind_ret _ _ w e w) by (unfold deref; by rewrite He).
    rewrite Hfd. erewrite (bind_ret (get_network_element_from_fd fd)); [|reflexivity].
    rewrite bool_decide_true by done.
    erewrite (bind_ret (epoll_ctl _ _ _)); [|unfold epoll_ctl, syscall; by rewrite E].
    erewrite (bind_ret (real_close fd)); [|reflexivity].
    erewrite (bind_ret (delete_element p)); [|unfold delete_element; cbn; by rewrite He].
    reflexivity.
  - pose proof (sys_epoll_ctl_ok _ _ _ _ _ _ _ E) as Hs. rewrite !sys_close_ok.
    assert (fd ≠ epoll_fd (queue w)) as Hne.
    { intros ->. pose proof (wf_not_epoll _ Hwf). congruence. }
    pose proof (wf_interest _ Hwf) as Hi.
    split; [|rewrite interest_of_set_closed by done]; inversion Hs as [| |ev q Hq E1 E2 E3 Hv|]; subst;
      try done; rewrite ?interest_of_set.
    + by rewrite Hi, delete_delete_eq.
    + by rewrite Hi.
Qed.

Lemma closed_world_wf w fd p k :
  queue_wf w → fds w !! fd = Some p →
  interest_of (view k) (epoll_fd (queue w)) = delete fd (fds w) →
  open_fds (view k) = open_fds (view (kern w)) ∖ {[fd]} →
  queue_wf (closed_world fd p k w).
Proof.
  intros [Hreg Hown Hint Hep Hopen Hel] Hp Hi Ho.
  destruct (Hreg fd p Hp) as (e&He&Hfd). split; cbn.
  - intros fd' q. rewrite lookup_delete_Some. intros [Hne Hq].
    destruct (Hreg fd' q Hq) as (e'&He'&Hfd'). exists e'.
    rewrite lookup_delete_ne by (intros ->; congruence). done.
  - intros q e'. rewrite lookup_delete_Some. intros [Hne Hq].
    rewrite lookup_delete_ne; [by apply Hown|]. intros E. specialize (Hown q e' Hq). congruence.
  - done.
  - by rewrite lookup_delete_None; right.
  - rewrite Ho. assert (epoll_fd (queue w) ≠ fd) by (intros <-; by rewrite Hep in Hp).
    by apply elem_of_difference; split; [|rewrite elem_of_singleton].
  - intros q e'. rewrite lookup_delete_Some. intros [_ Hq]. by eapply Hel.
Qed.

Lemma owns_mono m m' w : m' ⊆ m → owns m w → owns m' w.
Proof. intros Hs (Hwf&Hm&HI). split; [done|]. split; [by etrans|done]. Qed.

Lemma deref_owns {allowed} m fd p :
  m !! fd = Some p →
  hoare allowed (owns m) (deref p)
    (λ e w, owns m w ∧ elements (queue w) !! p = Some e ∧ el_fd e = fd).
Proof.
  intros Hm w Ho. destruct (owns_element m w fd p Ho Hm) as (e&He&Hfd).
  unfold deref. rewrite He. by split_and!.
Qed.

Lemma close_owns m fd p :
  m !! fd = Some p →
  hoare overflow_only (λ w, queue_wf w ∧ m ⊆ fds w ∧ I (app w) (delete p (user_data w)))
    (close_element (Some p)) (λ _, owns (delete fd m)).
Proof.
  intros Hm w (Hwf&Hsub&HI). assert (fds w !! fd = Some p) as Hp by by eapply lookup_weaken.
  destruct (close_element_run w fd p Hwf Hp) as (k&E&Hopen&Hi). rewrite E.
  split; [by apply closed_world_wf|]. split; cbn; [by apply delete_mono|].
  unfold user_data; cbn. by rewrite fmap_delete.
Qed.

Lemma handle_event_owns fuel m fd closed ev :
  m !! fd = Some (ev_ptr ev) →
  hoare overflow_only (owns m) (handle_event handler fuel closed ev) (λ _, owns (delete fd m)).
Proof.
  intros Hm. unfold handle_event.
  assert (∀ w, owns m w → owns (delete fd m) w) as Hdel.
  { intros w. apply owns_mono, delete_subseteq. }
  apply hoare_if; [intros _; by apply hoare_ret|intros _].
  eapply (hoare_bind _ _ _ (λ _, owns m)).
  { destruct (ev_in ev); [|by apply hoare_ret].
    eapply hoare_bind; [by eapply process_owns|]. intros [].
    eapply hoare_bind; [by eapply deref_owns|]. intros e. apply hoare_ret. by intros w (?&_). }
  intros reason. eapply (hoare_bind _ _ _ (λ _, owns m)).
  { destruct (ev_out ev); [|by apply hoare_ret].
    eapply hoare_bind; [by eapply flush_owns|]. intros b. by apply hoare_ret. }
  intros reason'. cbv zeta.
  generalize (if ev_hup ev then Some CLOSE_HANGUP else if ev_err ev then Some CLOSE_ERROR else reason').
  intros reason2. eapply (hoare_bind _ _ _ (λ _, owns m)).
  { destruct reason2; [by apply hoare_ret|]. eapply hoare_bind; [by eapply deref_owns|].
    intros e w (Ho&He&Hfd). rewrite <-(at_element_self (ev_ptr ev) w e) in Ho |- * by done.
    edestruct rearm_at as (b&k'&E&Ho'); [exact Ho|]. erewrite bind_at by apply E. done. }
  intros [r|]; [|by apply hoare_ret].
  eapply hoare_bind; [by eapply deref_owns|]. intros e w (Ho&He&Hfd).
  destruct (keeps_onClose _ Hh) as (g&Hg&Hkeep). rewrite Hg. cbn [call].
  eapply (hoare_bind _ (λ w', w' = w)); [| |done].
  { intros ? ->. apply (Hkeep m); cbn; [congruence|]. split; [done|].
    unfold user_data. by rewrite lookup_fmap, He. }
  intros []. eapply hoare_bind; [by eapply close_owns|]. intros []. by apply hoare_ret.
Qed.

(** The events of other descriptors. *)
Lemma events_delete m fd (l : list Z) (evs : list epoll_event) :
  fd ∉ l → Forall2 (λ fd ev, m !! fd = Some (ev_ptr ev)) l evs →
  Forall2 (λ fd' ev, delete fd m !! fd' = Some (ev_ptr ev)) l evs.
Proof.
  intros Hnin Hall. apply Forall2_same_length_lookup. split; [by eapply Forall2_length|].
  intros i fd' ev' Hl Hev. rewrite lookup_delete_ne.
  - by eapply Forall2_lookup_lr in Hall.
  - intros ->. apply Hnin. by eapply list_elem_of_lookup_2.
Qed.

Lemma handle_events_owns fuel m closed evs l :
  NoDup l → Forall2 (λ fd ev, m !! fd = Some (ev_ptr ev)) l evs →
  hoare overflow_only (owns m) (handle_events handler fuel closed evs) (λ _, owns ∅).
Proof.
  intros Hnd Hall. revert m closed Hall. revert evs.
  induction Hnd as [|fd l Hnin Hnd IH]; intros evs m closed Hall.
  - apply Forall2_nil_inv_l in Hall as ->. apply hoare_ret. intros w. apply owns_mono, map_empty_subseteq.
  - apply Forall2_cons_inv_l in Hall as (ev&evs'&Hfd&Hall&->). cbn [handle_events].
    eapply hoare_bind; [by apply handle_event_owns|]. intros closed'. by apply IH, events_delete.
Qed.

Lemma set_kern_wf w k :
  queue_wf w →
  same_reg_at (epoll_fd (queue w)) (kern w) k →
  queue_wf (set_kern k w).
Proof. intros [? ? Hi ? Ho ?] [E1 E2]. split; try done; cbn; [by rewrite E1|by apply E2]. Qed.

Lemma wait_and_process_owns fuel :
  hoare overflow_only (owns ∅) (wait_and_process handler fuel) (λ _, owns ∅).
Proof.
  intros w (Hwf&_&HI). unfold wait_and_process.
  erewrite (bind_ret (λ w, Ret (queue w, w))) by reflexivity.
  destruct (sys_epoll_wait (epoll_fd (queue w)) EPOLL_MAX_EVENTS (epoll_timeout (queue w)) (kern w))
    as [r k] eqn:E.
  erewrite (bind_ret (syscall _)) by (unfold syscall; by rewrite E).
  assert (0 ≤ EPOLL_MAX_EVENTS) as Hmax by (unfold EPOLL_MAX_EVENTS; lia).
  pose proof (sys_epoll_wait_ok _ _ _ _ _ _ Hmax E) as Hs.
  inversion Hs as [l evs rx' e' ps Hnd Hlen Hall E1 Hv|rx' e' ps E1 Hv]; subst.
  - apply (handle_events_owns fuel (fds w) ∅ evs l Hnd); [by rewrite <-(wf_interest _ Hwf)|].
    split; [|done]. apply set_kern_wf; [done|]. unfold same_reg_at. by rewrite <-Hv.
  - split; [|split; [apply map_empty_subseteq|done]]. apply set_kern_wf; [done|]. unfold same_reg_at. by rewrite <-Hv.
Qed.
End Handler.
End Invariant.

(** ** Insertion *)

(** The queue after a successful [put]. *)
Definition put_world fd p e (k : kernel) w : W :=
  mk_world (mk_queue (epoll_fd (queue w)) (epoll_timeout (queue w))
    (<[p := e]> (elements (queue w))) (<[fd := p]> (fds w))) k (app w).

Lemma put_world_wf w fd p e k :
  queue_wf w → elements (queue w) !! p = None → fds w !! fd = None → fd ≠ epoll_fd (queue w) →
  el_fd e = fd → element_wf e →
  interest_of (view k) (epoll_fd (queue w)) = <[fd := p]> (fds w) →
  open_fds (view k) = open_fds (view (kern w)) →
  queue_wf (put_world fd p e k w).
Proof.
  intros [Hreg Hown Hint Hep Hopen Hel] Hp Hfd Hne He Hwf Hi Ho. split; cbn.
  - intros fd' q. rewrite lookup_insert_Some. intros [[<- <-]|[Hne' Hq]].
    + rewrite lookup_insert_eq. eauto.
    + destruct (Hreg fd' q Hq) as (e'&He'&Hfd'). rewrite lookup_insert_ne by (intros ->; congruence). eauto.
  - intros q e'. rewrite lookup_insert_Some. intros [[<- <-]|[Hne' Hq]].
    + by rewrite He, lookup_insert_eq.
    + rewrite lookup_insert_ne; [by apply Hown|]. intros E. specialize (Hown q e' Hq). congruence.
  - done.
  - by rewrite lookup_insert_ne.
  - by rewrite Ho.
  - intros q e'. rewrite lookup_insert_Some. intros [[<- <-]|[_ Hq]]; [done|by eapply Hel].
Qed.

Lemma put_run w fd data st :
  queue_wf w → fd ≠ epoll_fd (queue w) → st = SCK_HEADER ∨ st = TUN_RECEIVE →
  let e := NetworkElement_new fd data st in
  (∃ p k, put fd data st w = Ret (Some p, put_world fd p e k w) ∧ fds w !! fd = None ∧
     elements (queue w) !! p = None ∧ queue_wf (put_world fd p e k w)) ∨
  (∃ k, put fd data st w = Ret (None, set_kern k w) ∧ queue_wf (set_kern k w)).
Proof.
  intros Hwf Hne Hst e. pose proof (wf_interest _ Hwf) as Hi. unfold put.
  destruct (malloc (elements (queue w))) as [p|] eqn:Hp.
  2: { right. exists (kern w). erewrite bind_ret by (unfold new_element; by rewrite Hp).
    assert (set_kern (kern w) w = w) as E by (by destruct w). by rewrite E. }
  erewrite bind_ret by (unfold new_element; by rewrite Hp). cbv beta iota zeta.
  apply malloc_fresh in Hp as Hfresh. fold e.
  destruct (sys_epoll_ctl (epoll_fd (queue w)) EPOLL_CTL_ADD fd (Some (mk_event true false false false p))
    (kern w)) as [b k1] eqn:E1.
  erewrite (bind_ret (epoll_ctl _ _ _)) by (unfold epoll_ctl, syscall; cbn; by rewrite E1).
  pose proof (sys_epoll_ctl_ok _ _ _ _ _ _ _ E1) as Hs1.
  assert (∀ k, set_queue (with_elements (delete p (<[p := e]> (elements (queue w)))) (queue w)) (set_kern k w)
    = set_kern k w) as Hback.
  { intros k. unfold set_queue, set_kern, with_elements; cbn.
    rewrite delete_insert_id by done. by destruct (queue w). }
  assert (∀ T (g : () → M W T) k w', w' = set_kern k (set_element p e w) →
    (delete_element p ≫= g) w' = g () (set_kern k w)) as Hdelete.
  { intros T g k w' ->. rewrite <-Hback. apply bind_ret.
    unfold delete_element; cbn. by rewrite lookup_insert_eq. }
  destruct b; cbn [negb].
  - inversion Hs1 as [ev Hnone E2 E3 E4 Hv| | |]; subst ev. rewrite Hi in Hnone.
    erewrite (bind_ret (can_insert_fd _)) by reflexivity.
    match goal with |- context [if ?b then insert_fd _ _ ;; _ else _] => destruct b end.
    + left. exists p, k1. split; [done|]. split_and!; try done. apply put_world_wf; try done.
      * unfold element_wf, NET_BUFFER_SIZE, PACKET_HEADER_SIZE, e; cbn.
        destruct Hst as [-> | ->]; cbn; lia.
      * by rewrite <-Hv, interest_of_set, Hi.
      * by rewrite <-Hv.
    + right. erewrite Hdelete by reflexivity.
      destruct (sys_epoll_ctl (epoll_fd (queue w)) EPOLL_CTL_DEL fd (Some (mk_event true false false false p))
        k1) as [b2 k2] eqn:E5.
      erewrite (bind_ret (epoll_ctl _ _ _)) by (unfold epoll_ctl, syscall; cbn; by rewrite E5).
      exists k2. split; [done|]. apply set_kern_wf; [done|].
      pose proof (sys_epoll_ctl_ok _ _ _ _ _ _ _ E5) as Hs2.
      unfold same_reg_at. inversion Hs2 as [| |ev q Hq E6 E7 E8 Hv2|op ev Hf E6 E7 E8 Hv2]; subst.
      * split; [|cbn; by rewrite <-Hv]. rewrite interest_of_set, <-Hv, interest_of_set, delete_insert_id by (by rewrite Hi). done.
      * exfalso. specialize (Hf eq_refl). rewrite <-Hv, interest_of_set, lookup_insert_eq in Hf. done.
  - right. erewrite Hdelete by reflexivity. exists k1. split; [done|].
    apply set_kern_wf; [done|]. unfold same_reg_at. by inversion Hs1; subst.
Qed.

(** ** Destruction *)

Lemma foldr_delete_comm {X} (h : gmap loc X) (l : list loc) p :
  foldr delete (delete p h) l = delete p (foldr delete h l).
Proof. induction l as [|q l IH]; [done|]. cbn. by rewrite IH, delete_delete. Qed.

Lemma close_all_run l w :
  NoDup l.*2 → (∀ x, x ∈ l → is_Some (elements (queue w) !! x.2)) →
  ∃ k, close_all l w = Ret ((), set_queue (with_elements (foldr delete (elements (queue w)) l.*2) (queue w))
      (set_kern k w)) ∧
    open_fds (view k) = open_fds (view (kern w)) ∖ list_to_set l.*1.
Proof.
  revert w. induction l as [|[fd p] l IH]; intros w Hnd Hl.
  { exists (kern w). split; [by destruct w as [[] ? ?]|]. cbn. set_solver. }
  cbn [fmap list_fmap fst snd] in *. apply NoDup_cons in Hnd as [Hnin Hnd]. cbn [close_all].
  erewrite (bind_ret (real_close fd)) by reflexivity.
  destruct (Hl (fd, p)) as [e He]; [by left|]. cbn in He.
  erewrite (bind_ret (delete_element p)) by (unfold delete_element; cbn; by rewrite He).
  destruct (IH (set_queue (with_elements (delete p (elements (queue w))) (queue w))
    (set_kern (sys_close fd (kern w)) w)) Hnd) as (k&E&Hopen).
  { intros [fd' q] Hx. cbn. rewrite lookup_delete_ne.
    - apply (Hl (fd', q)). by right.
    - intros ->. apply Hnin, list_elem_of_fmap. by exists (fd', q). }
  cbn [queue set_queue with_elements set_kern kern elements] in E, Hopen. rewrite E. exists k. split.
  - unfold set_queue, set_kern, with_elements; cbn. by rewrite foldr_delete_comm.
  - rewrite Hopen, sys_close_ok. cbn. set_solver.
Qed.

(** Every registered descriptor has an element of its own. *)
Definition registered w : Prop := ∀ fd p, fds w !! fd = Some p → ∃ e, elements (queue w) !! p = Some e ∧ el_fd e = fd.

Lemma close_registered_run w :
  registered w →
  ∃ k, close_all (map_to_list (fds w)) w =
      Ret ((), set_queue (with_elements (foldr delete (elements (queue w)) (map_to_list (fds w)).*2) (queue w))
        (set_kern k w)) ∧
    open_fds (view k) = open_fds (view (kern w)) ∖ list_to_set (map_to_list (fds w)).*1.
Proof.
  intros Hreg. apply close_all_run.
  - apply NoDup_fmap_2_strong; [|apply NoDup_map_to_list].
    intros [fd1 p1] [fd2 p2] Hx1%elem_of_map_to_list Hx2%elem_of_map_to_list. cbn. intros ->.
    destruct (Hreg _ _ Hx1) as (e1&He1&<-), (Hreg _ _ Hx2) as (e2&He2&<-). by simplify_eq.
  - intros [fd p] Hx%elem_of_map_to_list. destruct (Hreg _ _ Hx) as (e&He&_). by exists e.
Qed.

Lemma NetQueue_destroy_run w :
  queue_wf w → 0 ≤ epoll_fd (queue w) →
  ∃ w', NetQueue_destroy w = Ret ((), w') ∧ app w' = app w ∧ elements (queue w') = ∅ ∧ fds w' = ∅ ∧
    open_fds (view (kern w')) = open_fds (view (kern w)) ∖ (dom (fds w) ∪ {[epoll_fd (queue w)]}).
Proof.
  intros Hwf Hep. destruct (close_registered_run w (wf_registered _ Hwf)) as (k&E&Ho).
  eexists. split; [|split; [|split; [|split]]].
  - unfold NetQueue_destroy. erewrite (bind_ret (λ w, Ret (queue w, w))) by reflexivity.
      rewrite (proj2 (Z.ltb_ge _ _)) by done. erewrite (bind_ret (close_all _)) by apply E.
      reflexivity.
  - done.
  - cbn. apply map_empty. intros p. apply eq_None_not_Some. intros [e He].
      destruct (decide (p ∈ (map_to_list (fds w)).*2)) as [Hp|Hp];
        [by rewrite lookup_foldr_delete in He|rewrite lookup_foldr_delete_not_elem_of in He by done].
      apply Hp, list_elem_of_fmap. exists (el_fd e, p). split; [done|].
      apply elem_of_map_to_list. by apply (wf_owned _ Hwf).
  - done.
  - cbn. rewrite sys_close_ok. cbn. rewrite Ho.
      assert (list_to_set (map_to_list (fds w)).*1 = dom (fds w)) as -> by (apply leibniz_equiv; symmetry; apply dom_alt).
      set_solver.
Qed.

(** Without the invariants on the kernel, it follows no dangling pointer. *)
Lemma NetQueue_destroy_safe allowed : hoare allowed registered NetQueue_destroy (λ _ _, True).
Proof.
  intros w Hreg. unfold NetQueue_destroy. erewrite (bind_ret (λ w, Ret (queue w, w))) by reflexivity.
  destruct (_ <? _); [done|]. destruct (close_registered_run w Hreg) as (k&E&_).
  by erewrite (bind_ret (close_all _)) by apply E.
Qed.

(** ** The properties *)

(** C11: the event loop is memory safe for handlers that remove no element.  From a well-formed
    queue, with handlers that keep it well-formed and their own invariant and every registration,
    [wait_and_process] never follows a dangling or null pointer and reads no byte that was not
    received, whatever events epoll reports and whatever the reads, writes and closes return; it
    leaves both invariants in place.  The overflow of the receive buffer is the only undefined
    behaviour left.  The handlers of the agent are such handlers.  Those of the switch and of the
    conductor are not, on a token that is not pending and on an agent that comes before a switch:
    there they close the element they were called for, and the loop does use it after it was freed. *)
Theorem wait_and_process_safe (I : A → gmap loc (option loc) → Prop)
    (handler : NetworkQueueHandler D W) w fuel :
  handler_keeps I handler → queue_wf w → I (app w) (user_data w) →
  match wait_and_process handler fuel w with
  | Ret (_, w') => queue_wf w' ∧ I (app w') (user_data w')
  | Undef u => u = BufferOverflow
  | Throw _ | OutOfFuel => True
  end.
Proof.
  intros Hh Hwf HI. pose proof (wait_and_process_owns I handler Hh fuel w) as Hw.
  destruct (wait_and_process handler fuel w) as [[[] w']| | |]; try done.
  - by destruct Hw as (?&_&?); [split_and!; [done|apply map_empty_subseteq|done]|].
  - apply Hw. split_and!; [done|apply map_empty_subseteq|done].
Qed.

(** C35: [put_sck] and [put_tun] either register the descriptor, with a fresh element that holds
    the user's pointer, or return null and leave the queue, its heap and the epoll registrations
    as they were, whichever of the allocations and system calls fails; the queue stays
    well-formed. *)
Theorem put_registers_or_changes_nothing w fd data st :
  queue_wf w → fd ≠ epoll_fd (queue w) → st = SCK_HEADER ∨ st = TUN_RECEIVE →
  ∃ r w', put fd data st w = Ret (r, w') ∧ queue_wf w' ∧ app w' = app w ∧
    match r with
    | Some p =>
      fds w !! fd = None ∧ elements (queue w) !! p = None ∧
      fds w' = <[fd := p]> (fds w) ∧
      elements (queue w') = <[p := NetworkElement_new fd data st]> (elements (queue w))
    | None => queue w' = queue w
    end.
Proof.
  intros Hwf Hne Hst. destruct (put_run w fd data st Hwf Hne Hst) as [(p&k&E&Hf&Hp&Hw)|(k&E&Hw)].
  - by exists (Some p), (put_world fd p (NetworkElement_new fd data st) k w).
  - by exists None, (set_kern k w).
Qed.

(** Closing a registered descriptor frees its element, removes it from the map and from epoll
    and closes the descriptor; closing any other does nothing.  No other element is touched. *)
Theorem close_releases_descriptor w fd :
  queue_wf w →
  match fds w !! fd with
  | None => close_fd fd w = Ret ((), w)
  | Some p =>
    ∃ w', close_fd fd w = Ret ((), w') ∧ queue_wf w' ∧ app w' = app w ∧
      elements (queue w') = delete p (elements (queue w)) ∧ fds w' = delete fd (fds w) ∧
      (fd ∉ open_fds (view (kern w'))) ∧ interest_of (view (kern w')) (epoll_fd (queue w)) !! fd = None
  end.
Proof.
  intros Hwf. destruct (fds w !! fd) as [p|] eqn:Hp.
  - destruct (close_element_run w fd p Hwf Hp) as (k&E&Ho&Hi). exists (closed_world fd p k w). split.
    + unfold close_fd. erewrite (bind_ret (get_network_element_from_fd fd));
        [|unfold get_network_element_from_fd; by rewrite Hp]. exact E.
    + split_and!; try done; [by apply closed_world_wf|cbn; rewrite Ho; set_solver|].
      cbn. by rewrite Hi, lookup_delete_eq.
  - unfold close_fd. erewrite (bind_ret (get_network_element_from_fd fd));
      [|unfold get_network_element_from_fd; by rewrite Hp]. done.
Qed.

(** The destructor releases everything the queue owns: it frees every element and closes every
    registered descriptor and the epoll descriptor. *)
Theorem destroy_releases_everything w :
  queue_wf w → 0 ≤ epoll_fd (queue w) →
  ∃ w', NetQueue_destroy w = Ret ((), w') ∧ elements (queue w') = ∅ ∧ fds w' = ∅ ∧
    open_fds (view (kern w')) = open_fds (view (kern w)) ∖ (dom (fds w) ∪ {[epoll_fd (queue w)]}).
Proof.
  intros Hwf Hep. destruct (NetQueue_destroy_run w Hwf Hep) as (w'&E&_&He&Hf&Ho). by exists w'.
Qed.
End QueueInv.

(** ** Concrete runs *)

#[local] Instance queue_order : HostOrder := LittleEndian.
#[local] Instance queue_malloc : Malloc := malloc_first_fit.
#[local] Instance queue_nodes : NodeAlloc := λ _, true.

(** A handler that does nothing keeps every invariant that survives the removal of an element. *)
Lemma default_handler_keeps (I : list packet → gmap loc (option loc) → Prop) :
  (∀ a p ud, I a ud → I a (delete p ud)) →
  handler_keeps I (NetworkQueueHandler_default (D := ()) (W := @World sim_kernel (list packet))).
Proof.
  intros HI. split; eexists; (split; [reflexivity|]); intros m d Hm; apply hoare_ret; [|by intros w [? _]|done].
  intros w [(?&?&?) _]. auto.
Qed.

Lemma sample_world_wf bytes end_ : queue_wf (sample_world 2 bytes end_).
Proof.
  split; unfold sample_world; cbn [queue elements fd_to_network_element kern epoll_fd].
  - intros fd p [<- <-]%lookup_singleton_Some. exists sample_element. by rewrite lookup_singleton_eq.
  - intros p e [<- <-]%lookup_singleton_Some. by rewrite lookup_singleton_eq.
  - reflexivity.
  - reflexivity.
  - cbn. set_solver.
  - intros p e [<- <-]%lookup_singleton_Some.
    unfold element_wf, PACKET_HEADER_SIZE, NET_BUFFER_SIZE; cbn. lia.
Qed.

(** A heartbeat arrived and the peer closed. *)
Definition sample_event_world : @World sim_kernel (list packet) :=
  sample_world 2 (frames [(HEARTBEAT, [])]) Shutdown.

Definition is_return {R} (o : outcome R) : bool := match o with Ret _ => true | _ => false end.

Lemma wait_and_process_safe_witness :
  match wait_and_process (NetworkQueueHandler_default (D := ())) 20 sample_event_world with
  | Ret (_, w') => queue_wf w' ∧ user_data w' ⊆ user_data sample_event_world
  | _ => False
  end.
Proof.
  pose proof (wait_and_process_safe (λ _ ud, ud ⊆ user_data sample_event_world)
    (NetworkQueueHandler_default (D := ())) sample_event_world 20
    (default_handler_keeps _ (λ _ p ud Hud, transitivity (delete_subseteq ud p) Hud))
    (sample_world_wf _ _) (reflexivity _)) as Hw.
  assert (is_return (wait_and_process (NetworkQueueHandler_default (D := ())) 20 sample_event_world) = true)
    as Hr by (vm_compute; reflexivity).
  destruct (wait_and_process _ _ _) as [[u w']| | |]; [exact Hw|discriminate..].
Defined.

Lemma put_registers_or_changes_nothing_witness :
  ∃ p w', put 7 None SCK_HEADER sample_event_world = Ret (p, w') ∧ queue_wf w'.
Proof.
  destruct (put_registers_or_changes_nothing sample_event_world 7 None SCK_HEADER
    (sample_world_wf _ _)) as (r&w'&E&Hw&_); [discriminate|by left|].
  exists r, w'. by split.
Defined.

Lemma close_releases_descriptor_witness :
  ∃ w', close_fd 5 sample_event_world = Ret ((), w') ∧ 5 ∉ open_fds (view (kern w')).
Proof.
  destruct (close_releases_descriptor sample_event_world 5 (sample_world_wf _ _))
    as (w'&E&_&_&_&_&Ho&_).
  exists w'. by split.
Defined.

Lemma destroy_releases_everything_witness :
  ∃ w', NetQueue_destroy sample_event_world = Ret ((), w') ∧ elements (queue w') = ∅ ∧
    open_fds (view (kern w')) = ∅.
Proof.
  destruct (destroy_releases_everything sample_event_world (sample_world_wf _ _)) as (w'&E&He&_&Ho);
    [discriminate|].
  exists w'. split; [exact E|]. split; [exact He|]. rewrite Ho. vm_compute. reflexivity.
Defined.
