(* ===== verification/Threads.v ===== *)
(** * Threads that share a queue

    The mutex of src/netqueue/netqueue.cpp: [put], [get_network_element_from_fd]
    and [close] lock [fd_to_network_element_mutex] for the whole of their body
    (a lock_guard), so that threads can share a queue.  A [thread] is what a
    thread still has to do, action by action, the mutex operations included;
    [mstep] interleaves the actions of the threads.  The reference is the
    machine whose steps are whole calls ([astep]), of the operations as
    [NetQueue] models them. *)
From stdpp Require Import base option list gmap sets relations.
From Stdlib Require Import ZArith Lia.
From S2P Require Import Prelude Bytes Kernel NetQueue QueueInv.

#[local] Open Scope Z_scope.

Section Threads.
Context `{HostOrder} `{K : Kernel} `{KL : !KernelLaws K} `{Malloc} `{NodeAlloc} {A : Type}.
Abbreviation W := (@World K A).
Implicit Types (p : loc) (w : W).

(** ** The threads *)

Inductive thread : Type :=
  | Done
  | Lock (t : thread)
  | Unlock (t : thread)
  | Do {X : Type} (m : M W X) (k : X → thread).

(** The calls of a thread, and what it does with their results. *)
Inductive method : Type → Type :=
  | Put (fd : Z) (data : option loc) (state : FiniteStateMachine) : method (option loc)
  | Get (fd : Z) : method (option loc)
  | Close p : method ().

Inductive client : Type :=
  | Stop
  | Call {R : Type} (c : method R) (k : R → client).

(** The bodies of the methods, followed by [k]: the lock_guard unlocks the
    mutex at every return. *)
Definition put_body (fd : Z) (data : option loc) (state : FiniteStateMachine) (k : option loc → thread) : thread :=
  Do (new_element (NetworkElement_new fd data state)) (λ element,
  match element with
  | None => Unlock (k None)
  | Some p =>
    let event := mk_event true false false false p in
    Do (epoll_ctl EPOLL_CTL_ADD fd (Some event)) (λ added,
    if negb added then Do (delete_element p) (λ _, Unlock (k None))
    else
      Do (can_insert_fd fd) (λ inserted,
      if inserted : bool then Do (insert_fd fd p) (λ _, Unlock (k (Some p)))
      else
        Do (delete_element p) (λ _,
        Do (epoll_ctl EPOLL_CTL_DEL fd (Some event)) (λ _, Unlock (k None)))))
  end).

Definition get_body (fd : Z) (k : option loc → thread) : thread :=
  Do (get_network_element_from_fd fd) (λ element, Unlock (k element)).

Definition close_body p (k : () → thread) : thread :=
  Do (deref p) (λ e,
  let fd := el_fd e in
  Do (get_network_element_from_fd fd) (λ it,
  if bool_decide (it = Some p) then
    Do (epoll_ctl EPOLL_CTL_DEL fd None) (λ _,
    Do (real_close fd) (λ _,
    Do (delete_element p) (λ _,
    Do (erase_fd fd) (λ _, Unlock (k ())))))
  else Unlock (k ()))).

Definition body {R} (c : method R) : (R → thread) → thread :=
  match c with
  | Put fd data state => put_body fd data state
  | Get fd => get_body fd
  | Close p => close_body p
  end.

Fixpoint compile (cl : client) : thread :=
  match cl with
  | Stop => Done
  | Call c k => Lock (body c (λ r, compile (k r)))
  end.

(** [close (int)]. *)
Definition close_call (fd : Z) (cl : client) : client :=
  Call (Get fd) (λ element, match element with None => cl | Some p => Call (Close p) (λ _, cl) end).

(** ** The machine *)

Record machine : Type := mk_machine { holder : option nat; world : W; pool : list thread }.

(** [Failed]: an action of a thread reached undefined behaviour or threw. *)
Inductive status : Type := Running (m : machine) | Failed (u : ub + exn).

Inductive mstep : status → status → Prop :=
  | step_lock i t w ts :
      ts !! i = Some (Lock t) →
      mstep (Running (mk_machine None w ts)) (Running (mk_machine (Some i) w (<[i := t]> ts)))
  | step_unlock i t w ts :
      ts !! i = Some (Unlock t) →
      mstep (Running (mk_machine (Some i) w ts)) (Running (mk_machine None w (<[i := t]> ts)))
  | step_do i h X (m : M W X) k x w w' ts :
      ts !! i = Some (Do m k) → m w = Ret (x, w') →
      mstep (Running (mk_machine h w ts)) (Running (mk_machine h w' (<[i := k x]> ts)))
  | step_undef i h X (m : M W X) k u w ts :
      ts !! i = Some (Do m k) → m w = Undef u →
      mstep (Running (mk_machine h w ts)) (Failed (inl u))
  | step_throw i h X (m : M W X) k e w ts :
      ts !! i = Some (Do m k) → m w = Throw e →
      mstep (Running (mk_machine h w ts)) (Failed (inr e)).

Definition start w (cs : list client) : status := Running (mk_machine None w (compile <$> cs)).

(** ** The atomic machine *)

(** The operations of [NetQueue]. *)
Definition seq {R} (c : method R) : M W R :=
  match c with
  | Put fd data state => put fd data state
  | Get fd => get_network_element_from_fd fd
  | Close p => close_element (Some p)
  end.

(** The next call of a thread, and what is left to do after it. *)
Definition next_call (cl : client) : option (M W client) :=
  match cl with
  | Stop => None
  | Call c k => Some (r ← seq c; mret (k r))
  end.

Inductive astatus : Type := ARunning w (cs : list client) | AFailed (u : ub + exn).

Inductive astep : astatus → astatus → Prop :=
  | call_ret i cl cl' m w w' cs :
      cs !! i = Some cl → next_call cl = Some m → m w = Ret (cl', w') →
      astep (ARunning w cs) (ARunning w' (<[i := cl']> cs))
  | call_undef i cl m u w cs :
      cs !! i = Some cl → next_call cl = Some m → m w = Undef u →
      astep (ARunning w cs) (AFailed (inl u))
  | call_throw i cl m e w cs :
      cs !! i = Some cl → next_call cl = Some m → m w = Throw e →
      astep (ARunning w cs) (AFailed (inr e)).

(** ** The critical sections *)

(** What a thread does until it unlocks the mutex, if nobody interferes. *)
Fixpoint run_section (t : thread) : M W thread :=
  match t with
  | Do m k => x ← m; run_section (k x)
  | Unlock t => mret t
  | Done | Lock _ => no_fuel
  end.

Lemma run_section_body {R} (c : method R) k w :
  run_section (body c k) w = (r ← seq c; mret (k r)) w.
Proof.
  assert (∀ X Y (m : M W X) (f g : X → M W Y) w, (∀ x w, f x w = g x w) → (m ≫= f) w = (m ≫= g) w) as Hext.
  { intros X Y m f g w' E. unfold mbind, M_bind. by destruct (m w') as [[]| | |]. }
  assert (∀ X Y Z (m : M W X) (f : X → M W Y) (g : Y → M W Z) w,
    ((m ≫= f) ≫= g) w = (m ≫= λ x, f x ≫= g) w) as Hassoc.
  { intros X Y Z m f g w'. unfold mbind, M_bind. by destruct (m w') as [[]| | |]. }
  destruct c as [fd data st|fd|p]; cbn [body seq].
  - unfold put_body, put. cbn [run_section]. rewrite Hassoc. apply Hext. intros [p|] w1; [|done].
    cbn [run_section]. rewrite Hassoc. apply Hext. intros [|] w2; cbn [negb run_section].
    + rewrite Hassoc. apply Hext. intros [|] w3; cbn [run_section].
      * rewrite Hassoc. by apply Hext.
      * rewrite Hassoc. apply Hext. intros [] w4. cbn [run_section]. rewrite Hassoc. by apply Hext.
    + rewrite Hassoc. by apply Hext.
  - unfold get_body. cbn [run_section]. by apply Hext.
  - unfold close_body, close_element. cbn [run_section]. rewrite Hassoc. apply Hext. intros e w1.
    cbn [run_section]. rewrite Hassoc. apply Hext. intros it w2. destruct (bool_decide _); [|done].
    cbn [run_section]. rewrite Hassoc. apply Hext. intros b w3.
    cbn [run_section]. rewrite Hassoc. apply Hext. intros [] w4.
    cbn [run_section]. rewrite Hassoc. apply Hext. intros [] w5.
    cbn [run_section]. apply Hext. by intros [].
Qed.

Lemma seq_returns {R} (c : method R) w : seq c w ≠ OutOfFuel.
Proof.
  destruct c as [fd data st|fd|p]; cbn [seq]; [|done|].
  - unfold put, new_element, delete_element, epoll_ctl, syscall, can_insert_fd, insert_fd, mbind, M_bind, mret, M_ret.
    repeat (case_match; simplify_eq; try done).
  - unfold close_element, deref, get_network_element_from_fd, real_close, delete_element, erase_fd,
      epoll_ctl, syscall, mbind, M_bind, mret, M_ret.
    repeat (case_match; simplify_eq; try done).
Qed.

(** ** Each call is one step *)

(** The machine [m] has done, of the atomic machine in [w] with the clients
    [cs], every call so far and part of one more, whose thread holds the mutex. *)
Inductive matches : machine → W → list client → Prop :=
  | match_free w cs : matches (mk_machine None w (compile <$> cs)) w cs
  | match_held i cl m t w w0 cs :
      cs !! i = Some cl → next_call cl = Some m →
      run_section t w = (cl' ← m; mret (compile cl')) w0 →
      matches (mk_machine (Some i) w (<[i := t]> (compile <$> cs))) w0 cs.

Lemma compile_waits cl : compile cl = Done ∨ ∃ t, compile cl = Lock t.
Proof. destruct cl; [by left|right; by eexists]. Qed.

(** Only the thread that holds the mutex is inside its critical section. *)
Lemma inside_holds i j t (cs : list client) t' :
  <[i := t]> (compile <$> cs) !! j = Some t' → t' = Done ∨ (∃ t0, t' = Lock t0) ∨ i = j ∧ t = t'.
Proof.
  intros Hj. apply list_lookup_insert_Some in Hj as [(->&->&_)|[_ Hj]]; [by right; right|].
  rewrite list_lookup_fmap in Hj. destruct (cs !! j) as [cl|]; [|done]. injection Hj as <-.
  destruct (compile_waits cl); auto.
Qed.

(** A call is compiled to its critical section. *)
Lemma compile_call cl m :
  next_call cl = Some m →
  ∃ t, compile cl = Lock t ∧ ∀ w, run_section t w = (cl' ← m; mret (compile cl')) w.
Proof.
  destruct cl as [|R c k]; intros [= <-]. eexists. split; [done|]. intros w.
  rewrite run_section_body. unfold mbind, M_bind, mret, M_ret. by destruct (seq c w) as [[]| | |].
Qed.

Lemma compile_locks cl t : compile cl = Lock t → ∃ m, next_call cl = Some m.
Proof. destruct cl; [done|]. intros _. by eexists. Qed.

Lemma next_call_returns cl m w : next_call cl = Some m → m w ≠ OutOfFuel.
Proof.
  destruct cl as [|R c k]; intros [= <-]. unfold mbind, M_bind, mret, M_ret.
  pose proof (seq_returns c w). by destruct (seq c w) as [[]| | |].
Qed.

(** One step of the machine is no step, or one call, of the atomic machine. *)
Lemma mstep_matches m w cs s :
  mstep (Running m) s → matches m w cs →
  match s with
  | Running m' => ∃ w' cs', rtc astep (ARunning w cs) (ARunning w' cs') ∧ matches m' w' cs'
  | Failed u => astep (ARunning w cs) (AFailed u)
  end.
Proof.
  intros Hs Hm. destruct Hm as [w cs|i cl m t w w0 cs Hcl Hnext Hrun].
  - assert (∀ j t, (compile <$> cs) !! j = Some t → t = Done ∨ ∃ t0, t = Lock t0) as Hfree.
    { intros j t. rewrite list_lookup_fmap. destruct (cs !! j) as [cl|]; [|done]. intros [= <-].
      apply compile_waits. }
    inversion Hs as [j t w1 ts Hj|j t w1 ts Hj|j h X mm k x w1 w2 ts Hj _|j h X mm k u w1 ts Hj _|
      j h X mm k e w1 ts Hj _]; subst;
      [|exfalso; by destruct (Hfree _ _ Hj) as [?|[??]]..].
    exists w, cs. split; [done|]. rewrite list_lookup_fmap in Hj.
    destruct (cs !! j) as [cl|] eqn:Hcl; [|done]. injection Hj as Hj.
    destruct (compile_locks _ _ Hj) as [m Hnext]. destruct (compile_call _ _ Hnext) as (t'&E&Hrun).
    rewrite E in Hj. injection Hj as <-. by eapply match_held.
  - inversion Hs as [j t' w1 ts Hj|j t' w1 ts Hj|j h X mm k x w1 w2 ts Hj Hmm|j h X mm k u w1 ts Hj Hmm|
      j h X mm k e w1 ts Hj Hmm]; subst;
      destruct (inside_holds _ _ _ _ _ Hj) as [?|[[??]|[??]]]; subst; try done.
    + cbn [run_section] in Hrun.
      assert (∃ cl', m w0 = Ret (cl', w) ∧ t' = compile cl') as (cl'&Em&->).
      { revert Hrun. unfold mbind, M_bind, mret, M_ret. destruct (m w0) as [[cl' w1]| | |]; intros [= -> ->].
        by exists cl'. }
      exists w, (<[i := cl']> cs). split; [by eapply rtc_once, call_ret|].
      rewrite list_insert_insert_eq, <-list_fmap_insert. constructor.
    + exists w0, cs. split; [done|]. rewrite list_insert_insert_eq. eapply match_held; [done..|].
      rewrite <-Hrun. cbn [run_section]. unfold mbind, M_bind. by rewrite Hmm.
    + eapply call_undef; [done..|]. revert Hrun. cbn [run_section]. unfold mbind, M_bind, mret, M_ret.
      rewrite Hmm. destruct (m w0) as [[]| | |]; by intros [= <-].
    + eapply call_throw; [done..|]. revert Hrun. cbn [run_section]. unfold mbind, M_bind, mret, M_ret.
      rewrite Hmm. destruct (m w0) as [[]| | |]; by intros [= <-].
Qed.

(** And a call can be performed without interruption. *)
Lemma section_steps t i w (ts : list thread) :
  ts !! i = Some t →
  match run_section t w with
  | Ret (t', w') =>
    rtc mstep (Running (mk_machine (Some i) w ts)) (Running (mk_machine None w' (<[i := t']> ts)))
  | Undef u => rtc mstep (Running (mk_machine (Some i) w ts)) (Failed (inl u))
  | Throw e => rtc mstep (Running (mk_machine (Some i) w ts)) (Failed (inr e))
  | OutOfFuel => True
  end.
Proof.
  revert w ts. induction t as [|t _|t _|X m k IH]; intros w ts Hi; cbn [run_section]; try done.
  - by apply rtc_once, step_unlock.
  - unfold mbind, M_bind. destruct (m w) as [[x w1]|u|e|] eqn:Em; try done.
    + specialize (IH x w1 (<[i := k x]> ts)). rewrite list_lookup_insert_eq in IH by (by eapply lookup_lt_Some).
      specialize (IH eq_refl).
      assert (mstep (Running (mk_machine (Some i) w ts)) (Running (mk_machine (Some i) w1 (<[i := k x]> ts))))
        as Hs by by eapply step_do.
      destruct (run_section (k x) w1) as [[t' w2]|u|e|]; try done; [rewrite list_insert_insert_eq in IH|..];
        (eapply rtc_l; [apply Hs|apply IH]).
    + by eapply rtc_once, step_throw.
    + by eapply rtc_once, step_undef.
Qed.

(** The machine that corresponds to a state of the atomic one. *)
Definition between (a : astatus) : status :=
  match a with
  | ARunning w cs => start w cs
  | AFailed u => Failed u
  end.

Lemma astep_msteps a a' : astep a a' → rtc mstep (between a) (between a').
Proof.
  assert (∀ i cl m w (cs : list client), cs !! i = Some cl → next_call cl = Some m →
    match m w with
    | Ret (cl', w') => rtc mstep (start w cs) (start w' (<[i := cl']> cs))
    | Undef u => rtc mstep (start w cs) (Failed (inl u))
    | Throw e => rtc mstep (start w cs) (Failed (inr e))
    | OutOfFuel => True
    end) as Hcall.
  { intros i cl m w cs Hi Hnext. destruct (compile_call _ _ Hnext) as (t&Ht&Hrun).
    pose proof (list_lookup_fmap compile cs i) as Hl. rewrite Hi in Hl. cbn in Hl. rewrite Ht in Hl.
    pose proof (section_steps t i w (<[i := t]> (compile <$> cs))) as Hs.
    rewrite list_lookup_insert_eq in Hs by (by eapply lookup_lt_Some). specialize (Hs eq_refl).
    rewrite Hrun in Hs. unfold mbind, M_bind, mret, M_ret in Hs.
    destruct (m w) as [[cl' w']| | |]; try done; unfold start;
      (eapply rtc_l; [by apply step_lock|]); [|done..].
    rewrite list_insert_insert_eq in Hs. by rewrite list_fmap_insert. }
  destruct 1 as [i cl cl' m w w' cs Hi Hn E|i cl m u w cs Hi Hn E|i cl m u w cs Hi Hn E]; cbn;
    specialize (Hcall i cl m w cs Hi Hn); by rewrite E in Hcall.
Qed.

Lemma msteps_matches m s w cs :
  rtc mstep (Running m) s → matches m w cs →
  match s with
  | Running m' => ∃ w' cs', rtc astep (ARunning w cs) (ARunning w' cs') ∧ matches m' w' cs'
  | Failed u => rtc astep (ARunning w cs) (AFailed u)
  end.
Proof.
  remember (Running m) as s0 eqn:E0. intros Hs. revert m w cs E0.
  induction Hs as [s|s0 s1 s2 Hs Hr IH]; intros m w cs -> Hm; [by exists w, cs|].
  pose proof (mstep_matches _ _ _ _ Hs Hm) as Hs1. destruct s1 as [m1|u].
  - destruct Hs1 as (w1&cs1&Ha&Hm1). specialize (IH m1 w1 cs1 eq_refl Hm1). destruct s2 as [m2|u].
    + destruct IH as (w2&cs2&Ha2&Hm2). exists w2, cs2. split; [by etrans|done].
    + by etrans.
  - inversion Hr as [|? ? ? Hx]; subst; [by apply rtc_once|by inversion Hx].
Qed.

Lemma asteps_msteps a a' : rtc astep a a' → rtc mstep (between a) (between a').
Proof. induction 1 as [|a a1 a2 Ha _ IH]; [done|]. etrans; [by apply astep_msteps|done]. Qed.

(** ** Termination *)

(** What a thread can be after its next action. *)
Definition sub_thread (t' t : thread) : Prop :=
  match t with
  | Done => False
  | Lock t | Unlock t => t' = t
  | Do m k => ∃ x, t' = k x
  end.

(** One thread of the pool gets further. *)
Definition further (ts' ts : list thread) : Prop :=
  ∃ i t t', ts !! i = Some t ∧ sub_thread t' t ∧ ts' = <[i := t']> ts.

Lemma thread_acc t : Acc sub_thread t.
Proof.
  induction t as [|t IH|t IH|X m k IH]; constructor; [done|by intros t' ->..|].
  intros t' [x ->]. apply IH.
Qed.

Lemma pool_acc ts : Acc further ts.
Proof.
  induction ts as [|t ts IH]; [by constructor; intros ? (?&?&?&?&_)|].
  revert ts IH. induction (thread_acc t) as [t _ IHt]. intros ts IH.
  induction IH as [ts Hts IHts]. constructor. intros ts' ([|i]&u&u'&Hi&Hsub&->); cbn in *.
  - injection Hi as ->. apply IHt; [done|by constructor].
  - apply IHts. by exists i, u, u'.
Qed.

Lemma mstep_further m m' : mstep (Running m) (Running m') → further (pool m') (pool m).
Proof.
  inversion 1; subst; cbn; eexists _, _, _; (split_and!; [done| |done]);
    [done|done|by eexists].
Qed.

Lemma status_acc s : Acc (flip mstep) s.
Proof.
  destruct s as [m|u]; [|constructor; by inversion 1].
  remember (pool m) as ts eqn:E. revert m E. induction (pool_acc ts) as [ts _ IH]. intros m ->.
  constructor. intros [m'|u] Hs; [|constructor; by inversion 1].
  eapply IH; [by apply mstep_further|done].
Qed.

(** Something can happen as long as a thread has something to do. *)
Lemma matches_progress m w cs :
  matches m w cs → (holder m = None ∧ Forall (λ t, t = Done) (pool m)) ∨ ∃ s, mstep (Running m) s.
Proof.
  intros [w1 cs1|i cl mm t w1 w0 cs1 Hcl Hnext Hrun].
  - destruct (decide (Exists (λ cl, next_call cl ≠ None) cs1)) as [He|Hn].
    + apply Exists_exists in He as (cl&[i Hi]%list_elem_of_lookup&Hcl).
      destruct (next_call cl) as [mm|] eqn:Hn; [|done]. destruct (compile_call _ _ Hn) as (t&Ht&_).
      right. eexists. eapply step_lock. by rewrite list_lookup_fmap, Hi, <-Ht.
    + left. split; [done|]. apply Forall_fmap, Forall_forall. intros cl Hin. cbn.
      destruct cl as [|R c k]; [done|]. exfalso. apply Hn, Exists_exists. by exists (Call c k).
  - right. assert (<[i := t]> (compile <$> cs1) !! i = Some t) as Hi.
    { apply list_lookup_insert_eq. rewrite length_fmap. by eapply lookup_lt_Some. }
    assert (run_section t w1 ≠ OutOfFuel) as Hf.
    { rewrite Hrun. unfold mbind, M_bind, mret, M_ret. pose proof (next_call_returns _ _ w0 Hnext).
      by destruct (mm w0) as [[]| | |]. }
    destruct t as [|t|t|X f k]; [done|done|by eexists; apply step_unlock|].
    cbn [run_section] in Hf. unfold mbind, M_bind in Hf.
    destruct (f w1) as [[x w2]|e|u|] eqn:E; [..|done]; eexists;
      [by eapply step_do|by eapply step_throw|by eapply step_undef].
Qed.

(** ** Threads with descriptors of their own *)

Inductive op : Type :=
  | PutSck (fd : Z) (data : option loc)
  | PutTun (fd : Z) (data : option loc)
  | Find (fd : Z)
  | CloseFd (fd : Z).

Fixpoint prog (l : list op) : client :=
  match l with
  | [] => Stop
  | PutSck fd data :: l => Call (Put fd data SCK_HEADER) (λ _, prog l)
  | PutTun fd data :: l => Call (Put fd data TUN_RECEIVE) (λ _, prog l)
  | Find fd :: l => Call (Get fd) (λ _, prog l)
  | CloseFd fd :: l => close_call fd (prog l)
  end.

(** The descriptors a list of operations registers or closes. *)
Fixpoint touched (l : list op) : gset Z :=
  match l with
  | [] => ∅
  | (PutSck fd _ | PutTun fd _ | CloseFd fd) :: l => {[fd]} ∪ touched l
  | Find _ :: l => touched l
  end.

Abbreviation fds w := (fd_to_network_element (queue w)).

(** A thread that owns the descriptors [o] is between two operations, or has
    found the element it is about to close. *)
Definition client_ok w (o : gset Z) (cl : client) : Prop :=
  ∃ l, touched l ⊆ o ∧
    (cl = prog l ∨ ∃ fd p, fd ∈ o ∧ fds w !! fd = Some p ∧ cl = Call (Close p) (λ _, prog l)).

Lemma client_ok_step w o cl m :
  queue_wf w → epoll_fd (queue w) ∉ o → client_ok w o cl → next_call cl = Some m →
  ∃ cl' w', m w = Ret (cl', w') ∧ queue_wf w' ∧ epoll_fd (queue w') = epoll_fd (queue w) ∧
    client_ok w' o cl' ∧ ∀ fd, fd ∉ o → fds w' !! fd = fds w !! fd.
Proof.
  intros Hwf Hep (l&Hl&Hcl) Hn.
  assert (∀ fd data st l, touched l ⊆ o → fd ∈ o → st = SCK_HEADER ∨ st = TUN_RECEIVE →
    ∃ cl' w', (r ← put fd data st; mret (prog l)) w = Ret (cl', w') ∧ queue_wf w' ∧
      epoll_fd (queue w') = epoll_fd (queue w) ∧ client_ok w' o cl' ∧
      ∀ fd, fd ∉ o → fds w' !! fd = fds w !! fd) as Hput.
  { intros fd data st l' Hl' Hfd Hst.
    destruct (put_run w fd data st Hwf) as [(p&k&E&_&_&Hw)|(k&E&Hw)]; [set_solver|done|..];
      (eexists _, _; split; [unfold mbind, M_bind; by rewrite E|]).
    - split_and!; [done..|by exists l'; split; [|left]|]. intros fd' Hfd'. cbn.
      rewrite lookup_insert_ne; [done|set_solver].
    - by split_and!; [..|exists l'; split; [|left]|]. }
  destruct Hcl as [->|(fd&p&Hfd&Hp&->)].
  - destruct l as [|[fd data|fd data|fd|fd] l]; [done|..]; cbn in Hl; injection Hn as <-; cbn [seq].
    + apply Hput; [set_solver..|by left].
    + apply Hput; [set_solver..|by right].
    + eexists _, w. by split_and!; [..|exists l; split; [|left]|].
    + eexists _, w. split_and!; [done..| |done]. destruct (fds w !! fd) as [p|] eqn:Hp.
      * exists l. split; [set_solver|]. right. exists fd, p. split_and!; [set_solver|done|done].
      * exists l. split; [set_solver|by left].
  - injection Hn as <-. destruct (close_element_run w fd p Hwf Hp) as (k&E&Ho&Hi).
    eexists _, _. split; [etrans; [eapply bind_ret, E|reflexivity]|].
    split_and!; [by apply closed_world_wf|done|by exists l; split; [|left]|].
    intros fd' Hfd'. cbn. rewrite lookup_delete_ne; [done|set_solver].
Qed.

(** The invariant of the atomic machine: thread [i] owns the descriptors [own i]. *)
Definition all_ok (own : nat → gset Z) (a : astatus) : Prop :=
  match a with
  | AFailed _ => False
  | ARunning w cs =>
    queue_wf w ∧ (∀ i, epoll_fd (queue w) ∉ own i) ∧ ∀ i cl, cs !! i = Some cl → client_ok w (own i) cl
  end.

Lemma all_ok_step own a a' :
  (∀ i j fd, i ≠ j → fd ∈ own i → fd ∉ own j) → all_ok own a → astep a a' → all_ok own a'.
Proof.
  intros Hdis Hok Ha. destruct a as [w cs|]; [|done]. destruct Hok as (Hwf&Hep&Hcl).
  assert (∃ i cl m, cs !! i = Some cl ∧ next_call cl = Some m ∧
    match a' with
    | ARunning w' cs' => ∃ cl', m w = Ret (cl', w') ∧ cs' = <[i := cl']> cs
    | AFailed (inl u) => m w = Undef u
    | AFailed (inr e) => m w = Throw e
    end) as (i&cl&m&Hi&Hn&Hm) by (inversion Ha; subst; eauto 10).
  destruct (client_ok_step w (own i) cl m Hwf (Hep i) (Hcl i cl Hi) Hn) as (cl'&w'&E&Hwf'&Hep'&Hok'&Hsame).
  destruct a' as [w1 cs1|[u|e]]; [|congruence..]. destruct Hm as (cl1&E1&->).
  rewrite E in E1. injection E1 as <- <-. split; [done|]. split; [by rewrite Hep'|].
  intros j cj [(->&->&_)|[Hne Hj]]%list_lookup_insert_Some; [done|].
  destruct (Hcl j cj Hj) as (l&Hl&[->|(fd&p&Hfd&Hp&->)]); (exists l; split; [done|]); [by left|right].
  exists fd, p. split_and!; [done| |done]. rewrite Hsame; [done|]. by apply (Hdis j i).
Qed.

Lemma all_ok_steps own a a' :
  (∀ i j fd, i ≠ j → fd ∈ own i → fd ∉ own j) → all_ok own a → rtc astep a a' → all_ok own a'.
Proof. intros Hdis Hok. induction 1 as [|a a1 a2 Ha _ IH]; [done|]. by eapply IH, all_ok_step. Qed.

(** A schedule: the thread of each call. *)
Fixpoint run_schedule (l : list nat) w (cs : list client) : option (W * list client) :=
  match l with
  | [] => Some (w, cs)
  | i :: l =>
    cl ← cs !! i;
    m ← next_call cl;
    match m w with
    | Ret (cl', w') => run_schedule l w' (<[i := cl']> cs)
    | _ => None
    end
  end.

Lemma run_schedule_msteps l w cs w' cs' :
  run_schedule l w cs = Some (w', cs') → rtc mstep (start w cs) (start w' cs').
Proof.
  intros E. apply (asteps_msteps (ARunning w cs) (ARunning w' cs')). revert w cs E.
  induction l as [|i l IH]; intros w cs; cbn; [by intros [= -> ->]|].
  destruct (cs !! i) as [cl|] eqn:Hi; [cbn|done]. destruct (next_call cl) as [m|] eqn:Hn; [cbn|done].
  destruct (m w) as [[cl1 w1]| | |] eqn:Em; try done. intros E.
  eapply rtc_l; [by eapply call_ret|by apply IH].
Qed.

(** ** The properties *)

(** C13: the methods of the queue are atomic: for any threads that share a queue, whatever the
    interleaving of their actions, the states in which the mutex is free, and the failures, are
    exactly those of the machine that executes each call of [put], [get_network_element_from_fd]
    and [close] in one step. *)
Theorem calls_are_atomic w cs :
  (∀ w' ts, rtc mstep (start w cs) (Running (mk_machine None w' ts)) ↔
     ∃ cs', ts = compile <$> cs' ∧ rtc astep (ARunning w cs) (ARunning w' cs')) ∧
  (∀ u, rtc mstep (start w cs) (Failed u) ↔ rtc astep (ARunning w cs) (AFailed u)).
Proof.
  assert (∀ s, rtc mstep (start w cs) s → _) as Hm
    by exact (λ s Hs, msteps_matches _ s w cs Hs (match_free w cs)).
  split.
  - intros w' ts. split.
    + intros Hs. destruct (Hm _ Hs) as (w1&cs1&Ha&Hmatch).
      inversion Hmatch; subst. by exists cs1.
    + intros (cs'&->&Ha). by apply (asteps_msteps _ _ Ha).
  - intros u. split; [by apply Hm|]. by apply asteps_msteps.
Qed.

(** C34: threads that share a queue neither deadlock nor run for ever: every execution is finite,
    and one that cannot go on has failed, or has completed every call of every thread and left
    the mutex free. *)
Theorem threads_finish w cs :
  Acc (flip mstep) (start w cs) ∧
  ∀ m, rtc mstep (start w cs) (Running m) →
    (∃ s, mstep (Running m) s) ∨ (holder m = None ∧ Forall (λ t, t = Done) (pool m)).
Proof.
  split; [apply status_acc|]. intros m Hs.
  destruct (msteps_matches _ _ w cs Hs (match_free w cs)) as (w'&cs'&_&Hm).
  destruct (matches_progress _ _ _ Hm); auto.
Qed.

(** C12: threads that register, look up and close descriptors, of which no two register or close
    the same one, use the queue safely: no interleaving reaches undefined behaviour, and whenever
    the mutex is free the queue is well-formed. *)
Theorem threads_with_own_descriptors_are_safe w (ops : list (list op)) s :
  queue_wf w →
  (∀ i j l l' fd, i ≠ j → ops !! i = Some l → ops !! j = Some l' → fd ∈ touched l → fd ∉ touched l') →
  (∀ i l, ops !! i = Some l → epoll_fd (queue w) ∉ touched l) →
  rtc mstep (start w (prog <$> ops)) s →
  match s with
  | Failed _ => False
  | Running m => holder m = None → queue_wf (world m)
  end.
Proof.
  intros Hwf Hdis Hep Hs. set (own i := match ops !! i with Some l => touched l | None => ∅ end).
  assert (∀ i j fd, i ≠ j → fd ∈ own i → fd ∉ own j) as Hown.
  { intros i j fd Hij. unfold own. destruct (ops !! i) eqn:Hi, (ops !! j) eqn:Hj; set_solver. }
  assert (all_ok own (ARunning w (prog <$> ops))) as Hok.
  { split; [done|]. split; [intros i; unfold own; destruct (ops !! i) eqn:Hi; [by eapply Hep|set_solver]|].
    intros i cl. rewrite list_lookup_fmap. unfold own. destruct (ops !! i) as [l|]; [|done].
    intros [= <-]. exists l. split; [done|by left]. }
  pose proof (msteps_matches _ s w _ Hs (match_free w _)) as Hm. destruct s as [m|u].
  - destruct Hm as (w'&cs'&Ha&Hmatch). pose proof (all_ok_steps own _ _ Hown Hok Ha) as Hok'.
    intros Hh. destruct Hmatch; [apply Hok'|done].
  - by apply (all_ok_steps own _ _ Hown Hok Hm).
Qed.

(** [close (int)] is not atomic, since it looks the element up before it locks the mutex to close:
    when two threads close the same registered descriptor, an interleaving makes the second use
    the element that the first deleted. *)
Theorem concurrent_close_uses_freed_element w fd p :
  queue_wf w → fds w !! fd = Some p →
  rtc mstep (start w [close_call fd Stop; close_call fd Stop]) (Failed (inl UseAfterFree)).
Proof.
  intros Hwf Hp. destruct (close_element_run w fd p Hwf Hp) as (k&E&_).
  set (c := Call (Close p) (λ _, Stop)).
  assert (∀ cs i, cs !! i = Some (close_call fd Stop) → astep (ARunning w cs) (ARunning w (<[i := c]> cs)))
    as Hget.
  { intros cs i Hi. eapply call_ret; [done|reflexivity|]. unfold mbind, M_bind. cbn [seq].
    unfold get_network_element_from_fd. by rewrite Hp. }
  apply (asteps_msteps (ARunning w _) (AFailed _)).
  eapply rtc_l; [by apply (Hget _ 0%nat)|]. eapply rtc_l; [by apply (Hget _ 1%nat)|].
  eapply rtc_l; [eapply (call_ret 0); [done|reflexivity|]|].
  { etrans; [eapply bind_ret, E|reflexivity]. }
  eapply rtc_once, (call_undef 1); [done|reflexivity|].
  cbn. unfold mbind, M_bind, deref. cbn. by rewrite lookup_delete_eq.
Qed.
End Threads.

(** ** Concrete threads *)

#[local] Instance threads_order : HostOrder := LittleEndian.
#[local] Instance threads_malloc : Malloc := malloc_first_fit.
#[local] Instance threads_nodes : NodeAlloc := λ _, true.

(** Two threads on the queue whose descriptor 5 is registered: the first
    closes it, the second registers and closes 7. *)
Definition sample_ops : list (list op) := [[CloseFd 5]; [PutSck 7 None; Find 5; CloseFd 7]].

Lemma threads_with_own_descriptors_are_safe_witness :
  ∃ m, rtc mstep (start sample_event_world (prog <$> sample_ops)) (Running m) ∧ pool m = [Done; Done] ∧
    queue_wf (world m).
Proof.
  assert (snd <$> run_schedule [0; 1; 0; 1; 1; 1]%nat sample_event_world (prog <$> sample_ops) =
    Some [Stop; Stop]) as Hrun by (vm_compute; reflexivity).
  destruct (run_schedule _ _ _) as [[w' cs']|] eqn:E; [|discriminate]. injection Hrun as ->.
  apply run_schedule_msteps in E. eexists. split; [exact E|]. split; [reflexivity|].
  refine (threads_with_own_descriptors_are_safe _ sample_ops _ (sample_world_wf _ _) _ _ E eq_refl).
  - intros [|[|[|i]]] [|[|[|j]]] l l' fd Hij [= <-] [= <-]; done || set_solver.
  - intros [|[|[|i]]] l [= <-]; vm_compute; discriminate.
Defined.

Lemma concurrent_close_uses_freed_element_witness :
  rtc mstep (start sample_event_world [close_call 5 Stop; close_call 5 Stop]) (Failed (inl UseAfterFree)).
Proof.
  refine (concurrent_close_uses_freed_element sample_event_world 5 _ (sample_world_wf _ _) _).
  reflexivity.
Defined.

Lemma threads_finish_witness :
  Acc (flip mstep) (start sample_event_world [close_call 5 Stop]).
Proof. apply (threads_finish sample_event_world [close_call 5 Stop]). Defined.
