(* ===== verification/SocketUtils.v ===== *)
(** * The blocking socket helpers

    Models src/common/socket_utils.cpp: connecting, reading and writing an
    exact number of bytes, packets on a socket that is not in a queue, and the
    address conversions.  The out parameters are part of the results. *)
From stdpp Require Import base option list gmap strings pretty.
From Stdlib Require Import ZArith Lia.
From S2P Require Import Prelude Bytes Kernel Protocol Framing Inet Proto NetQueue ReadPath WritePath.

#[local] Open Scope Z_scope.

(** include/common/config.h *)
Record MachineConfig : Type := mk_machine { ip : string; port : Z (* uint16_t *) }.

(** [O_NONBLOCK] on Linux. *)
Definition O_NONBLOCK : Z := 2048.

Section SocketUtils.
Context `{HostOrder} `{Inet} `{K : Kernel} {A : Type}.
Abbreviation W := (@World K A).

Definition connect_to (mc : MachineConfig) : M W Z :=
  result ← syscall (sys_getaddrinfo (c_str (ip mc)) (pretty (port mc)));
  match result with
  | None => mret (-1)
  | Some addr =>
    sock ← syscall sys_socket;
    match sock with
    | None => mret (-1)
    | Some sock =>
      connected ← syscall (sys_connect sock addr);
      if connected : bool then mret sock
      else real_close sock;; mret (-1)
    end
  end.

Definition set_nonblocking (fd : Z) : M W bool :=
  flags ← syscall (sys_getfl fd);
  if flags <? 0 then mret false
  else
    r ← syscall (sys_setfl fd (Z.lor flags O_NONBLOCK));
    mret (0 <=? r).

Fixpoint write_loop (fuel : nat) (sock : Z) (buffer : list byte) (total : Z) : M W bool :=
  match fuel with
  | O => no_fuel
  | S fuel =>
    if total <? Z.of_nat (length buffer) then
      r ← syscall (sys_write sock (drop (Z.to_nat total) buffer));
      match r with
      | inr (EAGAIN | EINTR) => write_loop fuel sock buffer total
      | inr EOTHER => mret false
      | inl r => if r =? 0 then mret false else write_loop fuel sock buffer (u64 (total + r))
      end
    else mret true
  end.

Definition write_n_bytes (fuel : nat) (sock : Z) (buffer : list byte) : M W bool :=
  write_loop fuel sock buffer 0.

(** [acc]: the [total] bytes already stored in the buffer. *)
Fixpoint read_loop (fuel : nat) (sock : Z) (n : Z) (acc : list byte) : M W (bool * list byte) :=
  match fuel with
  | O => no_fuel
  | S fuel =>
    let total := Z.of_nat (length acc) in
    if total <? n then
      r ← syscall (sys_read sock (u64 (n - total)));
      match r with
      | inr EINTR => read_loop fuel sock n acc
      | inr _ => mret (false, acc)
      | inl [] => mret (false, acc)
      | inl bs => read_loop fuel sock n (acc ++ bs)
      end
    else mret (true, acc)
  end.

(** Whether [n] bytes were read, and the bytes stored in the buffer. *)
Definition read_n_bytes (fuel : nat) (sock : Z) (n : Z) : M W (bool * list byte) :=
  read_loop fuel sock n [].

Definition send_protobuf_packet `{Message T} (fuel : nat) (sock : Z) (type : PacketType) (msg : T) :
    M W bool :=
  match SerializeToString msg with
  | None => mret false
  | Some body =>
    let hdr := PacketHeader_make (u32 (Z.of_nat (length body))) type in
    ok ← write_n_bytes fuel sock (header_bytes hdr);
    if negb ok then mret false
    else if bool_decide (body = []) then mret true
    else
      ok ← write_n_bytes fuel sock body;
      if negb ok then mret false else mret true
  end.

(** A header read from the socket, [None] when the read fails. *)
Definition read_header (fuel : nat) (sock : Z) : M W (option PacketHeader) :=
  '(ok, bs) ← read_n_bytes fuel sock PACKET_HEADER_SIZE;
  mret (if ok : bool then Some (header_of_bytes bs) else None).

(** The first header that is not a heartbeat's, [hdr] being the last one read. *)
Fixpoint skip_heartbeats (fuel : nat) (sock : Z) (hdr : PacketHeader) : M W (option PacketHeader) :=
  match fuel with
  | O => no_fuel
  | S fuel' =>
    if get_packet_type hdr =? HEARTBEAT then
      let len := get_payload_size hdr in
      ok ← (if 0 <? len then r ← read_n_bytes fuel sock len; mret r.1 else mret true);
      if negb ok then mret None
      else
        hdr ← read_header fuel sock;
        match hdr with
        | None => mret None
        | Some hdr => skip_heartbeats fuel' sock hdr
        end
    else mret (Some hdr)
  end.

(** The message read, [None] when the call returns false. *)
Definition read_protobuf_packet `{Message T} (fuel : nat) (sock : Z) (expected_type : PacketType) :
    M W (option T) :=
  hdr ← read_header fuel sock;
  match hdr with
  | None => mret None
  | Some hdr =>
    hdr ← skip_heartbeats fuel sock hdr;
    match hdr with
    | None => mret None
    | Some hdr =>
      let len := get_payload_size hdr in
      if negb (get_packet_type hdr =? expected_type) then mret None
      else if len =? 0 then mret (Some default_instance)
      else
        '(ok, buf) ← read_n_bytes fuel sock len;
        if negb ok then mret None else mret (ParseFromArray buf (int32 len))
    end
  end.

(** The result and the final values of the out parameters [type] and [buffer]. *)
Definition read_raw_packet (fuel : nat) (sock : Z) (type : PacketType) (buffer : list byte) :
    M W (bool * PacketType * list byte) :=
  hdr ← read_header fuel sock;
  match hdr with
  | None => mret (false, type, buffer)
  | Some hdr =>
    let type := get_packet_type hdr in
    let len := get_payload_size hdr in
    let buffer := resize (Z.to_nat len) x00 buffer in
    if 0 <? len then
      '(ok, bs) ← read_n_bytes fuel sock len;
      mret (ok, type, overwrite 0 bs buffer)
    else mret (true, type, buffer)
  end.

Definition send_heartbeat (fuel : nat) (sock : Z) : M W bool :=
  write_n_bytes fuel sock (header_bytes (PacketHeader_make 0 HEARTBEAT)).

Definition ipv4_to_string (ipv4 : Z) : string := c_str (inet_ntop ipv4).

Definition string_to_ipv4 (s : string) : M W Z :=
  match inet_pton (c_str s) with
  | None => throw RuntimeError
  | Some addr => mret addr
  end.

(** ** Writing *)

Lemma syscall_kern {R} (w : W) k (f : kernel → R * kernel) r k' :
  f k = (r, k') → syscall f (set_kern k w) = Ret (r, set_kern k' w).
Proof. intros Hf. unfold syscall; cbn. by rewrite Hf. Qed.

Lemma set_kern_self (w : W) : set_kern (kern w) w = w.
Proof. by destruct w. Qed.

Section Write.
Context `{KL : !KernelLaws K} (sock : Z) (w : W).

(** [bs] is what the socket took of [data], from the state [k] to [k']; the
    result [b] tells whether it is all of it. *)
Definition written (k : kernel) (data : list byte) (b : bool) (bs : list byte) (k' : kernel) : Prop :=
  accepted b data bs ∧ tx_of (view k') sock = tx_of (view k) sock ++ bs ∧
  (∀ fd, fd ≠ sock → tx_of (view k') fd = tx_of (view k) fd) ∧ open_fds (view k') = open_fds (view k).

(** Whatever the kernel does, the loop writes a prefix of its data. *)
Lemma write_loop_prefix fuel buffer total k :
  0 ≤ total ≤ Z.of_nat (length buffer) → Z.of_nat (length buffer) < 2 ^ 63 →
  write_loop fuel sock buffer total (set_kern k w) = OutOfFuel ∨
  ∃ b bs k', write_loop fuel sock buffer total (set_kern k w) = Ret (b, set_kern k' w) ∧
    written k (drop (Z.to_nat total) buffer) b bs k'.
Proof.
  revert total k. induction fuel as [|fuel IH]; intros total k Ht Hmax; [by left|].
  cbn [write_loop]. set (rest := drop (Z.to_nat total) buffer).
  assert (Z.of_nat (length rest) = Z.of_nat (length buffer) - total) as Hlen
    by (unfold rest; rewrite length_drop; lia).
  destruct (Z.ltb_spec total (Z.of_nat (length buffer))) as [Hlt|Hge].
  2: { right. assert (rest = []) as -> by (apply nil_length_inv; lia).
    exists true, [], k. split; [done|]. split_and!; [by split|by rewrite app_nil_r|done..]. }
  assert (rest ≠ []) as Hne by (intros E; rewrite E in Hlen; cbn in Hlen; lia).
  destruct (sys_write sock rest k) as [r k'] eqn:Hw.
  pose proof (sys_write_ok _ _ _ _ _ Hw) as Hk. fold rest. erewrite bind_ret by by apply syscall_kern.
  assert (∀ k1, (∀ fd, tx_of (view k1) fd = tx_of (view k) fd) →
    open_fds (view k1) = open_fds (view k) →
    (write_loop fuel sock buffer total (set_kern k1 w) = OutOfFuel ∨
     ∃ b bs k', write_loop fuel sock buffer total (set_kern k1 w) = Ret (b, set_kern k' w) ∧
       written k rest b bs k')) as Hretry.
  { intros k1 Htx Ho. destruct (IH total k1 Ht Hmax) as [?|(b&bs&k2&E&Ha&Htx2&Hne2&Ho2)]; [by left|right].
    exists b, bs, k2. split; [done|]. split; [done|]. rewrite <-!Htx. split; [done|].
    split; [|by rewrite Ho2]. intros fd Hfd. by rewrite Hne2, Htx. }
  inversion Hk as [r' Hr E Hv|E Hv|n Hs E Hv|E Hv]; subst r; cbv beta iota zeta.
  - destruct (Z.eqb_spec r' 0) as [->|Hr0].
    + right. exists false, [], k'. split; [done|]. split_and!; [by apply accepted_nothing|..].
      * by rewrite <-Hv, tx_of_set_tx.
      * intros fd Hfd. by rewrite <-Hv, tx_of_set_tx_ne.
      * by rewrite <-Hv.
    + rewrite u64_small by lia.
      destruct (IH (total + r') k') as [?|(b&bs&k2&E&Ha&Htx&Hne2&Ho2)]; [lia|done|by left|].
      right. exists b, (take (Z.to_nat r') rest ++ bs), k2. split; [done|]. split_and!.
      * apply accepted_more. unfold rest. rewrite drop_drop.
        by replace (Z.to_nat total + Z.to_nat r')%nat with (Z.to_nat (total + r')) by lia.
      * by rewrite Htx, <-Hv, tx_of_set_tx, app_assoc.
      * intros fd Hfd. by rewrite Hne2, <-Hv, tx_of_set_tx_ne.
      * by rewrite Ho2, <-Hv.
  - apply Hretry; [intros fd|]; by rewrite <-Hv.
  - apply Hretry; [intros fd|]; by rewrite <-Hv.
  - right. exists false, [], k'. split; [done|]. unfold written. rewrite <-Hv.
    split_and!; [by apply accepted_nothing|by rewrite app_nil_r|done..].
Qed.

(** The helper retries for as long as the socket is full: with a socket that never takes a byte, in
    the states of [full], no fuel is enough for it to return. *)
Theorem send_to_full_socket_hangs (full : kernel → Prop) fuel type `{Message T} (msg : T) body :
  (∀ k bs, full k → ∃ k', sys_write sock bs k = (inr EAGAIN, k') ∧ full k') →
  SerializeToString msg = Some body → full (kern w) →
  send_protobuf_packet fuel sock type msg w = OutOfFuel.
Proof.
  intros Hfull Hser Hk. unfold send_protobuf_packet. rewrite Hser. cbv zeta.
  set (hdr := header_bytes _). assert (length hdr = 6%nat) as Hlen by apply length_header_bytes.
  assert (∀ k, full k → write_n_bytes fuel sock hdr (set_kern k w) = OutOfFuel) as Hloop.
  2: { unfold mbind, M_bind. specialize (Hloop _ Hk). rewrite set_kern_self in Hloop. by rewrite Hloop. }
  unfold write_n_bytes. induction fuel as [|f IH]; intros k Hf; [done|]. cbn [write_loop].
  rewrite (proj2 (Z.ltb_lt _ _)) by lia. destruct (Hfull k (drop (Z.to_nat 0) hdr) Hf) as (k'&E&Hf').
  erewrite bind_ret by by apply syscall_kern. by apply IH.
Qed.

(** A peer that keeps up: [room n k] says that the socket takes [n] more bytes
    without refusing, apart from interrupted calls. *)
Definition keeps_up (room : nat → kernel → Prop) : Prop := ∀ n bs k r k',
  room n k → bs ≠ [] → (length bs ≤ n)%nat → sys_write sock bs k = (r, k') →
  (∃ j, r = inl j ∧ 0 < j ∧ room (n - Z.to_nat j)%nat k') ∨ (r = inr EINTR ∧ room n k').

Lemma write_loop_all room fuel buffer total n k :
  keeps_up room → room n k →
  0 ≤ total ≤ Z.of_nat (length buffer) → Z.of_nat (length buffer) < 2 ^ 63 →
  (length buffer - Z.to_nat total ≤ n)%nat →
  (length buffer - Z.to_nat total + signals (view k) < fuel)%nat →
  ∃ k', write_loop fuel sock buffer total (set_kern k w) = Ret (true, set_kern k' w) ∧
    tx_of (view k') sock = tx_of (view k) sock ++ drop (Z.to_nat total) buffer ∧
    room (n - (length buffer - Z.to_nat total))%nat k' ∧ (signals (view k') ≤ signals (view k))%nat.
Proof.
  intros Hroom. revert total n k. induction fuel as [|fuel IH]; intros total n k Hn Ht Hmax Hle Hf; [lia|].
  cbn [write_loop]. set (rest := drop (Z.to_nat total) buffer).
  assert (Z.of_nat (length rest) = Z.of_nat (length buffer) - total) as Hlen
    by (unfold rest; rewrite length_drop; lia).
  destruct (Z.ltb_spec total (Z.of_nat (length buffer))) as [Hlt|Hge].
  2: { exists k. assert (rest = []) as -> by (apply nil_length_inv; lia).
    split; [done|]. rewrite app_nil_r. split; [done|].
    by replace (n - (length buffer - Z.to_nat total))%nat with n by lia. }
  assert (rest ≠ []) as Hne by (intros E; rewrite E in Hlen; cbn in Hlen; lia).
  destruct (sys_write sock rest k) as [r k'] eqn:Hw.
  pose proof (sys_write_ok _ _ _ _ _ Hw) as Hk. fold rest. erewrite bind_ret by by apply syscall_kern.
  destruct (Hroom n rest k r k') as [(j&->&Hj&Hn')|[-> Hn']]; [done|done|lia|done|..];
    inversion Hk as [r' Hr E0 Hv|E0 Hv|n0 Hs E0 Hv|E0 Hv]; subst; cbv beta iota zeta.
  - rewrite (proj2 (Z.eqb_neq _ _)) by lia. rewrite u64_small by lia.
    destruct (IH (total + j) (n - Z.to_nat j)%nat k') as (k2&E&Htx&Hn2&Hsig);
      [done|lia|done|lia|rewrite <-Hv; cbn; lia|].
    exists k2. split; [done|]. split_and!.
    + rewrite Htx, <-Hv, tx_of_set_tx, <-app_assoc. f_equal.
      replace (Z.to_nat (total + j)) with (Z.to_nat total + Z.to_nat j)%nat by lia.
      by rewrite <-drop_drop, take_drop.
    + by replace (n - (length buffer - Z.to_nat total))%nat
        with (n - Z.to_nat j - (length buffer - Z.to_nat (total + j)))%nat by lia.
    + rewrite <-Hv in Hsig. done.
  - destruct (IH total n k') as (k2&E&Htx&Hn2&Hsig); [done|done|done|done|rewrite <-Hv; cbn; lia|].
    exists k2. split; [done|]. rewrite <-Hv in Htx, Hsig. cbn in Hsig. split_and!; [done|done|lia].
Qed.
End Write.

(** ** Reading *)

Section Read.
Context `{KL : !KernelLaws K} (sock : Z) (w : W).
Implicit Types (k : kernel).

(** [k'] is [k] after the first [n] pending bytes of the socket were read. *)
Definition consumed (n : nat) k k' : Prop :=
  rx_of (view k') sock = drop n (rx_of (view k) sock) ∧
  end_of (view k') sock = end_of (view k) sock ∧
  packets (view k') !! sock = packets (view k) !! sock.

Lemma consumed_trans n m k k1 k2 : consumed n k k1 → consumed m k1 k2 → consumed (n + m) k k2.
Proof.
  intros (H1&H2&H3) (H4&H5&H6). unfold consumed. rewrite H4, H1, drop_drop. split_and!; congruence.
Qed.

Lemma read_loop_run fuel n acc k :
  packets (view k) !! sock = None → n < 2 ^ 63 →
  let need := (Z.to_nat n - length acc)%nat in
  (need < fuel)%nat → (need ≤ length (rx_of (view k) sock))%nat →
  ∃ k', read_loop fuel sock n acc (set_kern k w) =
      Ret ((true, acc ++ take need (rx_of (view k) sock)), set_kern k' w) ∧
    consumed need k k'.
Proof.
  revert acc k. induction fuel as [|fuel IH]; intros acc k Hsk Hn need Hf Hrx; [lia|].
  cbn [read_loop]. destruct (Z.ltb_spec (Z.of_nat (length acc)) n) as [Hlt|Hge].
  2: { assert (need = 0%nat) as -> by lia. exists k. rewrite app_nil_r. split; [done|].
    by split_and!. }
  rewrite u64_small by lia.
  destruct (sys_read sock (n - Z.of_nat (length acc)) k) as [r k'] eqn:Hr.
  assert (0 ≤ n - Z.of_nat (length acc)) as H0n by lia.
  pose proof (sys_read_ok _ _ _ _ _ H0n Hsk Hr) as Hs.
  erewrite bind_ret by by apply syscall_kern.
  assert (0 < length (rx_of (view k) sock))%nat as Hpos by lia.
  inversion Hs as [?|m Hm Hm' E Hv|? He|? He|? He]; subst; try lia;
    try (rewrite He in Hpos; cbn in Hpos; lia).
  destruct (take m (rx_of (view k) sock)) as [|b bs] eqn:Htk.
  { apply (f_equal length) in Htk. rewrite length_take in Htk. cbn in Htk. lia. }
  cbv beta iota zeta. rewrite <-Htk.
  assert (rx_of (view k') sock = drop m (rx_of (view k) sock)) as Hrx' by by rewrite <-Hv, rx_of_set_rx.
  assert (length (take m (rx_of (view k) sock)) = m) as Hlm by (rewrite length_take; lia).
  destruct (IH (acc ++ take m (rx_of (view k) sock)) k') as (k2&E2&Hc).
  - by rewrite <-Hv.
  - done.
  - rewrite length_app, Hlm. lia.
  - rewrite Hrx', length_app, Hlm, length_drop. lia.
  - rewrite length_app, Hlm in E2, Hc. exists k2.
    replace (Z.to_nat n - (length acc + m))%nat with (need - m)%nat in E2, Hc by lia.
    split.
    + rewrite E2, Hrx', <-app_assoc. do 4 f_equal.
      rewrite <-(take_drop m (rx_of (view k) sock)) at 3.
      rewrite take_app, Hlm, take_take, Nat.min_r by lia. done.
    + replace need with (m + (need - m))%nat by lia. eapply consumed_trans; [|exact Hc].
      split_and!; [done|by rewrite <-Hv..].
Qed.

Lemma read_header_run fuel k :
  packets (view k) !! sock = None → (6 < fuel)%nat → (6 ≤ length (rx_of (view k) sock))%nat →
  ∃ k' hdr, read_header fuel sock (set_kern k w) = Ret (Some hdr, set_kern k' w) ∧ consumed 6 k k' ∧
    get_payload_size hdr = stream_size (rx_of (view k) sock) ∧
    get_packet_type hdr = stream_type (rx_of (view k) sock).
Proof.
  intros Hsk Hf Hrx. destruct (read_loop_run fuel PACKET_HEADER_SIZE [] k) as (k'&E&Hc); [done..|].
  exists k', (header_of_bytes (take 6 (rx_of (view k) sock))). split; [|split; [done|split]].
  - unfold read_header, read_n_bytes. by erewrite bind_ret by apply E.
  - rewrite get_payload_size_of_bytes by (rewrite length_take; lia). by rewrite take_take.
  - rewrite get_packet_type_of_bytes by (rewrite length_take; lia). by apply (stream_type_take 6).
Qed.

(** The header of the frame a stream starts with. *)
Lemma read_header_frame fuel k pkt rest :
  packets (view k) !! sock = None → (6 < fuel)%nat → packet_wf pkt →
  rx_of (view k) sock = frame pkt ++ rest →
  ∃ k' hdr, read_header fuel sock (set_kern k w) = Ret (Some hdr, set_kern k' w) ∧
    get_payload_size hdr = Z.of_nat (length pkt.2) ∧ get_packet_type hdr = pkt.1 ∧
    rx_of (view k') sock = pkt.2 ++ rest ∧ packets (view k') !! sock = None.
Proof.
  intros Hsk Hf Hw Hrx. destruct (frame_fields pkt rest Hw) as (Hs&Ht&Hd).
  destruct (read_header_run fuel k) as (k'&hdr&E&(Hrx'&_&Hpk)&Hsz&Hty); [done|done| |].
  { rewrite Hrx, length_app, length_frame. lia. }
  exists k', hdr. rewrite Hrx in Hrx', Hsz, Hty. split_and!; congruence.
Qed.

(** A heartbeat is skipped with its payload. *)
Lemma skip_heartbeat_step fuel k hdr hb rest :
  packets (view k) !! sock = None → hb.1 = HEARTBEAT → packet_wf hb →
  get_payload_size hdr = Z.of_nat (length hb.2) → get_packet_type hdr = hb.1 →
  rx_of (view k) sock = hb.2 ++ rest → (length hb.2 < S fuel)%nat →
  ∃ k', skip_heartbeats (S fuel) sock hdr (set_kern k w) =
      (hdr ← read_header (S fuel) sock;
       match hdr with None => mret None | Some hdr => skip_heartbeats fuel sock hdr end) (set_kern k' w) ∧
    rx_of (view k') sock = rest ∧ packets (view k') !! sock = None.
Proof.
  intros Hsk Hhb [Hw _] Hsz Hty Hrx Hf. cbn [skip_heartbeats]. rewrite Hty, Hhb, Z.eqb_refl, Hsz.
  unfold in_width in Hw. destruct (Z.ltb_spec 0 (Z.of_nat (length hb.2))) as [Hlt|Hge].
  - destruct (read_loop_run (S fuel) (Z.of_nat (length hb.2)) [] k) as (k'&E&(Hrx'&_&Hpk));
      [done|lia|cbn; lia|rewrite Hrx, length_app; cbn; lia|].
    exists k'. split.
    + erewrite bind_ret; [|unfold read_n_bytes; erewrite bind_ret by apply E; reflexivity]. done.
    + rewrite Hrx', Hrx, drop_app_length', Hpk by (cbn; lia). done.
  - exists k. assert (hb.2 = []) as E by (apply nil_length_inv; lia). rewrite E in Hrx.
    split; [|done]. by erewrite bind_ret by reflexivity.
Qed.

Lemma skip_heartbeats_run hbs final rest : ∀ cur fuel k hdr,
  Forall (λ hb : packet, hb.1 = HEARTBEAT ∧ packet_wf hb) (cur :: hbs) →
  packet_wf final → final.1 ≠ HEARTBEAT → packets (view k) !! sock = None →
  rx_of (view k) sock = cur.2 ++ frames hbs ++ frame final ++ rest →
  get_payload_size hdr = Z.of_nat (length cur.2) → get_packet_type hdr = cur.1 →
  (length (rx_of (view k) sock) + 8 ≤ fuel)%nat →
  ∃ k' hdr', skip_heartbeats fuel sock hdr (set_kern k w) = Ret (Some hdr', set_kern k' w) ∧
    get_payload_size hdr' = Z.of_nat (length final.2) ∧ get_packet_type hdr' = final.1 ∧
    rx_of (view k') sock = final.2 ++ rest ∧ packets (view k') !! sock = None.
Proof.
  induction hbs as [|hb hbs IH]; intros cur fuel k hdr [[Hhb Hcw] Hhbs]%Forall_cons Hfw Hft Hsk Hrx Hsz Hty Hf;
    (destruct fuel as [|fuel]; [lia|]); rewrite Hrx, !length_app, length_frame in Hf.
  - destruct (skip_heartbeat_step fuel k hdr cur (frame final ++ rest)) as (k1&E&Hrx1&Hpk1);
      [done..|lia|]. rewrite E.
    destruct (read_header_frame (S fuel) k1 final rest) as (k2&hdr2&E2&Hsz2&Hty2&Hrx2&Hpk2);
      [done|lia|done|done|].
    exists k2, hdr2. split; [|done]. erewrite bind_ret by apply E2.
    destruct fuel as [|fuel]; [lia|]. cbn [skip_heartbeats].
    by rewrite Hty2, (proj2 (Z.eqb_neq _ _)).
  - rewrite frames_cons in Hrx, Hf. rewrite length_app, length_frame in Hf.
    destruct (skip_heartbeat_step fuel k hdr cur (frame hb ++ frames hbs ++ frame final ++ rest))
      as (k1&E&Hrx1&Hpk1); [done..|by rewrite Hrx, <-app_assoc|lia|]. rewrite E.
    pose proof Hhbs as [[Hhb1 Hhw1] _]%Forall_cons.
    destruct (read_header_frame (S fuel) k1 hb (frames hbs ++ frame final ++ rest))
      as (k2&hdr2&E2&Hsz2&Hty2&Hrx2&Hpk2); [done|lia|done|done|].
    erewrite bind_ret by apply E2. apply (IH hb); try done.
    rewrite Hrx2, !length_app, length_frame. lia.
Qed.
End Read.

(** ** A packet *)

Lemma written_trans `{KL : !KernelLaws K} sock k d1 bs1 k1 d2 b bs2 k2 :
  written sock k d1 true bs1 k1 → written sock k1 d2 b bs2 k2 →
  written sock k (d1 ++ d2) b (d1 ++ bs2) k2.
Proof.
  intros ([_ Hall]&Htx1&Hne1&Ho1) (Ha&Htx2&Hne2&Ho2). rewrite (proj1 Hall) in Htx1 by done. split_and!.
  - by apply accepted_app_true.
  - by rewrite Htx2, Htx1, app_assoc.
  - intros fd Hfd. by rewrite Hne2, Hne1.
  - by rewrite Ho2.
Qed.

Lemma send_protobuf_packet_run `{KL : !KernelLaws K} `{Message T} sock (w : W) type (msg : T) fuel :
  send_protobuf_packet fuel sock type msg w = OutOfFuel ∨
  (SerializeToString msg = None ∧ send_protobuf_packet fuel sock type msg w = Ret (false, w)) ∨
  ∃ body b bs k', SerializeToString msg = Some body ∧
    send_protobuf_packet fuel sock type msg w = Ret (b, set_kern k' w) ∧
    written sock (kern w) (frame (type, body)) b bs k'.
Proof.
  unfold send_protobuf_packet. destruct (SerializeToString msg) as [body|] eqn:Hser; [|by right; left].
  pose proof (serialize_size _ _ Hser) as Hmax.
  rewrite uint_small by (unfold in_width; lia).
  set (hdr := PacketHeader_make _ type). assert (frame (type, body) = header_bytes hdr ++ body) as Hfr by done.
  rewrite <-(set_kern_self w). unfold write_n_bytes. cbn [kern set_kern].
  destruct (write_loop_prefix sock w fuel (header_bytes hdr) 0 (kern w))
    as [E|(b&bs&k1&E&Hw1)]; [lia|rewrite length_header_bytes; lia| |].
  { left. unfold mbind, M_bind. by rewrite E. }
  cbn [Z.to_nat] in Hw1. rewrite drop_0 in Hw1.
  erewrite bind_ret by apply E. destruct b; cbn [negb].
  2: { right; right. exists body, false, bs, k1. split; [done|]. split; [done|]. rewrite Hfr.
    destruct Hw1 as (Ha&Htx&Hne). split; [by apply accepted_app_false|done]. }
  destruct (bool_decide_reflect (body = [])) as [->|Hne].
  { right; right. exists [], true, bs, k1. by rewrite Hfr, app_nil_r. }
  destruct (write_loop_prefix sock w fuel body 0 k1) as [E2|(b2&bs2&k2&E2&Hw2)]; [lia|lia| |].
  { left. unfold mbind, M_bind. by rewrite E2. }
  cbn [Z.to_nat] in Hw2. rewrite drop_0 in Hw2.
  right; right. exists body, b2, (header_bytes hdr ++ bs2), k2. split; [done|]. split.
  - erewrite bind_ret by apply E2. by destruct b2.
  - rewrite Hfr. by eapply written_trans.
Qed.

(** ** The properties *)

Section Properties.
Context `{KL : !KernelLaws K} `{Message T} (sock : Z).

(** A packet sent with [send_protobuf_packet] is on the wire as one frame: whatever the
    kernel does with the writes, the bytes written are a prefix of the frame, the whole of it
    exactly when the call returns true; and the call returns true, within the fuel given by the
    bytes and the signals, when the peer keeps up. *)
Theorem send_protobuf_packet_writes_frame (w : W) type msg body room fuel :
  SerializeToString msg = Some body →
  let fr := frame (type, body) in
  (send_protobuf_packet fuel sock type msg w = OutOfFuel ∨
   ∃ b w' bs, send_protobuf_packet fuel sock type msg w = Ret (b, w') ∧
     tx_of (view (kern w')) sock = tx_of (view (kern w)) sock ++ bs ∧
     bs `prefix_of` fr ∧ (b = true ↔ bs = fr)) ∧
  (keeps_up sock room → room (length fr) (kern w) →
   (length fr + signals (view (kern w)) < fuel)%nat →
   ∃ w', send_protobuf_packet fuel sock type msg w = Ret (true, w') ∧
     tx_of (view (kern w')) sock = tx_of (view (kern w)) sock ++ fr).
Proof.
  intros Hser fr. pose proof (serialize_size _ _ Hser) as Hmax.
  assert (in_width 32 (Z.of_nat (length body))) as Hw by (unfold in_width; lia).
  unfold in_width in Hw. split.
  - destruct (send_protobuf_packet_run sock w type msg fuel) as [E|[[E _]|(body'&b&bs&k'&Hser'&E&Hwr)]];
      [by left|congruence|right].
    rewrite Hser in Hser'. injection Hser' as <-. destruct Hwr as ([Hpre Hiff]&Htx&_).
    by exists b, (set_kern k' w), bs.
  - unfold send_protobuf_packet. rewrite Hser, uint_small by done.
    set (hdr := PacketHeader_make _ type). assert (fr = header_bytes hdr ++ body) as Hfr by done.
    rewrite Hfr, length_app, length_header_bytes. rewrite <-(set_kern_self w). unfold write_n_bytes.
    cbn [kern set_kern].
    intros Hroom Hn Hf.
    destruct (write_loop_all sock w room fuel (header_bytes hdr) 0 (6 + length body) (kern w))
      as (k1&E&Htx&Hn1&Hsig); [done|done|lia|rewrite length_header_bytes; lia..|].
    erewrite bind_ret by apply E. cbn [negb]. cbn [Z.to_nat] in Htx, Hn1. rewrite drop_0 in Htx.
    rewrite length_header_bytes in Hn1.
    destruct (bool_decide_reflect (body = [])) as [->|Hne].
    { exists (set_kern k1 w). split; [done|]. by rewrite app_nil_r. }
    destruct (write_loop_all sock w room fuel body 0 (length body) k1) as (k2&E2&Htx2&_);
      [done| |lia|lia|lia|cbn; lia|].
    { by replace (length body) with (6 + length body - (6 - Z.to_nat 0))%nat by lia. }
    exists (set_kern k2 w). split; [by erewrite bind_ret by apply E2|].
    cbn. cbn [Z.to_nat] in Htx2. rewrite drop_0 in Htx2. by rewrite Htx2, Htx, app_assoc.
Qed.

(** The read of the first packet that is not a heartbeat. *)
Lemma read_protobuf_packet_run (w : W) type (msg : T) body hbs rest fuel :
  SerializeToString msg = Some body → in_width 16 type → type ≠ HEARTBEAT → Forall (λ hb : packet, hb.1 = HEARTBEAT ∧ packet_wf hb) hbs →
  packets (view (kern w)) !! sock = None →
  rx_of (view (kern w)) sock = frames hbs ++ frame (type, body) ++ rest →
  (length (rx_of (view (kern w)) sock) + 8 ≤ fuel)%nat →
  ∃ w', read_protobuf_packet fuel sock type w = Ret (Some msg, w') ∧
    rx_of (view (kern w')) sock = rest.
Proof.
  intros Hser Hw16 Hty Hhbs Hsk Hrx Hf. pose proof (serialize_size _ _ Hser) as Hmax.
  assert (packet_wf (type, body)) as Hw by (split; [unfold in_width; cbn; lia|done]).
  assert (∃ k' hdr', (hdr ← read_header fuel sock;
      match hdr with None => mret None | Some hdr => skip_heartbeats fuel sock hdr end)
        (set_kern (kern w) w) = Ret (Some hdr', set_kern k' w) ∧
    get_payload_size hdr' = Z.of_nat (length body) ∧ get_packet_type hdr' = type ∧
    rx_of (view k') sock = body ++ rest ∧ packets (view k') !! sock = None)
    as (k'&hdr'&E&Hsz&Htp&Hrx'&Hpk').
  { destruct hbs as [|hb hbs].
    - destruct (read_header_frame sock w fuel (kern w) (type, body) rest) as (k1&hdr1&E1&Hsz1&Hty1&Hrx1&Hpk1);
        [done|lia|done|done|].
      exists k1, hdr1. split; [|done]. erewrite bind_ret by apply E1.
      destruct fuel; [lia|]. cbn [skip_heartbeats]. by rewrite Hty1, (proj2 (Z.eqb_neq _ _)).
    - rewrite frames_cons, <-app_assoc in Hrx. pose proof Hhbs as [[Hhb Hhw] _]%Forall_cons.
      destruct (read_header_frame sock w fuel (kern w) hb (frames hbs ++ frame (type, body) ++ rest))
        as (k1&hdr1&E1&Hsz1&Hty1&Hrx1&Hpk1); [done|lia|done|done|].
      erewrite bind_ret by apply E1.
      apply (skip_heartbeats_run sock w hbs (type, body) rest hb); try done.
      rewrite Hrx1. rewrite Hrx, !length_app, length_frame in Hf. rewrite !length_app. lia. }
  rewrite set_kern_self in E. apply bind_inv in E as ([hdr|]&w1&E1&E2); [|done].
  unfold read_protobuf_packet. erewrite bind_ret by apply E1. cbv beta iota.
  erewrite bind_ret by apply E2. cbv beta iota zeta. rewrite Htp, Hsz, Z.eqb_refl. cbn [negb].
  destruct (Z.eqb_spec (Z.of_nat (length body)) 0) as [E0|E0].
  - assert (body = []) as -> by (apply nil_length_inv; lia).
    apply serialize_empty in Hser as ->. by exists (set_kern k' w).
  - destruct (read_loop_run sock w fuel (Z.of_nat (length body)) [] k') as (k2&E3&(Hrx2&_)).
    + done.
    + lia.
    + rewrite Hrx, !length_app, length_frame in Hf. cbn in *. lia.
    + rewrite Hrx', length_app. cbn. lia.
    + unfold read_n_bytes. erewrite bind_ret by apply E3. cbn [negb length Nat.sub].
      rewrite Nat2Z.id, Nat.sub_0_r, Hrx', take_app_length in *.
      rewrite int32_small by lia. cbn [Datatypes.app]. rewrite (parse_serialize msg body Hser).
      exists (set_kern k2 w). split; [done|]. cbn. by rewrite Hrx2, drop_app_length.
Qed.

(** C22: [read_protobuf_packet] returns the message of the first packet that is not a heartbeat
    when it has the expected type, whatever heartbeats, with or without payload, come before it
    and however the bytes arrive, and leaves the socket right behind the packet. *)
Theorem read_protobuf_packet_skips_heartbeats (w : W) type (msg : T) body hbs rest fuel :
  SerializeToString msg = Some body → in_width 16 type → type ≠ HEARTBEAT → Forall (λ hb : packet, hb.1 = HEARTBEAT ∧ packet_wf hb) hbs →
  packets (view (kern w)) !! sock = None →
  rx_of (view (kern w)) sock = frames hbs ++ frame (type, body) ++ rest →
  (length (rx_of (view (kern w)) sock) + 8 ≤ fuel)%nat →
  ∃ w', read_protobuf_packet fuel sock type w = Ret (Some msg, w') ∧
    rx_of (view (kern w')) sock = rest.
Proof. apply read_protobuf_packet_run. Qed.
End Properties.
End SocketUtils.

(** ** Concrete runs *)

#[local] Instance socket_order : HostOrder := LittleEndian.
#[local] Instance socket_codec : Message PacketAuthConnectToSwitch := auth_connect_to_switch_codec.

(** The concrete kernel keeps up while its window lasts. *)
Lemma sim_keeps_up sock :
  keeps_up (K := sim_kernel) sock (λ n k, Z.of_nat n ≤ default 0 (sim_window k !! sock)).
Proof.
  intros n bs k r k' Hn Hne Hl. cbn [sys_write sim_kernel]. unfold sim_write.
  destruct (signals (sim_view k)); [|intros [= <- <-]; by right].
  destruct (decide _) as [Hd|Hd].
  { assert (length bs = 0%nat) as E%nil_length_inv by lia. done. }
  set (m := Nat.min _ _). assert (0 < m ≤ length bs)%nat as Hm by (subst m; destruct bs; cbn in *; [done|lia]).
  clearbody m. intros [= <- <-]. left. exists (Z.of_nat m). split_and!; [done|lia|].
  cbn. rewrite lookup_insert_eq. cbn. lia.
Qed.

Definition token_packet : PacketAuthConnectToSwitch := mk_PacketAuthConnectToSwitch 77.
Definition token_body : list byte := default [] (SerializeToString token_packet).

(** A process without queue, connected on descriptor 5, whose peer sent [bytes]. *)
Definition client_world (bytes : list byte) : @World sim_kernel () :=
  mk_world (mk_queue (-1) 0 ∅ ∅)
    (mk_sim (mk_kview {[5 := bytes]} {[5 := Shutdown]} ∅ 1 {[5]} ∅ ∅) 3 {[5 := 4096]} 0 0 0) ().

Lemma send_protobuf_packet_writes_frame_witness :
  ∃ w', send_protobuf_packet 100 5 AUTH_CONNECT_TO_SWITCH token_packet (client_world []) = Ret (true, w') ∧
    tx_of (view (kern w')) 5 = frame (AUTH_CONNECT_TO_SWITCH, token_body).
Proof.
  edestruct (send_protobuf_packet_writes_frame 5 (client_world []) AUTH_CONNECT_TO_SWITCH token_packet
    token_body (λ n k, Z.of_nat n ≤ default 0 (sim_window k !! 5)) 100) as [_ Hall];
    [|apply Hall].
  - reflexivity.
  - apply sim_keeps_up.
  - vm_compute. discriminate.
  - vm_compute. lia.
Defined.

Definition token_stream : list byte :=
  frames [(HEARTBEAT, []); (HEARTBEAT, [x01; x02])] ++ frame (AUTH_CONNECT_TO_SWITCH, token_body) ++ [x2a].

Lemma read_protobuf_packet_skips_heartbeats_witness :
  ∃ w', read_protobuf_packet 100 5 AUTH_CONNECT_TO_SWITCH (client_world token_stream) =
      Ret (Some token_packet, w') ∧ rx_of (view (kern w')) 5 = [x2a].
Proof.
  apply (read_protobuf_packet_skips_heartbeats 5 (client_world token_stream) AUTH_CONNECT_TO_SWITCH
    token_packet token_body [(HEARTBEAT, []); (HEARTBEAT, [x01; x02])] [x2a]).
  - reflexivity.
  - vm_compute. split; [discriminate|reflexivity].
  - discriminate.
  - repeat constructor; vm_compute; discriminate.
  - reflexivity.
  - vm_compute. reflexivity.
  - vm_compute. lia.
Defined.
