(* ===== verification/Dispatch.v ===== *)
(** * Dispatch of packets to typed handlers

    Models src/protocol/dispatch.cpp: the object with the virtual handlers is
    a record of functions, [Dispatch_default] holds the base class's no-op
    implementations, and [makeNetworkQueueHandler] the bridge from the queue's
    function pointers. *)
From stdpp Require Import base option list gmap.
From Stdlib Require Import ZArith Lia.
From S2P Require Import Prelude Bytes Kernel Protocol Framing Proto NetQueue ReadPath.

#[local] Open Scope Z_scope.

Record Dispatch (W : Type) : Type := mk_dispatch {
  d_onClose : close_data → M W ();
  d_onTunReady : tun_data → M W ();
  d_onHeartbeat : socket_data → M W ();
  d_onSwitchMIP : socket_data → PacketSwitchMIP → M W ();
  d_onAgentMIP : socket_data → PacketAgentMIP → M W ();
  d_onConnectToSwitch : socket_data → PacketConnectToSwitch → M W ();
  d_onAuthConnectToSwitch : socket_data → PacketAuthConnectToSwitch → M W ();
  d_onAgentConnectionToken : socket_data → PacketAgentConnectionToken → M W ();
  d_onConnectionAccepted : socket_data → PacketConnectionAccepted → M W ();
  d_onAgentMRP : socket_data → PacketAgentMRP → M W ()
}.
Arguments mk_dispatch {W}.
Arguments d_onClose {W}.
Arguments d_onTunReady {W}.
Arguments d_onHeartbeat {W}.
Arguments d_onSwitchMIP {W}.
Arguments d_onAgentMIP {W}.
Arguments d_onConnectToSwitch {W}.
Arguments d_onAuthConnectToSwitch {W}.
Arguments d_onAgentConnectionToken {W}.
Arguments d_onConnectionAccepted {W}.
Arguments d_onAgentMRP {W}.

Definition Dispatch_default {W} : Dispatch W :=
  mk_dispatch (λ _, mret ()) (λ _, mret ()) (λ _, mret ()) (λ _ _, mret ()) (λ _ _, mret ())
    (λ _ _, mret ()) (λ _ _, mret ()) (λ _ _, mret ()) (λ _ _, mret ()) (λ _ _, mret ()).

(** The messages the dispatcher parses. *)
Class Messages : Type := {
  switch_mip_message :: Message PacketSwitchMIP;
  agent_mip_message :: Message PacketAgentMIP;
  connect_to_switch_message :: Message PacketConnectToSwitch;
  agent_connection_token_message :: Message PacketAgentConnectionToken;
  auth_connect_to_switch_message :: Message PacketAuthConnectToSwitch;
  connection_accepted_message :: Message PacketConnectionAccepted;
  agent_mrp_message :: Message PacketAgentMRP
}.

Section Dispatch.
Context `{HostOrder} `{K : Kernel} `{Messages} {A : Type}.
Abbreviation W := (@World K A).

(** [packet.ParseFromArray (data.packet_buffer, data.payload_size)], and the
    handler's call when it succeeds. *)
Definition parse_and_call `{Message T} (data : socket_data) (handle : socket_data → T → M W ()) : M W () :=
  let size := int32 (sd_payload_size data) in
  bs ← load_buffer (sd_packet_buffer data) size;
  match ParseFromArray bs size with
  | Some packet => handle data packet
  | None => mret ()
  end.

Definition Dispatch_onSocketReady (d : Dispatch W) (data : socket_data) : M W () :=
  let type := sd_packet_type data in
  if type =? HEARTBEAT then d_onHeartbeat d data
  else if type =? SWITCH_MIP then parse_and_call data (d_onSwitchMIP d)
  else if type =? AGENT_MIP then parse_and_call data (d_onAgentMIP d)
  else if type =? CONNECT_TO_SWITCH then parse_and_call data (d_onConnectToSwitch d)
  else if type =? AGENT_CONNECTION_TOKEN then parse_and_call data (d_onAgentConnectionToken d)
  else if type =? AUTH_CONNECT_TO_SWITCH then parse_and_call data (d_onAuthConnectToSwitch d)
  else if type =? CONNECTION_ACCEPTED then parse_and_call data (d_onConnectionAccepted d)
  else if type =? AGENT_MRP then parse_and_call data (d_onAgentMRP d)
  else mret ().

(** [static_cast<Dispatch*>(ptr_data)->...] *)
Definition dispatch_on_close (ptr_data : option (Dispatch W)) (data : close_data) : M W () :=
  match ptr_data with None => undef NullDeref | Some d => d_onClose d data end.
Definition dispatch_on_socket_ready (ptr_data : option (Dispatch W)) (data : socket_data) : M W () :=
  match ptr_data with None => undef NullDeref | Some d => Dispatch_onSocketReady d data end.
Definition dispatch_on_tun_ready (ptr_data : option (Dispatch W)) (data : tun_data) : M W () :=
  match ptr_data with None => undef NullDeref | Some d => d_onTunReady d data end.

Definition makeNetworkQueueHandler (dispatch : option (Dispatch W)) : NetworkQueueHandler (Dispatch W) W :=
  mk_handler (Some dispatch_on_close) (Some dispatch_on_socket_ready) (Some dispatch_on_tun_ready) dispatch.

(** ** The handler called for a packet *)

(** The typed handlers, by packet type. *)
Inductive typed_handler (d : Dispatch W) : PacketType → ∀ T, Message T → (socket_data → T → M W ()) → Prop :=
  | typed_switch_mip : typed_handler d SWITCH_MIP _ _ (d_onSwitchMIP d)
  | typed_agent_mip : typed_handler d AGENT_MIP _ _ (d_onAgentMIP d)
  | typed_connect : typed_handler d CONNECT_TO_SWITCH _ _ (d_onConnectToSwitch d)
  | typed_token : typed_handler d AGENT_CONNECTION_TOKEN _ _ (d_onAgentConnectionToken d)
  | typed_auth : typed_handler d AUTH_CONNECT_TO_SWITCH _ _ (d_onAuthConnectToSwitch d)
  | typed_accepted : typed_handler d CONNECTION_ACCEPTED _ _ (d_onConnectionAccepted d)
  | typed_mrp : typed_handler d AGENT_MRP _ _ (d_onAgentMRP d).

Lemma typed_handler_dispatch d type T (M0 : Message T) handle data :
  typed_handler d type T M0 handle → sd_packet_type data = type →
  Dispatch_onSocketReady d data = parse_and_call data handle.
Proof. intros Hh Ht. unfold Dispatch_onSocketReady. rewrite Ht. by destruct Hh. Qed.

(** The data the queue hands over for the packet in the buffer of [e]. *)
Definition packet_data (p : loc) (e : NetworkElement) : socket_data :=
  mk_socket_data p (el_ptr e) (el_fd e) (stream_type (net_buffer e))
    (mk_buffer_ptr p PACKET_HEADER_SIZE) (header_size e) (mk_buffer_ptr p 0) (net_buffer_used e).

(** What the loop does after the handler. *)
Definition after_packet (p : loc) : M W bool :=
  update p (with_used 0);; set_state p SCK_HEADER;; mret false.

Lemma ready_step d p (w : W) e :
  elements (queue w) !! p = Some e → receiving e → el_state e = SCK_READY →
  process_step (makeNetworkQueueHandler (Some d)) p w =
  (Dispatch_onSocketReady d (packet_data p e);; after_packet p) w.
Proof.
  intros He [Hu Hl Hs] Hst. rewrite Hst in Hs.
  pose proof (stream_size_bound (net_buffer e)) as [Hz _]. fold (header_size e) in Hz.
  destruct (load_header_at p w (kern w) e) as (Hload&Hsz&Hty); [lia|].
  rewrite <-(at_element_self p w e) by done. unfold process_step.
  erewrite bind_at by apply deref_at. rewrite Hst. erewrite bind_at by apply Hload.
  rewrite Hsz, Hty. done.
Qed.

(** The type of the packet a complete buffer holds. *)
Lemma buffered_type e type payload :
  receiving e → el_state e = SCK_READY → in_width 16 type → buffered e = frame (type, payload) →
  stream_type (net_buffer e) = type.
Proof.
  intros [Hu Hl Hs] Hst Hty Hbuf. rewrite Hst in Hs. unfold PACKET_HEADER_SIZE, NET_BUFFER_SIZE in *.
  pose proof (stream_size_bound (net_buffer e)) as [Hz _]. fold (header_size e) in Hz.
  assert (length (buffered e) = Z.to_nat (net_buffer_used e)) as Hlen
    by (unfold buffered; rewrite length_take; lia).
  rewrite Hbuf, length_frame in Hlen. cbn [snd] in Hlen.
  rewrite <-(stream_type_take (Z.to_nat (net_buffer_used e))) by lia. fold (buffered e). rewrite Hbuf.
  destruct (frame_fields (type, payload) []) as (_&Ht&_);
    [split; unfold in_width; cbn [fst snd]; unfold in_width in *; lia|by rewrite app_nil_r in Ht].
Qed.

(** A received packet of a typed message calls its handler with the message. *)
Lemma typed_packet_step d p (w : W) e payload T (M0 : Message T) handle msg :
  elements (queue w) !! p = Some e → receiving e → el_state e = SCK_READY →
  buffered e = frame (stream_type (net_buffer e), payload) →
  typed_handler d (stream_type (net_buffer e)) T M0 handle → SerializeToString msg = Some payload →
  process_step (makeNetworkQueueHandler (Some d)) p w =
  (handle (packet_data p e) msg;; after_packet p) w.
Proof.
  intros He Hr Hst Hbuf Hh Hser. rewrite (ready_step d p w e He Hr Hst). pose proof Hr as [Hu Hl Hs].
  rewrite Hst in Hs. unfold PACKET_HEADER_SIZE, NET_BUFFER_SIZE in *.
  pose proof (stream_size_bound (net_buffer e)) as [Hz _]. fold (header_size e) in Hz.
  rewrite (typed_handler_dispatch d _ T M0 handle _ Hh) by done. unfold parse_and_call.
  cbn [packet_data sd_payload_size sd_packet_buffer].
  assert (header_size e = Z.of_nat (length payload)) as Hlen.
  { apply (f_equal length) in Hbuf. rewrite length_frame in Hbuf. unfold buffered in Hbuf.
    rewrite length_take in Hbuf. cbn in Hbuf. lia. }
  rewrite int32_small by lia.
  assert ((load_buffer (mk_buffer_ptr p PACKET_HEADER_SIZE) (header_size e)) w = Ret (payload, w)) as Hload.
  { rewrite <-(at_element_self p w e) by done.
    rewrite load_buffer_at by (unfold PACKET_HEADER_SIZE; lia). do 2 f_equal.
    transitivity (drop 6 (buffered e)).
    - unfold buffered. rewrite Hs, take_drop_commute. f_equal. f_equal. unfold PACKET_HEADER_SIZE. lia.
    - rewrite Hbuf. unfold frame. apply drop_app_length'. by rewrite length_header_bytes. }
  unfold mbind at 1, M_bind at 1.
  erewrite (bind_ret (load_buffer _ _)) by apply Hload.
  rewrite Hlen, (parse_serialize msg payload Hser). done.
Qed.

(** C37: the dispatcher is the inverse of the encoding: when the queue has received a frame whose
    type has a typed handler and whose payload is the serialization of a message, the loop calls
    exactly that handler with exactly that message (and then waits for the next header); a
    heartbeat calls [onHeartbeat] whatever its payload, a frame of an unknown type nothing. *)
Theorem packet_calls_its_handler d p (w : W) e payload :
  elements (queue w) !! p = Some e → receiving e → el_state e = SCK_READY →
  let type := stream_type (net_buffer e) in
  buffered e = frame (type, payload) →
  (∀ T (M0 : Message T) handle msg, typed_handler d type T M0 handle →
    SerializeToString msg = Some payload →
    process_step (makeNetworkQueueHandler (Some d)) p w =
    (handle (packet_data p e) msg;; after_packet p) w) ∧
  (type = HEARTBEAT →
    process_step (makeNetworkQueueHandler (Some d)) p w =
    (d_onHeartbeat d (packet_data p e);; after_packet p) w) ∧
  (AGENT_MRP < type →
    process_step (makeNetworkQueueHandler (Some d)) p w = after_packet p w).
Proof.
  intros He Hr Hst type Hbuf. split; [|split].
  - intros T M0 handle msg Hh Hser. by eapply typed_packet_step.
  - intros Hhb. rewrite (ready_step d p w e He Hr Hst). unfold Dispatch_onSocketReady.
    cbn [packet_data sd_packet_type]. fold type. by rewrite Hhb.
  - intros Hunk. rewrite (ready_step d p w e He Hr Hst). unfold AGENT_MRP in Hunk.
    unfold Dispatch_onSocketReady. cbn [packet_data sd_packet_type].
    fold type. unfold HEARTBEAT, SWITCH_MIP, AGENT_MIP, CONNECT_TO_SWITCH, AGENT_CONNECTION_TOKEN,
      AUTH_CONNECT_TO_SWITCH, CONNECTION_ACCEPTED, AGENT_MRP.
    by repeat (rewrite (proj2 (Z.eqb_neq _ _)) by lia).
Qed.
End Dispatch.

(** ** A concrete run *)

#[local] Instance dispatch_order : HostOrder := LittleEndian.

(** The concrete encoding of all messages. *)
Definition codecs : Messages := {|
  switch_mip_message := switch_mip_codec;
  agent_mip_message := agent_mip_codec;
  connect_to_switch_message := connect_to_switch_codec;
  agent_connection_token_message := agent_connection_token_codec;
  auth_connect_to_switch_message := auth_connect_to_switch_codec;
  connection_accepted_message := connection_accepted_codec;
  agent_mrp_message := agent_mrp_codec
|}.
#[local] Instance dispatch_codecs : Messages := codecs.

(** A dispatcher that logs the tokens of authentication packets. *)
Definition token_log : Dispatch (@World sim_kernel (list Z)) :=
  mk_dispatch (d_onClose Dispatch_default) (d_onTunReady Dispatch_default)
    (d_onHeartbeat Dispatch_default) (d_onSwitchMIP Dispatch_default) (d_onAgentMIP Dispatch_default)
    (d_onConnectToSwitch Dispatch_default)
    (λ _ pkt, modify (λ w, set_app (app w ++ [ac_connection_token pkt]) w))
    (d_onAgentConnectionToken Dispatch_default) (d_onConnectionAccepted Dispatch_default)
    (d_onAgentMRP Dispatch_default).

Definition auth_packet : PacketAuthConnectToSwitch := mk_PacketAuthConnectToSwitch 77.
Definition auth_body : list byte := default [] (SerializeToString auth_packet).
Definition auth_element : NetworkElement :=
  mk_element SCK_READY 5 None (Z.of_nat (6 + length auth_body)) (frame (AUTH_CONNECT_TO_SWITCH, auth_body)) [] 0.
Definition auth_world : @World sim_kernel (list Z) :=
  mk_world (mk_queue 3 (-1) {[1%positive := auth_element]} {[5 := 1%positive]})
    (mk_sim (mk_kview {[5 := []]} {[5 := Open]} ∅ 0 {[3; 5]} {[3 := {[5 := 1%positive]}]} ∅)
       3 {[5 := 4096]} 0 0 0) [].

Definition logged_tokens {R} (r : outcome (R * @World sim_kernel (list Z))) : list Z :=
  match r with Ret (_, w) => app w | _ => [] end.

Lemma packet_calls_its_handler_witness :
  logged_tokens (process_step (makeNetworkQueueHandler (Some token_log)) 1%positive auth_world) = [77].
Proof.
  destruct (packet_calls_its_handler token_log 1%positive auth_world auth_element auth_body)
    as [Hcall _].
  - reflexivity.
  - split; vm_compute; [split; discriminate|discriminate|reflexivity].
  - reflexivity.
  - vm_compute. reflexivity.
  - rewrite (Hcall _ _ _ auth_packet (typed_auth token_log) eq_refl). vm_compute. reflexivity.
Defined.
