(* ===== verification/Monotone.v ===== *)
(** * The operations are monotone

    More fuel, or handlers that stop less often, only turn a run that stops
    into one that goes on ([Approx]): the operations of the queue and the
    blocking socket helpers, in the fuel and in the handlers they call. *)
From stdpp Require Import base option list gmap sets.
From Stdlib Require Import ZArith Lia.
From S2P Require Import Prelude Approx Bytes Kernel Protocol Inet Proto NetQueue SocketUtils Dispatch.

#[local] Open Scope Z_scope.

Section Monotone.
Context `{HostOrder} `{Inet} `{K : Kernel} `{Malloc} `{NodeAlloc} {A : Type} (st : stop).
Abbreviation W := (@World K A).
Implicit Types (p : loc) (n m : nat).

(** ** The queue, in the fuel *)

Lemma flush_approx n m p :
  fuel_le st n m → approx (S := W) st (flush_write_buffer n p) (flush_write_buffer m p).
Proof.
  intros Hle. revert p. eapply (approx_fuel st); [done..| |done].
  clear n m Hle. intros n m _ IH p. cbn [Nat.add flush_write_buffer]. approx.
Qed.

Lemma send_direct_approx n m fd p data total :
  fuel_le st n m → approx (S := W) st (send_direct n fd p data total) (send_direct m fd p data total).
Proof.
  intros Hle. revert total. eapply (approx_fuel st (λ n, send_direct n fd p data) (λ n, send_direct n fd p data));
    [done..| |done].
  clear n m Hle. intros n m _ IH total. cbn [Nat.add send_direct]. approx.
Qed.

#[local] Hint Resolve flush_approx send_direct_approx : approx.

Lemma send_approx n m fd data :
  fuel_le st n m → approx (S := W) st (NetQueue.send n fd data) (NetQueue.send m fd data).
Proof. intros Hle. unfold send. approx. Qed.

#[local] Hint Resolve send_approx : approx.

Lemma send_packet_approx n m fd type body :
  fuel_le st n m → approx (S := W) st (send_packet n fd type body) (send_packet m fd type body).
Proof. intros Hle. unfold send_packet. approx. Qed.

Lemma send_heartbeat_approx n m fd :
  fuel_le st n m → approx (S := W) st (NetQueue.send_heartbeat n fd) (NetQueue.send_heartbeat m fd).
Proof. intros Hle. unfold NetQueue.send_heartbeat. approx. Qed.

(** ** The event loop, in the fuel and the handlers *)

(** The calls the queue makes, compared. *)
Record handler_approx {D} (h1 h2 : NetworkQueueHandler D W) : Prop := {
  ha_close d : approx st (call (h_onClose h1) (h_ptr_data h1) d) (call (h_onClose h2) (h_ptr_data h2) d);
  ha_ready d :
    approx st (call (h_onSocketReady h1) (h_ptr_data h1) d) (call (h_onSocketReady h2) (h_ptr_data h2) d);
  ha_tun d : approx st (call (h_onTunReady h1) (h_ptr_data h1) d) (call (h_onTunReady h2) (h_ptr_data h2) d)
}.
#[local] Hint Resolve ha_close ha_ready ha_tun : approx.

Section Handlers.
Context {D} (h1 h2 : NetworkQueueHandler D W) (Hh : handler_approx h1 h2).

Lemma process_step_approx p : approx st (process_step h1 p) (process_step h2 p).
Proof. unfold process_step. approx. Qed.

#[local] Hint Resolve process_step_approx : approx.

Lemma process_approx n m p : fuel_le st n m → approx st (process h1 n p) (process h2 m p).
Proof.
  intros Hle. revert p. eapply (approx_fuel st (process h1) (process h2)); [done..| |done].
  clear n m Hle. intros n m _ IH p. cbn [Nat.add process]. approx.
Qed.

#[local] Hint Resolve process_approx : approx.

Lemma handle_event_approx n m closed ev :
  fuel_le st n m → approx st (handle_event h1 n closed ev) (handle_event h2 m closed ev).
Proof. intros Hle. unfold handle_event. approx. Qed.

#[local] Hint Resolve handle_event_approx : approx.

Lemma handle_events_approx n m closed evs :
  fuel_le st n m → approx st (handle_events h1 n closed evs) (handle_events h2 m closed evs).
Proof.
  intros Hle. revert closed. induction evs as [|ev evs IH]; intros closed; cbn [handle_events]; approx.
Qed.

#[local] Hint Resolve handle_events_approx : approx.

Lemma wait_and_process_approx n m :
  fuel_le st n m → approx st (wait_and_process h1 n) (wait_and_process h2 m).
Proof. intros Hle. unfold wait_and_process. approx. Qed.
End Handlers.

(** ** Dispatchers *)

Section Dispatch.
Context `{Messages}.

(** The virtual handlers, compared. *)
Record dispatch_approx (d1 d2 : Dispatch W) : Prop := {
  da_close data : approx st (d_onClose d1 data) (d_onClose d2 data);
  da_tun data : approx st (d_onTunReady d1 data) (d_onTunReady d2 data);
  da_heartbeat data : approx st (d_onHeartbeat d1 data) (d_onHeartbeat d2 data);
  da_switch_mip data msg : approx st (d_onSwitchMIP d1 data msg) (d_onSwitchMIP d2 data msg);
  da_agent_mip data msg : approx st (d_onAgentMIP d1 data msg) (d_onAgentMIP d2 data msg);
  da_connect data msg : approx st (d_onConnectToSwitch d1 data msg) (d_onConnectToSwitch d2 data msg);
  da_auth data msg : approx st (d_onAuthConnectToSwitch d1 data msg) (d_onAuthConnectToSwitch d2 data msg);
  da_token data msg :
    approx st (d_onAgentConnectionToken d1 data msg) (d_onAgentConnectionToken d2 data msg);
  da_accepted data msg :
    approx st (d_onConnectionAccepted d1 data msg) (d_onConnectionAccepted d2 data msg);
  da_mrp data msg : approx st (d_onAgentMRP d1 data msg) (d_onAgentMRP d2 data msg)
}.
#[local] Hint Resolve da_close da_tun da_heartbeat da_switch_mip da_agent_mip da_connect da_auth da_token
  da_accepted da_mrp : approx.

Lemma makeNetworkQueueHandler_approx d1 d2 :
  dispatch_approx d1 d2 →
  handler_approx (makeNetworkQueueHandler (Some d1)) (makeNetworkQueueHandler (Some d2)).
Proof.
  intros Hd. split; intros d; cbn [call h_onClose h_onSocketReady h_onTunReady h_ptr_data
    makeNetworkQueueHandler dispatch_on_close dispatch_on_socket_ready dispatch_on_tun_ready]; [approx| |approx].
  unfold Dispatch_onSocketReady, parse_and_call. approx.
Qed.

(** A dispatcher approximates itself. *)
Lemma dispatch_approx_refl d : dispatch_approx d d.
Proof. by split. Qed.
End Dispatch.

(** ** The blocking helpers *)

Lemma write_loop_approx n m sock bs total :
  fuel_le st n m → approx (S := W) st (write_loop n sock bs total) (write_loop m sock bs total).
Proof.
  intros Hle. revert total. eapply (approx_fuel st (λ n, write_loop n sock bs) (λ n, write_loop n sock bs));
    [done..| |done].
  clear n m Hle. intros n m _ IH total. cbn [Nat.add write_loop]. approx.
Qed.

Lemma read_loop_approx n m sock len acc :
  fuel_le st n m → approx (S := W) st (read_loop n sock len acc) (read_loop m sock len acc).
Proof.
  intros Hle. revert acc. eapply (approx_fuel st (λ n, read_loop n sock len) (λ n, read_loop n sock len));
    [done..| |done].
  clear n m Hle. intros n m _ IH acc. cbn [Nat.add read_loop]. approx.
Qed.

#[local] Hint Resolve write_loop_approx read_loop_approx : approx.

Lemma send_protobuf_packet_approx `{Message T} n m sock type (msg : T) :
  fuel_le st n m →
  approx (S := W) st (send_protobuf_packet n sock type msg) (send_protobuf_packet m sock type msg).
Proof. intros Hle. unfold send_protobuf_packet, write_n_bytes. approx. Qed.

Lemma read_n_bytes_approx n m sock len :
  fuel_le st n m → approx (S := W) st (read_n_bytes n sock len) (read_n_bytes m sock len).
Proof. intros Hle. unfold read_n_bytes. approx. Qed.

#[local] Hint Resolve read_n_bytes_approx : approx.

Lemma read_header_approx n m sock :
  fuel_le st n m → approx (S := W) st (read_header n sock) (read_header m sock).
Proof. intros Hle. unfold read_header. approx. Qed.

#[local] Hint Resolve read_header_approx : approx.

(** The fuel of the loop is also that of the reads in it. *)
Lemma fuel_le_S n m : fuel_le st n m → fuel_le st (S n) (S m).
Proof. destruct st; cbn; lia. Qed.

Lemma skip_heartbeats_approx n m sock hdr :
  fuel_le st n m → approx (S := W) st (skip_heartbeats n sock hdr) (skip_heartbeats m sock hdr).
Proof.
  intros Hle. revert hdr. eapply (approx_fuel st (λ n, skip_heartbeats n sock) (λ n, skip_heartbeats n sock));
    [done..| |done].
  clear n m Hle. intros n m Hle IH hdr. apply fuel_le_S in Hle as HleS. cbn [Nat.add skip_heartbeats]. approx.
Qed.

#[local] Hint Resolve skip_heartbeats_approx : approx.

Lemma read_protobuf_packet_approx `{Message T} n m sock type :
  fuel_le st n m →
  approx (S := W) st (read_protobuf_packet (T := T) n sock type) (read_protobuf_packet m sock type).
Proof. intros Hle. unfold read_protobuf_packet. approx. Qed.
End Monotone.

#[export] Hint Resolve send_packet_approx send_heartbeat_approx wait_and_process_approx
  makeNetworkQueueHandler_approx send_protobuf_packet_approx read_protobuf_packet_approx : approx.
