(* ===== verification/EventLoop.v ===== *)
(** * Composing the operations of a program

    What the programs build their main functions from, as triples over the
    invariant of the queue and of the handlers' state ([QueueInv.owns]): sends
    on the queue, the typed handlers of a dispatcher, the blocking helpers used
    before the queue exists, and the construction of the queue. *)
From stdpp Require Import base option list gmap sets.
From Stdlib Require Import ZArith Lia.
From S2P Require Import Prelude Bytes Kernel Protocol Framing Inet Proto NetQueue Heap ReadPath.
From S2P Require Import WritePath QueueInv SocketUtils Dispatch.

#[local] Open Scope Z_scope.

Section EventLoop.
Context `{HostOrder} `{Inet} `{K : Kernel} `{KL : !KernelLaws K} `{Malloc} `{NodeAlloc} `{Messages} {A : Type}.
Abbreviation W := (@World K A).
Implicit Types (p : loc) (w : W) (e : NetworkElement) (k : kernel) (m : gmap Z loc).

Section Invariant.
Context (I : A → gmap loc (option loc) → Prop).

(** ** Sending on the queue *)

(** These reach no undefined behaviour: [allowed] is arbitrary. *)

Lemma send_direct_owns {allowed} m fd p fuel data total :
  m !! fd = Some p → hoare allowed (owns I m) (send_direct fuel fd p data total) (λ _, owns I m).
Proof.
  intros Hm. revert total. induction fuel as [|fuel IH]; intros total; [by intros w Hw|]. intros w Ho.
  destruct (owns_element I m w fd p Ho Hm) as (e&He&Hfd). pose proof Ho as Ho0.
  rewrite <-(at_element_self p w e) by done. cbn [send_direct].
  pose proof (wf_elements _ (proj1 Ho) p e He) as Hwf.
  destruct (_ <? _); [|by rewrite at_element_self].
  destruct (sys_write fd (drop (Z.to_nat total) data) (kern w)) as [r k'] eqn:Hw.
  pose proof (write_interest _ _ _ _ _ Hw) as Hi. erewrite bind_at by by apply syscall_at.
  assert (∀ e', element_wf e' → el_fd e' = el_fd e ∧ el_ptr e' = el_ptr e →
    owns I m (at_element p w k' e')) as Hk by (intros; by eapply owns_at; eauto using interest_at).
  destruct r as [r|[]]; [| |by apply IH, Hk|by apply Hk].
  { destruct (r =? 0); [by apply Hk|by apply IH, Hk]. }
  destruct (_ <? _).
  - erewrite bind_at by apply update_at. by apply Hk; [apply element_wf_error; auto|].
  - erewrite bind_at by apply update_at.
    destruct (rearm_at I m w p k' (with_write_buffer (drop (Z.to_nat total) data) 0 e) true true false)
      as (b&k2&E&Ho'); [by apply Hk|].
    cbn [el_fd with_write_buffer] in E. rewrite Hfd in E. by erewrite bind_at by apply E.
Qed.

(** A send keeps everything but the element's output. *)
Lemma send_owns {allowed} m fuel fd data : hoare allowed (owns I m) (send fuel fd data) (λ _, owns I m).
Proof.
  intros w Ho. unfold send. erewrite (bind_ret (get_network_element_from_fd fd)) by reflexivity.
  destruct (fd_to_network_element (queue w) !! fd) as [p|] eqn:Hp; [|done].
  assert (owns I (fd_to_network_element (queue w)) w) as Hall by (destruct Ho as (?&_&?); by split_and!).
  match goal with |- match ?c w with _ => _ end =>
    enough (hoare allowed (owns I (fd_to_network_element (queue w))) c
      (λ _, owns I (fd_to_network_element (queue w)))) as Hs;
      [specialize (Hs w Hall); destruct (c w) as [[b w']| | |]; try done|]
  end.
  { apply (owns_mono I (fd_to_network_element (queue w)) m w'); [apply Ho|done]. }
  eapply hoare_bind; [by eapply deref_owns|]. intros e.
  eapply hoare_conseq with (P' := owns I _) (Q' := λ _, owns I _); [|by intros ? (?&_)|by intros ? ?].
  apply hoare_if; intros _; [by apply send_direct_owns|].
  apply hoare_if; intros _.
  - eapply hoare_bind; [eapply (update_owns I _ fd); [done|]|intros []; by apply hoare_ret].
    intros e' Hwf. split; [apply element_wf_error; auto|done].
  - eapply hoare_bind; [by eapply (update_owns I _ fd)|intros []; by apply hoare_ret].
Qed.

#[local] Hint Resolve send_owns : triples.

Lemma send_packet_owns {allowed} m fuel fd type body :
  hoare allowed (owns I m) (send_packet fuel fd type body) (λ _, owns I m).
Proof. unfold send_packet. triple. Qed.

Lemma send_heartbeat_owns {allowed} m fuel fd :
  hoare allowed (owns I m) (NetQueue.send_heartbeat fuel fd) (λ _, owns I m).
Proof. apply send_owns. Qed.

(** Reading the clock. *)
Lemma steady_clock_owns m w :
  owns I m w → ∃ now k, syscall sys_steady_clock w = Ret (now, set_kern k w) ∧ owns I m (set_kern k w).
Proof.
  intros (Hwf&Hm&HI). pose proof (sys_steady_clock_ok (kern w)) as Hk. unfold syscall.
  destruct (sys_steady_clock (kern w)) as [now k]. cbn in Hk. exists now, k. split; [done|].
  split; [|done]. apply set_kern_wf; [done|]. unfold same_reg_at. by rewrite Hk.
Qed.

(** Accepting a connection: its descriptor is not the queue's. *)
Lemma accept_owns m w listener :
  owns I m w → ∃ r k, syscall (sys_accept4 listener) w = Ret (r, set_kern k w) ∧
    owns I m (set_kern k w) ∧
    ∀ fd, r = Some fd → fd ≠ epoll_fd (queue w) ∧ fd_to_network_element (queue w) !! fd = None.
Proof.
  intros (Hwf&Hm&HI). unfold syscall. destruct (sys_accept4 listener (kern w)) as [r k] eqn:E.
  pose proof (sys_accept4_ok _ _ _ _ E) as Hs. exists r, k. split; [done|].
  inversion Hs as [fd bs e Hpos Hn Hi Hni E1 Hv|E1 Hv]; subst; (split; [split; [|done]|]).
  - apply set_kern_wf; [done|]. unfold same_reg_at. rewrite <-Hv. split; [done|cbn; set_solver].
  - intros fd' [= <-]. split; [|by rewrite <-(wf_interest _ Hwf)].
    intros ->. by destruct Hn; apply wf_epoll_open.
  - apply set_kern_wf; [done|]. unfold same_reg_at. by rewrite <-Hv.
  - done.
Qed.

(** A call that registers, opens and closes nothing. *)
Lemma syscall_owns {allowed R} m (f : kernel → R * kernel) :
  (∀ k, same_reg k (f k).2) → hoare allowed (owns I m) (syscall f) (λ _, owns I m).
Proof.
  intros Hf w (Hwf&Hm&HI). unfold syscall. specialize (Hf (kern w)). destruct (f (kern w)) as [r k].
  split; [|done]. by apply set_kern_wf, interest_at.
Qed.

(** Packets written to a socket directly. *)
Lemma write_loop_owns {allowed} m fuel sock bs total :
  hoare allowed (owns I m) (write_loop fuel sock bs total) (λ _, owns I m).
Proof.
  revert total. induction fuel as [|fuel IH]; intros total; [by intros w _|]. cbn [write_loop].
  apply hoare_if; intros _; [|by apply hoare_ret]. eapply hoare_bind.
  { apply syscall_owns. intros k. destruct (sys_write _ _ k) as [r k'] eqn:E. by eapply write_interest. }
  intros [r|[]]; [|apply IH..|by apply hoare_ret]. apply hoare_if; intros _; [by apply hoare_ret|apply IH].
Qed.

#[local] Hint Resolve write_loop_owns : triples.

Lemma send_protobuf_packet_owns {allowed} m fuel sock type `{Message T} (msg : T) :
  hoare allowed (owns I m) (send_protobuf_packet fuel sock type msg) (λ _, owns I m).
Proof. unfold send_protobuf_packet, write_n_bytes. triple. Qed.

(** Changing the handlers' state. *)
Lemma set_app_owns m w a : owns I m w → I a (user_data w) → owns I m (set_app a w).
Proof. intros (Hwf&Hm&_) HI. split; [by apply set_app_wf|done]. Qed.

(** Closing a descriptor that is not in the queue. *)
Lemma real_close_owns m w fd :
  owns I m w → fd ≠ epoll_fd (queue w) → fd_to_network_element (queue w) !! fd = None →
  ∃ k, real_close fd w = Ret ((), set_kern k w) ∧ owns I m (set_kern k w).
Proof.
  intros ([Hreg Hown Hint Hep Hopen Hel]&Hm&HI) Hne Hfd. exists (sys_close fd (kern w)). split; [done|].
  split; [|done]. split; try done; cbn; rewrite sys_close_ok.
  - rewrite interest_of_set_closed by done. rewrite Hint. by apply delete_id.
  - cbn. set_solver.
Qed.

(** Adding a descriptor to the queue, with a user pointer the invariant allows. *)
Lemma put_sck_owns w fd data :
  owns I ∅ w → fd ≠ epoll_fd (queue w) →
  (∀ q, user_data w !! q = None → I (app w) (<[q := data]> (user_data w))) →
  ∃ r w', put_sck fd data w = Ret (r, w') ∧ owns I ∅ w' ∧ app w' = app w ∧
    epoll_fd (queue w') = epoll_fd (queue w) ∧
    match r with
    | Some q => user_data w !! q = None ∧ user_data w' = <[q := data]> (user_data w)
    | None => queue w' = queue w
    end.
Proof.
  intros (Hwf&_&HI) Hne Hdata.
  destruct (put_run w fd data SCK_HEADER Hwf Hne (or_introl eq_refl))
    as [(p&k&E&_&Hp&Hwf')|(k&E&Hwf')].
  - assert (user_data w !! p = None) as Hud by (unfold user_data; by rewrite lookup_fmap, Hp).
    assert (user_data (put_world fd p (NetworkElement_new fd data SCK_HEADER) k w) =
      <[p := data]> (user_data w)) as E' by (unfold user_data; cbn; by rewrite fmap_insert).
    exists (Some p), (put_world fd p (NetworkElement_new fd data SCK_HEADER) k w).
    split; [done|]. split; [|done]. split_and!; [done|apply map_empty_subseteq|].
    rewrite E'. by apply Hdata.
  - exists None, (set_kern k w). split; [done|]. split; [|done].
    split_and!; [done|apply map_empty_subseteq|done].
Qed.

(** ** The handlers of a dispatcher *)

(** What [handler_keeps] asks of the virtual handlers: each keeps the
    invariants, the close handler giving up the element's user pointer. *)
Definition keeps_data {T} (g : socket_data → T → M W ()) : Prop := ∀ m data msg,
  m !! sd_fd data = Some (sd_net_element data) →
  hoare overflow_only (λ w, owns I m w ∧ user_data w !! sd_net_element data = Some (sd_ptr_data data))
    (g data msg) (λ _, owns I m).

Record dispatch_keeps (d : Dispatch W) : Prop := {
  dk_close m data : m !! cd_fd data = Some (cd_net_element data) →
    hoare overflow_only (λ w, owns I m w ∧ user_data w !! cd_net_element data = Some (cd_ptr_data data))
      (d_onClose d data)
      (λ _ w, queue_wf w ∧ m ⊆ fd_to_network_element (queue w) ∧
        I (app w) (delete (cd_net_element data) (user_data w)));
  dk_tun m data : m !! td_fd data = Some (td_net_element data) →
    hoare overflow_only (owns I m) (d_onTunReady d data) (λ _, owns I m);
  dk_heartbeat : keeps_data (λ data (_ : ()), d_onHeartbeat d data);
  dk_switch_mip : keeps_data (d_onSwitchMIP d);
  dk_agent_mip : keeps_data (d_onAgentMIP d);
  dk_connect : keeps_data (d_onConnectToSwitch d);
  dk_auth : keeps_data (d_onAuthConnectToSwitch d);
  dk_token : keeps_data (d_onAgentConnectionToken d);
  dk_accepted : keeps_data (d_onConnectionAccepted d);
  dk_mrp : keeps_data (d_onAgentMRP d)
}.

(** A handler that does nothing. *)
Lemma keeps_data_nothing T : keeps_data (λ _ (_ : T), mret ()).
Proof. intros m data msg _. apply hoare_ret. by intros w [? _]. Qed.

Lemma parse_and_call_keeps m data e `{Message T} (g : socket_data → T → M W ()) :
  keeps_data g → m !! sd_fd data = Some (sd_net_element data) →
  sd_packet_buffer data = mk_buffer_ptr (sd_net_element data) PACKET_HEADER_SIZE →
  0 ≤ sd_payload_size data →
  PACKET_HEADER_SIZE + sd_payload_size data ≤ Z.of_nat (length (net_buffer e)) →
  hoare overflow_only (λ w, owns I m w ∧ elements (queue w) !! sd_net_element data = Some e ∧
      el_ptr e = sd_ptr_data data)
    (parse_and_call data g) (λ _, owns I m).
Proof.
  intros Hg Hm Hbuf Hpos Hlen w (Ho&He&Hptr). pose proof (wf_elements _ (proj1 Ho) _ _ He) as (_&Hmax&_).
  unfold PACKET_HEADER_SIZE, NET_BUFFER_SIZE in *. unfold parse_and_call. cbv zeta.
  rewrite int32_small by lia. rewrite Hbuf.
  assert (∃ bs, load_buffer (mk_buffer_ptr (sd_net_element data) 6) (sd_payload_size data) w = Ret (bs, w))
    as [bs E].
  { rewrite <-(at_element_self (sd_net_element data) w e) by done. eexists.
    apply load_buffer_at; lia. }
  erewrite bind_ret by apply E. destruct (ParseFromArray bs _) as [msg|]; [|done].
  apply (Hg m data msg Hm). split; [done|]. unfold user_data. by rewrite lookup_fmap, He, <-Hptr.
Qed.

(** The bridge to the queue keeps what the virtual handlers keep. *)
Lemma makeNetworkQueueHandler_keeps d :
  dispatch_keeps d → handler_keeps I (makeNetworkQueueHandler (Some d)).
Proof.
  intros Hd. split; (eexists; split; [reflexivity|]); intros m data Hm; cbn [h_ptr_data makeNetworkQueueHandler].
  - by apply (dk_close d Hd).
  - intros w (Ho&e&He&Hptr&Hbuf&Hpos&Hlen).
    assert (user_data w !! sd_net_element data = Some (sd_ptr_data data)) as Hud.
    { unfold user_data. by rewrite lookup_fmap, He, <-Hptr. }
    assert (∀ T (M0 : Message T) (g : socket_data → T → M W ()), keeps_data g →
      match parse_and_call data g w with
      | Ret (_, w') => owns I m w' | Undef u => overflow_only u | _ => True
      end) as Hpc by (intros T M0 g Hg; by apply (parse_and_call_keeps m data e g)).
    unfold dispatch_on_socket_ready, Dispatch_onSocketReady. cbv zeta.
    repeat match goal with |- context [if ?b then _ else _] => destruct b end;
      [|by apply Hpc, Hd..|done].
    by apply (dk_heartbeat d Hd m data () Hm).
  - by apply (dk_tun d Hd).
Qed.
End Invariant.

(** ** Before the queue exists *)

(** The handlers' state is [a]; the descriptors of [s] are open and have
    accepted the given bytes. *)
Definition opened (s : gmap Z (list Byte.byte)) (a : A) w : Prop :=
  app w = a ∧ ∀ fd out, s !! fd = Some out →
    fd ∈ open_fds (view (kern w)) ∧ tx_of (view (kern w)) fd = out.

(** The effects on the open descriptors and their output. *)
Definition same_out k k' : Prop :=
  open_fds (view k') = open_fds (view k) ∧ tx (view k') = tx (view k).

Section Startup.
Context (allowed : ub → Prop) (a : A).

Lemma syscall_opened {R} s (f : kernel → R * kernel) :
  (∀ k, same_out k (f k).2) → hoare allowed (opened s a) (syscall f) (λ _, opened s a).
Proof.
  intros Hf w [Ha Hs]. unfold syscall. destruct (Hf (kern w)) as [Ho Ht]. destruct (f (kern w)) as [r k].
  cbn in Ho, Ht. split; [done|]. intros fd out Hfd. unfold tx_of. cbn. rewrite Ho, Ht. by apply Hs.
Qed.

Lemma quiet_out k k' : quiet (view k) (view k') → same_out k k'.
Proof. by intros (?&_&?). Qed.

Lemma read_out fd n k : 0 ≤ n → same_out k (sys_read fd n k).2.
Proof.
  intros Hn. destruct (sys_read fd n k) as [r k'] eqn:E. cbn. destruct (packets (view k) !! fd) eqn:Hp.
  - assert (tun_read_spec fd n (view k) r (view k')) as Hs by (apply sys_read_tun_ok; [done|by rewrite Hp|done]).
    unfold same_out. by inversion Hs.
  - pose proof (sys_read_ok _ _ _ _ _ Hn Hp E) as Hs. unfold same_out. by inversion Hs.
Qed.

Lemma read_n_bytes_opened s fuel sock n :
  hoare allowed (opened s a) (read_n_bytes fuel sock n) (λ _, opened s a).
Proof.
  unfold read_n_bytes. generalize (@nil Byte.byte). induction fuel as [|fuel IH]; intros acc; [by intros w Hw|].
  cbn [read_loop]. cbv zeta. destruct (_ <? _); [|by apply hoare_ret].
  eapply hoare_bind; [apply syscall_opened; intros k; apply read_out, uint_in_width; lia|].
  intros [[|b bs]|[]]; first [by apply hoare_ret|apply IH].
Qed.

(** A packet sent: the socket took its frame, or a prefix when the call fails. *)
Lemma send_protobuf_packet_opened s out fuel sock type `{Message T} (msg : T) :
  s !! sock = Some out →
  hoare allowed (opened s a) (send_protobuf_packet fuel sock type msg)
    (λ b w, b = true → ∃ body, SerializeToString msg = Some body ∧
       opened (<[sock := out ++ frame (type, body)]> s) a w).
Proof.
  intros Hsock w [Ha Hs]. destruct (Hs sock out Hsock) as [Hin Htx].
  destruct (send_protobuf_packet_run sock w type msg fuel) as [-> |[[_ ->]|(body&b&bs&k&Hser&E&Hw)]];
    [done|done|]. rewrite E. intros ->. exists body. split; [done|].
  destruct Hw as ([_ Hall]&Htx2&Hne&Ho). rewrite (proj1 Hall) in Htx2 by done.
  split; [done|]. intros fd out'. cbn. rewrite lookup_insert_Some.
  intros [[<- <-]|[Hfd Hout]]; rewrite Ho; [by rewrite Htx2, Htx|].
  rewrite Hne by done. by apply Hs.
Qed.

#[local] Hint Resolve read_n_bytes_opened : triples.

Lemma read_header_opened s fuel sock :
  hoare allowed (opened s a) (read_header fuel sock) (λ _, opened s a).
Proof. unfold read_header. triple. Qed.

#[local] Hint Resolve read_header_opened : triples.

Lemma skip_heartbeats_opened s fuel sock hdr :
  hoare allowed (opened s a) (skip_heartbeats fuel sock hdr) (λ _, opened s a).
Proof.
  revert hdr. induction fuel as [|fuel IH]; intros hdr; [by intros w Hw|]. cbn [skip_heartbeats].
  apply hoare_if; intros _; [|by apply hoare_ret]. cbv zeta.
  eapply (hoare_bind _ _ _ (λ _, opened s a)).
  { apply hoare_if; intros _; [|by apply hoare_ret].
    eapply hoare_bind; [apply read_n_bytes_opened|]. intros r. by apply hoare_ret. }
  intros ok. apply hoare_if; intros _; [by apply hoare_ret|].
  eapply hoare_bind; [apply read_header_opened|]. intros [hdr'|]; [apply IH|by apply hoare_ret].
Qed.

#[local] Hint Resolve skip_heartbeats_opened : triples.

Lemma read_protobuf_packet_opened s fuel sock type `{Message T} :
  hoare allowed (opened s a) (read_protobuf_packet (T := T) fuel sock type) (λ _, opened s a).
Proof. unfold read_protobuf_packet. triple. Qed.

Lemma set_nonblocking_opened s fd :
  hoare allowed (opened s a) (set_nonblocking fd) (λ _, opened s a).
Proof.
  unfold set_nonblocking. eapply hoare_bind; [apply syscall_opened; intros k; apply quiet_out, sys_getfl_ok|].
  intros flags. triple_step; [triple|].
  eapply hoare_bind; [apply syscall_opened; intros k; apply quiet_out, sys_setfl_ok|]. intros r. triple.
Qed.

(** A descriptor that [connect_to] returns was not open before; nothing was
    sent on it. *)
Definition newly_opened (s : gmap Z (list Byte.byte)) (fd : Z) w : Prop :=
  if 0 <=? fd then s !! fd = None ∧ opened (<[fd := []]> s) a w else opened s a w.

Lemma socket_opened s :
  hoare allowed (opened s a) (syscall sys_socket) (λ r w, match r with
    | Some fd => 0 ≤ fd ∧ s !! fd = None ∧ opened (<[fd := []]> s) a w | None => opened s a w end).
Proof.
  intros w [Ha Hs]. unfold syscall. destruct (sys_socket (kern w)) as [r k] eqn:E.
  pose proof (sys_socket_ok _ _ _ E) as Hk.
  inversion Hk as [fd bs e Hpos Hn Hi Hni E1 Hv|E1 Hv]; subst; [|by split; [|cbn; rewrite <-Hv]].
  assert (s !! fd = None) as Hfd.
  { destruct (s !! fd) as [out|] eqn:Hfd; [|done]. by destruct Hn, (Hs fd out). }
  split; [done|]. split; [done|]. split; [done|]. intros fd' out. cbn. rewrite <-Hv. unfold tx_of; cbn.
  rewrite lookup_insert_Some. intros [[<- <-]|[Hne Hout]].
  - rewrite lookup_insert_eq. split; [set_solver|done].
  - rewrite lookup_insert_ne by done. destruct (Hs fd' out Hout) as [? <-]. split; [set_solver|done].
Qed.

Lemma close_new_opened s fd :
  s !! fd = None → hoare allowed (opened (<[fd := []]> s) a) (real_close fd) (λ _, opened s a).
Proof.
  intros Hfd w [Ha Hs]. split; [done|]. intros fd' out Hout.
  assert (fd ≠ fd') as Hne by congruence. cbn. rewrite sys_close_ok. unfold tx_of; cbn.
  rewrite lookup_delete_ne by done.
  destruct (Hs fd' out) as [? <-]; [by rewrite lookup_insert_ne|]. split; [set_solver|done].
Qed.

Lemma connect_to_opened s mc :
  hoare allowed (opened s a) (connect_to mc) (newly_opened s).
Proof.
  unfold connect_to. eapply hoare_bind; [apply syscall_opened; intros k; apply quiet_out, sys_getaddrinfo_ok|].
  intros [addr|]; [|by apply hoare_ret].
  eapply hoare_bind; [apply socket_opened|]. intros [fd|]; [|by apply hoare_ret].
  intros w (Hpos&Hfd&Ho). revert w Ho.
  eapply (hoare_bind _ (opened (<[fd := []]> s) a)).
  { apply syscall_opened; intros k; apply quiet_out, sys_connect_ok. }
  intros b. apply hoare_if; intros _.
  - apply hoare_ret. intros w Ho. unfold newly_opened. by rewrite (proj2 (Z.leb_le _ _)) by done.
  - eapply hoare_bind; [by apply close_new_opened|]. intros []. by apply hoare_ret.
Qed.

End Startup.

(** The constructor of the queue, on the programs' handlers. *)
Lemma NetQueue_new_owns I s a (d : Dispatch W) timeout :
  I a ∅ →
  hoare overflow_only (opened s a) (NetQueue_new (makeNetworkQueueHandler (Some d)) timeout)
    (λ _ w, owns I ∅ w ∧ app w = a ∧ s !! epoll_fd (queue w) = None ∧ 0 ≤ epoll_fd (queue w)).
Proof.
  intros HI w [Ha Hs]. unfold NetQueue_new. cbn [h_onClose h_onSocketReady h_onTunReady makeNetworkQueueHandler].
  destruct (sys_epoll_create1 (kern w)) as [r k] eqn:E.
  erewrite (bind_ret (syscall _)) by (unfold syscall; by rewrite E).
  pose proof (sys_epoll_create1_ok _ _ _ E) as Hk.
  inversion Hk as [fd bs e Hpos Hn Hi Hni E1 Hv|E1 Hv]; subst; [|done].
  rewrite (proj2 (Z.ltb_ge _ _)) by done. cbn. split_and!; [split_and!|done| |done].
  - split; cbn; try done.
    + rewrite <-Hv. unfold interest_of; cbn. by rewrite Hi.
    + rewrite <-Hv. cbn. set_solver.
  - done.
  - unfold user_data; cbn. by rewrite fmap_empty.
  - destruct (s !! fd) as [out|] eqn:Hfd; [|done]. by destruct Hn, (Hs fd out).
Qed.

(** A packet sent past the queue, on a descriptor the queue has a write buffer for, overtakes the
    buffered bytes: it lands in the middle of the connection's output, and so of a frame that was
    written in part. *)
Theorem direct_send_overtakes_buffer w w' p e type `{Message T} (msg : T) body fuel :
  elements (queue w) !! p = Some e → SerializeToString msg = Some body →
  send_protobuf_packet fuel (el_fd e) type msg w = Ret (true, w') →
  elements (queue w') !! p = Some e ∧ output e (kern w) = tx_of (view (kern w)) (el_fd e) ++ pending e ∧
  output e (kern w') = tx_of (view (kern w)) (el_fd e) ++ frame (type, body) ++ pending e.
Proof.
  intros He Hser E.
  destruct (send_protobuf_packet_run (el_fd e) w type msg fuel) as [E'|[[_ E']|(body'&b&bs&k&Hser'&E'&[[_ Hall] [Htx _]])]];
    rewrite E in E'; try done. injection E' as <- ->. simplify_eq. rewrite (proj1 Hall) in Htx by done.
  split_and!; [done|done|]. unfold output. cbn [kern set_kern]. by rewrite Htx, <-app_assoc.
Qed.
End EventLoop.
