(* ===== verification/Progress.v ===== *)
(** * The event loop makes progress

    Total correctness of [wait_and_process]: when the pending input of every
    element is a stream of packets that fit the receive buffer and that does
    not end inside a payload ([calm]), and the handlers return, having done no
    more to the queue than send on it ([responsive]), a turn of the event loop
    returns, within a fuel that covers the pending bytes, a full write buffer
    and the signals, and leaves the queue calm.  [spared] says what an
    operation on some descriptors leaves alone; [Relay] is the dispatcher's
    side: the typed handlers that are [responsive]. *)
From stdpp Require Import base option list gmap sets.
From Stdlib Require Import ZArith Lia.
From S2P Require Import Prelude Bytes Kernel Protocol Framing Inet NetQueue ReadPath WritePath QueueInv Proto Dispatch.
From S2P Require Import SocketUtils EventLoop.

#[local] Open Scope Z_scope.

(** ** What an operation on one descriptor leaves alone *)

(** The input of the descriptor [fd] is the same. *)
Definition same_input (fd : Z) (v v' : kview) : Prop :=
  rx_of v' fd = rx_of v fd ∧ end_of v' fd = end_of v fd ∧ packets v' !! fd = packets v !! fd.

(** At most the input of the descriptors [fds] changed. *)
Definition only_input (fds : gset Z) (v v' : kview) : Prop :=
  (∀ fd, fd ∉ fds → same_input fd v v') ∧ (signals v' ≤ signals v)%nat.

#[export] Instance only_input_preorder fds : PreOrder (only_input fds).
Proof.
  split.
  - by intros v.
  - intros v1 v2 v3 [H1 S1] [H2 S2]. split; [|lia]. intros fd Hfd.
    destruct (H1 fd Hfd) as (?&?&?), (H2 fd Hfd) as (?&?&?). split_and!; congruence.
Qed.

Lemma only_input_weaken fds v v' : only_input ∅ v v' → only_input fds v v'.
Proof. intros [Hv Hs]. split; [|done]. intros fd _. apply Hv. set_solver. Qed.

Section Calls.
Context `{K : Kernel} `{KL : !KernelLaws K}.

Lemma read_only_input fd n k r k' :
  0 ≤ n → sys_read fd n k = (r, k') → only_input {[fd]} (view k) (view k').
Proof.
  intros Hn Hr.
  assert (read_spec fd n (view k) r (view k') ∨ tun_read_spec fd n (view k) r (view k')) as Hs.
  { destruct (packets (view k) !! fd) eqn:Hp.
    - right. apply sys_read_tun_ok; [done|by rewrite Hp|done].
    - left. by apply sys_read_ok. }
  destruct Hs as [Hs|Hs]; inversion Hs; subst; (split; [|done]);
    intros fd' Hfd'%not_elem_of_singleton; split_and!; try done;
    unfold rx_of; cbn; by rewrite lookup_insert_ne.
Qed.

Lemma write_only_input fd bs k r k' :
  sys_write fd bs k = (r, k') → only_input ∅ (view k) (view k').
Proof.
  intros Hw. pose proof (sys_write_ok _ _ _ _ _ Hw) as Hs.
  inversion Hs as [| |n Hn|]; subst; (split; [done|]); cbn; lia.
Qed.

Lemma ctl_only_input ep op fd ev k b k' :
  sys_epoll_ctl ep op fd ev k = (b, k') → only_input ∅ (view k) (view k').
Proof.
  intros Hc. pose proof (sys_epoll_ctl_ok _ _ _ _ _ _ _ Hc) as Hs. by inversion Hs; subst.
Qed.

Lemma close_only_input fd k : only_input {[fd]} (view k) (view (sys_close fd k)).
Proof.
  rewrite sys_close_ok. split; [|done]. intros fd' Hfd'%not_elem_of_singleton.
  unfold same_input, rx_of, end_of; cbn. by rewrite !lookup_delete_ne.
Qed.
End Calls.

(** The kind of undefined behaviour is left to the other lemmas. *)
Definition any_ub (u : ub) : Prop := True.

(** The parts of an element that the read path leaves alone, and those that
    the write path does: a send that overflows the write buffer marks the
    element. *)
Definition same_writes (e e' : NetworkElement) : Prop :=
  el_fd e' = el_fd e ∧ write_buffer e' = write_buffer e ∧ write_buffer_offset e' = write_buffer_offset e.
Definition same_reads (e e' : NetworkElement) : Prop :=
  el_fd e' = el_fd e ∧ net_buffer e' = net_buffer e ∧ net_buffer_used e' = net_buffer_used e ∧
  (el_state e' = el_state e ∨ el_state e' = SCK_ERROR).

#[export] Instance same_reads_preorder : PreOrder same_reads.
Proof.
  split.
  - intros e. split_and!; auto.
  - intros e1 e2 e3 (?&?&?&Hs) (?&?&?&Hs'). split_and!; [congruence..|].
    destruct Hs' as [Hs'|]; [destruct Hs; [left|right]; congruence|by right].
Qed.

Section Progress.
Context `{HostOrder} `{K : Kernel} `{KL : !KernelLaws K} `{Malloc} `{NodeAlloc} {A D : Type}.
Abbreviation W := (@World K A).
Implicit Types (p : loc) (w : W) (e : NetworkElement) (k : kernel) (n fuel : nat).

Lemma at_element_inj p w w' k e k' e' : at_element p w k e = at_element p w' k' e' → k = k' ∧ e = e'.
Proof.
  intros Heq. split; [exact (f_equal kern Heq)|].
  apply (f_equal (λ w, elements (queue w) !! p)) in Heq. cbn in Heq. rewrite !lookup_insert_eq in Heq. congruence.
Qed.

(** [w'] comes from [w] by operations on the descriptors [fds]: the input of the
    others is the same, no element is new. *)
Definition spared (fds : gset Z) w w' : Prop :=
  only_input fds (view (kern w)) (view (kern w')) ∧
  ∀ p e', elements (queue w') !! p = Some e' →
    ∃ e, elements (queue w) !! p = Some e ∧ el_fd e' = el_fd e ∧ (el_fd e ∉ fds → same_reads e e').

#[export] Instance spared_preorder fds : PreOrder (spared fds).
Proof.
  split.
  - intros w. split; [done|]. intros p e' He. by exists e'.
  - intros w1 w2 w3 [K1 E1] [K2 E2]. split; [by etrans|]. intros p e3 He3.
    destruct (E2 p e3 He3) as (e2&He2&Hfd&Hr). destruct (E1 p e2 He2) as (e1&He1&Hfd'&Hr').
    exists e1. split; [done|]. split; [congruence|]. intros Hn. etrans; [by apply Hr'|]. apply Hr. by rewrite Hfd'.
Qed.

Lemma spared_weaken fds w w' : spared ∅ w w' → spared fds w w'.
Proof.
  intros [Hk He]. split; [by apply only_input_weaken|]. intros p e' Hp. destruct (He p e' Hp) as (e&?&?&Hr).
  exists e. split; [done|]. split; [done|]. intros _. by apply Hr.
Qed.

Lemma spared_at fds p w k e e' :
  elements (queue w) !! p = Some e → only_input fds (view (kern w)) (view k) → el_fd e' = el_fd e →
  (el_fd e ∉ fds → same_reads e e') → spared fds w (at_element p w k e').
Proof.
  intros He Hk Hfd Hr. split; [done|]. intros q e1. cbn. rewrite lookup_insert_Some.
  intros [[<- <-]|[_ Hq]]; [by exists e|by exists e1].
Qed.

(** [w] is [w0] after calls that changed the element at [p], as [R] allows, and
    at most the input of [fds]. *)
Definition around p e0 w0 (R : NetworkElement → NetworkElement → Prop) (fds : gset Z) w : Prop :=
  ∃ e k, w = at_element p w0 k e ∧ R e0 e ∧ only_input fds (view (kern w0)) (view k).

Section Around.
Context p e0 w0 (R : NetworkElement → NetworkElement → Prop) (fds : gset Z).
Abbreviation arnd := (around p e0 w0 R fds).

Lemma around_start : elements (queue w0) !! p = Some e0 → R e0 e0 → arnd w0.
Proof. intros He Hr. exists e0, (kern w0). by rewrite at_element_self. Qed.

Lemma around_deref : hoare any_ub arnd (deref p) (λ e w, arnd w ∧ R e0 e).
Proof. intros w (e&k&->&He&Hk). rewrite deref_at. split; [by exists e, k|done]. Qed.

Lemma around_update f : (∀ e, R e0 e → R e0 (f e)) → hoare any_ub arnd (update p f) (λ _, arnd).
Proof. intros Hf w (e&k&->&He&Hk). rewrite update_at. exists (f e), k. auto. Qed.

Lemma around_syscall {T} (f : kernel → T * kernel) :
  (∀ k r k', f k = (r, k') → only_input fds (view k) (view k')) →
  hoare any_ub arnd (syscall f) (λ _, arnd).
Proof.
  intros Hf w (e&k&->&He&Hk). destruct (f k) as [r k'] eqn:E. erewrite syscall_at by exact E.
  exists e, k'. split_and!; [done..|]. etrans; [exact Hk|by eapply Hf].
Qed.

Lemma around_ctl op fd ev : hoare any_ub arnd (epoll_ctl op fd ev) (λ _, arnd).
Proof.
  intros w Hw. unfold epoll_ctl. revert Hw. apply around_syscall.
  intros k r k' E. by apply only_input_weaken; eapply ctl_only_input.
Qed.

Lemma around_write fd bs : hoare any_ub arnd (syscall (sys_write fd bs)) (λ _, arnd).
Proof. apply around_syscall. intros k r k' E. by apply only_input_weaken; eapply write_only_input. Qed.

(** The relation holds of the element found there at the end. *)
Lemma around_at {T} P (m : M W T) w k e a :
  hoare any_ub P m (λ _, arnd) → P w → m w = Ret (a, at_element p w0 k e) →
  R e0 e ∧ only_input fds (view (kern w0)) (view k).
Proof.
  intros Hm Hw E. specialize (Hm w Hw). rewrite E in Hm. destruct Hm as (e1&k1&Heq&Hr&Hk).
  by destruct (at_element_inj _ _ _ _ _ _ _ Heq) as [<- <-].
Qed.
End Around.

#[local] Hint Resolve around_ctl around_write : triples.

Lemma around_load_header p e0 w0 R fds :
  hoare any_ub (around p e0 w0 R fds) (load_header p) (λ _, around p e0 w0 R fds).
Proof.
  intros w Hw. unfold load_header, load_buffer, deref, mbind, M_bind. cbn [buf_element].
  destruct (elements (queue w) !! p); [|done]. by destruct (_ <? _).
Qed.

#[local] Hint Resolve around_load_header : triples.

(** ** Reading *)

Section Read.
Context (handler : NetworkQueueHandler D W) p e0 w0.
Abbreviation reads := (around p e0 w0 same_writes {[el_fd e0]}).

Lemma reads_update f : (∀ e, same_writes e (f e)) → hoare any_ub reads (update p f) (λ _, reads).
Proof.
  intros Hf. apply around_update. intros e (?&?&?). destruct (Hf e) as (?&?&?). split_and!; congruence.
Qed.

Lemma reads_read_into off len : 0 ≤ len → hoare any_ub reads (read_into p (el_fd e0) off len) (λ _, reads).
Proof.
  intros Hlen. unfold read_into. eapply hoare_bind.
  { apply around_syscall. intros k r k' E. by eapply read_only_input. }
  intros [bs|err]; [|by apply hoare_ret]. eapply hoare_bind; [apply around_deref|]. intros e.
  apply hoare_if; intros _; [done|]. apply hoare_if; intros _; [done|].
  apply (hoare_bind _ _ _ (λ _, reads)); [|intros; by apply hoare_ret].
  eapply hoare_conseq; [apply (reads_update (with_net_buffer _)); by intros|by intros w []|by intros].
Qed.

Lemma reads_maybe (b : bool) f :
  (∀ e, same_writes e (f e)) → hoare any_ub reads (if b then update p f else mret ()) (λ _, reads).
Proof. intros Hf. destruct b; [by apply reads_update|by apply hoare_ret]. Qed.

#[local] Hint Extern 1 (hoare _ _ (update _ _) _) => (apply reads_update; by intros) : triples.
#[local] Hint Extern 1 (hoare _ _ (if _ then update _ _ else _) _) => (apply reads_maybe; by intros) : triples.

(** A step that receives calls no handler. *)
Lemma process_step_reads :
  elements (queue w0) !! p = Some e0 → el_state e0 = SCK_HEADER ∨ el_state e0 = SCK_PAYLOAD →
  hoare any_ub (λ w, w = w0) (process_step handler p) (λ _, reads).
Proof.
  intros He Hst w ->. assert (reads w0) as Hw by by apply around_start.
  unfold process_step. erewrite bind_ret by (unfold deref; by rewrite He). unfold set_state.
  assert (∀ z, 0 ≤ u64 z) as Hu by (intros z; apply uint_in_width; lia).
  assert (∀ T (m : M W T), hoare any_ub reads m (λ _, reads) →
    match m w0 with Ret (a, w') => reads w' | Throw _ => True | Undef u => any_ub u | OutOfFuel => True end) as Happ
    by (intros T m Hm; by apply Hm).
  destruct Hst as [-> | ->]; apply Happ; clear Hw Happ; cbv zeta; repeat first
    [ progress triple
    | eapply hoare_bind; [apply reads_read_into; (apply Hu || done)|intros [|[]]] ].
Qed.
End Read.

(** ** Calm elements *)

(** The element reads a stream of packets that fit and that does not end
    inside a payload, or it has stopped reading. *)
Definition reads_well e k : Prop :=
  el_state e = SCK_EOF ∨ el_state e = SCK_ERROR ∨ (in_stream e k ∧ ¬ stuck e k).

(** The largest write that is expected of a handler, beyond the write buffer. *)
Context (most : Z).

(** The write buffer is in order, [fuel] is enough to flush it or to send as
    much, and [n] more flushes do not bring its offset near an overflow. *)
Record writes_well n fuel e k : Prop := {
  ww_sendable : sendable e;
  ww_size : write_buffer_offset e + Z.of_nat n * WRITE_BUFFER_MAX < 2 ^ 62;
  ww_fuel : Z.max WRITE_BUFFER_MAX most + Z.of_nat (signals (view k)) + 1 ≤ Z.of_nat fuel
}.

(** [fuel] is enough for the reads and the writes of the element. *)
Record calm n fuel e k : Prop := {
  calm_reads : reads_well e k;
  calm_input : (3 * length (rx_of (view k) (el_fd e)) + 5 ≤ fuel)%nat;
  calm_writes : writes_well n fuel e k
}.

Definition calm_queue n fuel w : Prop := ∀ p e, elements (queue w) !! p = Some e → calm n fuel e (kern w).
Definition roomy n fuel w : Prop := ∀ p e, elements (queue w) !! p = Some e → writes_well n fuel e (kern w).

Lemma calm_roomy n fuel w : calm_queue n fuel w → roomy n fuel w.
Proof. intros Hc p e He. by destruct (Hc p e He). Qed.

Lemma writes_well_same n fuel e e' k k' :
  same_writes e e' → (signals (view k') ≤ signals (view k))%nat → writes_well n fuel e k → writes_well n fuel e' k'.
Proof.
  intros (_&Hb&Ho) Hs [[W1 W2 W3] Hz Hf]. unfold pending in *.
  split; [split; unfold pending|..]; rewrite ?Hb, ?Ho; (done || lia).
Qed.

Lemma writes_well_weaken n n' fuel e k : (n' ≤ n)%nat → writes_well n fuel e k → writes_well n' fuel e k.
Proof. intros Hn [Hs Hz Hf]. unfold WRITE_BUFFER_MAX in *. split; [done|unfold WRITE_BUFFER_MAX; lia|done]. Qed.

Lemma calm_weaken n n' fuel w : (n' ≤ n)%nat → calm_queue n fuel w → calm_queue n' fuel w.
Proof. intros Hn Hc p e He. destruct (Hc p e He). split; [done..|by eapply writes_well_weaken]. Qed.

Lemma reads_well_same e e' k k' :
  same_reads e e' → same_input (el_fd e) (view k) (view k') → reads_well e k → reads_well e' k'.
Proof.
  intros (Hfd&Hbuf&Hu&Hst) (Hrx&Hend&Hpk) Hr. destruct Hst as [Hst|]; [|by right; left].
  assert (unread e' k' = unread e k) as Hun by (unfold unread, buffered; by rewrite Hfd, Hbuf, Hu, Hrx).
  unfold reads_well, stuck. rewrite Hst, Hun, Hfd, Hend. destruct Hr as [?|[?|[[[R1 R2 R3] Hs Hf] Hns]]]; auto.
  right. right. split; [|done]. split; [|by rewrite Hfd, Hpk|by rewrite Hun].
  split; rewrite ?Hst; unfold header_size in *; by rewrite ?Hbuf, ?Hu.
Qed.

(** What was spared and can still write is as calm as it was. *)
Lemma spared_calm n n' fuel fds w w' :
  spared fds w w' → calm_queue n fuel w → roomy n' fuel w' →
  (∀ p e, elements (queue w') !! p = Some e → el_fd e ∈ fds →
     reads_well e (kern w') ∧ (3 * length (rx_of (view (kern w')) (el_fd e)) + 5 ≤ fuel)%nat) →
  calm_queue n' fuel w'.
Proof.
  intros [[Hk _] He] Hc Hr Hfds p e' Hp. pose proof (Hr p e' Hp) as Hw.
  destruct (decide (el_fd e' ∈ fds)) as [Hin|Hout]; [by destruct (Hfds p e' Hp Hin)|].
  destruct (He p e' Hp) as (e&Hpe&Hfd&Hsame). rewrite Hfd in Hout. destruct (Hc p e Hpe) as [R I _].
  pose proof (Hk _ Hout) as Hin. split; [by eapply reads_well_same; [apply Hsame|..]| |done].
  by rewrite Hfd, (proj1 Hin).
Qed.

Lemma spared_nothing n n' fuel w w' : spared ∅ w w' → calm_queue n fuel w → roomy n' fuel w' → calm_queue n' fuel w'.
Proof. intros Hs Hc Hr. eapply spared_calm; [done..|]. by intros ? ? _ ?%elem_of_empty. Qed.

(** A new element is calm when its stream is. *)
Lemma fresh_calm n fuel fd data k :
  packets (view k) !! fd = None → fits (rx_of (view k) fd) → end_of (view k) fd = Open →
  (3 * length (rx_of (view k) fd) + 5 ≤ fuel)%nat → Z.of_nat n ≤ 2 ^ 40 →
  Z.max WRITE_BUFFER_MAX most + Z.of_nat (signals (view k)) + 1 ≤ Z.of_nat fuel →
  calm n fuel (NetworkElement_new fd data SCK_HEADER) k.
Proof.
  intros Hp Hfit Hend Hlen Hn Hf. unfold NetworkElement_new, WRITE_BUFFER_MAX in *. split; el_cbn; [|done|].
  - right. right. split; [split; [|done|exact Hfit]|].
    + split; unfold PACKET_HEADER_SIZE, NET_BUFFER_SIZE; el_cbn; cbn; lia.
    + unfold stuck; el_cbn. rewrite Hend. by intros [? _].
  - split; unfold WRITE_BUFFER_MAX; el_cbn; [|lia..]. split; unfold pending, WRITE_BUFFER_MAX; el_cbn; rewrite ?drop_nil; cbn; lia.
Qed.

(** *** A step of the loop *)

(** An upper bound on the steps left. *)
Definition steps_left e k : nat :=
  match el_state e with SCK_EOF | SCK_ERROR => 0 | _ => S (potential e k) end.

Lemma stuck_summary e k e' k' :
  el_fd e' = el_fd e → end_of (view k') (el_fd e) = end_of (view k) (el_fd e) →
  (split_frames (unread e' k')).2 = (split_frames (unread e k)).2 → stuck e' k' → stuck e k.
Proof. intros Hfd Hend Hs. unfold stuck. by rewrite Hfd, Hend, Hs. Qed.

(** What a step that does not call the handler leaves at [e']. *)
Definition received e k (b : bool) e' k' : Prop :=
  el_fd e' = el_fd e ∧ reads_well e' k' ∧
  (length (rx_of (view k') (el_fd e)) ≤ length (rx_of (view k) (el_fd e)))%nat ∧
  (b = false → (steps_left e' k' < steps_left e k)%nat).

Lemma received_progress e k e' k' (f : A → packet → A) a :
  in_stream e k → ¬ stuck e k → progress f a e k a e' k' → received e k false e' k'.
Proof.
  intros Hin Hns (Hin'&Hfd&Hend&Hsum&Hpot).
  assert (¬ stuck e' k') as Hns'.
  { intros Hs. apply Hns. eapply stuck_summary; [done..| |exact Hs].
    unfold summary in Hsum. destruct (split_frames _), (split_frames _). by simplify_eq. }
  assert (∀ e k, in_stream e k → steps_left e k = S (potential e k)) as Hsteps.
  { intros e1 k1 [[_ _ Hst] _ _]. unfold steps_left. by destruct (el_state e1). }
  split; [done|]. split; [by right; right|]. split; [|intros _; rewrite !Hsteps by done; lia].
  unfold potential in Hpot. rewrite Hfd in Hpot. destruct (el_state e), (el_state e'); lia.
Qed.

Section Steps.
Context (handler : NetworkQueueHandler D W).

Lemma step_receiving p w e :
  elements (queue w) !! p = Some e → in_stream e (kern w) → ¬ stuck e (kern w) → el_state e ≠ SCK_READY →
  ∃ b e' k', process_step handler p w = Ret (b, at_element p w k' e') ∧ received e (kern w) b e' k'.
Proof.
  intros He Hin Hns Hnr. pose proof (at_element_self p w e He) as Hw.
  destruct (decide (drained e (kern w))) as [Hd|Hd].
  - destruct (process_step_drained handler p w e (kern w) Hin (proj1 Hd) (proj2 Hd)) as (k'&Hv&E). rewrite Hw in E.
    destruct (drained_unread e (kern w) Hin Hd) as [Hsp Hh].
    assert (reads_well e k') as Hself.
    { eapply reads_well_same; [reflexivity| |by right; right]. by rewrite Hv. }
    assert (0 < steps_left e (kern w))%nat as Hpos.
    { destruct Hin as [[_ _ Hst] _ _]. unfold steps_left. destruct (el_state e); done || lia. }
    rewrite E. clear E. destruct (end_of (view (kern w)) (el_fd e)) eqn:Hend.
    + exists true, e, k'. unfold received. by rewrite Hv.
    + assert (el_state e = SCK_HEADER) as Hst.
      { apply Hh. destruct (decide (length (buffered e) < 6)%nat); [done|]. exfalso. apply Hns.
        split; [done|]. rewrite Hsp. cbn. lia. }
      rewrite Hst. exists false, (with_state SCK_EOF e), k'. unfold received. rewrite Hv.
      split_and!; try done; by left.
    + exists false, (with_state SCK_ERROR e), k'. unfold received. rewrite Hv.
      split_and!; try done; by right; left.
  - destruct (el_state e) eqn:Hst; try (by destruct Hin as [[_ _ Hs] _ _]; rewrite Hst in Hs).
    + destruct (process_step_header handler p (λ a _, a) (app w) w e (kern w) Hin Hst) as (e'&k'&E&Hp).
      { intros E. apply Hd. split; [done|by left]. }
      rewrite Hw in E. exists false, e', k'. split; [done|]. by eapply received_progress.
    + destruct (process_step_payload handler p (λ a _, a) (app w) w e (kern w) Hin Hst) as (e'&k'&E&Hp).
      { destruct (decide (rx_of (view (kern w)) (el_fd e) = [])) as [E|]; [right|by left].
        destruct (decide (net_buffer_used e = PACKET_HEADER_SIZE + header_size e)); [done|].
        exfalso. apply Hd. split; [done|]. right. split; [done|]. destruct Hin as [[_ _ Hs] _ _]. rewrite Hst in Hs. lia. }
      rewrite Hw in E. exists false, e', k'. split; [done|]. by eapply received_progress.
Qed.
End Steps.

(** *** The loop *)

(** From [P], [m] returns, having done no more to the queue than send on it. *)
Definition sends_only {T} n fuel (P : W → Prop) (m : M W T) : Prop := ∀ w, P w → roomy n fuel w →
  ∃ a w', m w = Ret (a, w') ∧ spared ∅ w w' ∧ roomy n fuel w'.

(** The element of [d] holds its packet. *)
Definition holds_packet (d : socket_data) w : Prop := ∃ e, elements (queue w) !! sd_net_element d = Some e ∧
  el_ptr e = sd_ptr_data d ∧ sd_packet_buffer d = mk_buffer_ptr (sd_net_element d) PACKET_HEADER_SIZE ∧
  0 ≤ sd_payload_size d ∧ PACKET_HEADER_SIZE + sd_payload_size d ≤ Z.of_nat (length (net_buffer e)).

Section Handlers.
Context (I : A → gmap loc (option loc) → Prop) (handler : NetworkQueueHandler D W) (fuel : nat).

(** The call to [onClose] returns, having changed the handlers' state only. *)
Definition closes : Prop :=
  ∃ g, h_onClose handler = Some g ∧ ∀ d w,
    queue_wf w → I (app w) (user_data w) → user_data w !! cd_net_element d = Some (cd_ptr_data d) →
    ∃ a, g (h_ptr_data handler) d w = Ret ((), set_app a w).

(** The handlers return. *)
Record responsive : Prop := {
  resp_close : closes;
  resp_ready : ∃ g, h_onSocketReady handler = Some g ∧ ∀ n m d, m !! sd_fd d = Some (sd_net_element d) →
    sends_only n fuel (λ w, owns I m w ∧ holds_packet d w) (g (h_ptr_data handler) d)
}.

Context (Hkeeps : handler_keeps I handler) (Hresp : responsive).

(** The invariant of the queue and of the handlers, in a calm queue. *)
Definition good n (m : gmap Z loc) w : Prop := owns I m w ∧ calm_queue n fuel w.

Lemma good_element n m fd p w :
  good n m w → m !! fd = Some p → ∃ e, elements (queue w) !! p = Some e ∧ el_fd e = fd ∧ calm n fuel e (kern w).
Proof.
  intros [Ho Hc] Hm. destruct (owns_element I m w fd p Ho Hm) as (e&He&Hfd). exists e. split_and!; [done..|by apply (Hc p)].
Qed.

Lemma good_weaken n n' m w : (n' ≤ n)%nat → good n m w → good n' m w.
Proof. intros Hn [Ho Hc]. split; [done|by eapply calm_weaken]. Qed.

(** A packet handed to the handler. *)
Lemma step_ready n m fd p w e :
  good n m w → m !! fd = Some p → elements (queue w) !! p = Some e → el_fd e = fd →
  in_stream e (kern w) → ¬ stuck e (kern w) → el_state e = SCK_READY →
  ∃ w' e', process_step handler p w = Ret (false, w') ∧ elements (queue w') !! p = Some e' ∧
    received e (kern w) false e' (kern w') ∧ spared {[fd]} w w' ∧ roomy n fuel w'.
Proof.
  intros [Ho Hc] Hm He <- Hin Hns Hst. pose proof (parse_ready e (kern w) Hin Hst) as Hp.
  destruct Hin as [Hr Hs Hf]. pose proof (rcv_state _ Hr) as Hsz. rewrite Hst in Hsz.
  pose proof (stream_size_bound (net_buffer e)) as [Hz _]. fold (header_size e) in Hz.
  destruct (load_header_at p w (kern w) e) as (Hload&Hsize&Htype); [pose proof (rcv_used _ Hr); lia|].
  rewrite at_element_self in Hload by done.
  destruct (resp_ready Hresp) as (g&Hg&Hret).
  set (d := mk_socket_data p (el_ptr e) (el_fd e) (stream_type (net_buffer e)) (mk_buffer_ptr p PACKET_HEADER_SIZE)
    (header_size e) (mk_buffer_ptr p 0) (net_buffer_used e)).
  assert (holds_packet d w) as Hd by (exists e; pose proof (rcv_used _ Hr); split_and!; try done; cbn; lia).
  destruct (Hret n m d Hm w (conj Ho Hd) (calm_roomy _ _ _ Hc)) as ([]&w1&E1&Hsp1&Hr1).
  destruct (keeps_onSocketReady _ _ Hkeeps) as (g'&Hg'&Hkeep). assert (g' = g) as -> by congruence.
  pose proof (Hkeep m d Hm w (conj Ho Hd)) as Ho1. rewrite E1 in Ho1.
  destruct (owns_element I m w1 _ p Ho1 Hm) as (e1&He1&Hfd1).
  destruct (proj2 Hsp1 p e1 He1) as (e0&He0&_&Hsame). assert (e0 = e) as -> by congruence.
  destruct (Hsame (not_elem_of_empty _)) as (_&Hnb&Hused&_).
  destruct (proj1 (proj1 Hsp1) (el_fd e) (not_elem_of_empty _)) as (Hrx&Hend&Hpk).
  set (e2 := with_state SCK_HEADER (with_used 0 e1)).
  exists (at_element p w1 (kern w1) e2), e2.
  assert (unread e2 (kern w1) = rx_of (view (kern w)) (el_fd e)) as Hun
    by (unfold unread, e2; el_cbn; rewrite Hfd1, Hrx; reflexivity).
  split; [|split; [by cbn; rewrite lookup_insert_eq|split; [|split]]].
  - unfold process_step. erewrite bind_ret by (unfold deref; by rewrite He). rewrite Hst.
    erewrite bind_ret by exact Hload. rewrite Hsize, Htype, Hg. cbn [call]. erewrite bind_ret by exact E1.
    rewrite <-(at_element_self p w1 e1) at 1 by done.
    erewrite bind_at by apply update_at. by erewrite bind_at by apply update_at.
  - cbn [kern at_element set_element set_queue set_kern]. split; [done|]. split; [|split].
    + right. right. split; [split|].
      * split; unfold PACKET_HEADER_SIZE, e2; el_cbn; rewrite ?Hnb; pose proof (rcv_used _ Hr); pose proof (rcv_size _ Hr); lia.
      * unfold e2; el_cbn. by rewrite Hfd1, Hpk.
      * rewrite Hun. by eapply fits_tail in Hp.
      * intros Hs2. apply Hns. apply (stuck_summary e _ e2 (kern w1) Hfd1 Hend); [|exact Hs2].
        rewrite Hun, (split_frames_some _ _ _ Hp). by destruct (split_frames _).
    + by rewrite Hrx.
    + intros _. unfold steps_left, potential, e2; el_cbn. rewrite Hst, Hfd1, Hrx. lia.
  - etrans; [apply spared_weaken; exact Hsp1|]. eapply spared_at; [done|done|done|]. intros Hn. exfalso. apply Hn.
    apply elem_of_singleton. congruence.
  - intros q e3. cbn. rewrite lookup_insert_Some. intros [[<- <-]|[_ Hq]]; [|by apply (Hr1 q)].
    by apply (writes_well_same n fuel e1 _ (kern w1)); [..|apply (Hr1 p)].
Qed.

(** The element that received is as calm as before. *)
Lemma received_good n m fd p w w' e e' b :
  good n m w → m !! fd = Some p → elements (queue w) !! p = Some e →
  owns I m w' → elements (queue w') !! p = Some e' → received e (kern w) b e' (kern w') →
  spared {[fd]} w w' → roomy n fuel w' → good n m w'.
Proof.
  intros Hg Hm He Ho' He' (Hfd&Hr&Hrx&_) Hsp Hro. split; [done|].
  destruct (good_element n m fd p w Hg Hm) as (e0&He0&<-&[_ Hi _]). assert (e0 = e) as -> by congruence.
  eapply spared_calm; [exact Hsp|apply Hg|done|]. intros q e1 Hq Hin%elem_of_singleton.
  assert (q = p) as ->.
  { pose proof (wf_owned _ (proj1 Ho') _ _ Hq). pose proof (wf_owned _ (proj1 Ho') _ _ He'). congruence. }
  assert (e1 = e') as -> by congruence. split; [done|]. rewrite Hfd. lia.
Qed.

Lemma roomy_at n n' w p k e e' :
  roomy n fuel w → (n' ≤ n)%nat → (signals (view k) ≤ signals (view (kern w)))%nat →
  elements (queue w) !! p = Some e → writes_well n' fuel e' k → roomy n' fuel (at_element p w k e').
Proof.
  intros Hr Hn Hs He Hw q e1. cbn. rewrite lookup_insert_Some. intros [[<- <-]|[_ Hq]]; [done|].
  eapply writes_well_same; [|exact Hs|eapply writes_well_weaken; [exact Hn|by apply (Hr q)]]. done.
Qed.

Lemma step_good n m fd p w e :
  good n m w → m !! fd = Some p → elements (queue w) !! p = Some e →
  ∃ b w', process_step handler p w = Ret (b, w') ∧ good n m w' ∧
    (b = false → ∃ e', elements (queue w') !! p = Some e' ∧ (steps_left e' (kern w') < steps_left e (kern w))%nat).
Proof.
  intros Hg Hm He. destruct (good_element n m fd p w Hg Hm) as (e0&He0&Hfd&Hc). assert (e0 = e) as -> by congruence.
  pose proof (process_step_owns I handler Hkeeps m fd p Hm w (proj1 Hg)) as Ho.
  destruct (calm_reads _ _ _ _ Hc) as [Hst|[Hst|[Hin Hns]]];
    [exists true, w; split; [unfold process_step; erewrite bind_ret by (unfold deref; by rewrite He); by rewrite Hst|done]..|].
  destruct (decide (el_state e = SCK_READY)) as [Hst|Hnr].
  - destruct (step_ready n m fd p w e Hg Hm He Hfd Hin Hns Hst) as (w'&e'&E&He'&Hrec&Hsp&Hro).
    rewrite E in Ho. exists false, w'. split; [done|]. split; [by eapply received_good|].
    intros _. exists e'. split; [done|by apply Hrec].
  - destruct (step_receiving handler p w e He Hin Hns Hnr) as (b&e'&k'&E&Hrec). rewrite E in Ho.
    assert (el_state e = SCK_HEADER ∨ el_state e = SCK_PAYLOAD) as Hst
      by (destruct Hin as [[_ _ Hst] _ _]; destruct (el_state e); auto; done).
    destruct (around_at _ _ _ _ _ _ _ _ _ _ _ (process_step_reads handler p e w He Hst) eq_refl E) as [Hsame Hk].
    exists b, (at_element p w k' e'). split; [done|].
    assert (elements (queue (at_element p w k' e')) !! p = Some e') as He' by (cbn; by rewrite lookup_insert_eq).
    split; [|intros Hb; exists e'; split; [done|by apply Hrec]].
    eapply received_good; [exact Hg|done|done|done|done|exact Hrec| |].
    + rewrite <-Hfd. eapply spared_at; [done..|apply Hsame|]. intros []. by apply elem_of_singleton.
    + eapply roomy_at; [by apply calm_roomy, Hg|done|apply Hk|done|].
      eapply writes_well_same; [done|apply Hk|apply Hc].
Qed.

(** Reading consumes the input and leaves the queue calm. *)
Lemma process_good n m fd p : m !! fd = Some p → total (good n m) (process handler fuel p) (λ _, good n m).
Proof.
  intros Hm w Hg. destruct (good_element n m fd p w Hg Hm) as (e&He&Hfd&[_ Hi _]).
  assert (steps_left e (kern w) < fuel)%nat as Hf by (unfold steps_left, potential; destruct (el_state e); lia).
  clear Hi. exists (). revert w e Hg He Hfd Hf. generalize fuel as f.
  induction f as [|f IH]; intros w e Hg He Hfd Hf; [lia|].
  destruct (step_good n m fd p w e Hg Hm He) as (b&w1&E&Hg1&Hdec). destruct b.
  { exists w1. by erewrite process_return by exact E. }
  destruct (Hdec eq_refl) as (e1&He1&Hlt). destruct (good_element n m fd p w1 Hg1 Hm) as (?&?&Hfd1&_). simplify_eq.
  destruct (IH w1 e1) as (w2&E2&Hg2); [done..|lia|]. exists w2. by erewrite process_continue by exact E.
Qed.

(** ** Writing *)

(** The part of the element that a write changes. *)
Lemma around_reads_update p e0 w0 f :
  (∀ e, el_fd (f e) = el_fd e ∧ net_buffer (f e) = net_buffer e ∧ net_buffer_used (f e) = net_buffer_used e ∧
     el_state (f e) = el_state e) →
  hoare any_ub (around p e0 w0 same_reads ∅) (update p f) (λ _, around p e0 w0 same_reads ∅).
Proof.
  intros Hf. apply around_update. intros e He. etrans; [exact He|]. destruct (Hf e) as (?&?&?&?). split_and!; auto.
Qed.

#[local] Hint Extern 1 (hoare _ _ (update _ _) _) => (apply around_reads_update; by intros) : triples.

Lemma flush_reads f p e0 w0 :
  hoare any_ub (around p e0 w0 same_reads ∅) (flush_write_buffer f p) (λ _, around p e0 w0 same_reads ∅).
Proof.
  induction f as [|f IH]; [done|]. cbn [flush_write_buffer].
  eapply hoare_bind; [apply around_deref|]. intros e w [Hw _]. revert w Hw. cbv zeta.
  apply hoare_if; intros _.
  - eapply hoare_bind; [apply around_write|]. intros [r|[]]; try by apply hoare_ret. 2: exact IH.
    apply hoare_if; intros _; [by apply hoare_ret|].
    eapply hoare_bind; [by apply around_reads_update|]. intros []. exact IH.
  - eapply hoare_bind; [by apply around_reads_update|]. intros []. triple.
Qed.

Lemma flush_good n m fd p :
  m !! fd = Some p → total (good (S n) m) (flush_write_buffer fuel p) (λ _, good n m).
Proof.
  intros Hm w Hg. destruct (good_element _ m fd p w Hg Hm) as (e&He&Hfd&[_ _ [Hs Hz Hf]]).
  pose proof (flush_owns I fuel m fd p Hm w (proj1 Hg)) as Ho.
  destruct (flush_at p w e (kern w) fuel Hs) as (b&e'&k'&E&(_&Hfd'&Hs'&Hsig&Hl)&_).
  { pose proof (snd_pending _ Hs). lia. }
  rewrite at_element_self in E by done. rewrite E in Ho.
  destruct (around_at _ _ _ same_reads ∅ _ _ w k' e' b (flush_reads fuel p e w)) as [Hsame Hk];
    [by apply around_start|done|].
  exists b, (at_element p w k' e'). split; [exact E|]. split; [done|].
  eapply spared_nothing; [|apply Hg|]; [by eapply spared_at|].
  eapply roomy_at; [by apply calm_roomy, Hg|lia|done|done|]. split; [done| |lia].
  pose proof (snd_offset _ Hs'). pose proof (snd_pending _ Hs). pose proof (length_pending e Hs). lia.
Qed.

Lemma rearm_good n m fd p e out :
  m !! fd = Some p →
  total (λ w, good n m w ∧ elements (queue w) !! p = Some e)
    (epoll_ctl EPOLL_CTL_MOD (el_fd e) (Some (mk_event true out false false p))) (λ _, good n m).
Proof.
  intros Hm w [Hg He]. assert (owns I m (at_element p w (kern w) e)) as Ho0 by (rewrite at_element_self by done; apply Hg).
  destruct (rearm_at I m w p (kern w) e true out false Ho0) as (b&k'&E&Ho').
  rewrite at_element_self in E by done.
  destruct (around_at _ _ _ eq ∅ _ _ w k' e b
    (around_ctl p e w eq ∅ EPOLL_CTL_MOD (el_fd e) (Some (mk_event true out false false p)))) as [_ Hk];
    [by apply around_start|done|].
  exists b, (at_element p w k' e). split; [exact E|]. split; [done|].
  eapply spared_nothing; [|apply Hg|]; [by eapply spared_at|].
  eapply roomy_at; [by apply calm_roomy, Hg|done|apply Hk|done|].
  eapply writes_well_same; [done|apply Hk|by apply (calm_roomy _ _ _ (proj2 Hg) p)].
Qed.

(** ** Closing *)

Lemma close_spared w p e :
  elements (queue w) !! p = Some e → fd_to_network_element (queue w) !! el_fd e = Some p → queue_wf w →
  ∃ w', close_element (Some p) w = Ret ((), w') ∧ spared {[el_fd e]} w w' ∧
    elements (queue w') = delete p (elements (queue w)).
Proof.
  intros He Hfd Hwf. unfold close_element. erewrite bind_ret by (unfold deref; by rewrite He).
  cbv zeta. erewrite (bind_ret (get_network_element_from_fd _)) by reflexivity.
  rewrite bool_decide_true by done.
  destruct (sys_epoll_ctl (epoll_fd (queue w)) EPOLL_CTL_DEL (el_fd e) None (kern w)) as [b k] eqn:E.
  erewrite (bind_ret (epoll_ctl _ _ _)) by (unfold epoll_ctl, syscall; by rewrite E).
  erewrite (bind_ret (real_close _)) by reflexivity.
  erewrite (bind_ret (delete_element p)) by (unfold delete_element; cbn; by rewrite He).
  eexists. split; [reflexivity|]. split; [|done]. split.
  - cbn. etrans; [apply only_input_weaken; by eapply ctl_only_input|apply close_only_input].
  - intros q e1. cbn. rewrite lookup_delete_Some. intros [_ Hq]. by exists e1.
Qed.

(** The end of [handle_event] on an element that is to be closed. *)
Lemma close_good n m fd p e reason w :
  good n m w → m !! fd = Some p → elements (queue w) !! p = Some e →
  ∃ w', (call (h_onClose handler) (h_ptr_data handler) (mk_close_data p (el_ptr e) (el_fd e) reason);;
    close_element (Some p)) w = Ret ((), w') ∧ calm_queue n fuel w'.
Proof.
  intros Hg Hm He. destruct (good_element n m fd p w Hg Hm) as (e0&He0&Hfd&_). assert (e0 = e) as -> by congruence.
  destruct Hg as [(Hwf&Hsub&HI) Hc]. destruct (resp_close Hresp) as (g&Hg&Hret). rewrite Hg. cbn [call].
  destruct (Hret (mk_close_data p (el_ptr e) (el_fd e) reason) w Hwf HI) as (a&E).
  { cbn. unfold user_data. by rewrite lookup_fmap, He. }
  erewrite bind_ret by exact E.
  destruct (close_spared (set_app a w) p e) as (w'&E'&Hsp&Hel);
    [done|by apply (wf_owned _ Hwf)|by apply set_app_wf|].
  exists w'. split; [exact E'|].
  assert (∀ q e1, elements (queue w') !! q = Some e1 → elements (queue w) !! q = Some e1 ∧ el_fd e1 ≠ el_fd e) as Hrest.
  { intros q e1. rewrite Hel. cbn. rewrite lookup_delete_Some. intros [Hne Hq]. split; [done|]. intros Heq.
    pose proof (wf_owned _ Hwf _ _ Hq). pose proof (wf_owned _ Hwf _ _ He). congruence. }
  assert (calm_queue n fuel (set_app a w)) as Hc' by exact Hc.
  eapply spared_calm; [exact Hsp|exact Hc'| |].
  - intros q e1 Hq. destruct (Hrest q e1 Hq) as [Hq' _].
    eapply writes_well_same; [|apply Hsp|by apply (Hc' q)]. done.
  - intros q e1 Hq Hin%elem_of_singleton. by destruct (Hrest q e1 Hq).
Qed.

(** ** The event loop returns *)

(** The reasons to close an element found by reading, writing and re-arming. *)
Lemma deref_good n m fd p :
  m !! fd = Some p → total (good n m) (deref p) (λ e w, good n m w ∧ elements (queue w) !! p = Some e).
Proof.
  intros Hm w Hg. destruct (good_element n m fd p w Hg Hm) as (e&He&_). exists e, w.
  split; [by unfold deref; rewrite He|done].
Qed.

Lemma read_good n m fd p (b : bool) :
  m !! fd = Some p →
  total (good n m) (if b then process handler fuel p;; e ← deref p; mret (error_reason (el_state e)) else mret None)
    (λ _, good n m).
Proof.
  intros Hm. apply total_if; intros _; [|by apply total_ret].
  eapply total_bind; [by eapply process_good|]. intros [].
  eapply total_bind; [by eapply deref_good|]. intros e. by apply total_ret; intros w1 [? _].
Qed.

Lemma write_good n m fd p (b : bool) (r : option close_reason) :
  m !! fd = Some p →
  total (good (S n) m) (if b then flushed ← flush_write_buffer fuel p; mret (if flushed : bool then r else Some CLOSE_ERROR)
            else mret r) (λ _, good n m).
Proof.
  intros Hm. apply total_if; intros _.
  - eapply total_bind; [by eapply flush_good|]. intros ?. by apply total_ret.
  - apply total_ret. intros w. apply good_weaken. lia.
Qed.

Lemma arm_good n m fd p (r : option close_reason) :
  m !! fd = Some p →
  total (good n m) (match r with
            | Some _ => mret r
            | None =>
              e ← deref p;
              rearmed ← epoll_ctl EPOLL_CTL_MOD (el_fd e)
                (Some (mk_event true (negb (bool_decide (write_buffer e = []))) false false p));
              mret (if rearmed : bool then None else Some CLOSE_EPOLL)
            end) (λ _, good n m).
Proof.
  intros Hm. destruct r; [by apply total_ret|]. eapply total_bind; [by eapply deref_good|]. intros e.
  eapply total_bind; [by eapply rearm_good|]. intros ?. by apply total_ret.
Qed.

Lemma handle_event_good n m fd closed ev :
  m !! fd = Some (ev_ptr ev) →
  total (good (S n) m) (handle_event handler fuel closed ev) (λ _, good n (delete fd m)).
Proof.
  intros Hm. eapply (total_conseq _ (good (S n) m) _ _ (λ _ w, calm_queue n fuel w ∧ owns I (delete fd m) w));
    [|done|by intros ? w [? ?]].
  apply (total_hoare overflow_only _ _ (λ _, calm_queue n fuel)).
  2: { eapply hoare_conseq; [by eapply handle_event_owns|by intros w []|done]. }
  unfold handle_event. cbv zeta. apply total_if; intros _.
  { apply total_ret. intros w [_ Hc]. eapply calm_weaken; [|exact Hc]. lia. }
  eapply total_bind; [by eapply read_good|]. intros r1.
  eapply total_bind; [by eapply write_good|]. intros r2.
  generalize (if ev_hup ev then Some CLOSE_HANGUP else if ev_err ev then Some CLOSE_ERROR else r2). intros r3.
  eapply total_bind; [by eapply arm_good|]. intros [reason|]; [|by apply total_ret; intros w []].
  eapply total_bind; [by eapply deref_good|]. intros e w [Hg He].
  destruct (close_good n m fd (ev_ptr ev) e reason w Hg Hm He) as (w'&E&Hc).
  apply bind_inv in E as ([]&w1&E1&E2). eexists _, w'. split; [|exact Hc].
  erewrite bind_ret by exact E1. by erewrite bind_ret by exact E2.
Qed.

Lemma handle_events_good n evs l m closed :
  NoDup l → Forall2 (λ fd ev, m !! fd = Some (ev_ptr ev)) l evs →
  total (good (length evs + n) m) (handle_events handler fuel closed evs) (λ _, good n ∅).
Proof.
  intros Hnd. revert evs m closed. induction Hnd as [|fd l Hnin Hnd IH]; intros evs m closed Hall.
  - apply Forall2_nil_inv_l in Hall as ->. apply total_ret. intros w [Ho Hc]. split; [|done].
    eapply owns_mono; [apply map_empty_subseteq|exact Ho].
  - apply Forall2_cons_inv_l in Hall as (ev&evs'&Hfd&Hall&->). cbn [handle_events length].
    eapply total_bind; [by eapply handle_event_good|]. intros closed'.
    apply (IH evs' (delete fd m)). eapply events_delete; eauto.
Qed.

(** A turn of the event loop returns when the queue is calm with what has
    arrived by then. *)
Lemma wait_and_process_good w :
  queue_wf w → I (app w) (user_data w) →
  (∀ r k, sys_epoll_wait (epoll_fd (queue w)) EPOLL_MAX_EVENTS (epoll_timeout (queue w)) (kern w) = (r, k) →
     calm_queue (Z.to_nat EPOLL_MAX_EVENTS) fuel (set_kern k w)) →
  ∃ w', wait_and_process handler fuel w = Ret ((), w') ∧ good 0 ∅ w'.
Proof.
  intros Hwf HI Hcalm. unfold wait_and_process.
  erewrite (bind_ret (λ w, Ret (queue w, w))) by reflexivity.
  destruct (sys_epoll_wait (epoll_fd (queue w)) EPOLL_MAX_EVENTS (epoll_timeout (queue w)) (kern w)) as [r k] eqn:E.
  erewrite (bind_ret (syscall _)) by (unfold syscall; by rewrite E). specialize (Hcalm r k eq_refl).
  assert (0 ≤ EPOLL_MAX_EVENTS) as Hmax by (unfold EPOLL_MAX_EVENTS; lia).
  pose proof (sys_epoll_wait_ok _ _ _ _ _ _ Hmax E) as Hs.
  assert (owns I ∅ (set_kern k w)) as Ho1.
  { split; [|by split; [apply map_empty_subseteq|]]. apply set_kern_wf; [done|]. unfold same_reg_at. by inversion Hs. }
  destruct r as [evs|].
  - inversion Hs as [l evs' rx' e' ps Hnd Hlen Hall E1 Hv|]; subst.
    destruct (handle_events_good 0 evs l (fd_to_network_element (queue w)) ∅ Hnd) with (s := set_kern k w)
      as ([]&w'&E'&Hg); [by rewrite <-(wf_interest _ Hwf)| |by exists w'].
    split; [by destruct Ho1 as (?&_&?)|]. eapply calm_weaken; [|exact Hcalm]. lia.
  - exists (set_kern k w). split; [done|]. split; [done|]. eapply calm_weaken; [|exact Hcalm]. lia.
Qed.
End Handlers.

(** ** Sending *)

(** [e] is [e0] after sends: its offset is no larger. *)
Definition appended e0 e : Prop := same_reads e0 e ∧ write_buffer_offset e ≤ write_buffer_offset e0.

Section Send.
Context p e0 w0 (Hoff : 0 ≤ write_buffer_offset e0).
Abbreviation sends := (around p e0 w0 appended ∅).

Lemma sends_update f : (∀ e, appended e0 e → appended e0 (f e)) → hoare any_ub sends (update p f) (λ _, sends).
Proof. apply around_update. Qed.

(** The element gave up: its state is [SCK_ERROR]. *)
Lemma appended_error e : appended e0 e → appended e0 (with_state SCK_ERROR e).
Proof. intros [(?&?&?&_) ?]. split; [|done]. split_and!; auto. Qed.
Lemma appended_buffer e bs off : off ≤ write_buffer_offset e0 → appended e0 e → appended e0 (with_write_buffer bs off e).
Proof. intros Ho [(?&?&?&?) ?]. split; [|done]. by split_and!. Qed.

Lemma send_direct_sends f fd data total :
  hoare any_ub sends (send_direct f fd p data total) (λ _, sends).
Proof.
  revert total. induction f as [|f IH]; intros total; [done|]. cbn [send_direct]. cbv zeta.
  apply hoare_if; intros _; [|by apply hoare_ret].
  eapply hoare_bind; [apply around_write|]. intros [r|[]]; [| |apply IH|by apply hoare_ret].
  { apply hoare_if; intros _; [by apply hoare_ret|apply IH]. }
  apply hoare_if; intros _.
  - eapply hoare_bind; [apply sends_update, appended_error|]. intros []. by apply hoare_ret.
  - eapply hoare_bind; [apply sends_update; intros e; by apply appended_buffer|]. intros [].
    eapply hoare_bind; [apply around_ctl|]. intros ?. by apply hoare_ret.
Qed.

Lemma send_sends f fd data :
  fd_to_network_element (queue w0) !! fd = Some p → elements (queue w0) !! p = Some e0 →
  hoare any_ub (λ w, w = w0) (send f fd data) (λ _, sends).
Proof.
  intros Hfd He. eapply (hoare_conseq _ _ (λ w, sends w ∧ fd_to_network_element (queue w) !! fd = Some p) _ _ (λ _, sends));
    [|intros w ->; split; [apply around_start; [done|split; [reflexivity|lia]]|done]|done].
  unfold send. eapply (hoare_bind _ _ _ (λ r w, sends w ∧ r = Some p)); [by intros w []|].
  intros r w [Hw ->]. revert w Hw. eapply hoare_bind; [apply around_deref|].
  intros e w [Hw [_ He']]. revert w Hw. apply hoare_if; intros _; [apply send_direct_sends|]. cbv zeta.
  apply hoare_if; intros _.
  - eapply hoare_bind; [apply sends_update, appended_error|]. intros []. by apply hoare_ret.
  - eapply hoare_bind; [apply sends_update; intros e1; by apply appended_buffer|]. intros []. by apply hoare_ret.
Qed.
End Send.

Section Answers.
Context (I : A → gmap loc (option loc) → Prop) (n fuel : nat) (m : gmap Z loc).

(** The state of a handler that has only sent on the queue since [w0]. *)
Definition answering w0 w : Prop := owns I m w ∧ spared ∅ w0 w ∧ roomy n fuel w.

Lemma answering_sends_only {T} (P : W → Prop) (g : M W T) :
  (∀ w, P w → owns I m w) → (∀ w0, P w0 → total (λ w, w = w0 ∧ answering w0 w) g (λ _, answering w0)) →
  sends_only n fuel P g.
Proof.
  intros HP Hg w Hw Hr. destruct (Hg w Hw w) as (a&w'&E&_&Hsp&Hr'); [|by exists a, w'].
  split; [done|]. split; [by apply HP|done].
Qed.

Lemma send_answers w0 fd data :
  Z.of_nat (length data) ≤ WRITE_BUFFER_MAX →
  total (answering w0) (send fuel fd data) (λ _, answering w0).
Proof.
  intros Hlen w (Ho&Hsp&Hr). destruct (fd_to_network_element (queue w) !! fd) as [p|] eqn:Hp.
  2: { exists false, w. split; [|done]. unfold send. by erewrite bind_ret by (unfold get_network_element_from_fd; by rewrite Hp). }
  destruct (wf_registered _ (proj1 Ho) fd p Hp) as (e&He&<-). destruct (Hr p e He) as [Hs Hz Hf].
  pose proof (snd_offset _ Hs). pose proof (snd_pending _ Hs). pose proof (length_pending e Hs).
  unfold WRITE_BUFFER_MAX in *.
  destruct (send_at p w e (kern w) data fuel Hp Hs) as (b&e'&k'&bs&E&_&(_&Hfd'&Hs'&Hsig&_)); [lia..|].
  rewrite at_element_self in E by done.
  pose proof (send_owns (allowed := any_ub) I m fuel (el_fd e) data w Ho) as Ho'. rewrite E in Ho'.
  destruct (around_at _ _ _ _ _ _ _ w k' e' b (send_sends p e w ltac:(lia) fuel (el_fd e) data Hp He)) as [[Hsame Hoff] Hk];
    [done|done|].
  exists b, (at_element p w k' e'). split; [exact E|]. split; [exact Ho'|]. split.
  - etrans; [exact Hsp|]. by eapply spared_at.
  - eapply roomy_at; [exact Hr|done|apply Hk|done|]. split; [done|unfold WRITE_BUFFER_MAX; lia|].
    destruct Hk as [_ Hk]. unfold WRITE_BUFFER_MAX. lia.
Qed.

Lemma send_packet_answers w0 fd type body :
  (∀ bs, body = Some bs → Z.of_nat (length bs) ≤ WRITE_BUFFER_MAX) →
  total (answering w0) (send_packet fuel fd type body) (λ _, answering w0).
Proof.
  intros Hlen. unfold send_packet. destruct body as [bs|]; [|by apply total_ret]. cbv zeta.
  eapply total_bind; [apply send_answers; rewrite length_header_bytes; done|]. intros ok.
  apply total_if; intros _; [by apply total_ret|]. apply total_if; intros _; [by apply total_ret|].
  eapply total_bind; [by apply send_answers, Hlen|]. intros ok'.
  apply total_if; intros _; by apply total_ret.
Qed.

(** Reading a clock. *)
Lemma steady_clock_answers w0 : total (answering w0) (syscall sys_steady_clock) (λ _, answering w0).
Proof.
  intros w (Ho&Hsp&Hr). destruct (steady_clock_owns _ _ _ Ho) as (now&k&E&Ho1). exists now, (set_kern k w).
  split; [exact E|]. split; [exact Ho1|]. pose proof (sys_steady_clock_ok (kern w)) as Hk.
  unfold syscall in E. destruct (sys_steady_clock (kern w)) as [now' k']. cbn in Hk. injection E as -> ->.
  split.
  - etrans; [exact Hsp|]. split; [by cbn; rewrite Hk|]. intros p e He. by exists e.
  - intros p e He. eapply writes_well_same; [by split_and!| |by apply (Hr p)]. cbn. by rewrite Hk.
Qed.

(** Changing the handlers' state. *)
Lemma modify_answers w0 (P : W → Prop) (f : A → A) :
  (∀ w, P w → I (f (app w)) (user_data w)) →
  total (λ w, answering w0 w ∧ P w) (modify_app f) (λ _, answering w0).
Proof.
  intros HI w [(Ho&Hsp&Hr) HP]. exists (), (set_app (f (app w)) w). split; [done|].
  split; [by apply set_app_owns, HI|]. split; [|exact Hr]. etrans; [exact Hsp|]. split; [done|].
  intros p e He. by exists e.
Qed.
End Answers.

Lemma heartbeat_answers I n fuel m w0 fd :
  total (answering I n fuel m w0) (NetQueue.send_heartbeat fuel fd) (λ _, answering I n fuel m w0).
Proof. apply send_answers. by rewrite length_header_bytes. Qed.
End Progress.

Create HintDb answers.
#[export] Hint Resolve send_packet_answers steady_clock_answers heartbeat_answers : answers.

(** ** Dispatchers *)

Section Relay.
Context `{HostOrder} `{Inet} `{K : Kernel} `{KL : !KernelLaws K} `{Malloc} `{NodeAlloc} `{Messages} {A : Type}.
Abbreviation W := (@World K A).
Context (I : A → gmap loc (option loc) → Prop) (most : Z) (fuel : nat).
Implicit Types (w : W).

(** What [responsive] asks of a typed handler. *)
Definition answers_data {T} (g : socket_data → T → M W ()) : Prop := ∀ n m data msg,
  m !! sd_fd data = Some (sd_net_element data) →
  sends_only most n fuel (λ w, owns I m w ∧ user_data w !! sd_net_element data = Some (sd_ptr_data data)) (g data msg).

Record dispatch_responsive (d : Dispatch W) : Prop := {
  dr_close data w : queue_wf w → I (app w) (user_data w) →
    user_data w !! cd_net_element data = Some (cd_ptr_data data) → ∃ a, d_onClose d data w = Ret ((), set_app a w);
  dr_heartbeat : answers_data (λ data (_ : ()), d_onHeartbeat d data);
  dr_switch_mip : answers_data (d_onSwitchMIP d);
  dr_agent_mip : answers_data (d_onAgentMIP d);
  dr_connect : answers_data (d_onConnectToSwitch d);
  dr_auth : answers_data (d_onAuthConnectToSwitch d);
  dr_token : answers_data (d_onAgentConnectionToken d);
  dr_accepted : answers_data (d_onConnectionAccepted d);
  dr_mrp : answers_data (d_onAgentMRP d)
}.

(** A handler that does nothing. *)
Lemma answers_nothing T : answers_data (λ _ (_ : T), mret ()).
Proof. intros n m data msg _ w _ Hr. by exists (), w. Qed.

Lemma parse_and_call_answers `{Message T} (g : socket_data → T → M W ()) n m data :
  answers_data g → m !! sd_fd data = Some (sd_net_element data) →
  sends_only most n fuel (λ w, owns I m w ∧ holds_packet data w) (parse_and_call data g).
Proof.
  intros Hg Hm w [Ho (e&He&Hptr&Hbuf&Hpos&Hlen)] Hr. pose proof (wf_elements _ (proj1 Ho) _ _ He) as (_&Hmax&_).
  unfold PACKET_HEADER_SIZE, NET_BUFFER_SIZE in *. unfold parse_and_call. cbv zeta.
  rewrite int32_small by lia. rewrite Hbuf.
  assert (∃ bs, load_buffer (mk_buffer_ptr (sd_net_element data) 6) (sd_payload_size data) w = Ret (bs, w))
    as [bs E].
  { rewrite <-(at_element_self (sd_net_element data) w e) by done. eexists. apply load_buffer_at; lia. }
  unfold sends_only. setoid_rewrite (bind_ret _ _ _ _ _ E).
  destruct (ParseFromArray bs _) as [msg|]; [|by exists (), w].
  apply (Hg n m data msg Hm); [|done]. split; [done|]. unfold user_data. by rewrite lookup_fmap, He, <-Hptr.
Qed.

(** The bridge to the queue answers as the virtual handlers do. *)
Lemma makeNetworkQueueHandler_responsive d :
  dispatch_responsive d → responsive most I (makeNetworkQueueHandler (Some d)) fuel.
Proof.
  intros Hd. split; (eexists; split; [reflexivity|]); cbn [h_ptr_data makeNetworkQueueHandler].
  - intros data w. apply (dr_close d Hd).
  - intros n m data Hm.
    unfold dispatch_on_socket_ready, Dispatch_onSocketReady. cbv zeta.
    repeat match goal with |- context [if ?b then _ else _] => destruct b end;
      [|by apply parse_and_call_answers; [apply Hd|]..|by intros w _ Hr; exists (), w].
    intros w [Ho (e&He&Hptr&_)]. apply (dr_heartbeat d Hd n m data () Hm w). split; [done|].
    unfold user_data. by rewrite lookup_fmap, He, <-Hptr.
Qed.
End Relay.
