(* ===== verification/Crash.v ===== *)
(** * Exactly when a handler crashes the event loop

    A handler that closes the connection whose packet it is handling frees the
    element [process] is working on: the loop then writes to freed memory.
    [crashes P m1 m2] compares, from the states of [P], a computation with a
    guarded one that throws [GuardViolated] where the other is going to reach
    [UseAfterFree], and that does the same everywhere else.  The event loop of
    the queue carries the comparison of its handlers to whole runs, so that the
    guard says exactly when the program crashes.  [diverges] is the same for a
    lenient program, which goes on where the other crashes: both are instances
    of [compares]. *)
From stdpp Require Import base option list gmap sets.
From Stdlib Require Import ZArith Lia.
From S2P Require Import Prelude Approx Bytes Kernel Protocol Framing Proto NetQueue ReadPath QueueInv Dispatch.

#[local] Open Scope Z_scope.

(** What the first computation does where the second one crashes: the [strict]
    one stops. *)
Definition refused {A} (strict : bool) (o : outcome A) : Prop := if strict then o = Throw GuardViolated else True.

Definition compares {S A} (strict : bool) (P : S → Prop) (m1 m2 : M S A) : Prop := ∀ s, P s →
  (refused strict (m1 s) ∧ m2 s = Undef UseAfterFree) ∨ m1 s = m2 s.

Abbreviation crashes := (compares true).
Abbreviation diverges := (compares false).

Lemma refused_bind {S A B} strict (m : M S A) (f : A → M S B) s : refused strict (m s) → refused strict ((m ≫= f) s).
Proof. destruct strict; [|done]. cbn. intros E. unfold mbind, M_bind. by rewrite E. Qed.

Section Crashes.
Context {S : Type} {strict : bool}.
Abbreviation crashes := (compares strict).
Implicit Types (P : S → Prop).

Lemma crashes_refl {A} P (m : M S A) : crashes P m m.
Proof. by right. Qed.

(** The second parts are compared where the first, guarded, part ends. *)
Lemma crashes_bind {A B} allowed P (m1 m2 : M S A) (R : A → S → Prop) (f1 f2 : A → M S B) :
  hoare allowed P m1 R → crashes P m1 m2 → (∀ a, crashes (R a) (f1 a) (f2 a)) →
  crashes P (m1 ≫= f1) (m2 ≫= f2).
Proof.
  intros Hm Hc Hf s Hs. unfold mbind, M_bind. specialize (Hm s Hs).
  destruct (Hc s Hs) as [[E1 E2]|E]; [left; split; [by apply (refused_bind strict m1 f1)|by rewrite E2]|].
  destruct (m1 s) as [[a s']| | |]; rewrite <-E; [by apply Hf|by right..].
Qed.

Lemma crashes_bind_any {A B} P (m1 m2 : M S A) (f1 f2 : A → M S B) :
  crashes P m1 m2 → (∀ a, crashes (λ _, True) (f1 a) (f2 a)) → crashes P (m1 ≫= f1) (m2 ≫= f2).
Proof.
  apply (crashes_bind (λ _, True)). intros s _. by destruct (m1 s) as [[]| | |].
Qed.

(** The same first part. *)
Lemma crashes_bind_same {A B} allowed P (m : M S A) (R : A → S → Prop) (f1 f2 : A → M S B) :
  hoare allowed P m R → (∀ a, crashes (R a) (f1 a) (f2 a)) → crashes P (m ≫= f1) (m ≫= f2).
Proof. intros Hm. by apply (crashes_bind allowed); [|apply crashes_refl]. Qed.
End Crashes.

(** Along two computations of the same structure. *)
Ltac crash_step :=
  lazymatch goal with
  | |- compares _ _ ?m ?m => apply crashes_refl
  | |- compares _ _ (mbind _ _) (mbind _ _) => apply crashes_bind_any; [|intros ?]
  | |- compares _ _ (match ?x with _ => _ end) _ => destruct x
  end.
Ltac crash := repeat (cbv zeta; crash_step).

Section EventLoop.
Context `{HostOrder} `{K : Kernel} `{KL : !KernelLaws K} `{Malloc} `{NodeAlloc} {A D : Type}.
Abbreviation W := (@World K A).
Context (I : A → gmap loc (option loc) → Prop) (strict : bool).
Abbreviation crashes := (compares strict).
Implicit Types (p : loc) (w : W) (m : gmap Z loc).

(** A call of a packet handler crashes the loop: it frees the element. *)
Definition frees_element (d : socket_data) (m1 m2 : M W ()) w : Prop :=
  refused strict (m1 w) ∧
  ∃ w', m2 w = Ret ((), w') ∧ elements (queue w') !! sd_net_element d = None.

(** The guarded handlers [h1] and the handlers [h2]. *)
Record handler_crashes (h1 h2 : NetworkQueueHandler D W) : Prop := {
  hc_close d : call (h_onClose h1) (h_ptr_data h1) d = call (h_onClose h2) (h_ptr_data h2) d;
  hc_tun d : call (h_onTunReady h1) (h_ptr_data h1) d = call (h_onTunReady h2) (h_ptr_data h2) d;
  hc_ready m d w : owns I m w → m !! sd_fd d = Some (sd_net_element d) →
    let m1 := call (h_onSocketReady h1) (h_ptr_data h1) d in
    let m2 := call (h_onSocketReady h2) (h_ptr_data h2) d in
    frees_element d m1 m2 w ∨ m1 w = m2 w
}.

Section Handlers.
Context (h1 h2 : NetworkQueueHandler D W) (Hh : handler_crashes h1 h2) (Hk : handler_keeps I h1).

Lemma process_step_crashes m fd p :
  m !! fd = Some p → crashes (owns I m) (process_step h1 p) (process_step h2 p).
Proof.
  intros Hm w Ho. destruct (owns_element I m w fd p Ho Hm) as (e&He&Hfd).
  pose proof (wf_elements _ (proj1 Ho) p e He) as (Hu&Hl&Hs).
  unfold process_step. rewrite !(bind_ret (deref p) _ w e w) by (unfold deref; by rewrite He).
  destruct (el_state e) eqn:Hst; try by right.
  - rewrite (hc_tun _ _ Hh). by right.
  - pose proof (stream_size_bound (net_buffer e)) as [Hz _]. fold (header_size e) in Hz.
    destruct (load_header_at p w (kern w) e) as (Hload&_); [lia|]. rewrite at_element_self in Hload by done.
    rewrite !(bind_ret (load_header p) _ w _ w Hload).
    match goal with |- context [mk_socket_data p ?b ?c ?d ?e ?f ?g ?h] => set (data := mk_socket_data p b c d e f g h) end.
    destruct (hc_ready _ _ Hh m data w Ho) as [[E1 (w'&E2&Hgone)]|E]; [by cbn; rewrite Hfd|left; split|right; unfold mbind, M_bind; by rewrite E].
    + by apply refused_bind.
    + unfold mbind, M_bind. rewrite E2. unfold update. cbn in Hgone. by rewrite Hgone.
Qed.

Lemma process_crashes fuel m fd p :
  m !! fd = Some p → crashes (owns I m) (process h1 fuel p) (process h2 fuel p).
Proof.
  intros Hm. induction fuel as [|fuel IH]; [apply crashes_refl|]. cbn [process].
  eapply crashes_bind; [by eapply process_step_owns|by eapply process_step_crashes|].
  intros [|]; [apply crashes_refl|exact IH].
Qed.

Lemma handle_event_crashes fuel m fd closed ev :
  m !! fd = Some (ev_ptr ev) →
  crashes (owns I m) (handle_event h1 fuel closed ev) (handle_event h2 fuel closed ev).
Proof.
  intros Hm. unfold handle_event. destruct (bool_decide _); [apply crashes_refl|].
  apply crashes_bind_any.
  - destruct (ev_in ev); [|apply crashes_refl].
    apply crashes_bind_any; [by eapply process_crashes|intros ?; apply crashes_refl].
  - intros reason. crash. rewrite (hc_close _ _ Hh). apply crashes_refl.
Qed.

Lemma handle_events_crashes fuel m closed evs l :
  NoDup l → Forall2 (λ fd ev, m !! fd = Some (ev_ptr ev)) l evs →
  crashes (owns I m) (handle_events h1 fuel closed evs) (handle_events h2 fuel closed evs).
Proof.
  intros Hnd. revert m closed evs. induction Hnd as [|fd l Hnin Hnd IH]; intros m closed evs Hall.
  - apply Forall2_nil_inv_l in Hall as ->. apply crashes_refl.
  - apply Forall2_cons_inv_l in Hall as (ev&evs'&Hfd&Hall&->). cbn [handle_events].
    eapply crashes_bind; [by eapply handle_event_owns|by eapply handle_event_crashes|].
    intros closed'. apply IH. apply Forall2_same_length_lookup. split; [by eapply Forall2_length|].
    intros i fd' ev' Hl' Hev. rewrite lookup_delete_ne; [by eapply Forall2_lookup_lr in Hall|].
    intros ->. apply Hnin. by eapply list_elem_of_lookup_2.
Qed.

Lemma wait_and_process_crashes fuel :
  crashes (owns I ∅) (wait_and_process h1 fuel) (wait_and_process h2 fuel).
Proof.
  intros w (Hwf&_&HI). unfold wait_and_process.
  rewrite !(bind_ret (λ w, Ret (queue w, w)) _ w (queue w) w) by reflexivity.
  destruct (sys_epoll_wait (epoll_fd (queue w)) EPOLL_MAX_EVENTS (epoll_timeout (queue w)) (kern w))
    as [r k] eqn:E.
  rewrite !(bind_ret (syscall _) _ w r (set_kern k w)) by (unfold syscall; by rewrite E).
  assert (0 ≤ EPOLL_MAX_EVENTS) as Hmax by (unfold EPOLL_MAX_EVENTS; lia).
  pose proof (sys_epoll_wait_ok _ _ _ _ _ _ Hmax E) as Hs.
  inversion Hs as [l evs rx' e' ps Hnd Hlen Hall E1 Hv|rx' e' ps E1 Hv]; subst; [|by right].
  apply (handle_events_crashes fuel (fd_to_network_element (queue w)) ∅ evs l Hnd);
    [by rewrite <-(wf_interest _ Hwf)|].
  split; [|done]. apply set_kern_wf; [done|]. unfold same_reg_at. by rewrite <-Hv.
Qed.
End Handlers.
End EventLoop.

(** ** Dispatchers *)

Section Dispatch.
Context `{HostOrder} `{K : Kernel} `{KL : !KernelLaws K} `{Malloc} `{NodeAlloc} `{Messages} {A : Type}.
Abbreviation W := (@World K A).
Context (I : A → gmap loc (option loc) → Prop) (strict : bool).
Abbreviation crashes := (compares strict).
Implicit Types (w : W).

(** What [hc_ready] asks of the typed handlers. *)
Definition data_crashes {T} (g1 g2 : socket_data → T → M W ()) : Prop := ∀ m data msg w,
  owns I m w → m !! sd_fd data = Some (sd_net_element data) →
  frees_element strict data (g1 data msg) (g2 data msg) w ∨ g1 data msg w = g2 data msg w.

Lemma data_crashes_refl {T} (g : socket_data → T → M W ()) : data_crashes g g.
Proof. by right. Qed.

Lemma load_buffer_state b n w :
  match load_buffer b n w with Ret (_, w') => w' = w | _ => True end.
Proof.
  unfold load_buffer, deref, mbind, M_bind. destruct (elements _ !! _); [|done]. by destruct (_ <? _).
Qed.

Lemma parse_and_call_crashes `{Message T} (g1 g2 : socket_data → T → M W ()) m data w :
  data_crashes g1 g2 → owns I m w → m !! sd_fd data = Some (sd_net_element data) →
  frees_element strict data (parse_and_call data g1) (parse_and_call data g2) w ∨
  parse_and_call data g1 w = parse_and_call data g2 w.
Proof.
  intros Hg Ho Hm. unfold frees_element, parse_and_call. cbv zeta. unfold mbind, M_bind.
  pose proof (load_buffer_state (sd_packet_buffer data) (int32 (sd_payload_size data)) w) as Hst.
  destruct (load_buffer _ _ w) as [[bs w']| | |]; [subst w'|by right..].
  destruct (ParseFromArray bs _) as [msg|]; [|by right]. by apply (Hg m).
Qed.

Record dispatch_crashes (d1 d2 : Dispatch W) : Prop := {
  dc_close data : d_onClose d1 data = d_onClose d2 data;
  dc_tun data : d_onTunReady d1 data = d_onTunReady d2 data;
  dc_heartbeat data : d_onHeartbeat d1 data = d_onHeartbeat d2 data;
  dc_switch_mip : data_crashes (d_onSwitchMIP d1) (d_onSwitchMIP d2);
  dc_agent_mip : data_crashes (d_onAgentMIP d1) (d_onAgentMIP d2);
  dc_connect : data_crashes (d_onConnectToSwitch d1) (d_onConnectToSwitch d2);
  dc_auth : data_crashes (d_onAuthConnectToSwitch d1) (d_onAuthConnectToSwitch d2);
  dc_token : data_crashes (d_onAgentConnectionToken d1) (d_onAgentConnectionToken d2);
  dc_accepted : data_crashes (d_onConnectionAccepted d1) (d_onConnectionAccepted d2);
  dc_mrp : data_crashes (d_onAgentMRP d1) (d_onAgentMRP d2)
}.

Lemma makeNetworkQueueHandler_crashes d1 d2 :
  dispatch_crashes d1 d2 →
  handler_crashes I strict (makeNetworkQueueHandler (Some d1)) (makeNetworkQueueHandler (Some d2)).
Proof.
  intros Hd. split; cbn [call h_onClose h_onSocketReady h_onTunReady h_ptr_data makeNetworkQueueHandler
    dispatch_on_close dispatch_on_socket_ready dispatch_on_tun_ready]; [apply Hd..|].
  intros m data w Ho Hm. unfold Dispatch_onSocketReady. cbv zeta.
  destruct (_ =? HEARTBEAT); [right; by rewrite (dc_heartbeat _ _ Hd)|].
  repeat match goal with |- context [if ?b then _ else _] => destruct b end;
    [apply (parse_and_call_crashes _ _ m); [apply Hd|done..]..|by right].
Qed.
End Dispatch.
