(* ===== verification/Connections.v ===== *)
(** * What the programs do with their connections

    The conductor, the switch and the agent handle their connections alike
    (src/conductor/setup.cpp, src/switch/setup.cpp, src/agent/setup.cpp): the
    heartbeats to the connections that are due one, the retried connect, the
    creation of a listener, the accept loop and the addition of a connection
    to the queue.  [Connection] is what these share of the metadata of a
    connection.  Their proofs are done once, against [ConnInv]: what the
    invariant of a program promises about its heap of connections. *)
From stdpp Require Import base option list gmap sets.
From Stdlib Require Import ZArith Lia.
From S2P Require Import Prelude Approx Bytes Kernel Protocol Framing Inet Proto NetQueue Heap ReadPath.
From S2P Require Import WritePath QueueInv SocketUtils Dispatch Monotone EventLoop Progress.

#[local] Open Scope Z_scope.

(** The members of ConnInfo that all programs have. *)
Class Connection (C : Type) : Type := {
  conn_fd : C → Z;
  conn_last_hb : C → Z;           (* steady clock, ns *)
  with_last_hb : Z → C → C
}.

Section Connections.
Context `{HostOrder} `{Inet} `{K : Kernel} `{Malloc} `{NodeAlloc} {A C : Type} {AH : AppHeap A C} `{!Connection C}.
Abbreviation W := (@World K A).
Implicit Types (p : loc) (w : W).

(** ** The operations *)

Definition try_hb (fuel : nat) (interval now : Z) (c : option loc) : M W () :=
  match c with
  | None => mret ()
  | Some _ =>
    info ← deref_obj c;
    if (0 <=? conn_fd info) && (interval <=? now - conn_last_hb info) then
      _ ← NetQueue.send_heartbeat fuel (conn_fd info);
      update_obj c (with_last_hb now)
    else mret ()
  end.

Fixpoint try_hbs (fuel : nat) (interval now : Z) (l : list loc) : M W () :=
  match l with
  | [] => mret ()
  | c :: l => try_hb fuel interval now (Some c);; try_hbs fuel interval now l
  end.

(** The attempts left. *)
Fixpoint connect_attempts (attempts : nat) (mc : MachineConfig) : M W Z :=
  match attempts with
  | O => mret (-1)
  | S attempts =>
    fd ← connect_to mc;
    if 0 <=? fd then mret fd else connect_attempts attempts mc
  end.

(** [None]: one of the calls failed, and the program ends. *)
Definition open_listener (port backlog : Z) : M W (option Z) :=
  listener ← syscall sys_socket;
  match listener with
  | None => mret None
  | Some listener =>
    bound ← syscall (sys_bind listener (hton 2 port));
    if negb bound then mret None
    else
      listening ← syscall (sys_listen listener backlog);
      if negb listening then mret None else mret (Some listener)
  end.

(** Accept the connections waiting on the listener; [info fd now] is the
    metadata of a new one. *)
Fixpoint accept_loop (info : Z → Z → C) (turns : nat) (listener : Z) : M W () :=
  match turns with
  | O => no_fuel
  | S turns =>
    client ← syscall (sys_accept4 listener);
    match client with
    | None => mret ()
    | Some client =>
      now ← syscall sys_steady_clock;
      p ← new_obj (info client now);
      element ← put_sck client (Some p);
      match element with
      | Some _ => accept_loop info turns listener
      | None =>
        real_close client;;
        delete_obj p;;
        accept_loop info turns listener
      end
    end
  end.

(** New metadata for the connection [fd], stored into a field of the state by
    [set] and added to the queue. *)
Definition add_connection (info : Z → C) (set : option loc → A → A) (fd : Z) : M W (option loc) :=
  now ← syscall sys_steady_clock;
  p ← new_obj (info now);
  modify_app (set (Some p));;
  put_sck fd (Some p).

(** ** They are monotone in the fuel *)

Section Monotone.
Context (st : stop).

Lemma try_hb_approx n m interval now c :
  fuel_le st n m → approx st (try_hb n interval now c) (try_hb m interval now c).
Proof. intros Hle. unfold try_hb. approx. Qed.

#[local] Hint Resolve try_hb_approx : approx.

Lemma try_hbs_approx n m interval now l :
  fuel_le st n m → approx st (try_hbs n interval now l) (try_hbs m interval now l).
Proof. intros Hle. induction l as [|c l IH]; cbn [try_hbs]; approx. Qed.

Lemma accept_loop_approx n m info listener :
  fuel_le st n m → approx st (accept_loop info n listener) (accept_loop info m listener).
Proof.
  intros Hle. revert listener. eapply (approx_fuel st (accept_loop info) (accept_loop info)); [done..| |done].
  clear n m Hle. intros n m _ IH listener. cbn [Nat.add accept_loop]. approx.
Qed.
End Monotone.

(** ** Before the queue exists *)

Section Startup.
Context `{KL : !KernelLaws K} (allowed : ub → Prop) (a : A).

Lemma connect_attempts_opened s attempts mc :
  hoare allowed (opened s a) (connect_attempts attempts mc) (newly_opened a s).
Proof.
  induction attempts as [|n IH]; [by apply hoare_ret|].
  cbn [connect_attempts]. eapply hoare_bind; [apply connect_to_opened|]. intros fd.
  unfold newly_opened. destruct (Z.leb_spec 0 fd).
  - apply hoare_ret. intros w Hw. by rewrite (proj2 (Z.leb_le _ _)) by done.
  - exact IH.
Qed.

Lemma open_listener_opened s port backlog :
  hoare allowed (opened s a) (open_listener port backlog)
    (λ r w, ∀ fd, r = Some fd → s !! fd = None ∧ opened (<[fd := []]> s) a w).
Proof.
  unfold open_listener. eapply hoare_bind; [apply socket_opened|]. intros [fd|]; [|by apply hoare_ret].
  intros w (_&Hfd&Ho). revert w Ho.
  eapply hoare_bind; [apply syscall_opened; intros k; apply quiet_out, sys_bind_ok|]. intros b.
  apply hoare_if; intros _; [by apply hoare_ret|].
  eapply hoare_bind; [apply syscall_opened; intros k; apply quiet_out, sys_listen_ok|]. intros b'.
  apply hoare_if; intros _; [by apply hoare_ret|].
  apply hoare_ret. by intros w Ho ? [= <-].
Qed.
End Startup.

(** ** The ownership of the metadata *)

(** Every element of the queue has a live object of its own. *)
Record own_conns (h : gmap loc C) (ud : gmap loc (option loc)) : Prop := {
  own_live q x : ud !! q = Some x → ∃ p, x = Some p ∧ is_Some (h !! p);
  own_distinct q q' p : ud !! q = Some (Some p) → ud !! q' = Some (Some p) → q = q'
}.

Lemma own_conns_empty h : own_conns h ∅.
Proof. by split. Qed.

Lemma own_conns_mono h h' ud : own_conns h ud → dom h ⊆ dom h' → own_conns h' ud.
Proof.
  intros [Hl Hd] Hs. split; [|done]. intros q x Hx. destruct (Hl q x Hx) as (p&->&Hp).
  exists p. split; [done|]. by apply elem_of_dom, Hs, elem_of_dom.
Qed.

(** An element for a new object. *)
Lemma own_conns_put h h' ud p q :
  own_conns h ud → h !! p = None → is_Some (h' !! p) → dom h ⊆ dom h' → own_conns h' (<[q := Some p]> ud).
Proof.
  intros Ho Hp Hp' Hs. destruct (own_conns_mono h h' ud Ho Hs) as [Hl' Hd]. destruct Ho as [Hl _].
  assert (∀ q', ud !! q' ≠ Some (Some p)) as Hnew.
  { intros q' Hq'. destruct (Hl q' _ Hq') as (?&[= <-]&[? Hsome]). congruence. }
  split.
  - intros q' x. rewrite lookup_insert_Some. intros [[<- <-]|[_ Hx]]; eauto.
  - intros q1 q2 p'. rewrite !lookup_insert_Some.
    intros [[<- [= <-]]|[_ Hx]] [[<- E]|[_ Hy]]; simplify_eq; try done;
      [by destruct (Hnew q2)|by destruct (Hnew q1)|eauto].
Qed.

(** An element and its object are given up. *)
Lemma own_conns_delete h ud q p :
  own_conns h ud → ud !! q = Some (Some p) → own_conns (delete p h) (delete q ud).
Proof.
  intros [Hl Hd] Hq. split.
  - intros q' x. rewrite lookup_delete_Some. intros [Hne Hx].
    destruct (Hl q' x Hx) as (p'&->&Hp'). exists p'. split; [done|].
    rewrite lookup_delete_ne; [done|]. intros ->. by destruct Hne; eapply Hd.
  - intros q1 q2 p'. rewrite !lookup_delete_Some. intros [_ Hx] [_ Hy]. eauto.
Qed.

(** ** What an invariant promises *)

(** The heap may get a new object [new] allows, and [set] a pointer to it; the
    time of the last heartbeat of an object may change. *)
Class ConnInv (I : A → gmap loc (option loc) → Prop) (new : C → Prop) : Prop := {
  ci_heartbeat s ud p c now : I s ud → heap s !! p = Some c →
    I (set_heap (<[p := with_last_hb now c]> (heap s)) s) ud;
  ci_new s ud p c : I s ud → heap s !! p = None → new c →
    I (set_heap (<[p := c]> (heap s)) s) ud ∧
    ∀ q, ud !! q = None → I (set_heap (<[p := c]> (heap s)) s) (<[q := Some p]> ud)
}.

(** The same promise by an invariant of the program's own state. *)
Class HeapInv (J : A → Prop) (new : C → Prop) : Prop := {
  hi_heartbeat s p c now : J s → heap s !! p = Some c → J (set_heap (<[p := with_last_hb now c]> (heap s)) s);
  hi_new s p c : J s → heap s !! p = None → new c → J (set_heap (<[p := c]> (heap s)) s)
}.

(** The invariant [J], and each element owns its object. *)
Definition conn_inv (J : A → Prop) (s : A) (ud : gmap loc (option loc)) : Prop :=
  own_conns (heap s) ud ∧ J s.

#[export] Instance conn_inv_ConnInv J new : HeapInv J new → ConnInv (conn_inv J) new.
Proof.
  intros HJ. split.
  - intros s ud p c now [Ho Hs] Hp. split; [|by apply hi_heartbeat].
    eapply own_conns_mono; [done|]. rewrite heap_set_heap, dom_insert. set_solver.
  - intros s ud p c [Ho Hs] Hp Hc.
    assert (dom (heap s) ⊆ dom (heap (set_heap (<[p := c]> (heap s)) s))) as Hd
      by (rewrite heap_set_heap, dom_insert; set_solver).
    split; [split; [by eapply own_conns_mono|by apply hi_new]|].
    intros q _. split; [|by apply hi_new].
    eapply own_conns_put; [done..| |done]. by rewrite heap_set_heap, lookup_insert_eq.
Qed.

#[export] Instance heap_only_ConnInv J new : HeapInv J new → ConnInv (λ s _, J s) new.
Proof. intros HJ. split; [intros s ? p c now; by apply hi_heartbeat|]. split; [|intros ? _]; by apply hi_new. Qed.

Section Owns.
Context `{KL : !KernelLaws K} (I : A → gmap loc (option loc) → Prop) (new : C → Prop) `{!ConnInv I new}.
Context {allowed : ub → Prop}.
Abbreviation owned := (owns I ∅).

(** ** Heartbeats *)

(** The live objects are those of [D]. *)
Definition owned_live (D : gset loc) w : Prop := owned w ∧ dom (heap (app w)) = D.

Lemma try_hb_owns fuel interval now c D :
  (∀ p, c = Some p → p ∈ D) →
  hoare allowed (owned_live D) (try_hb fuel interval now c) (λ _, owned_live D).
Proof.
  intros Hlive. unfold try_hb. destruct c as [p|]; [|by apply hoare_ret]. intros w [(Hwf&Hm&HI) HD].
  assert (is_Some (heap (app w) !! p)) as [info Hinfo] by (apply elem_of_dom; rewrite HD; by apply Hlive).
  erewrite bind_ret by by apply deref_obj_run. destruct (_ && _); [|by split].
  (* the send keeps the state of the handlers *)
  pose proof (send_heartbeat_owns (allowed := allowed) (λ s ud, I s ud ∧ s = app w) ∅ fuel (conn_fd info)) as Hs.
  eapply (hoare_bind _ _ _ _ _ (λ _, owned_live D) Hs); [|by split_and!].
  intros _ w1 (Hwf1&_&HI1&Happ).
  erewrite update_obj_run by (rewrite Happ; exact Hinfo). split; [split_and!|].
  - by apply set_app_wf.
  - apply map_empty_subseteq.
  - apply (ci_heartbeat (new := new)); [done|by rewrite Happ].
  - cbn. rewrite heap_set_heap, dom_insert_lookup_L by (rewrite Happ; by exists info). by rewrite Happ.
Qed.

(** With room in the write buffers it returns. *)
Lemma try_hb_returns most n fuel interval now c D :
  (∀ p, c = Some p → p ∈ D) →
  total (λ w, owned_live D w ∧ roomy most n fuel w) (try_hb fuel interval now c)
    (λ _ w, owned_live D w ∧ roomy most n fuel w).
Proof.
  intros Hlive w [Hw Hr]. pose proof (try_hb_owns fuel interval now c D Hlive w Hw) as Ho.
  assert (∃ w', try_hb fuel interval now c w = Ret ((), w') ∧ roomy most n fuel w') as (w'&E&Hr').
  2: { rewrite E in Ho. by exists (), w'. }
  unfold try_hb. destruct c as [p|]; [|by exists w]. destruct Hw as [(Hwf&Hm&HI) HD].
  assert (is_Some (heap (app w) !! p)) as [info Hinfo] by (apply elem_of_dom; rewrite HD; by apply Hlive).
  erewrite bind_ret by by apply deref_obj_run. destruct (_ && _); [|by exists w].
  destruct (heartbeat_answers most (λ s _, s = app w) n fuel ∅ w (conn_fd info) w) as (b&w1&E&(_&_&Happ)&_&Hr1);
    [by split_and!|].
  erewrite bind_ret by exact E. cbv beta in Happ. erewrite update_obj_run by (rewrite Happ; exact Hinfo). by eexists.
Qed.

Lemma try_hbs_returns most n fuel interval now l D :
  (∀ p, p ∈ l → p ∈ D) →
  total (λ w, owned_live D w ∧ roomy most n fuel w) (try_hbs fuel interval now l)
    (λ _ w, owned_live D w ∧ roomy most n fuel w).
Proof.
  induction l as [|c l IH]; intros Hl; [by apply total_ret|]. cbn [try_hbs].
  eapply total_bind; [apply try_hb_returns; intros p [= <-]; apply Hl, list_elem_of_here|].
  intros []. apply IH. intros p Hp. by apply Hl, list_elem_of_further.
Qed.

Lemma try_hbs_owns fuel interval now l D :
  (∀ p, p ∈ l → p ∈ D) →
  hoare allowed (owned_live D) (try_hbs fuel interval now l) (λ _, owned_live D).
Proof.
  induction l as [|c l IH]; intros Hl; [by apply hoare_ret|]. cbn [try_hbs].
  eapply hoare_bind; [apply try_hb_owns; intros p [= <-]; apply Hl, list_elem_of_here|].
  intros []. apply IH. intros p Hp. by apply Hl, list_elem_of_further.
Qed.

(** ** New connections *)

Lemma accept_loop_owns info turns listener :
  (∀ fd now, new (info fd now)) →
  hoare allowed owned (accept_loop info turns listener) (λ _, owned).
Proof.
  intros Hnew. induction turns as [|turns IH]; intros w Ho; [done|]. cbn [accept_loop].
  destruct (accept_owns _ _ _ listener Ho) as (r&k&E&Ho1&Hfd). erewrite bind_ret by apply E.
  destruct r as [fd|]; [|done]. destruct (Hfd fd eq_refl) as [Hep Hfree]. clear Hfd.
  destruct (steady_clock_owns _ _ _ Ho1) as (now&k2&E2&Ho2). erewrite bind_ret by apply E2.
  set (w2 := set_kern k2 _) in *.
  destruct (new_obj_run w2 (info fd now)) as [(p&Hp&E3)|E3]; [|unfold mbind at 1, M_bind at 1; by rewrite E3].
  erewrite bind_ret by apply E3. set (w3 := set_obj _ _ _).
  destruct (ci_new _ _ p (info fd now) (proj2 (proj2 Ho2)) Hp (Hnew fd now)) as [Hi1 Hi2].
  assert (owned w3) as Ho3 by exact (set_app_owns I ∅ w2 _ Ho2 Hi1).
  destruct (put_sck_owns I w3 fd (Some p) Ho3 Hep) as (q&w4&E4&Ho4&Happ&Hep4&Hq); [done|].
  erewrite bind_ret by apply E4. destruct q as [q|]; [by apply IH|].
  destruct (real_close_owns I ∅ w4 fd Ho4) as (k5&E5&Ho5); [by rewrite Hep4|by rewrite Hq|].
  erewrite bind_ret by apply E5.
  erewrite bind_ret.
  2: { eapply delete_obj_run. cbn. rewrite Happ. cbn. rewrite heap_set_heap. apply lookup_insert_eq. }
  apply IH. apply set_app_owns; [done|]. cbn. rewrite Happ.
  change (app w3) with (app (set_obj p (info fd now) w2)).
  pose proof (delete_new_app w2 p (info fd now) Hp) as Hback. cbn in Hback. cbn. rewrite Hback.
  assert (user_data (set_kern k5 w4) = user_data w2) as -> by (unfold user_data; cbn; by rewrite Hq).
  apply Ho2.
Qed.

Lemma add_connection_owns info set fd ep :
  (∀ s ud p c, I s ud → heap s !! p = None → (∃ now, c = info now) →
     I (set (Some p) (set_heap (<[p := c]> (heap s)) s)) ud ∧
     ∀ q, ud !! q = None → I (set (Some p) (set_heap (<[p := c]> (heap s)) s)) (<[q := Some p]> ud)) →
  fd ≠ ep →
  hoare allowed (λ w, owned w ∧ epoll_fd (queue w) = ep) (add_connection info set fd)
    (λ _ w, owned w ∧ epoll_fd (queue w) = ep).
Proof.
  intros Hset Hfd w [Ho Hep]. unfold add_connection.
  destruct (steady_clock_owns _ _ _ Ho) as (now&k&E&Ho1). erewrite bind_ret by apply E.
  destruct (new_obj_run (set_kern k w) (info now)) as [(p&Hp&E2)|E2];
    [|by unfold mbind at 1, M_bind at 1; rewrite E2].
  erewrite bind_ret by apply E2. erewrite (bind_ret (modify_app _)) by reflexivity.
  set (w2 := set_app _ _).
  destruct (Hset _ _ p (info now) (proj2 (proj2 Ho1)) Hp) as [Hi1 Hi2]; [by eexists|].
  assert (owned w2) as Ho2 by exact (set_app_owns I ∅ (set_kern k w) _ Ho1 Hi1).
  destruct (put_sck_owns I w2 fd (Some p) Ho2) as (r&w3&E3&Ho3&_&Hep3&_); [by rewrite <-Hep in Hfd|done|].
  rewrite E3. by split; [|rewrite Hep3].
Qed.
End Owns.
End Connections.

#[export] Hint Resolve try_hb_approx try_hbs_approx accept_loop_approx : approx.
