(* ===== verification/Agent.v ===== *)
(** * The agent

    Models src/agent/setup.cpp, all of main: the arguments, the connection to
    the conductor, the switch assignment, the authentication at the switch and
    the event loop.  Signal handling is the number of turns the event loop
    makes; the calls that set socket options, log and sleep have no effect in
    the model. *)
From stdpp Require Import base option list gmap sets strings.
From Stdlib Require Import ZArith Lia.
From S2P Require Import Prelude Approx Args Bytes Kernel Protocol Framing Inet Proto NetQueue Heap ReadPath.
From S2P Require Import WritePath QueueInv SocketUtils Dispatch Monotone EventLoop Progress Connections.

#[local] Open Scope Z_scope.

(** ** Data *)

(** std::chrono::seconds, in the nanoseconds of the steady clock. *)
Definition HEARTBEAT_INTERVAL : Z := 30 * 1000000000.
Definition MAX_CONNECT_RETRIES : nat := 20.

Inductive ConnRole : Type := CONDUCTOR | SWITCH.

Record ConnInfo : Type := mk_conn {
  c_role : ConnRole;
  c_fd : Z;
  c_last_hb_sent : Z      (* steady clock, ns *)
}.

#[export] Instance agent_connection : Connection ConnInfo := {|
  conn_fd := c_fd;
  conn_last_hb := c_last_hb_sent;
  with_last_hb now c := mk_conn (c_role c) (c_fd c) now
|}.

Record AgentState : Type := mk_agent {
  conns : gmap loc ConnInfo;     (* the live ConnInfo objects *)
  conductor : option loc;
  sw : option loc
}.

(** The initial value of [g_state]. *)
Definition AgentState_init : AgentState := mk_agent ∅ None None.

#[export] Instance agent_heap : AppHeap AgentState ConnInfo := {|
  heap := conns;
  set_heap h s := mk_agent h (conductor s) (sw s); heap_set_heap _ _ := eq_refl;
  set_heap_set_heap _ _ _ := eq_refl; set_heap_heap '(mk_agent _ _ _) := eq_refl
|}.

Definition with_conductor (p : option loc) (s : AgentState) : AgentState := mk_agent (conns s) p (sw s).
Definition with_sw (p : option loc) (s : AgentState) : AgentState := mk_agent (conns s) (conductor s) p.

Section Agent.
Context `{HostOrder} `{Inet} `{K : Kernel} `{Malloc} `{NodeAlloc} `{Messages}.
Abbreviation W := (@World K AgentState).

(** ** The handlers *)

Definition onClose (data : close_data) : M W () :=
  match cd_ptr_data data with
  | None => mret ()
  | Some info =>
    s ← get_app;
    (if bool_decide (conductor s = Some info) then modify_app (with_conductor None) else mret ());;
    (if bool_decide (sw s = Some info) then modify_app (with_sw None) else mret ());;
    delete_obj info
  end.

(** The virtual handlers that [AgentDispatch] overrides. *)
Definition AgentDispatch : Dispatch W :=
  mk_dispatch onClose (d_onTunReady Dispatch_default) (λ _, mret ()) (d_onSwitchMIP Dispatch_default)
    (d_onAgentMIP Dispatch_default) (d_onConnectToSwitch Dispatch_default)
    (d_onAuthConnectToSwitch Dispatch_default) (d_onAgentConnectionToken Dispatch_default)
    (d_onConnectionAccepted Dispatch_default) (d_onAgentMRP Dispatch_default).

Section Main.
Variable fuel : nat.

(** ** Heartbeats *)

Definition send_heartbeats : M W () :=
  now ← syscall sys_steady_clock;
  s ← get_app;
  try_hb fuel HEARTBEAT_INTERVAL now (conductor s);;
  s ← get_app;
  try_hb fuel HEARTBEAT_INTERVAL now (sw s).

(** ** main *)

Definition connect_with_retry (mc : MachineConfig) : M W Z := connect_attempts MAX_CONNECT_RETRIES mc.

(** Step 1: connect to the conductor and send the agent's identity. *)
Definition register_at_conductor (agent_name auth_key : string) (conductor_cfg : MachineConfig) :
    M W (option Z) :=
  cdt_sock ← connect_with_retry conductor_cfg;
  if cdt_sock <? 0 then mret None
  else
    sent ← send_protobuf_packet fuel cdt_sock AGENT_MIP
      (mk_PacketAgentMIP agent_name auth_key "vnet.internal");
    if negb sent then real_close cdt_sock;; mret None
    else mret (Some cdt_sock).

(** Step 3: connect to the assigned switch and authenticate with the token. *)
Definition present_token (cdt_sock : Z) (assignment : PacketConnectToSwitch) : M W (option Z) :=
  let sw_ip := ipv4_to_string (cs_switch_ipv4 assignment) in
  let sw_port := u16 (cs_switch_port assignment) in
  sw_sock ← connect_with_retry (mk_machine sw_ip sw_port);
  if sw_sock <? 0 then real_close cdt_sock;; mret None
  else
    sent ← send_protobuf_packet fuel sw_sock AUTH_CONNECT_TO_SWITCH
      (mk_PacketAuthConnectToSwitch (cs_connection_token assignment));
    if negb sent then real_close sw_sock;; real_close cdt_sock;; mret None
    else
      ack ← read_protobuf_packet (T := PacketConnectionAccepted) fuel sw_sock CONNECTION_ACCEPTED;
      match ack with
      | None => real_close sw_sock;; real_close cdt_sock;; mret None
      | Some _ => mret (Some sw_sock)
      end.

(** Step 2, the assignment of a switch, followed by step 3. *)
Definition authenticate_at_switch (cdt_sock : Z) : M W (option Z) :=
  assignment ← read_protobuf_packet fuel cdt_sock CONNECT_TO_SWITCH;
  match assignment with
  | None => real_close cdt_sock;; mret None
  | Some assignment => present_token cdt_sock assignment
  end.

(** Step 4: both connections are added to the queue; what [put_sck] returns
    is not looked at. *)
Definition enter_queue (cdt_sock sw_sock : Z) : M W () :=
  _ ← set_nonblocking cdt_sock;
  _ ← set_nonblocking sw_sock;
  NetQueue_new (makeNetworkQueueHandler (Some AgentDispatch)) 200;;
  _ ← add_connection (mk_conn CONDUCTOR cdt_sock) with_conductor cdt_sock;
  _ ← add_connection (mk_conn SWITCH sw_sock) with_sw sw_sock;
  mret ().

(** The event loop, for as many turns as [g_running] stays set. *)
Fixpoint event_loop (turns : nat) : M W () :=
  match turns with
  | O => mret ()
  | S turns =>
    wait_and_process (makeNetworkQueueHandler (Some AgentDispatch)) fuel;;
    send_heartbeats;;
    event_loop turns
  end.

(** [main], from the parsed arguments on. *)
Definition run_agent (turns : nat) (agent_name auth_key : string) (conductor_cfg : MachineConfig) : M W Z :=
  cdt_sock ← register_at_conductor agent_name auth_key conductor_cfg;
  match cdt_sock with
  | None => mret 1
  | Some cdt_sock =>
    sw_sock ← authenticate_at_switch cdt_sock;
    match sw_sock with
    | None => mret 1
    | Some sw_sock =>
      enter_queue cdt_sock sw_sock;;
      event_loop turns;;
      NetQueue_destroy;;
      mret 0
    end
  end.

(** [main]; the result is the exit code. *)
Definition agent_main (turns : nat) (argv : list string) (getenv : environment) : M W Z :=
  match argv with
  | [_; agent_name; auth_key] =>
    match getenv "CONDUCTOR_IP", getenv "CONDUCTOR_PORT" with
    | Some cdt_ip_env, Some cdt_port_env =>
      cdt_port ← stoi cdt_port_env;
      run_agent turns agent_name auth_key (mk_machine cdt_ip_env (u16 cdt_port))
    | _, _ => mret 1
    end
  | _ => mret 1
  end.
End Main.

(** ** The fuel does not matter *)

Lemma agent_loop_approx st n m turns : fuel_le st n m → approx st (event_loop n turns) (event_loop m turns).
Proof.
  intros Hle. pose proof (dispatch_approx_refl st AgentDispatch).
  induction turns as [|turns IH]; cbn [event_loop]; unfold send_heartbeats; approx.
Qed.

#[local] Hint Resolve agent_loop_approx : approx.

(** More fuel changes nothing about a run of the agent that ends. *)
Lemma agent_main_approx n m turns argv getenv :
  (n ≤ m)%nat → approx StopFuel (agent_main n turns argv getenv) (agent_main m turns argv getenv).
Proof.
  intros Hle. assert (fuel_le StopFuel n m) by done.
  unfold agent_main, run_agent, register_at_conductor, authenticate_at_switch, present_token. approx.
Qed.

(** ** The invariant of the agent's connections *)

(** The pointers of [g_state] are live. *)
Definition agent_live (s : AgentState) : Prop :=
  ∀ p, conductor s = Some p ∨ sw s = Some p → is_Some (conns s !! p).

Abbreviation agent_inv := (conn_inv agent_live).

Lemma agent_live_insert s p c : agent_live s → agent_live (set_heap (<[p := c]> (heap s)) s).
Proof. intros Hs q Hq. cbn. apply lookup_insert_is_Some'. right. by apply Hs. Qed.

#[export] Instance agent_HeapInv : HeapInv agent_live (λ _, True).
Proof. split; intros; by apply agent_live_insert. Qed.

Lemma agent_inv_init : agent_inv AgentState_init ∅.
Proof. split; [apply own_conns_empty|]. by intros p [?|?]. Qed.

(** A new object that [g_state] points to. *)
Lemma agent_inv_new set s ud p c :
  set = with_conductor ∨ set = with_sw → agent_inv s ud → heap s !! p = None →
  agent_inv (set (Some p) (set_heap (<[p := c]> (heap s)) s)) ud ∧
  ∀ q, ud !! q = None → agent_inv (set (Some p) (set_heap (<[p := c]> (heap s)) s)) (<[q := Some p]> ud).
Proof.
  intros Hset HI Hp. destruct (ci_new (new := λ _, True) _ _ p c HI Hp I) as [[Ho Hs] Hq].
  assert (agent_live (set (Some p) (set_heap (<[p := c]> (heap s)) s))) as Hlive.
  { intros q Hq'. destruct (decide (q = p)) as [->|Hne].
    - destruct Hset as [-> | ->]; cbn; by rewrite lookup_insert_eq.
    - destruct Hset as [-> | ->]; apply (Hs q); naive_solver. }
  destruct Hset as [-> | ->]; (split; [by split|]); intros q Hfree; (split; [|done]); apply (Hq q Hfree).
Qed.

(** The state after a connection was closed. *)
Definition forget (p : loc) (s : AgentState) : AgentState :=
  mk_agent (delete p (conns s)) (if decide (conductor s = Some p) then None else conductor s)
    (if decide (sw s = Some p) then None else sw s).

Lemma agent_inv_forget s ud q p :
  agent_inv s ud → ud !! q = Some (Some p) → agent_inv (forget p s) (delete q ud).
Proof.
  intros [Ho Hs] Hq. split; [by apply own_conns_delete|].
  intros p' Hp'. cbn in Hp' |- *.
  rewrite lookup_delete_ne; [apply Hs|intros ->]; repeat destruct (decide _); naive_solver.
Qed.

(** [onClose] on the pointer of an element. *)
Lemma agent_close_run data w p :
  cd_ptr_data data = Some p → is_Some (conns (app w) !! p) →
  onClose data w = Ret ((), set_app (forget p (app w)) w).
Proof.
  intros Hp [c Hc]. unfold onClose. rewrite Hp. erewrite (bind_ret get_app) by reflexivity.
  unfold forget.
  destruct (bool_decide_reflect (conductor (app w) = Some p)) as [Ec|Ec];
    [rewrite (decide_True _ _ Ec)|rewrite (decide_False _ _ Ec)];
    (erewrite bind_ret by reflexivity);
    (destruct (bool_decide_reflect (sw (app w) = Some p)) as [Es|Es];
      [rewrite (decide_True _ _ Es)|rewrite (decide_False _ _ Es)]);
    (erewrite bind_ret by reflexivity); by erewrite delete_obj_run by exact Hc.
Qed.

Section Properties.
Context `{KL : !KernelLaws K}.
Abbreviation owned := (owns agent_inv ∅).

Lemma AgentDispatch_keeps : dispatch_keeps agent_inv AgentDispatch.
Proof.
  split; try apply keeps_data_nothing.
  - intros m data Hm w [(Hwf&Hsub&HI) Hud]. cbn [d_onClose AgentDispatch].
    destruct (own_live _ _ (proj1 HI) _ _ Hud) as (p&Hp&Hlive).
    rewrite (agent_close_run data w p Hp Hlive). split_and!; [by apply set_app_wf|done|].
    rewrite Hp in Hud. by apply (agent_inv_forget _ _ _ p HI Hud).
  - intros m data _. by apply hoare_ret.
Qed.

Lemma agent_heartbeats_owns fuel : hoare overflow_only owned (send_heartbeats fuel) (λ _, owned).
Proof.
  intros w Ho. unfold send_heartbeats.
  destruct (steady_clock_owns _ _ _ Ho) as (now&k&E&Ho1). erewrite bind_ret by apply E.
  erewrite (bind_ret get_app) by reflexivity. set (w1 := set_kern k w) in *.
  set (D := dom (heap (app w1))).
  eapply (hoare_bind _ (owned_live agent_inv D) _ (λ _, owned_live agent_inv D) _ (λ _, owned)); [| |by split].
  - apply (try_hb_owns _ (λ _, True)). intros p Hp. apply elem_of_dom. apply (proj2 (proj2 (proj2 Ho1))). by left.
  - intros [] w2 [Ho2 HD]. erewrite (bind_ret get_app) by reflexivity.
    pose proof (try_hb_owns (allowed := overflow_only) agent_inv (λ _, True) fuel HEARTBEAT_INTERVAL now
      (sw (app w2)) D) as Hhb.
    eapply hoare_conseq; [apply Hhb|done|by intros ? ? [? _]|by split].
    intros p Hp. rewrite <-HD. apply elem_of_dom. apply (proj2 (proj2 (proj2 Ho2))). by right.
Qed.

Lemma agent_loop_owns fuel turns : hoare overflow_only owned (event_loop fuel turns) (λ _, owned).
Proof.
  induction turns as [|turns IH]; [by apply hoare_ret|]. cbn [event_loop].
  eapply hoare_bind; [apply wait_and_process_owns, makeNetworkQueueHandler_keeps, AgentDispatch_keeps|].
  intros []. eapply hoare_bind; [apply agent_heartbeats_owns|]. intros []. apply IH.
Qed.

(** *** A turn returns *)

Lemma AgentDispatch_responsive fuel : dispatch_responsive agent_inv 0 fuel AgentDispatch.
Proof.
  split; try apply answers_nothing. intros data w _ [Ho _] Hud.
  destruct (own_live _ _ Ho _ _ Hud) as (p&Hp&Hlive). eexists. by apply (agent_close_run data w p).
Qed.

Lemma agent_heartbeats_return n fuel :
  total (λ w, owned w ∧ roomy 0 n fuel w) (send_heartbeats fuel) (λ _, owned).
Proof.
  intros w [Ho Hr]. unfold send_heartbeats.
  destruct (steady_clock_answers 0 agent_inv n fuel ∅ w w) as (now&w1&E&Ho1&_&Hr1); [by split|].
  erewrite bind_ret by exact E. erewrite (bind_ret get_app) by reflexivity. set (D := dom (heap (app w1))).
  destruct (try_hb_returns (allowed := overflow_only) agent_inv (λ _, True) 0 n fuel HEARTBEAT_INTERVAL now
    (conductor (app w1)) D) with (s := w1) as ([]&w2&E2&[Ho2 HD]&Hr2); [|done|].
  { intros p Hp. apply elem_of_dom. apply (proj2 (proj2 (proj2 Ho1))). by left. }
  erewrite bind_ret by exact E2. erewrite (bind_ret get_app) by reflexivity.
  destruct (try_hb_returns (allowed := overflow_only) agent_inv (λ _, True) 0 n fuel HEARTBEAT_INTERVAL now
    (sw (app w2)) D) with (s := w2) as ([]&w3&E3&[Ho3 _]&_); [|done|by exists (), w3].
  intros p Hp. rewrite <-HD. apply elem_of_dom. apply (proj2 (proj2 (proj2 Ho2))). by right.
Qed.

(** C39: the agent does not hang: a turn of its event loop returns, and the loop goes on from the
    state it leaves, in the invariant the agent starts in, whenever each pending stream (with what
    [epoll_wait] lets arrive) consists of packets that fit the receive buffer and does not end
    inside a payload, for every fuel that covers three steps per pending byte, a full write
    buffer and the signals. *)
Theorem agent_turn_returns fuel w :
  owned w →
  (∀ r k, sys_epoll_wait (epoll_fd (queue w)) EPOLL_MAX_EVENTS (epoll_timeout (queue w)) (kern w) = (r, k) →
     calm_queue 0 (Z.to_nat EPOLL_MAX_EVENTS) fuel (set_kern k w)) →
  ∃ w', owned w' ∧ ∀ turns, event_loop fuel (S turns) w = event_loop fuel turns w'.
Proof.
  intros (Hwf&_&HI) Hcalm.
  destruct (wait_and_process_good 0 agent_inv (makeNetworkQueueHandler (Some AgentDispatch)) fuel) with (w := w)
    as (w1&E1&Ho1&Hc1); try done.
  { apply makeNetworkQueueHandler_keeps, AgentDispatch_keeps. }
  { apply makeNetworkQueueHandler_responsive, AgentDispatch_responsive. }
  destruct (agent_heartbeats_return 0 fuel w1) as ([]&w2&E2&Ho2); [split; [done|by apply calm_roomy]|].
  exists w2. split; [done|]. intros turns. cbn [event_loop].
  erewrite bind_ret by exact E1. by erewrite bind_ret by exact E2.
Qed.

Lemma agent_enter_owns s cdt_sock sw_sock :
  is_Some (s !! cdt_sock) → is_Some (s !! sw_sock) →
  hoare overflow_only (opened s AgentState_init) (enter_queue cdt_sock sw_sock) (λ _, owned).
Proof.
  intros Hcdt Hsw. unfold enter_queue. eapply hoare_bind; [apply set_nonblocking_opened|]. intros ?.
  eapply hoare_bind; [apply set_nonblocking_opened|]. intros ?.
  eapply hoare_bind; [apply (NetQueue_new_owns agent_inv), agent_inv_init|].
  intros [] w (Ho&_&Hep&_).
  assert (∀ fd, is_Some (s !! fd) → fd ≠ epoll_fd (queue w)) as Hne.
  { intros fd [out Hout] ->. congruence. }
  eapply (hoare_bind _ (λ w', owned w' ∧ epoll_fd (queue w') = epoll_fd (queue w))); [| |by split].
  - apply add_connection_owns; [|by apply Hne]. intros; apply agent_inv_new; auto.
  - intros ?. eapply hoare_bind; [apply add_connection_owns; [|by apply Hne]; intros; apply agent_inv_new; auto|].
    intros ?. by apply hoare_ret; intros w' [? _].
Qed.

(** Closing the sockets and giving up. *)
Lemma give_up1 P fd (Q : option Z → W → Prop) :
  (∀ w, Q None w) → hoare overflow_only P (real_close fd;; mret None) Q.
Proof. intros HQ w Hw. apply HQ. Qed.
Lemma give_up2 P fd fd' (Q : option Z → W → Prop) :
  (∀ w, Q None w) → hoare overflow_only P (real_close fd;; real_close fd';; mret None) Q.
Proof. intros HQ w Hw. apply HQ. Qed.

(** Step 1 leaves the agent's identity, and nothing else, on the conductor's socket. *)
Lemma agent_register_opened fuel name key mc a :
  hoare overflow_only (opened ∅ a) (register_at_conductor fuel name key mc)
    (λ r w, ∀ fd, r = Some fd → ∃ body,
       SerializeToString (mk_PacketAgentMIP name key "vnet.internal") = Some body ∧
       opened {[fd := frame (AGENT_MIP, body)]} a w).
Proof.
  unfold register_at_conductor. eapply hoare_bind; [apply connect_attempts_opened|]. intros fd.
  apply hoare_if; intros Hfd; [by apply hoare_ret|]. unfold newly_opened. rewrite (proj2 (Z.leb_le _ _)) by lia.
  intros w [_ Ho]. revert w Ho. eapply hoare_bind.
  { apply send_protobuf_packet_opened. apply lookup_insert_eq. }
  intros sent. apply hoare_if; intros Hsent; [by apply give_up1|]. apply hoare_ret.
  intros w Hb fd' [= <-]. destruct Hb as (body&Hser&Ho); [by destruct sent|].
  exists body. split; [done|]. by rewrite insert_insert_eq, insert_empty in Ho.
Qed.

(** Step 3 leaves the token of the assignment on the switch's socket. *)
Lemma present_token_opened fuel s a cdt_sock assignment :
  hoare overflow_only (opened s a) (present_token fuel cdt_sock assignment)
    (λ r w, ∀ fd, r = Some fd → s !! fd = None ∧ ∃ body,
       SerializeToString (mk_PacketAuthConnectToSwitch (cs_connection_token assignment)) = Some body ∧
       opened (<[fd := frame (AUTH_CONNECT_TO_SWITCH, body)]> s) a w).
Proof.
  unfold present_token. cbv zeta. eapply hoare_bind; [apply connect_attempts_opened|]. intros fd.
  apply hoare_if; intros Hfd; [by apply give_up1|]. unfold newly_opened. rewrite (proj2 (Z.leb_le _ _)) by lia.
  intros w [Hnew Ho]. revert w Ho. eapply hoare_bind.
  { apply send_protobuf_packet_opened. apply lookup_insert_eq. }
  intros sent. apply hoare_if; intros Hsent; [by apply give_up2|].
  intros w Hb. destruct Hb as (body&Hser&Ho); [by destruct sent|].
  rewrite insert_insert_eq in Ho. revert w Ho.
  eapply hoare_bind; [apply read_protobuf_packet_opened|].
  intros [ack|]; [|by apply give_up2]. apply hoare_ret. intros w Ho fd' [= <-].
  split; [done|]. by exists body.
Qed.

Lemma authenticate_opened fuel s a cdt_sock :
  hoare overflow_only (opened s a) (authenticate_at_switch fuel cdt_sock)
    (λ r w, ∀ fd, r = Some fd → s !! fd = None ∧ ∃ out, opened (<[fd := out]> s) a w).
Proof.
  unfold authenticate_at_switch. eapply hoare_bind; [apply read_protobuf_packet_opened|].
  intros [assignment|]; [|by apply give_up1].
  eapply hoare_conseq; [apply present_token_opened|done|].
  intros r w Hr fd ->. destruct (Hr fd eq_refl) as (Hnew&body&_&Ho). eauto.
Qed.

Lemma run_agent_safe fuel turns name key mc :
  hoare overflow_only (opened ∅ AgentState_init) (run_agent fuel turns name key mc)
    (λ code _, code = 0 ∨ code = 1).
Proof.
  unfold run_agent. eapply hoare_bind; [apply agent_register_opened|].
  intros [cdt|]; [|apply hoare_ret; auto]. intros w1 Hr. destruct (Hr cdt eq_refl) as (body&_&Ho). clear Hr.
  revert w1 Ho. eapply hoare_bind; [apply authenticate_opened|].
  intros [sws|]; [|apply hoare_ret; auto]. intros w2 Hr. destruct (Hr sws eq_refl) as (Hne&out&Ho). clear Hr.
  revert w2 Ho. eapply hoare_bind; [apply agent_enter_owns; [|by rewrite lookup_insert_eq]|].
  { rewrite lookup_insert_ne; [by rewrite lookup_singleton_eq|]. intros ->. by rewrite lookup_singleton_eq in Hne. }
  intros []. eapply hoare_bind; [apply agent_loop_owns|]. intros [].
  eapply (hoare_bind _ _ _ (λ _ _, True)); [|intros []; apply hoare_ret; auto].
  eapply hoare_conseq; [apply NetQueue_destroy_safe|by intros w [[] _]|done].
Qed.

(** C7: the agent is memory safe, from its start to its end: whatever its arguments, whatever the
    other side sends and whatever the system calls return, [main] follows no dangling or null
    pointer in any number of turns of its event loop; the overflow of the receive buffer is the
    only undefined behaviour left. *)
Theorem agent_runs_safely fuel turns argv getenv w :
  app w = AgentState_init →
  match agent_main fuel turns argv getenv w with
  | Undef u => u = BufferOverflow
  | Ret (code, _) => code = 0 ∨ code = 1
  | Throw _ | OutOfFuel => True
  end.
Proof.
  intros Happ. cut (hoare overflow_only (opened ∅ AgentState_init) (agent_main fuel turns argv getenv)
    (λ code _, code = 0 ∨ code = 1)).
  { intros Hm. specialize (Hm w). destruct (agent_main _ _ _ _ w) as [[]| | |]; apply Hm || done; by split. }
  unfold agent_main. destruct argv as [|? [|name [|key []]]]; try (apply hoare_ret; auto).
  destruct (getenv _) as [cdt_ip|]; [|apply hoare_ret; auto].
  destruct (getenv _) as [cdt_port|]; [|apply hoare_ret; auto].
  eapply hoare_bind; [apply stoi_hoare|]. intros port. apply run_agent_safe.
Qed.

(** C38: an agent that gets through its start has sent the conductor exactly its identity, and then
    the switch exactly the token of the assignment it received from the conductor, each as one
    frame; the two sockets are open and distinct. *)
Theorem agent_presents_assigned_token fuel name key mc w cdt w1 sws w2 :
  register_at_conductor fuel name key mc w = Ret (Some cdt, w1) →
  authenticate_at_switch fuel cdt w1 = Ret (Some sws, w2) →
  ∃ assignment wr mip_body auth_body,
    read_protobuf_packet fuel cdt CONNECT_TO_SWITCH w1 = Ret (Some assignment, wr) ∧
    SerializeToString (mk_PacketAgentMIP name key "vnet.internal") = Some mip_body ∧
    SerializeToString (mk_PacketAuthConnectToSwitch (cs_connection_token assignment)) = Some auth_body ∧
    tx_of (view (kern w2)) cdt = frame (AGENT_MIP, mip_body) ∧
    tx_of (view (kern w2)) sws = frame (AUTH_CONNECT_TO_SWITCH, auth_body) ∧
    cdt ≠ sws ∧ {[cdt; sws]} ⊆ open_fds (view (kern w2)).
Proof.
  intros E1 E2. pose proof (agent_register_opened fuel name key mc (app w) w) as Hr. rewrite E1 in Hr.
  destruct (Hr ltac:(by split) cdt eq_refl) as (mip_body&Hmip&Ho1). clear Hr.
  unfold authenticate_at_switch in E2. apply bind_inv in E2 as ([assignment|]&wr&Eread&E2);
    [|by apply bind_inv in E2 as (?&?&_&?)].
  pose proof (read_protobuf_packet_opened overflow_only (app w) {[cdt := frame (AGENT_MIP, mip_body)]}
    (T := PacketConnectToSwitch) fuel cdt CONNECT_TO_SWITCH w1 Ho1) as Ho2. rewrite Eread in Ho2.
  pose proof (present_token_opened fuel _ _ cdt assignment wr Ho2) as Hp. rewrite E2 in Hp.
  destruct (Hp sws eq_refl) as (Hne&auth_body&Hauth&_&Ho3). clear Hp.
  exists assignment, wr, mip_body, auth_body.
  assert (cdt ≠ sws) as Hneq by (intros ->; by rewrite lookup_singleton_eq in Hne).
  destruct (Ho3 cdt (frame (AGENT_MIP, mip_body))) as [Hin1 Htx1].
  { by rewrite lookup_insert_ne, lookup_singleton_eq. }
  destruct (Ho3 sws (frame (AUTH_CONNECT_TO_SWITCH, auth_body))) as [Hin2 Htx2]; [by rewrite lookup_insert_eq|].
  split_and!; try done. set_solver.
Qed.
End Properties.
End Agent.

(** ** Concrete runs *)

#[local] Instance agent_order : HostOrder := LittleEndian.
#[local] Instance agent_inet : Inet := dotted_quad.
#[local] Instance agent_malloc : Malloc := malloc_first_fit.
#[local] Instance agent_nodes : NodeAlloc := λ _, true.
#[local] Instance agent_codecs : Messages := codecs.

(** The conductor assigns the switch at 127.0.0.1:6000; the switch accepts. *)
Definition sample_assignment : PacketConnectToSwitch := mk_PacketConnectToSwitch "s1" 16777343 77 6000.
Definition sample_script (fd : Z) : list Byte.byte :=
  if fd =? 3 then frames [(HEARTBEAT, []); (CONNECT_TO_SWITCH, default [] (SerializeToString sample_assignment))]
  else frames [(CONNECTION_ACCEPTED, [])].

#[local] Instance agent_kernel : Kernel := scripted_kernel sample_script.
#[local] Instance agent_laws : KernelLaws agent_kernel := scripted_laws sample_script.

(** One connection is refused before the conductor is up. *)
Definition agent_world : @World agent_kernel AgentState :=
  mk_world (mk_queue (-1) (-1) ∅ ∅)
    (mk_sim (mk_kview ∅ ∅ ∅ 0 ∅ ∅ ∅) 1000 ∅ 1 0 0) AgentState_init.
Definition conductor_cfg : MachineConfig := mk_machine "127.0.0.1" 5000.

Definition agent_argv : list string := ["./agent"; "agent"; "key"].
Definition agent_env (name : string) : option string :=
  if decide (name = "CONDUCTOR_IP") then Some "127.0.0.1"
  else if decide (name = "CONDUCTOR_PORT") then Some "5000" else None.

(** A whole run of the agent with three turns of the event loop. *)
Example agent_main_run : exit_code (agent_main 200 3 agent_argv agent_env agent_world) = Some 0.
Proof. vm_compute. reflexivity. Qed.

(** Without its two arguments it only prints its usage. *)
Example agent_main_usage : exit_code (agent_main 200 3 ["./agent"] agent_env agent_world) = Some 1.
Proof. vm_compute. reflexivity. Qed.

Lemma agent_runs_safely_witness :
  ∃ w', agent_main 200 3 agent_argv agent_env agent_world = Ret (0, w').
Proof.
  pose proof (agent_runs_safely 200 3 agent_argv agent_env agent_world eq_refl) as Hsafe.
  assert (exit_code (agent_main 200 3 agent_argv agent_env agent_world) = Some 0) as Hcode
    by (vm_compute; reflexivity).
  destruct (agent_main 200 3 agent_argv agent_env agent_world) as [[code w']| | |]; try discriminate.
  exists w'. injection Hcode as ->. reflexivity.
Defined.

Definition started {R} (o : outcome (option Z * R)) : bool :=
  match o with Ret (Some _, _) => true | _ => false end.

Lemma agent_presents_assigned_token_witness :
  match register_at_conductor 200 "agent" "key" conductor_cfg agent_world with
  | Ret (Some cdt, w1) =>
    match authenticate_at_switch 200 cdt w1 with
    | Ret (Some sws, w2) =>
      ∃ body, tx_of (view (kern w2)) sws = frame (AUTH_CONNECT_TO_SWITCH, body) ∧ cdt ≠ sws
    | _ => False
    end
  | _ => False
  end.
Proof.
  assert (started ((cdt ← register_at_conductor 200 "agent" "key" conductor_cfg;
    match cdt with None => mret None | Some cdt => authenticate_at_switch 200 cdt end) agent_world) = true)
    as Hok by (vm_compute; reflexivity).
  unfold mbind, M_bind in Hok.
  destruct (register_at_conductor 200 "agent" "key" conductor_cfg agent_world) as [[[cdt|] w1]| | |] eqn:E1;
    try discriminate Hok.
  destruct (authenticate_at_switch 200 cdt w1) as [[[sws|] w2]| | |] eqn:E2; try discriminate Hok.
  destruct (agent_presents_assigned_token 200 "agent" "key" conductor_cfg agent_world cdt w1 sws w2 E1 E2)
    as (asg&wr&mip_body&auth_body&_&_&_&_&Htx&Hne&_).
  exists auth_body. split; [exact Htx|exact Hne].
Defined.

(** The event loop with a heartbeat pending from the conductor, and a packet
    that has partly arrived from the switch. *)
Definition loop_element (fd : Z) (p : loc) : NetworkElement := NetworkElement_new fd (Some p) SCK_HEADER.
Definition loop_rx : gmap Z (list Byte.byte) :=
  {[3 := frames [(HEARTBEAT, [])]; 4 := take 4 (frames [(HEARTBEAT, [])])]}.
Definition loop_world : @World agent_kernel AgentState :=
  mk_world (mk_queue 5 200 {[1%positive := loop_element 3 1%positive; 2%positive := loop_element 4 2%positive]}
      {[3 := 1%positive; 4 := 2%positive]})
    (mk_sim (mk_kview loop_rx {[3 := Open; 4 := Open]} ∅ 0 {[3; 4; 5]} {[5 := {[3 := 1%positive; 4 := 2%positive]}]} ∅)
      1000 {[3 := 65536; 4 := 65536]} 0 0 0)
    (mk_agent {[1%positive := mk_conn CONDUCTOR 3 0; 2%positive := mk_conn SWITCH 4 0]} (Some 1%positive) (Some 2%positive)).

Lemma loop_world_owned : owns (conn_inv agent_live) ∅ loop_world.
Proof.
  split; [|split; [apply map_empty_subseteq|split]].
  - split; cbn [loop_world queue elements fd_to_network_element kern epoll_fd].
    + intros fd p [[<- <-]|[_ [<- <-]%lookup_singleton_Some]]%lookup_insert_Some; eexists; split; reflexivity.
    + intros p e [[<- <-]|[_ [<- <-]%lookup_singleton_Some]]%lookup_insert_Some; reflexivity.
    + reflexivity.
    + reflexivity.
    + cbn. set_solver.
    + intros p e [[<- <-]|[_ [<- <-]%lookup_singleton_Some]]%lookup_insert_Some; vm_compute; repeat split; discriminate.
  - split; cbn [loop_world app queue]; unfold user_data; cbn [loop_world queue elements].
    + intros q x. rewrite lookup_fmap_Some. intros (e&<-&He).
      apply lookup_insert_Some in He as [[<- <-]|[_ [<- <-]%lookup_singleton_Some]];
        eexists; (split; [reflexivity|by eexists]).
    + intros q q' p. rewrite !lookup_fmap_Some. intros (e&E&He) (e'&E'&He').
      apply lookup_insert_Some in He as [[<- <-]|[_ [<- <-]%lookup_singleton_Some]];
        apply lookup_insert_Some in He' as [[<- <-]|[_ [<- <-]%lookup_singleton_Some]]; naive_solver.
  - intros p [[= <-]|[= <-]]; by eexists.
Qed.

Lemma loop_element_calm fuel fd p :
  70000 ≤ Z.of_nat fuel → fd = 3 ∨ fd = 4 → calm 0 (Z.to_nat EPOLL_MAX_EVENTS) fuel (loop_element fd p) (kern loop_world).
Proof.
  intros Hf Hfd. assert (length (rx_of (view (kern loop_world)) fd) ≤ 6)%nat as Hl
    by (destruct Hfd as [-> | ->]; vm_compute; lia).
  apply fresh_calm; [by destruct Hfd as [-> | ->]| |by destruct Hfd as [-> | ->]|lia|done|cbn; unfold WRITE_BUFFER_MAX; lia].
  destruct Hfd as [-> | ->]; (split; [vm_compute; repeat constructor; discriminate|vm_compute; lia]).
Qed.

Lemma agent_turn_returns_witness :
  ∃ w', ∀ turns, event_loop (Z.to_nat 70000) (S turns) loop_world = event_loop (Z.to_nat 70000) turns w'.
Proof.
  destruct (agent_turn_returns (Z.to_nat 70000) loop_world loop_world_owned) as (w'&_&E); [|by exists w'].
  intros r k [= <- <-] p e He. cbn [queue set_kern loop_world elements] in He.
  apply lookup_insert_Some in He as [[<- <-]|[_ [<- <-]%lookup_singleton_Some]]; apply loop_element_calm; auto; lia.
Defined.
