(* ===== verification/Switch.v ===== *)
(** * The switch

    Models src/switch/setup.cpp, all of main: the arguments, the registration
    at the conductor, the listener, the pending tokens, the authentication of
    agents, the heartbeats and the event loop.  The iterators of the token map
    are lookups; signal handling is the number of turns the event loop makes;
    the calls that set socket options, log and sleep have no effect in the
    model.  [program] is main over the dispatcher it installs, [switch_main]
    installs [SwitchDispatch]; SwitchRun has the theorems about whole runs. *)
From stdpp Require Import base option list gmap sets strings.
From Stdlib Require Import ZArith Lia.
From S2P Require Import Prelude Approx Args Bytes Kernel Protocol Framing Inet Proto NetQueue Heap ReadPath.
From S2P Require Import WritePath QueueInv SocketUtils Dispatch Monotone EventLoop Connections.

#[local] Open Scope Z_scope.

(** ** Data *)

(** std::chrono::seconds, in the nanoseconds of the steady clock. *)
Definition HEARTBEAT_INTERVAL : Z := 30 * 1000000000.
Definition TOKEN_EXPIRY : Z := 60 * 1000000000.
Definition MAX_CONNECT_RETRIES : nat := 20.
Definition LISTEN_BACKLOG : Z := 64.

Inductive ConnRole : Type := CONDUCTOR | AGENT_PENDING | AGENT_AUTHENTICATED.
#[export] Instance ConnRole_eq_dec : EqDecision ConnRole.
Proof. solve_decision. Defined.

Record ConnInfo : Type := mk_conn {
  c_role : ConnRole;
  c_name : string;
  c_fd : Z;
  c_last_hb_sent : Z      (* steady clock, ns *)
}.

#[export] Instance switch_connection : Connection ConnInfo := {|
  conn_fd := c_fd;
  conn_last_hb := c_last_hb_sent;
  with_last_hb now c := mk_conn (c_role c) (c_name c) (c_fd c) now
|}.

Record PendingToken : Type := mk_token {
  pt_agent_name : string;
  pt_created : Z          (* steady clock, ns *)
}.

Record SwitchState : Type := mk_switch {
  conns : gmap loc ConnInfo;               (* the live ConnInfo objects *)
  pending_tokens : gmap Z PendingToken;
  agents : list loc;
  conductor : option loc
}.

(** The initial value of [g_state]. *)
Definition SwitchState_init : SwitchState := mk_switch ∅ ∅ [] None.

#[export] Instance switch_heap : AppHeap SwitchState ConnInfo := {|
  heap := conns;
  set_heap h s := mk_switch h (pending_tokens s) (agents s) (conductor s);
  heap_set_heap _ _ := eq_refl;
  set_heap_set_heap _ _ _ := eq_refl;
  set_heap_heap '(mk_switch _ _ _ _) := eq_refl
|}.

Definition with_pending (m : gmap Z PendingToken) (s : SwitchState) : SwitchState :=
  mk_switch (conns s) m (agents s) (conductor s).
Definition with_agents (l : list loc) (s : SwitchState) : SwitchState :=
  mk_switch (conns s) (pending_tokens s) l (conductor s).
Definition with_conductor (p : option loc) (s : SwitchState) : SwitchState :=
  mk_switch (conns s) (pending_tokens s) (agents s) p.

Section Switch.
Context `{HostOrder} `{Inet} `{K : Kernel} `{Malloc} `{NodeAlloc} `{Messages}.
Abbreviation W := (@World K SwitchState).

(** ** SwitchState *)

Definition expire_tokens : M W () :=
  now ← syscall sys_steady_clock;
  modify_app (λ s, with_pending (filter (λ t, ¬ TOKEN_EXPIRY < now - pt_created t.2) (pending_tokens s)) s).

Section Main.
Variable fuel : nat.

(** ** The handlers *)

Definition onAgentConnectionToken (data : socket_data) (pkt : PacketAgentConnectionToken) : M W () :=
  let token := ct_connection_token pkt in
  let agent := ct_agent_name pkt in
  now ← syscall sys_steady_clock;
  modify_app (λ s, with_pending (<[token := mk_token agent now]> (pending_tokens s)) s).

Definition onAuthConnectToSwitch (data : socket_data) (pkt : PacketAuthConnectToSwitch) : M W () :=
  let info := sd_ptr_data data in
  let token := ac_connection_token pkt in
  s ← get_app;
  match pending_tokens s !! token with
  | None => close_fd (sd_fd data)
  | Some pending =>
    update_obj info (λ c, mk_conn AGENT_AUTHENTICATED (pt_agent_name pending) (c_fd c) (c_last_hb_sent c));;
    modify_app (λ s, with_pending (delete token (pending_tokens s)) s);;
    match info with
    | None => mret ()
    | Some info => modify_app (λ s, with_agents (agents s ++ [info]) s)
    end;;
    _ ← send_packet fuel (sd_fd data) CONNECTION_ACCEPTED (SerializeToString mk_PacketConnectionAccepted);
    _ ← deref_obj info;       (* the name is logged *)
    mret ()
  end.

Definition onClose (data : close_data) : M W () :=
  match cd_ptr_data data with
  | None => mret ()
  | Some info =>
    c ← deref_obj (Some info);
    (if decide (c_role c = AGENT_AUTHENTICATED) then
       modify_app (λ s, with_agents (filter (λ p, p ≠ info) (agents s)) s)
     else mret ());;
    s ← get_app;
    (if decide (conductor s = Some info) then modify_app (with_conductor None) else mret ());;
    delete_obj info
  end.

(** The virtual handlers that [SwitchDispatch] overrides. *)
Definition SwitchDispatch : Dispatch W :=
  mk_dispatch onClose (d_onTunReady Dispatch_default) (λ _, mret ()) (d_onSwitchMIP Dispatch_default)
    (d_onAgentMIP Dispatch_default) (d_onConnectToSwitch Dispatch_default) onAuthConnectToSwitch
    onAgentConnectionToken (d_onConnectionAccepted Dispatch_default) (d_onAgentMRP Dispatch_default).

(** ** Heartbeats *)

Definition send_heartbeats : M W () :=
  now ← syscall sys_steady_clock;
  s ← get_app;
  try_hb fuel HEARTBEAT_INTERVAL now (conductor s);;
  s ← get_app;
  try_hbs fuel HEARTBEAT_INTERVAL now (agents s).

(** ** main *)

Definition connect_with_retry (mc : MachineConfig) : M W Z := connect_attempts MAX_CONNECT_RETRIES mc.

(** Step 1: connect to the conductor and register the switch. *)
Definition register_at_conductor (switch_name auth_key : string) (port : Z) (conductor_cfg : MachineConfig) :
    M W (option Z) :=
  cdt_sock ← connect_with_retry conductor_cfg;
  if cdt_sock <? 0 then mret None
  else
    sent ← send_protobuf_packet fuel cdt_sock SWITCH_MIP
      (mk_PacketSwitchMIP switch_name auth_key "::internet" port);
    if negb sent then real_close cdt_sock;; mret None
    else
      _ ← set_nonblocking cdt_sock;
      mret (Some cdt_sock).

(** Accept the agents waiting on the listener. *)
Definition accept_agents (listener : Z) : M W () :=
  accept_loop (λ agent_fd now, mk_conn AGENT_PENDING "" agent_fd now) fuel listener.

Section Program.
Variable dispatch : Dispatch W.

(** Step 3: the queue with the connection to the conductor; [false] when it
    cannot be added. *)
Definition enter_queue (cdt_sock : Z) : M W bool :=
  NetQueue_new (makeNetworkQueueHandler (Some dispatch)) 200;;
  element ← add_connection (mk_conn CONDUCTOR "conductor" cdt_sock) with_conductor cdt_sock;
  mret (bool_decide (is_Some element)).

(** Step 4, for as many turns as [g_running] stays set. *)
Fixpoint event_loop (turns : nat) (listener : Z) : M W () :=
  match turns with
  | O => mret ()
  | S turns =>
    accept_agents listener;;
    wait_and_process (makeNetworkQueueHandler (Some dispatch)) fuel;;
    expire_tokens;;
    send_heartbeats;;
    event_loop turns listener
  end.

(** Steps 2 to 4, once the switch is registered. *)
Definition serve (turns : nat) (port cdt_sock : Z) : M W Z :=
  listener ← open_listener port LISTEN_BACKLOG;
  match listener with
  | None => mret 1
  | Some listener =>
    added ← enter_queue cdt_sock;
    if negb added then NetQueue_destroy;; mret 1
    else
      event_loop turns listener;;
      real_close listener;;
      NetQueue_destroy;;
      mret 0
  end.

(** [main]; the result is the exit code. *)
Definition program (turns : nat) (argv : list string) (getenv : environment) : M W Z :=
  match argv with
  | [_; switch_name; auth_key; port_arg] =>
    port ← stoi port_arg;
    match getenv "CONDUCTOR_IP", getenv "CONDUCTOR_PORT" with
    | Some cdt_ip_env, Some cdt_port_env =>
      cdt_port ← stoi cdt_port_env;
      cdt_sock ← register_at_conductor switch_name auth_key (u16 port)
        (mk_machine cdt_ip_env (u16 cdt_port));
      match cdt_sock with
      | None => mret 1
      | Some cdt_sock => serve turns (u16 port) cdt_sock
      end
    | _, _ => mret 1
    end
  | _ => mret 1
  end.
End Program.

Definition switch_main : nat → list string → environment → M W Z := program SwitchDispatch.
End Main.

(** ** The ledger of tokens *)

(** A token and the agent it authorises. *)
Abbreviation grant := (Z * string)%type.

Definition pending_grants (s : SwitchState) : list grant :=
  (λ t : Z * PendingToken, (t.1, pt_agent_name t.2)) <$> map_to_list (pending_tokens s).

(** What happens to a switch: the calls of its handlers, the arrival of
    agents and the expiry of tokens. *)
Inductive event : Type :=
  | EvToken (data : socket_data) (pkt : PacketAgentConnectionToken)
  | EvAuth (data : socket_data) (pkt : PacketAuthConnectToSwitch)
  | EvClose (data : close_data)
  | EvAccept (listener : Z)
  | EvExpire.

Definition run_event (fuel : nat) (ev : event) : M W () :=
  match ev with
  | EvToken data pkt => onAgentConnectionToken data pkt
  | EvAuth data pkt => onAuthConnectToSwitch fuel data pkt
  | EvClose data => onClose data
  | EvAccept listener => accept_agents fuel listener
  | EvExpire => expire_tokens
  end.

(** The handlers are called with the pointer of a live connection. *)
Definition event_ok (ev : event) (s : SwitchState) : Prop :=
  match ev with
  | EvAuth data _ => ∃ p, sd_ptr_data data = Some p ∧ is_Some (conns s !! p)
  | EvClose data => ∃ p, cd_ptr_data data = Some p ∧ is_Some (conns s !! p)
  | _ => True
  end.

(** The grant an event announces and the one it uses. *)
Definition pushes (ev : event) : list grant :=
  match ev with
  | EvToken _ pkt => [(ct_connection_token pkt, ct_agent_name pkt)]
  | _ => []
  end.
Definition accepts (ev : event) (s : SwitchState) : list grant :=
  match ev with
  | EvAuth _ pkt =>
    match pending_tokens s !! ac_connection_token pkt with
    | Some pt => [(ac_connection_token pkt, pt_agent_name pt)]
    | None => []
    end
  | _ => []
  end.

Section Properties.
Context `{KL : !KernelLaws K}.

(** The runs of a switch from its start: the grants announced and used so far. *)
Inductive reaches (fuel : nat) : W → list grant → list grant → Prop :=
  | reaches_start w : queue_wf w → app w = SwitchState_init → reaches fuel w [] []
  | reaches_step w pushed accepted ev w' :
      reaches fuel w pushed accepted → event_ok ev (app w) → run_event fuel ev w = Ret ((), w') →
      reaches fuel w' (pushes ev ++ pushed) (accepts ev (app w) ++ accepted).

(** ** The invariant *)

(** The registered agents are live and authenticated, under the name of a
    grant that was used; the conductor's connection is live; every grant used
    or pending was announced. *)
Record ledger_wf (pushed accepted : list grant) (s : SwitchState) : Prop := {
  led_agents p : p ∈ agents s → ∃ c t, conns s !! p = Some c ∧ c_role c = AGENT_AUTHENTICATED ∧
    (t, c_name c) ∈ accepted;
  led_conductor p : conductor s = Some p → is_Some (conns s !! p);
  led_grants : accepted ++ pending_grants s ⊆+ pushed
}.

Lemma pending_grants_insert s t pt :
  pending_grants (with_pending (<[t := pt]> (pending_tokens s)) s) ⊆+
  (t, pt_agent_name pt) :: pending_grants s.
Proof.
  unfold pending_grants; cbn. rewrite <-insert_delete_eq, map_to_list_insert by apply lookup_delete_eq.
  rewrite fmap_cons. apply submseteq_skip, fmap_submseteq, map_to_list_submseteq, delete_subseteq.
Qed.

Lemma pending_grants_delete s t pt :
  pending_tokens s !! t = Some pt →
  pending_grants s ≡ₚ (t, pt_agent_name pt) :: pending_grants (with_pending (delete t (pending_tokens s)) s).
Proof.
  intros Ht. unfold pending_grants; cbn. rewrite <-(map_to_list_delete (pending_tokens s) t pt Ht).
  by rewrite fmap_cons.
Qed.

Lemma pending_grants_mono s m : m ⊆ pending_tokens s → pending_grants (with_pending m s) ⊆+ pending_grants s.
Proof. intros Hm. by apply fmap_submseteq, map_to_list_submseteq. Qed.
(** ** Each event keeps the invariant *)

Abbreviation ledger pushed accepted := (λ s (_ : gmap loc (option loc)), ledger_wf pushed accepted s).

(** The outcome of an event: it reaches no undefined behaviour, and keeps the
    invariant with the grants it announces and uses. *)
Definition step_ok (ev : event) pushed accepted w (r : outcome (() * W)) : Prop :=
  match r with
  | Ret (_, w') => owns (ledger (pushes ev ++ pushed) (accepts ev (app w) ++ accepted)) ∅ w'
  | Undef _ => False
  | Throw _ | OutOfFuel => True
  end.

(** Fewer pending tokens. *)
Lemma ledger_pending_mono pushed accepted s m :
  ledger_wf pushed accepted s → m ⊆ pending_tokens s → ledger_wf pushed accepted (with_pending m s).
Proof.
  intros [Ha Hc Hg] Hm. split; [done..|]. etrans; [|exact Hg].
  by apply submseteq_skips_l, pending_grants_mono.
Qed.

Lemma token_step fuel data pkt pushed accepted w :
  owns (ledger pushed accepted) ∅ w →
  step_ok (EvToken data pkt) pushed accepted w (run_event fuel (EvToken data pkt) w).
Proof.
  intros Ho. cbn [run_event]. unfold onAgentConnectionToken. cbv zeta.
  destruct (steady_clock_owns _ _ _ Ho) as (now&k&E&Ho1). erewrite bind_ret by apply E.
  cbn [step_ok modify_app]. destruct Ho1 as (Hwf&Hm&[Ha Hc Hg]).
  split_and!; [by apply set_app_wf|done|]. split; [done..|]. cbn [pushes accepts app set_app].
  etrans; [apply submseteq_skips_l, pending_grants_insert|].
  rewrite <-Permutation_middle. by apply submseteq_skip.
Qed.

Lemma expire_step fuel pushed accepted w :
  owns (ledger pushed accepted) ∅ w → step_ok EvExpire pushed accepted w (run_event fuel EvExpire w).
Proof.
  intros Ho. cbn [run_event]. unfold expire_tokens.
  destruct (steady_clock_owns _ _ _ Ho) as (now&k&E&Ho1). erewrite bind_ret by apply E.
  cbn [step_ok modify_app]. apply set_app_owns; [done|].
  apply ledger_pending_mono; [apply Ho1|apply map_filter_subseteq].
Qed.

(** The state after a connection was closed. *)
Definition forget (p : loc) (c : ConnInfo) (s : SwitchState) : SwitchState :=
  mk_switch (delete p (conns s)) (pending_tokens s)
    (if decide (c_role c = AGENT_AUTHENTICATED) then filter (λ q, q ≠ p) (agents s) else agents s)
    (if decide (conductor s = Some p) then None else conductor s).

Lemma switch_close_run data w p c :
  cd_ptr_data data = Some p → conns (app w) !! p = Some c →
  onClose data w = Ret ((), set_app (forget p c (app w)) w).
Proof.
  intros Hp Hc. unfold onClose. rewrite Hp. erewrite bind_ret by by apply deref_obj_run. unfold forget.
  destruct (decide (c_role c = AGENT_AUTHENTICATED)); (erewrite bind_ret by reflexivity);
    (erewrite (bind_ret get_app) by reflexivity); cbn [app set_app conductor with_agents];
    (destruct (decide (conductor (app w) = Some p)); erewrite bind_ret by reflexivity);
    by erewrite delete_obj_run by exact Hc.
Qed.

Lemma close_step fuel data pushed accepted w :
  owns (ledger pushed accepted) ∅ w → event_ok (EvClose data) (app w) →
  step_ok (EvClose data) pushed accepted w (run_event fuel (EvClose data) w).
Proof.
  intros Ho (p&Hp&c&Hc). cbn [run_event]. rewrite (switch_close_run data w p c Hp Hc). cbn [step_ok].
  apply set_app_owns; [done|]. destruct Ho as (_&_&[Ha Hcd Hg]). cbn [pushes accepts].
  split; cbn; [| |exact Hg].
  - intros q Hq. assert (q ∈ agents (app w) ∧ q ≠ p) as [Hin Hne].
    { destruct (decide (c_role c = AGENT_AUTHENTICATED)) as [Hr|Hr].
      - by apply list_elem_of_filter in Hq as [??].
      - split; [done|]. intros ->. destruct (Ha p Hq) as (c'&t&Hc'&Hr'&_). congruence. }
    destruct (Ha q Hin) as (c'&t&Hc'&?&?). exists c', t. by rewrite lookup_delete_ne.
  - intros q. destruct (decide _) as [|Hne]; [done|]. intros Hq.
    rewrite lookup_delete_ne; [by apply Hcd|]. by intros ->.
Qed.

#[local] Instance ledger_HeapInv pushed accepted : HeapInv (ledger_wf pushed accepted) (λ _, True).
Proof.
  split.
  - intros s p c now [Ha Hc Hg] Hp. split; [| |exact Hg].
    + intros q Hq. destruct (Ha q Hq) as (d&t&Hd&Hr&Hin). cbn. destruct (decide (p = q)) as [<-|Hne].
      * rewrite lookup_insert_eq. eexists _, t. split; [done|]. cbn in Hp. by simplify_eq.
      * rewrite lookup_insert_ne by done. by exists d, t.
    + intros q Hq. apply lookup_insert_is_Some'. right. by apply Hc.
  - intros s p c [Ha Hc Hg] Hp _. split; [| |exact Hg].
    + intros q Hq. destruct (Ha q Hq) as (d&t&Hd&?). exists d, t. cbn in *.
      by rewrite lookup_insert_ne by congruence.
    + intros q Hq. apply lookup_insert_is_Some'. right. by apply Hc.
Qed.

Lemma accept_agents_owns fuel listener pushed accepted :
  hoare (λ _, False) (owns (ledger pushed accepted) ∅) (accept_agents fuel listener)
    (λ _, owns (ledger pushed accepted) ∅).
Proof. by apply (accept_loop_owns _ (λ _, True)). Qed.

(** A valid token: the agent is authenticated under the name that came with
    the token, which is used up, and told so. *)
Definition authenticated (p : loc) (c : ConnInfo) (t : Z) (pt : PendingToken) (s : SwitchState) : SwitchState :=
  mk_switch (<[p := mk_conn AGENT_AUTHENTICATED (pt_agent_name pt) (c_fd c) (c_last_hb_sent c)]> (conns s))
    (delete t (pending_tokens s)) (agents s ++ [p]) (conductor s).

Lemma valid_token_run fuel data pkt w p c pt :
  sd_ptr_data data = Some p → conns (app w) !! p = Some c →
  pending_tokens (app w) !! ac_connection_token pkt = Some pt →
  onAuthConnectToSwitch fuel data pkt w =
  (_ ← send_packet fuel (sd_fd data) CONNECTION_ACCEPTED (SerializeToString mk_PacketConnectionAccepted);
   _ ← deref_obj (Some p); mret ())
    (set_app (authenticated p c (ac_connection_token pkt) pt (app w)) w).
Proof.
  intros Hp Hc Hpt. unfold onAuthConnectToSwitch. cbv zeta. rewrite Hp.
  erewrite (bind_ret get_app) by reflexivity. rewrite Hpt.
  erewrite bind_ret by by apply update_obj_run.
  erewrite (bind_ret (modify_app _)) by reflexivity.
  by erewrite (bind_ret (modify_app _)) by reflexivity.
Qed.

Lemma ledger_authenticated pushed accepted s p c t pt :
  ledger_wf pushed accepted s → conns s !! p = Some c → pending_tokens s !! t = Some pt →
  ledger_wf pushed ((t, pt_agent_name pt) :: accepted) (authenticated p c t pt s).
Proof.
  intros [Ha Hcd Hg] Hc Ht. split; cbn.
  - intros q Hq. destruct (decide (p = q)) as [<-|Hne].
    + eexists _, t. split; [apply lookup_insert_eq|]. split; [done|]. apply list_elem_of_here.
    + apply elem_of_app in Hq as [Hq|Hq%list_elem_of_singleton]; [|by destruct Hne].
      destruct (Ha q Hq) as (d&t'&Hd&Hr&Hin). exists d, t'. rewrite lookup_insert_ne by done.
      split_and!; [done|done|]. by apply list_elem_of_further.
  - intros q Hq. destruct (decide (p = q)) as [<-|Hne]; [by rewrite lookup_insert_eq|].
    rewrite lookup_insert_ne by done. by apply Hcd.
  - etrans; [|exact Hg]. rewrite (pending_grants_delete s t pt Ht). apply Permutation_submseteq.
    by rewrite (Permutation_middle accepted).
Qed.

(** Sending keeps the handlers' state. *)
Lemma send_packet_app fuel fd type body (w : W) :
  queue_wf w →
  match send_packet fuel fd type body w with
  | Ret (_, w') => queue_wf w' ∧ app w' = app w
  | Undef _ => False
  | _ => True
  end.
Proof.
  intros Hwf. pose proof (send_packet_owns (allowed := λ _, False) (λ (s : SwitchState) _, s = app w) ∅ fuel fd type body w) as Hs.
  destruct (send_packet fuel fd type body w) as [[b w']| | |]; try done.
  - by destruct Hs as (?&_&?); [split_and!; [done|apply map_empty_subseteq|done]|].
  - by apply Hs; split_and!; [|apply map_empty_subseteq|].
Qed.

(** A token that is not pending closes the connection. *)
Lemma invalid_token_run fuel data pkt w :
  queue_wf w → pending_tokens (app w) !! ac_connection_token pkt = None →
  ∃ w', onAuthConnectToSwitch fuel data pkt w = Ret ((), w') ∧ app w' = app w ∧ queue_wf w' ∧
    ∀ q, fd_to_network_element (queue w) !! sd_fd data = Some q →
      elements (queue w') = delete q (elements (queue w)) ∧
      fd_to_network_element (queue w') = delete (sd_fd data) (fd_to_network_element (queue w)) ∧
      sd_fd data ∉ open_fds (view (kern w')).
Proof.
  intros Hwf Hno. unfold onAuthConnectToSwitch. cbv zeta. erewrite (bind_ret get_app) by reflexivity.
  rewrite Hno. unfold close_fd. erewrite (bind_ret (get_network_element_from_fd _)) by reflexivity.
  destruct (fd_to_network_element (queue w) !! sd_fd data) as [q|] eqn:Hq; [|by exists w].
  destruct (close_element_run w (sd_fd data) q Hwf Hq) as (k&E&Ho&Hi).
  exists (closed_world (sd_fd data) q k w). split; [done|]. split; [done|].
  split; [by apply closed_world_wf|]. intros q' [= <-]. cbn. rewrite Ho. split_and!; [done..|set_solver].
Qed.

Lemma auth_step fuel data pkt pushed accepted w :
  owns (ledger pushed accepted) ∅ w → event_ok (EvAuth data pkt) (app w) →
  step_ok (EvAuth data pkt) pushed accepted w (run_event fuel (EvAuth data pkt) w).
Proof.
  intros (Hwf&Hm&Hl) (p&Hp&c&Hc). cbn [run_event].
  destruct (pending_tokens (app w) !! ac_connection_token pkt) as [pt|] eqn:Hpt.
  - rewrite (valid_token_run fuel data pkt w p c pt Hp Hc Hpt). set (w1 := set_app _ w).
    pose proof (send_packet_app fuel (sd_fd data) CONNECTION_ACCEPTED
      (SerializeToString mk_PacketConnectionAccepted) w1 (set_app_wf _ _ Hwf)) as Hs.
    unfold mbind at 1, M_bind at 1. destruct (send_packet _ _ _ _ w1) as [[b w2]| | |]; try done.
    destruct Hs as [Hwf2 Happ2].
    erewrite bind_ret by (apply deref_obj_run; cbn; rewrite Happ2; apply lookup_insert_eq).
    cbn [step_ok]. split; [done|]. split; [apply map_empty_subseteq|].
    cbn [pushes accepts]. rewrite Hpt, Happ2. by apply ledger_authenticated.
  - destruct (invalid_token_run fuel data pkt w Hwf Hpt) as (w'&E&Happ&Hwf'&_). rewrite E.
    cbn [step_ok]. split; [done|]. split; [apply map_empty_subseteq|].
    cbn [pushes accepts]. by rewrite Hpt, Happ.
Qed.

Lemma event_step fuel ev pushed accepted w :
  owns (ledger pushed accepted) ∅ w → event_ok ev (app w) →
  step_ok ev pushed accepted w (run_event fuel ev w).
Proof.
  intros Ho Hev. destruct ev; [by apply token_step|by apply auth_step|by apply close_step| |by apply expire_step].
  pose proof (accept_agents_owns fuel listener pushed accepted w Ho) as Ha. cbn [run_event].
  by destruct (accept_agents fuel listener w) as [[[] w']| | |].
Qed.

Lemma reaches_owns fuel w pushed accepted :
  reaches fuel w pushed accepted → owns (ledger pushed accepted) ∅ w.
Proof.
  induction 1 as [w Hwf Happ|w pushed accepted ev w' Hr IH Hev E].
  - split; [done|]. split; [apply map_empty_subseteq|]. rewrite Happ. split; cbn; [|done|done].
    by intros p ?%elem_of_nil.
  - pose proof (event_step fuel ev _ _ _ IH Hev) as Hs. by rewrite E in Hs.
Qed.

(** C8: an agent is admitted only with a token that was announced for it: in every state a switch
    can reach, through any sequence of token announcements, authentication attempts, new
    connections, closes and expirations, each acceptance used up an announcement of its own (same
    token, same agent name, never the same announcement twice), every registered agent is a live,
    authenticated connection that bears the name of such an acceptance, and no further event
    reaches undefined behaviour in the handlers. *)
Theorem agents_are_authorised_by_tokens fuel w pushed accepted :
  reaches fuel w pushed accepted →
  accepted ⊆+ pushed ∧
  (∀ p, p ∈ agents (app w) → ∃ c t, conns (app w) !! p = Some c ∧
     c_role c = AGENT_AUTHENTICATED ∧ (t, c_name c) ∈ accepted) ∧
  (∀ ev u, event_ok ev (app w) → run_event fuel ev w ≠ Undef u).
Proof.
  intros Hr%reaches_owns. pose proof Hr as (_&_&[Ha _ Hg]). split_and!.
  - etrans; [|exact Hg]. by apply submseteq_inserts_r.
  - exact Ha.
  - intros ev u Hev E. pose proof (event_step fuel ev _ _ _ Hr Hev) as Hs. by rewrite E in Hs.
Qed.

(** A pending token on a registered connection. *)
Lemma valid_token_result fuel data pkt w p c pt q e body :
  queue_wf w → sd_ptr_data data = Some p → conns (app w) !! p = Some c →
  pending_tokens (app w) !! ac_connection_token pkt = Some pt →
  elements (queue w) !! q = Some e → el_fd e = sd_fd data → sendable e →
  Z.of_nat (length (write_buffer e)) < 2 ^ 62 →
  SerializeToString mk_PacketConnectionAccepted = Some body →
  let fr := frame (CONNECTION_ACCEPTED, body) in
  (length fr + signals (view (kern w)) + 1 ≤ fuel)%nat →
  ∃ w' e' bs, onAuthConnectToSwitch fuel data pkt w = Ret ((), w') ∧ queue_wf w' ∧
    app w' = authenticated p c (ac_connection_token pkt) pt (app w) ∧
    elements (queue w') !! q = Some e' ∧ bs `prefix_of` fr ∧ output e' (kern w') = output e (kern w) ++ bs.
Proof.
  intros Hwf Hp Hc Hpt He Hfd Hse Hwb Hser fr Hfuel. pose proof (serialize_size _ _ Hser) as Hsz.
  assert (fd_to_network_element (queue w) !! el_fd e = Some q) as Hq by by apply (wf_owned _ Hwf).
  rewrite (valid_token_run fuel data pkt w p c pt Hp Hc Hpt). set (w1 := set_app _ w).
  pose proof (send_packet_app fuel (sd_fd data) CONNECTION_ACCEPTED (Some body) w1 (set_app_wf _ _ Hwf)) as Hs.
  destruct (send_packet_at q w1 e (kern w1) CONNECTION_ACCEPTED body fuel) as (b&e'&k'&bs&E&[Hpre _]&Hsent&_);
    [done|done|unfold in_width; lia|unfold fr in *; rewrite length_frame in *; cbn [snd] in *; lia|done|].
  rewrite Hfd, at_element_self in E by done. rewrite E in Hs. destruct Hs as [Hwf2 Happ2].
  rewrite Hser. eexists _, e', bs. erewrite bind_ret by exact E.
  erewrite bind_ret by (apply deref_obj_run; cbn; apply lookup_insert_eq).
  split; [reflexivity|]. split; [done|]. split; [done|].
  split; [cbn; apply lookup_insert_eq|done].
Qed.

(** The answer to an authentication: a pending token registers the connection as the agent it
    was announced for, is consumed, and is answered with a CONNECTION_ACCEPTED frame (as much of
    it as the connection takes); any other token closes the connection and changes nothing
    else. *)
Theorem token_decides_authentication fuel data pkt w p c q e body :
  queue_wf w → sd_ptr_data data = Some p → conns (app w) !! p = Some c →
  elements (queue w) !! q = Some e → el_fd e = sd_fd data → sendable e →
  Z.of_nat (length (write_buffer e)) < 2 ^ 62 →
  SerializeToString mk_PacketConnectionAccepted = Some body →
  let fr := frame (CONNECTION_ACCEPTED, body) in
  (length fr + signals (view (kern w)) + 1 ≤ fuel)%nat →
  ∃ w', onAuthConnectToSwitch fuel data pkt w = Ret ((), w') ∧ queue_wf w' ∧
    match pending_tokens (app w) !! ac_connection_token pkt with
    | Some pt =>
      app w' = authenticated p c (ac_connection_token pkt) pt (app w) ∧
      ∃ e' bs, elements (queue w') !! q = Some e' ∧ bs `prefix_of` fr ∧
        output e' (kern w') = output e (kern w) ++ bs
    | None =>
      app w' = app w ∧ elements (queue w') = delete q (elements (queue w)) ∧
      sd_fd data ∉ open_fds (view (kern w'))
    end.
Proof.
  intros Hwf Hp Hc He Hfd Hse Hwb Hser fr Hfuel.
  assert (fd_to_network_element (queue w) !! el_fd e = Some q) as Hq by by apply (wf_owned _ Hwf).
  destruct (pending_tokens (app w) !! ac_connection_token pkt) as [pt|] eqn:Hpt.
  - destruct (valid_token_result fuel data pkt w p c pt q e body) as (w'&e'&bs&E&Hwf'&Happ&He'&Hpre&Hout);
      [done..|]. exists w'. split_and!; [done..|]. by exists e', bs.
  - destruct (invalid_token_run fuel data pkt w Hwf Hpt) as (w'&E&Happ&Hwf'&Hgone).
    destruct (Hgone q) as (Hel&_&Ho); [by rewrite <-Hfd|]. by exists w'.
Qed.

(** A wrong token crashes the switch: the handler closes, and so frees, the very element
    [process] is working on, and the loop then resets that element.  Any client that can connect
    can send such a packet. *)
Theorem wrong_token_use_after_free fuel w q e (pkt : PacketAuthConnectToSwitch) payload :
  queue_wf w → elements (queue w) !! q = Some e → receiving e → el_state e = SCK_READY →
  stream_type (net_buffer e) = AUTH_CONNECT_TO_SWITCH →
  buffered e = frame (AUTH_CONNECT_TO_SWITCH, payload) → SerializeToString pkt = Some payload →
  pending_tokens (app w) !! ac_connection_token pkt = None →
  process_step (makeNetworkQueueHandler (Some (SwitchDispatch fuel))) q w = Undef UseAfterFree.
Proof.
  intros Hwf He Hr Hst Hty Hbuf Hser Hno.
  rewrite (typed_packet_step (SwitchDispatch fuel) q w e payload _ _ (onAuthConnectToSwitch fuel) pkt He Hr Hst);
    [|by rewrite Hty|rewrite Hty; apply (typed_auth (SwitchDispatch fuel))|done].
  destruct (invalid_token_run fuel (packet_data q e) pkt w Hwf Hno) as (w'&E&_&_&Hgone).
  destruct (Hgone q (wf_owned _ Hwf q e He)) as [Hel _].
  erewrite bind_ret by apply E. unfold after_packet, mbind, M_bind, update.
  by rewrite Hel, lookup_delete_eq.
Qed.

(** The sender of a token is not looked at: a connection that announces a
    token of its own and then presents it is admitted, under any name. *)
Lemma connection_authorises_itself fuel data p c t name (w : W) :
  queue_wf w → sd_ptr_data data = Some p → conns (app w) !! p = Some c →
  match (onAgentConnectionToken data (mk_PacketAgentConnectionToken name t);;
         onAuthConnectToSwitch fuel data (mk_PacketAuthConnectToSwitch t)) w with
  | Ret (_, w') => p ∈ agents (app w') ∧ c_name <$> conns (app w') !! p = Some name
  | Undef _ => False
  | _ => True
  end.
Proof.
  intros Hwf Hp Hc. unfold onAgentConnectionToken. cbv zeta.
  destruct (steady_clock_owns (λ _ _, True) ∅ w) as (now&k&E&Hwf1&_); [by split_and!; [|apply map_empty_subseteq|]|].
  unfold mbind at 1, M_bind at 1. erewrite bind_ret by apply E. cbn [modify_app].
  set (w1 := set_app _ _).
  rewrite (valid_token_run fuel data _ w1 p c (mk_token name now) Hp Hc) by apply lookup_insert_eq.
  set (w2 := set_app _ w1).
  pose proof (send_packet_app fuel (sd_fd data) CONNECTION_ACCEPTED
    (SerializeToString mk_PacketConnectionAccepted) w2) as Hs.
  unfold mbind at 1, M_bind at 1. destruct (send_packet _ _ _ _ w2) as [[b w3]| | |]; try done.
  2: { by apply Hs; repeat apply set_app_wf. }
  destruct Hs as [_ Happ]; [by repeat apply set_app_wf|].
  assert (conns (app w3) !! p = Some (mk_conn AGENT_AUTHENTICATED name (c_fd c) (c_last_hb_sent c))) as Hc3
    by (rewrite Happ; apply lookup_insert_eq).
  erewrite bind_ret by by apply deref_obj_run. cbn [mret M_ret]. rewrite Hc3. split; [|done].
  rewrite Happ. apply elem_of_app. right. by apply list_elem_of_singleton.
Qed.
End Properties.
End Switch.

(** ** Concrete runs *)

#[local] Instance switch_order : HostOrder := LittleEndian.
#[local] Instance switch_inet : Inet := dotted_quad.
#[local] Instance switch_malloc : Malloc := malloc_first_fit.
#[local] Instance switch_nodes : NodeAlloc := λ _, true.
#[local] Instance switch_codecs : Messages := codecs.

Abbreviation SW := (@World sim_kernel SwitchState).

#[export] Instance event_ok_dec ev s : Decision (event_ok ev s).
Proof.
  destruct ev as [|data pkt|data| |]; cbn; try (left; exact I).
  - destruct (sd_ptr_data data) as [p|]; [|right; by intros (?&?&_)].
    destruct (decide (is_Some (conns s !! p))); [left; eauto|right; naive_solver].
  - destruct (cd_ptr_data data) as [p|]; [|right; by intros (?&?&_)].
    destruct (decide (is_Some (conns s !! p))); [left; eauto|right; naive_solver].
Defined.

(** Run a list of events, keeping the ledger. *)
Fixpoint run_events (fuel : nat) (evs : list event) (w : SW) (pushed accepted : list (Z * string)) :
    option (SW * list (Z * string) * list (Z * string)) :=
  match evs with
  | [] => Some (w, pushed, accepted)
  | ev :: evs =>
    if decide (event_ok ev (app w)) then
      match run_event fuel ev w with
      | Ret (_, w') => run_events fuel evs w' (pushes ev ++ pushed) (accepts ev (app w) ++ accepted)
      | _ => None
      end
    else None
  end.

Lemma run_events_reaches fuel evs w pushed accepted w' pushed' accepted' :
  reaches fuel w pushed accepted →
  run_events fuel evs w pushed accepted = Some (w', pushed', accepted') → reaches fuel w' pushed' accepted'.
Proof.
  revert w pushed accepted. induction evs as [|ev evs IH]; intros w pushed accepted Hr E.
  { by injection E as <- <- <-. }
  cbn [run_events] in E. destruct (decide (event_ok ev (app w))); [|done].
  destruct (run_event fuel ev w) as [[[] w1]| | |] eqn:E1; try done.
  eapply IH; [|exact E]. by econstructor.
Qed.

(** An empty queue and two agents about to connect. *)
Definition start_world : SW :=
  mk_world (mk_queue 3 200 ∅ ∅)
    (mk_sim (mk_kview ∅ ∅ ∅ 0 {[3; 4]} ∅ ∅) 1000 ∅ 0 2 0) SwitchState_init.

Lemma start_world_wf : queue_wf start_world.
Proof. by split; cbn. Qed.

Definition data_of (element info : loc) (fd : Z) : socket_data :=
  mk_socket_data element (Some info) fd AUTH_CONNECT_TO_SWITCH (mk_buffer_ptr element 6) 8
    (mk_buffer_ptr element 0) 14.

(** The first agent uses the token announced for it; the second tries the same token. *)
Definition sample_events : list event :=
  [EvAccept 4; EvToken (data_of 1%positive 1%positive 5) (mk_PacketAgentConnectionToken "alice" 77);
   EvAuth (data_of 1%positive 1%positive 5) (mk_PacketAuthConnectToSwitch 77);
   EvAuth (data_of 2%positive 2%positive 6) (mk_PacketAuthConnectToSwitch 77)].

Definition ledger_of (r : option (SW * list (Z * string) * list (Z * string))) :
    option (list loc * list (Z * string) * list (Z * string)) :=
  match r with Some (w, pu, ac) => Some (agents (app w), pu, ac) | None => None end.

Lemma agents_are_authorised_by_tokens_witness :
  ∃ w, reaches 100 w [(77, "alice")] [(77, "alice")] ∧ agents (app w) = [1%positive] ∧
    ∃ c t, conns (app w) !! 1%positive = Some c ∧ (t, c_name c) ∈ [(77, "alice")].
Proof.
  assert (ledger_of (run_events 100 sample_events start_world [] []) =
    Some ([1%positive], [(77, "alice")], [(77, "alice")])) as Hrun by (vm_compute; reflexivity).
  destruct (run_events 100 sample_events start_world [] []) as [[[w pushed] accepted]|] eqn:E;
    [|discriminate Hrun].
  injection Hrun as Hag -> ->. exists w.
  pose proof (run_events_reaches _ _ _ _ _ _ _ _
    (reaches_start 100 start_world start_world_wf eq_refl) E) as Hr.
  split; [exact Hr|]. split; [exact Hag|].
  destruct (agents_are_authorised_by_tokens 100 w [(77, "alice")] [(77, "alice")] Hr) as (_&Hagents&_).
  destruct (Hagents 1%positive) as (c&t&Hc&_&Hin); [rewrite Hag; apply list_elem_of_here|].
  exists c, t. split; [exact Hc|exact Hin].
Defined.

(** A connection on descriptor 5 that has sent the token 78; only 77 is pending. *)
Definition wrong_packet : PacketAuthConnectToSwitch := mk_PacketAuthConnectToSwitch 78.
Definition wrong_body : list Byte.byte := default [] (SerializeToString wrong_packet).
Definition auth_element : NetworkElement :=
  mk_element SCK_READY 5 (Some 1%positive) (Z.of_nat (6 + length wrong_body))
    (frame (AUTH_CONNECT_TO_SWITCH, wrong_body)) [] 0.
Definition auth_world : SW :=
  mk_world (mk_queue 3 200 {[1%positive := auth_element]} {[5 := 1%positive]})
    (mk_sim (mk_kview {[5 := []]} {[5 := Open]} ∅ 0 {[3; 5]} {[3 := {[5 := 1%positive]}]} ∅)
      1000 {[5 := 65536]} 0 0 0)
    (mk_switch {[1%positive := mk_conn AGENT_PENDING "" 5 0]} {[77 := mk_token "alice" 0]} [] None).

Lemma auth_world_wf : queue_wf auth_world.
Proof.
  split; cbn [auth_world queue elements fd_to_network_element kern epoll_fd].
  - intros fd p [<- <-]%lookup_singleton_Some. exists auth_element. by rewrite lookup_singleton_eq.
  - intros p e [<- <-]%lookup_singleton_Some. reflexivity.
  - reflexivity.
  - reflexivity.
  - cbn. set_solver.
  - intros p e [<- <-]%lookup_singleton_Some. vm_compute. repeat split; discriminate.
Qed.

Lemma token_decides_authentication_witness :
  (∃ w', onAuthConnectToSwitch 100 (packet_data 1%positive auth_element) (mk_PacketAuthConnectToSwitch 77)
      auth_world = Ret ((), w') ∧ agents (app w') = [1%positive]) ∧
  (∃ w', onAuthConnectToSwitch 100 (packet_data 1%positive auth_element) wrong_packet auth_world =
      Ret ((), w') ∧ app w' = app auth_world).
Proof.
  split.
  - destruct (token_decides_authentication 100 (packet_data 1%positive auth_element)
      (mk_PacketAuthConnectToSwitch 77) auth_world 1%positive (mk_conn AGENT_PENDING "" 5 0) 1%positive
      auth_element [] auth_world_wf) as (w'&E&_&Happ&_);
      [reflexivity..|split; vm_compute; [split; discriminate|discriminate|reflexivity]
       |vm_compute; reflexivity|vm_compute; reflexivity|vm_compute; lia|].
    exists w'. split; [exact E|]. rewrite Happ. reflexivity.
  - destruct (token_decides_authentication 100 (packet_data 1%positive auth_element)
      wrong_packet auth_world 1%positive (mk_conn AGENT_PENDING "" 5 0) 1%positive
      auth_element [] auth_world_wf) as (w'&E&_&Happ&_);
      [reflexivity..|split; vm_compute; [split; discriminate|discriminate|reflexivity]
       |vm_compute; reflexivity|vm_compute; reflexivity|vm_compute; lia|].
    exists w'. split; [exact E|exact Happ].
Defined.

Lemma wrong_token_use_after_free_witness :
  process_step (makeNetworkQueueHandler (Some (SwitchDispatch 100))) 1%positive auth_world =
  Undef UseAfterFree.
Proof.
  apply (wrong_token_use_after_free 100 auth_world 1%positive auth_element wrong_packet wrong_body auth_world_wf).
  - reflexivity.
  - split; vm_compute; [split; discriminate|discriminate|reflexivity].
  - reflexivity.
  - vm_compute. reflexivity.
  - vm_compute. reflexivity.
  - reflexivity.
  - reflexivity.
Defined.
