(* ===== verification/SwitchRun.v ===== *)
(** * Runs of the switch

    The safety of whole runs of main in src/switch/setup.cpp: the switch is
    compared with the program whose handler refuses the tokens that are not
    pending. *)
From stdpp Require Import base option list gmap sets strings.
From Stdlib Require Import ZArith Lia.
From S2P Require Import Prelude Approx Args Bytes Kernel Protocol Framing Inet Proto NetQueue Heap ReadPath.
From S2P Require Import WritePath QueueInv SocketUtils Dispatch Monotone EventLoop Crash Connections Switch.

#[local] Open Scope Z_scope.

Section SwitchRun.
Context `{HostOrder} `{Inet} `{K : Kernel} `{Malloc} `{NodeAlloc} `{Messages}.
Abbreviation W := (@World K SwitchState).

(** ** The guarded switch *)

Definition token_pending (pkt : PacketAuthConnectToSwitch) (w : W) : bool :=
  bool_decide (is_Some (pending_tokens (app w) !! ac_connection_token pkt)).

(** The dispatcher that refuses the tokens that are not pending. *)
Definition GuardedDispatch (fuel : nat) : Dispatch W :=
  mk_dispatch onClose (d_onTunReady Dispatch_default) (λ _, mret ()) (d_onSwitchMIP Dispatch_default)
    (d_onAgentMIP Dispatch_default) (d_onConnectToSwitch Dispatch_default)
    (λ data pkt, guard (token_pending pkt) (onAuthConnectToSwitch fuel data pkt))
    onAgentConnectionToken (d_onConnectionAccepted Dispatch_default) (d_onAgentMRP Dispatch_default).

Section Approx.
Context (st : stop).

Lemma SwitchDispatch_approx n m : fuel_le st n m → dispatch_approx st (SwitchDispatch n) (SwitchDispatch m).
Proof.
  intros Hle. split; try done. intros data pkt. cbn [d_onAuthConnectToSwitch SwitchDispatch].
  unfold onAuthConnectToSwitch. approx.
Qed.

Lemma send_heartbeats_approx n m : fuel_le st n m → approx st (send_heartbeats n) (send_heartbeats m).
Proof. intros Hle. unfold send_heartbeats. approx. Qed.

#[local] Hint Resolve send_heartbeats_approx : approx.

Lemma switch_loop_approx n m d1 d2 turns listener :
  fuel_le st n m → dispatch_approx st d1 d2 →
  approx st (event_loop n d1 turns listener) (event_loop m d2 turns listener).
Proof.
  intros Hle Hd. induction turns as [|turns IH]; cbn [event_loop]; unfold accept_agents; approx.
Qed.

(** The constructor of the queue only looks at the handler's function pointers. *)
Lemma enter_queue_approx d1 d2 cdt_sock : approx st (enter_queue d1 cdt_sock) (enter_queue d2 cdt_sock).
Proof. reflexivity. Qed.

#[local] Hint Resolve switch_loop_approx enter_queue_approx : approx.

Lemma switch_program_approx n m d1 d2 turns argv getenv :
  fuel_le st n m → dispatch_approx st d1 d2 →
  approx st (program n d1 turns argv getenv) (program m d2 turns argv getenv).
Proof. intros Hle Hd. unfold program, serve, register_at_conductor. approx. Qed.
End Approx.

(** More fuel changes nothing about a run of the switch that ends. *)
Lemma switch_main_approx n m turns argv getenv :
  (n ≤ m)%nat → approx StopFuel (switch_main n turns argv getenv) (switch_main m turns argv getenv).
Proof.
  intros Hle. unfold switch_main. apply switch_program_approx; [exact Hle|]. by apply SwitchDispatch_approx.
Qed.

Section Properties.
Context `{KL : !KernelLaws K}.

(** ** Its invariant *)

(** The registered agents are live and authenticated, the conductor's
    connection is live. *)
Record switch_live (s : SwitchState) : Prop := {
  live_agents p : p ∈ agents s → ∃ c, conns s !! p = Some c ∧ c_role c = AGENT_AUTHENTICATED;
  live_conductor p : conductor s = Some p → is_Some (conns s !! p)
}.
Abbreviation switch_inv := (conn_inv switch_live).
Abbreviation owned := (owns switch_inv ∅).

(** Changing an object that keeps its role, or is new. *)
Lemma switch_live_insert s p c :
  switch_live s → (∀ c', conns s !! p = Some c' → c_role c' = AGENT_AUTHENTICATED → c_role c = AGENT_AUTHENTICATED) →
  switch_live (set_heap (<[p := c]> (heap s)) s).
Proof.
  intros [Ha Hc] Hp. split; cbn.
  - intros q Hq. destruct (Ha q Hq) as (d&Hd&Hr). destruct (decide (p = q)) as [<-|Hne].
    + rewrite lookup_insert_eq. eauto.
    + rewrite lookup_insert_ne by done. eauto.
  - intros q Hq. apply lookup_insert_is_Some'. right. by apply Hc.
Qed.

#[export] Instance switch_HeapInv : HeapInv switch_live (λ _, True).
Proof.
  split; intros s p c; [intros now|]; intros Hs Hp; [|intros _]; apply switch_live_insert; try done;
    intros c' Hc'; cbn in *; congruence.
Qed.

Lemma switch_inv_init : switch_inv SwitchState_init ∅.
Proof. split; [apply own_conns_empty|]. split; cbn; [by intros p ?%elem_of_nil|done]. Qed.

Lemma switch_inv_forget s ud q p c :
  switch_inv s ud → ud !! q = Some (Some p) → conns s !! p = Some c → switch_inv (forget p c s) (delete q ud).
Proof.
  intros [Ho [Ha Hcd]] Hq Hc. split; [by apply own_conns_delete|]. split; cbn.
  - intros q' Hq'. assert (q' ∈ agents s ∧ q' ≠ p) as [Hin Hne].
    { destruct (decide (c_role c = AGENT_AUTHENTICATED)) as [Hr|Hr].
      - by apply list_elem_of_filter in Hq' as [??].
      - split; [done|]. intros ->. destruct (Ha p Hq') as (c'&Hc'&Hr'). congruence. }
    rewrite lookup_delete_ne by done. by apply Ha.
  - intros q'. destruct (decide _) as [|Hne]; [done|]. intros Hq'.
    rewrite lookup_delete_ne; [by apply Hcd|]. by intros ->.
Qed.

Lemma switch_inv_authenticated s ud p c t pt :
  switch_inv s ud → conns s !! p = Some c → switch_inv (authenticated p c t pt s) ud.
Proof.
  intros [Ho [Ha Hcd]] Hc. split.
  - eapply own_conns_mono; [exact Ho|]. cbn. rewrite dom_insert. set_solver.
  - split; cbn.
    + intros q Hq. destruct (decide (p = q)) as [<-|Hne]; [rewrite lookup_insert_eq; eauto|].
      rewrite lookup_insert_ne by done. apply Ha. set_solver.
    + intros q Hq. apply lookup_insert_is_Some'. right. by apply Hcd.
Qed.

Lemma guarded_auth_keeps fuel :
  keeps_data switch_inv (λ data pkt, guard (token_pending pkt) (onAuthConnectToSwitch fuel data pkt)).
Proof.
  intros m data pkt Hm. apply hoare_guard. intros w [[(Hwf&Hsub&HI) Hud] [pt Hpt]%bool_decide_eq_true].
  destruct (own_live _ _ (proj1 HI) _ _ Hud) as (p&Hp&c&Hc).
  rewrite (valid_token_run fuel data pkt w p c pt Hp Hc Hpt). set (w1 := set_app _ w).
  assert (owns (λ s ud, switch_inv s ud ∧ s = app w1) m w1) as Ho1.
  { split; [by apply set_app_wf|]. split; [done|]. split; [|done]. by apply switch_inv_authenticated. }
  pose proof (send_packet_owns (allowed := overflow_only) (λ s ud, switch_inv s ud ∧ s = app w1) m fuel
    (sd_fd data) CONNECTION_ACCEPTED (SerializeToString mk_PacketConnectionAccepted)) as Hs.
  eapply (hoare_bind _ _ _ _ _ _ Hs); [|exact Ho1]. intros _ w2 (Hwf2&Hm2&HI2&Happ).
  erewrite bind_ret by (apply deref_obj_run; rewrite Happ; apply lookup_insert_eq).
  by split_and!.
Qed.

Lemma token_keeps : keeps_data switch_inv onAgentConnectionToken.
Proof.
  intros m data pkt _ w [Ho _]. unfold onAgentConnectionToken. cbv zeta.
  destruct (steady_clock_owns _ _ _ Ho) as (now&k&E&Ho1). erewrite bind_ret by apply E.
  apply (set_app_owns switch_inv m (set_kern k w) _ Ho1). destruct Ho1 as (_&_&Hc&[]). by split.
Qed.

Lemma switch_guarded_keeps fuel : dispatch_keeps switch_inv (GuardedDispatch fuel).
Proof.
  split; try apply keeps_data_nothing; [| |apply guarded_auth_keeps|apply token_keeps].
  - intros m data Hm w [(Hwf&Hsub&HI) Hud]. cbn [d_onClose GuardedDispatch].
    destruct (own_live _ _ (proj1 HI) _ _ Hud) as (p&Hp&c&Hc).
    rewrite (switch_close_run data w p c Hp Hc). split_and!; [by apply set_app_wf|done|].
    rewrite Hp in Hud. by apply (switch_inv_forget _ _ _ p c HI Hud).
  - intros m data _. by apply hoare_ret.
Qed.

(** A refused token is one that closes the connection it came from. *)
Lemma switch_guarded_crashes fuel : dispatch_crashes switch_inv true (GuardedDispatch fuel) (SwitchDispatch fuel).
Proof.
  split; try done; try apply data_crashes_refl. intros m data pkt w (Hwf&Hsub&_) Hm.
  cbn [d_onAuthConnectToSwitch GuardedDispatch SwitchDispatch]. unfold frees_element, guard, token_pending.
  destruct (pending_tokens (app w) !! ac_connection_token pkt) as [pt|] eqn:Hpt; [by right|left].
  split; [done|]. destruct (invalid_token_run fuel data pkt w Hwf Hpt) as (w'&E&_&_&Hgone).
  exists w'. split; [done|]. destruct (Hgone (sd_net_element data)) as [-> _]; [by eapply lookup_weaken|].
  apply lookup_delete_eq.
Qed.

(** ** The event loop *)

Lemma expire_tokens_owns allowed : hoare allowed owned expire_tokens (λ _, owned).
Proof.
  intros w Ho. unfold expire_tokens. destruct (steady_clock_owns _ _ _ Ho) as (now&k&E&Ho1).
  erewrite bind_ret by apply E. apply (set_app_owns switch_inv ∅ (set_kern k w) _ Ho1).
  destruct Ho1 as (_&_&Hc&[]). by split.
Qed.

Lemma switch_heartbeats_owns allowed fuel : hoare allowed owned (send_heartbeats fuel) (λ _, owned).
Proof.
  intros w Ho. unfold send_heartbeats.
  destruct (steady_clock_owns _ _ _ Ho) as (now&k&E&Ho1). erewrite bind_ret by apply E.
  erewrite (bind_ret get_app) by reflexivity. set (w1 := set_kern k w) in *.
  set (D := dom (heap (app w1))).
  eapply (hoare_bind _ (owned_live switch_inv D) _ (λ _, owned_live switch_inv D) _ (λ _, owned)); [| |by split].
  - apply (try_hb_owns _ (λ _, True)). intros p Hp. apply elem_of_dom.
    by apply (live_conductor _ (proj2 (proj2 (proj2 Ho1)))).
  - intros [] w2 [Ho2 HD]. erewrite (bind_ret get_app) by reflexivity.
    pose proof (try_hbs_owns (allowed := allowed) switch_inv (λ _, True) fuel HEARTBEAT_INTERVAL now
      (agents (app w2)) D) as Hhb.
    eapply hoare_conseq; [apply Hhb|done|by intros ? ? [? _]|by split].
    intros p Hp. rewrite <-HD. apply elem_of_dom.
    destruct (live_agents _ (proj2 (proj2 (proj2 Ho2))) p Hp) as (c&Hc&_). by exists c.
Qed.

(** The parts of a turn, for both dispatchers. *)
Lemma switch_wait_owns fuel :
  hoare overflow_only owned (wait_and_process (makeNetworkQueueHandler (Some (GuardedDispatch fuel))) fuel)
    (λ _, owned).
Proof. apply wait_and_process_owns, makeNetworkQueueHandler_keeps, switch_guarded_keeps. Qed.

Lemma switch_accept_owns fuel listener : hoare overflow_only owned (accept_agents fuel listener) (λ _, owned).
Proof. by apply (accept_loop_owns _ (λ _, True)). Qed.

Lemma switch_loop_owns fuel turns listener :
  hoare overflow_only owned (event_loop fuel (GuardedDispatch fuel) turns listener) (λ _, owned).
Proof.
  induction turns as [|turns IH]; [by apply hoare_ret|]. cbn [event_loop].
  eapply hoare_bind; [apply switch_accept_owns|]. intros [].
  eapply hoare_bind; [apply switch_wait_owns|]. intros [].
  eapply hoare_bind; [apply expire_tokens_owns|]. intros [].
  eapply hoare_bind; [apply switch_heartbeats_owns|]. intros []. exact IH.
Qed.

Lemma switch_wait_crashes fuel :
  crashes owned (wait_and_process (makeNetworkQueueHandler (Some (GuardedDispatch fuel))) fuel)
    (wait_and_process (makeNetworkQueueHandler (Some (SwitchDispatch fuel))) fuel).
Proof.
  apply (wait_and_process_crashes switch_inv).
  - apply makeNetworkQueueHandler_crashes, switch_guarded_crashes.
  - apply makeNetworkQueueHandler_keeps, switch_guarded_keeps.
Qed.

Lemma switch_loop_crashes fuel turns listener :
  crashes owned (event_loop fuel (GuardedDispatch fuel) turns listener)
    (event_loop fuel (SwitchDispatch fuel) turns listener).
Proof.
  induction turns as [|turns IH]; [apply crashes_refl|]. cbn [event_loop].
  eapply crashes_bind_same; [apply switch_accept_owns|]. intros [].
  eapply crashes_bind; [apply switch_wait_owns|apply switch_wait_crashes|]. intros []. eapply crashes_bind_same; [apply (expire_tokens_owns overflow_only)|]. intros [].
  eapply crashes_bind_same; [apply (switch_heartbeats_owns overflow_only)|]. intros []. exact IH.
Qed.

(** ** From the start *)

Lemma switch_enter_owns s d cdt_sock :
  is_Some (s !! cdt_sock) →
  hoare overflow_only (opened s SwitchState_init) (enter_queue d cdt_sock) (λ _, owned).
Proof.
  intros [out Hcdt]. unfold enter_queue.
  eapply hoare_bind; [apply (NetQueue_new_owns switch_inv), switch_inv_init|].
  intros [] w (Ho&_&Hep&_).
  eapply (hoare_bind _ (λ w', owned w' ∧ epoll_fd (queue w') = epoll_fd (queue w))); [| |by split].
  - apply add_connection_owns; [|by intros ->; congruence].
    intros a ud p c HI Hp (now&->).
    destruct (ci_new (new := λ _, True) _ _ p (mk_conn CONDUCTOR "conductor" cdt_sock now) HI Hp I)
      as [[Hc [Ha _]] Hq].
    assert (switch_live (with_conductor (Some p)
      (set_heap (<[p := mk_conn CONDUCTOR "conductor" cdt_sock now]> (heap a)) a))) as Hl.
    { split; [exact Ha|]. cbn. intros ? [= <-]. by rewrite lookup_insert_eq. }
    split; [by split|]. intros q Hfree. split; [|done]. apply (Hq q Hfree).
  - intros ?. by apply hoare_ret; intros w' [? _].
Qed.

Lemma switch_register_opened fuel name key port mc a :
  hoare overflow_only (opened ∅ a) (register_at_conductor fuel name key port mc)
    (λ r w, ∀ fd, r = Some fd → ∃ body,
       SerializeToString (mk_PacketSwitchMIP name key "::internet" port) = Some body ∧
       opened {[fd := frame (SWITCH_MIP, body)]} a w).
Proof.
  unfold register_at_conductor. eapply hoare_bind; [apply connect_attempts_opened|]. intros fd.
  apply hoare_if; intros Hfd; [by apply hoare_ret|]. unfold newly_opened. rewrite (proj2 (Z.leb_le _ _)) by lia.
  intros w [_ Ho]. revert w Ho. eapply hoare_bind.
  { apply send_protobuf_packet_opened. apply lookup_insert_eq. }
  intros sent. apply hoare_if; intros Hsent; [by intros w _|].
  intros w Hb. destruct Hb as (body&Hser&Ho); [by destruct sent|].
  rewrite insert_insert_eq, insert_empty in Ho. revert w Ho.
  eapply hoare_bind; [apply set_nonblocking_opened|]. intros ?. apply hoare_ret.
  intros w Ho fd' [= <-]. by exists body.
Qed.

(** Leaving: nothing but the queue's own bookkeeping is needed. *)
Lemma destroy_exit code :
  code = 0 ∨ code = 1 →
  hoare overflow_only (λ w : W, registered w) (NetQueue_destroy;; mret code) (λ code _, code = 0 ∨ code = 1).
Proof.
  intros Hc. eapply (hoare_bind _ _ _ (λ _ _, True)); [apply NetQueue_destroy_safe|].
  intros []. by apply hoare_ret.
Qed.

Lemma owned_registered (w : W) : owned w → registered w.
Proof. intros ([] & _). done. Qed.

Lemma switch_serve_owns fuel turns port cdt_sock s :
  is_Some (s !! cdt_sock) →
  hoare overflow_only (opened s SwitchState_init) (serve fuel (GuardedDispatch fuel) turns port cdt_sock)
    (λ code _, code = 0 ∨ code = 1).
Proof.
  intros Hcdt. unfold serve. eapply hoare_bind; [apply open_listener_opened|].
  intros [listener|]; [|apply hoare_ret; auto]. intros w Hl. destruct (Hl listener eq_refl) as [Hnew Ho]. clear Hl.
  revert w Ho. eapply hoare_bind; [apply switch_enter_owns|].
  { rewrite lookup_insert_ne; [done|]. intros ->. rewrite Hnew in Hcdt. by destruct Hcdt. }
  intros added. apply hoare_if; intros _.
  { eapply hoare_conseq; [apply (destroy_exit 1); auto|apply owned_registered|done]. }
  eapply hoare_bind; [apply switch_loop_owns|]. intros [].
  eapply (hoare_bind _ _ _ (λ _, registered)); [|intros []; apply (destroy_exit 0); auto].
  intros w Ho. exact (owned_registered w Ho).
Qed.

Lemma switch_serve_crashes fuel turns port cdt_sock s :
  is_Some (s !! cdt_sock) →
  crashes (opened s SwitchState_init) (serve fuel (GuardedDispatch fuel) turns port cdt_sock)
    (serve fuel (SwitchDispatch fuel) turns port cdt_sock).
Proof.
  intros Hcdt. unfold serve. eapply crashes_bind_same; [apply (open_listener_opened overflow_only)|].
  intros [listener|]; [|apply crashes_refl].
  intros w Hl. destruct (Hl listener eq_refl) as [Hnew Ho]. clear Hl. revert w Ho.
  eapply (crashes_bind_same overflow_only); [apply switch_enter_owns|].
  { rewrite lookup_insert_ne; [done|]. intros ->. rewrite Hnew in Hcdt. by destruct Hcdt. }
  intros added. destruct (negb added); [apply crashes_refl|].
  apply crashes_bind_any; [apply switch_loop_crashes|]. intros ?. apply crashes_refl.
Qed.

(** The start of the program, for both dispatchers. *)
Lemma switch_program_hoare fuel turns argv getenv :
  hoare overflow_only (opened ∅ SwitchState_init) (program fuel (GuardedDispatch fuel) turns argv getenv)
    (λ code _, code = 0 ∨ code = 1).
Proof.
  unfold program. destruct argv as [|? [|name [|key [|port_arg []]]]]; try (apply hoare_ret; auto).
  eapply hoare_bind; [apply stoi_hoare|]. intros port.
  destruct (getenv _) as [cdt_ip|]; [|apply hoare_ret; auto].
  destruct (getenv _) as [cdt_port|]; [|apply hoare_ret; auto].
  eapply hoare_bind; [apply stoi_hoare|]. intros cport. eapply hoare_bind; [apply switch_register_opened|].
  intros [fd|]; [|apply hoare_ret; auto]. intros w Hr. destruct (Hr fd eq_refl) as (body&_&Ho). clear Hr.
  revert w Ho. apply switch_serve_owns. by rewrite lookup_singleton_eq.
Qed.

Lemma switch_program_crashes fuel turns argv getenv :
  crashes (opened ∅ SwitchState_init) (program fuel (GuardedDispatch fuel) turns argv getenv)
    (switch_main fuel turns argv getenv).
Proof.
  unfold switch_main, program. destruct argv as [|? [|name [|key [|port_arg []]]]]; try solve [crash_step].
  eapply (crashes_bind_same overflow_only); [apply stoi_hoare|]. intros port.
  destruct (getenv _) as [cdt_ip|]; [|apply crashes_refl].
  destruct (getenv _) as [cdt_port|]; [|apply crashes_refl].
  eapply (crashes_bind_same overflow_only); [apply stoi_hoare|]. intros cport.
  eapply crashes_bind_same; [apply switch_register_opened|].
  intros [fd|]; [|apply crashes_refl]. intros w Hr. destruct (Hr fd eq_refl) as (body&_&Ho). clear Hr.
  revert w Ho. apply switch_serve_crashes. by rewrite lookup_singleton_eq.
Qed.

(** C6: the switch accesses freed memory on wrong tokens, and only on them.  Compare [main] with the
    same program whose handler refuses the tokens that are not pending: the guarded program follows
    no dangling or null pointer, whatever its arguments, its peers and the system calls do, in any
    number of turns; and [main] does exactly the same, unless the guarded program refuses a token,
    where [main] accesses freed memory.  The overflow of the receive buffer by an oversized packet
    remains possible in both, whether the tokens are pending or not. *)
Theorem switch_crashes_on_wrong_tokens fuel turns argv getenv w :
  app w = SwitchState_init →
  let guarded := program fuel (GuardedDispatch fuel) turns argv getenv w in
  (match guarded with
   | Undef u => u = BufferOverflow
   | Ret (code, _) => code = 0 ∨ code = 1
   | Throw _ | OutOfFuel => True
   end) ∧
  ((guarded = Throw GuardViolated ∧ switch_main fuel turns argv getenv w = Undef UseAfterFree) ∨
   switch_main fuel turns argv getenv w = guarded).
Proof.
  intros Happ guarded. assert (opened ∅ SwitchState_init w) as Ho by by split.
  pose proof (switch_program_hoare fuel turns argv getenv w Ho) as Hsafe.
  pose proof (switch_program_crashes fuel turns argv getenv w Ho) as Hcrash. subst guarded.
  destruct (program fuel (GuardedDispatch fuel) turns argv getenv w) as [[code w']|e|u|];
    (split; [first [exact Hsafe|exact I]|]); (destruct Hcrash as [Hcrash|Hcrash]; [left; exact Hcrash|right; symmetry; exact Hcrash]).
Qed.
End Properties.
End SwitchRun.

(** ** Concrete runs *)

#[local] Instance run_order : HostOrder := LittleEndian.
#[local] Instance run_inet : Inet := dotted_quad.
#[local] Instance run_malloc : Malloc := malloc_first_fit.
#[local] Instance run_nodes : NodeAlloc := λ _, true.
#[local] Instance run_codecs : Messages := codecs.

(** A whole run: the conductor, on descriptor 3, announces the token 77 for
    "alice"; the agent, on descriptor 6, presents a token. *)
Definition switch_script (token fd : Z) : list Byte.byte :=
  if fd =? 3 then
    frame (AGENT_CONNECTION_TOKEN, default [] (SerializeToString (mk_PacketAgentConnectionToken "alice" 77)))
  else if fd =? 6 then
    frame (AUTH_CONNECT_TO_SWITCH, default [] (SerializeToString (mk_PacketAuthConnectToSwitch token)))
  else [].
Definition run_kernel (token : Z) : Kernel := scripted_kernel (switch_script token).
Definition run_world (token : Z) : @World (run_kernel token) SwitchState :=
  mk_world (K := run_kernel token) (mk_queue (-1) (-1) ∅ ∅)
    (mk_sim (mk_kview ∅ ∅ ∅ 0 ∅ ∅ ∅) 1000 ∅ 1 1 0 : @kernel (run_kernel token)) SwitchState_init.
Definition switch_argv : list string := ["./switch"; "s1"; "key"; "6000"].
Definition switch_env (name : string) : option string :=
  if decide (name = "CONDUCTOR_IP") then Some "127.0.0.1"
  else if decide (name = "CONDUCTOR_PORT") then Some "5000" else None.

Definition run_switch (token : Z) : outcome (Z * @World (run_kernel token) SwitchState) :=
  switch_main (K := run_kernel token) 200 2 switch_argv switch_env (run_world token).
Definition run_guarded (token : Z) : outcome (Z * @World (run_kernel token) SwitchState) :=
  program (K := run_kernel token) 200 (GuardedDispatch (K := run_kernel token) 200) 2 switch_argv switch_env
    (run_world token).

Example run_guarded_right : exit_code (run_guarded 77) = Some 0.
Proof. vm_compute. reflexivity. Qed.
Example run_guarded_wrong : failure (run_guarded 78) = Some (inl GuardViolated).
Proof. vm_compute. reflexivity. Qed.
Example run_switch_wrong : failure (run_switch 78) = Some (inr UseAfterFree).
Proof. vm_compute. reflexivity. Qed.

(** The right token ends with exit code 0; the wrong one is refused by the
    guarded program, and crashes the program. *)
Lemma switch_crashes_on_wrong_tokens_witness :
  (∃ w', run_switch 77 = Ret (0, w')) ∧ (run_guarded 78 = Throw GuardViolated ∧ run_switch 78 = Undef UseAfterFree).
Proof.
  pose proof run_guarded_right as Hcode. pose proof run_guarded_wrong as Hwrong.
  pose proof run_switch_wrong as Hcrash. unfold run_guarded in *. unfold run_switch in *.
  split.
  - destruct (switch_crashes_on_wrong_tokens (K := run_kernel 77) (KL := scripted_laws (switch_script 77))
      200 2 switch_argv switch_env (run_world 77) eq_refl) as [_ [[E _]|E]].
    + rewrite E in Hcode. discriminate Hcode.
    + rewrite E. destruct (program _ _ _ _ _ _) as [[code w']| | |]; try discriminate Hcode.
      exists w'. injection Hcode as ->. reflexivity.
  - destruct (switch_crashes_on_wrong_tokens (K := run_kernel 78) (KL := scripted_laws (switch_script 78))
      200 2 switch_argv switch_env (run_world 78) eq_refl) as [_ [E|E]]; [exact E|].
    rewrite E in Hcrash. rewrite Hwrong in Hcrash. discriminate Hcrash.
Defined.
