(* ===== verification/SwitchProgress.v ===== *)
(** * The turns of the switch return

    Total correctness of the event loop of src/switch/setup.cpp: on calm input,
    a turn returns or reaches a wrong token, which crashes the switch
    ([SwitchRun]).  The switch is compared with the program that ignores the
    wrong tokens: its handlers are [responsive], so that [Progress] applies. *)
From stdpp Require Import base option list gmap sets strings.
From Stdlib Require Import ZArith Lia.
From S2P Require Import Prelude Approx Bytes Kernel Protocol Framing Inet Proto NetQueue Heap ReadPath.
From S2P Require Import WritePath QueueInv SocketUtils Dispatch Monotone EventLoop Progress Crash Connections Switch SwitchRun.

#[local] Open Scope Z_scope.

Section SwitchProgress.
Context `{HostOrder} `{Inet} `{K : Kernel} `{KL : !KernelLaws K} `{Malloc} `{NodeAlloc} `{Messages}.
Abbreviation W := (@World K SwitchState).
Abbreviation switch_inv := (conn_inv switch_live).
Abbreviation owned := (owns switch_inv ∅).

(** The dispatcher that ignores the tokens that are not pending. *)
Definition LenientDispatch (fuel : nat) : Dispatch W :=
  mk_dispatch onClose (d_onTunReady Dispatch_default) (λ _, mret ()) (d_onSwitchMIP Dispatch_default)
    (d_onAgentMIP Dispatch_default) (d_onConnectToSwitch Dispatch_default)
    (λ data pkt, lenient (token_pending pkt) (onAuthConnectToSwitch fuel data pkt))
    onAgentConnectionToken (d_onConnectionAccepted Dispatch_default) (d_onAgentMRP Dispatch_default).

Lemma switch_lenient_keeps fuel : dispatch_keeps switch_inv (LenientDispatch fuel).
Proof.
  destruct (switch_guarded_keeps fuel). split; try done. intros m data pkt Hm.
  apply hoare_lenient; [by apply guarded_auth_keeps|by intros w []].
Qed.

(** Where the lenient switch ignores a token, the switch frees the element. *)
Lemma switch_lenient_diverges fuel : dispatch_crashes switch_inv false (LenientDispatch fuel) (SwitchDispatch fuel).
Proof.
  split; try done; try apply data_crashes_refl. intros m data pkt w (Hwf&Hsub&_) Hm.
  cbn [d_onAuthConnectToSwitch LenientDispatch SwitchDispatch]. unfold frees_element, lenient, token_pending.
  destruct (pending_tokens (app w) !! ac_connection_token pkt) as [pt|] eqn:Hpt; [by right|left].
  split; [done|]. destruct (invalid_token_run fuel data pkt w Hwf Hpt) as (w'&E&_&_&Hgone).
  exists w'. split; [done|]. destruct (Hgone (sd_net_element data)) as [-> _]; [by eapply lookup_weaken|].
  apply lookup_delete_eq.
Qed.

(** ** Its handlers return *)

(** The acknowledgement of a token fits the write buffer. *)
Definition ack_fits : Prop := ∀ bs, SerializeToString mk_PacketConnectionAccepted = Some bs →
  Z.of_nat (length bs) ≤ WRITE_BUFFER_MAX.

Lemma token_answers fuel : answers_data switch_inv 0 fuel onAgentConnectionToken.
Proof.
  intros n m data pkt Hm. eapply (answering_sends_only 0 switch_inv n fuel m); [by intros w []|].
  intros w0 _. unfold onAgentConnectionToken. cbv zeta.
  eapply total_bind; [|intros now; apply (modify_answers 0 switch_inv n fuel m w0 (λ w, switch_inv (app w) (user_data w)))].
  - eapply total_conseq; [apply (steady_clock_answers 0 switch_inv n fuel m w0)|by intros w [_ ?]|].
    intros now w Hw. split; [done|]. apply Hw.
  - intros w [Hc [Ha Hcd]]. by split.
Qed.

Lemma lenient_auth_answers fuel :
  ack_fits → answers_data switch_inv 0 fuel (λ data pkt, lenient (token_pending pkt) (onAuthConnectToSwitch fuel data pkt)).
Proof.
  intros Hack n m data pkt Hm w [(Hwf&Hsub&HI) Hud] Hr. unfold sends_only, lenient.
  destruct (token_pending pkt w) eqn:Hg; [|by exists (), w].
  apply bool_decide_eq_true in Hg as [pt Hpt]. destruct (own_live _ _ (proj1 HI) _ _ Hud) as (p&Hp&c&Hc).
  rewrite (valid_token_run fuel data pkt w p c pt Hp Hc Hpt). set (w1 := set_app _ w).
  destruct (send_packet_answers 0 (λ s ud, switch_inv s ud ∧ s = app w1) n fuel m w (sd_fd data) CONNECTION_ACCEPTED
    (SerializeToString mk_PacketConnectionAccepted) Hack w1) as (b&w2&E&(_&_&_&Happ)&Hsp&Hr2).
  { split; [|split; [|exact Hr]].
    - split; [by apply set_app_wf|]. split; [done|]. split; [|done]. by apply switch_inv_authenticated.
    - split; [done|]. intros q e He. by exists e. }
  erewrite bind_ret by exact E.
  erewrite bind_ret by (apply deref_obj_run; rewrite Happ; apply lookup_insert_eq). by exists (), w2.
Qed.

Lemma switch_lenient_responsive fuel : ack_fits → dispatch_responsive switch_inv 0 fuel (LenientDispatch fuel).
Proof.
  intros Hack. split; try apply answers_nothing; [|by apply lenient_auth_answers|apply token_answers].
  intros data w _ HI Hud. destruct (own_live _ _ (proj1 HI) _ _ Hud) as (p&Hp&c&Hc). eexists.
  by apply (switch_close_run data w p c).
Qed.

(** ** The parts of a turn *)

Lemma expire_tokens_returns n fuel :
  total (λ w, owned w ∧ roomy 0 n fuel w) expire_tokens (λ _ w, owned w ∧ roomy 0 n fuel w).
Proof.
  intros w [Ho Hr]. unfold expire_tokens.
  destruct (steady_clock_answers 0 switch_inv n fuel ∅ w w) as (now&w1&E&Ho1&_&Hr1); [by split|].
  erewrite bind_ret by exact E. eexists (), _. split; [reflexivity|]. split; [|exact Hr1].
  apply set_app_owns; [exact Ho1|]. destruct Ho1 as (_&_&Hc&[]). by split.
Qed.

Lemma switch_heartbeats_return n fuel :
  total (λ w, owned w ∧ roomy 0 n fuel w) (send_heartbeats fuel) (λ _, owned).
Proof.
  intros w [Ho Hr]. unfold send_heartbeats.
  destruct (steady_clock_answers 0 switch_inv n fuel ∅ w w) as (now&w1&E&Ho1&_&Hr1); [by split|].
  erewrite bind_ret by exact E. erewrite (bind_ret get_app) by reflexivity. set (D := dom (heap (app w1))).
  destruct (try_hb_returns (allowed := overflow_only) switch_inv (λ _, True) 0 n fuel HEARTBEAT_INTERVAL now
    (conductor (app w1)) D) with (s := w1) as ([]&w2&E2&[Ho2 HD]&Hr2); [|done|].
  { intros p Hp. apply elem_of_dom. by apply (live_conductor _ (proj2 (proj2 (proj2 Ho1)))). }
  erewrite bind_ret by exact E2. erewrite (bind_ret get_app) by reflexivity.
  destruct (try_hbs_returns (allowed := overflow_only) switch_inv (λ _, True) 0 n fuel HEARTBEAT_INTERVAL now
    (agents (app w2)) D) with (s := w2) as ([]&w3&E3&[Ho3 _]&_); [|done|by exists (), w3].
  intros p Hp. rewrite <-HD. apply elem_of_dom.
  destruct (live_agents _ (proj2 (proj2 (proj2 Ho2))) p Hp) as (c&Hc&_). by exists c.
Qed.

(** The switch does what the lenient one does, or crashes. *)
Lemma switch_wait_diverges fuel :
  diverges owned (wait_and_process (makeNetworkQueueHandler (Some (LenientDispatch fuel))) fuel)
    (wait_and_process (makeNetworkQueueHandler (Some (SwitchDispatch fuel))) fuel).
Proof.
  apply (wait_and_process_crashes switch_inv).
  - apply makeNetworkQueueHandler_crashes, switch_lenient_diverges.
  - apply makeNetworkQueueHandler_keeps, switch_lenient_keeps.
Qed.

Lemma switch_wait_guarded fuel :
  approx (StopThrow GuardViolated) (wait_and_process (makeNetworkQueueHandler (Some (GuardedDispatch fuel))) fuel)
    (wait_and_process (makeNetworkQueueHandler (Some (LenientDispatch fuel))) fuel).
Proof.
  apply wait_and_process_approx; [|reflexivity]. apply makeNetworkQueueHandler_approx.
  split; try (intros; reflexivity). intros data pkt. apply guard_lenient.
Qed.

(** C32: the switch does not hang: a turn of its event loop either returns, and the loop goes on from
    the state it leaves, in the invariant the switch starts in, or crashes on a wrong token (the one
    the guarded switch refuses), whenever, once the waiting connections were accepted, each pending stream (with what
    [epoll_wait] lets arrive) consists of packets that fit the receive buffer and does not end
    inside a payload, for every fuel that covers three steps per pending byte, a full write buffer
    and the signals. *)
Theorem switch_turn_returns_or_crashes fuel listener w w1 :
  owned w → accept_agents fuel listener w = Ret ((), w1) → ack_fits →
  (∀ r k, sys_epoll_wait (epoll_fd (queue w1)) EPOLL_MAX_EVENTS (epoll_timeout (queue w1)) (kern w1) = (r, k) →
     calm_queue 0 (Z.to_nat EPOLL_MAX_EVENTS) fuel (set_kern k w1)) →
  (∀ turns, event_loop fuel (GuardedDispatch fuel) (S turns) listener w = Throw GuardViolated ∧
     event_loop fuel (SwitchDispatch fuel) (S turns) listener w = Undef UseAfterFree) ∨
  ∃ w', owned w' ∧ ∀ turns, event_loop fuel (SwitchDispatch fuel) (S turns) listener w =
    event_loop fuel (SwitchDispatch fuel) turns listener w'.
Proof.
  intros Ho Eacc Hack Hcalm. pose proof (switch_accept_owns fuel listener w Ho) as Ho1. rewrite Eacc in Ho1.
  destruct (wait_and_process_good 0 switch_inv (makeNetworkQueueHandler (Some (LenientDispatch fuel))) fuel)
    with (w := w1) as (w2&E2&Ho2&Hc2); [| |apply Ho1..|done|].
  { apply makeNetworkQueueHandler_keeps, switch_lenient_keeps. }
  { by apply makeNetworkQueueHandler_responsive, switch_lenient_responsive. }
  destruct (switch_wait_diverges fuel w1 Ho1) as [[_ Ecrash]|Esame]; [left|right].
  { assert (wait_and_process (makeNetworkQueueHandler (Some (GuardedDispatch fuel))) fuel w1 = Throw GuardViolated) as Eg.
    { destruct (switch_wait_guarded fuel w1) as [E|E]; [exact E|]. rewrite E2 in E.
      destruct (switch_wait_crashes fuel w1 Ho1) as [[? _]|E']; congruence. }
    intros turns. cbn [event_loop]. rewrite !(bind_ret (accept_agents fuel listener) _ w () w1) by exact Eacc.
    unfold mbind, M_bind. by rewrite Ecrash, Eg. }
  destruct (expire_tokens_returns 0 fuel w2) as ([]&w3&E3&Ho3&Hr3); [split; [done|by apply calm_roomy]|].
  destruct (switch_heartbeats_return 0 fuel w3) as ([]&w4&E4&Ho4); [done|].
  exists w4. split; [done|]. intros turns. cbn [event_loop]. erewrite bind_ret by exact Eacc.
  erewrite bind_ret by (rewrite <-Esame; exact E2). erewrite bind_ret by exact E3. by erewrite bind_ret by exact E4.
Qed.
End SwitchProgress.

(** ** A concrete turn *)

#[local] Instance turn_order : HostOrder := LittleEndian.
#[local] Instance turn_inet : Inet := dotted_quad.
#[local] Instance turn_malloc : Malloc := malloc_first_fit.
#[local] Instance turn_nodes : NodeAlloc := λ _, true.
#[local] Instance turn_codecs : Messages := codecs.

(** The conductor, on descriptor 3, has announced the token 77; the client on
    descriptor 4 presents a token, and the beginning of a heartbeat. *)
Definition turn_rx (token : Z) : gmap Z (list Byte.byte) :=
  {[3 := frames [(HEARTBEAT, [])];
    4 := frame (AUTH_CONNECT_TO_SWITCH, default [] (SerializeToString (mk_PacketAuthConnectToSwitch token))) ++
      take 4 (frames [(HEARTBEAT, [])])]}.
Definition turn_element (fd : Z) (p : loc) : NetworkElement := NetworkElement_new fd (Some p) SCK_HEADER.
Definition turn_world (token : Z) : @World sim_kernel SwitchState :=
  mk_world (mk_queue 5 200 {[1%positive := turn_element 3 1%positive; 2%positive := turn_element 4 2%positive]}
      {[3 := 1%positive; 4 := 2%positive]})
    (mk_sim (mk_kview (turn_rx token) {[3 := Open; 4 := Open]} ∅ 0 {[3; 4; 5; 6]}
        {[5 := {[3 := 1%positive; 4 := 2%positive]}]} ∅)
      1000 {[3 := 65536; 4 := 65536]} 0 0 0)
    (mk_switch {[1%positive := mk_conn CONDUCTOR "conductor" 3 0; 2%positive := mk_conn AGENT_PENDING "" 4 0]}
      {[77 := mk_token "alice" 900]} [] (Some 1%positive)).
Definition turn_fuel : nat := S (Z.to_nat 70000).

Lemma turn_world_owned token : owns (conn_inv switch_live) ∅ (turn_world token).
Proof.
  split; [|split; [apply map_empty_subseteq|split]].
  - split; cbn [turn_world queue elements fd_to_network_element kern epoll_fd].
    + intros fd p [[<- <-]|[_ [<- <-]%lookup_singleton_Some]]%lookup_insert_Some; eexists; split; reflexivity.
    + intros p e [[<- <-]|[_ [<- <-]%lookup_singleton_Some]]%lookup_insert_Some; reflexivity.
    + reflexivity.
    + reflexivity.
    + cbn. set_solver.
    + intros p e [[<- <-]|[_ [<- <-]%lookup_singleton_Some]]%lookup_insert_Some; vm_compute; repeat split; discriminate.
  - split; cbn [turn_world app queue]; unfold user_data; cbn [turn_world queue elements].
    + intros q x. rewrite lookup_fmap_Some. intros (e&<-&He).
      apply lookup_insert_Some in He as [[<- <-]|[_ [<- <-]%lookup_singleton_Some]];
        eexists; (split; [reflexivity|by eexists]).
    + intros q q' p. rewrite !lookup_fmap_Some. intros (e&E&He) (e'&E'&He').
      apply lookup_insert_Some in He as [[<- <-]|[_ [<- <-]%lookup_singleton_Some]];
        apply lookup_insert_Some in He' as [[<- <-]|[_ [<- <-]%lookup_singleton_Some]]; naive_solver.
  - split; cbn; [by intros p ?%elem_of_nil|]. intros p [= <-]. by eexists.
Qed.

Lemma turn_world_calm token k :
  token = 77 ∨ token = 78 → view k = view (kern (turn_world token)) →
  calm_queue 0 (Z.to_nat EPOLL_MAX_EVENTS) turn_fuel (set_kern k (turn_world token)).
Proof.
  intros Ht Hk p e He. cbn [queue set_kern turn_world elements kern] in He |- *.
  assert (∃ fd, e = turn_element fd p ∧ (fd = 3 ∨ fd = 4)) as (fd&->&Hfd).
  { apply lookup_insert_Some in He as [[<- <-]|[_ [<- <-]%lookup_singleton_Some]]; eauto. }
  assert (length (rx_of (view (kern (turn_world token))) fd) ≤ 100)%nat as Hl
    by (destruct Hfd as [-> | ->], Ht as [-> | ->]; vm_compute; lia).
  apply fresh_calm; rewrite ?Hk; [by destruct Hfd as [-> | ->]| |by destruct Hfd as [-> | ->]| |done|].
  - destruct Hfd as [-> | ->], Ht as [-> | ->]; (split; apply (bool_decide_unpack _); vm_compute; exact I).
  - unfold turn_fuel. lia.
  - unfold turn_fuel, WRITE_BUFFER_MAX. cbn. lia.
Qed.

Definition turn_result (token : Z) : outcome (() * @World sim_kernel SwitchState) :=
  event_loop turn_fuel (SwitchDispatch turn_fuel) 1 6 (turn_world token).

(** With the right token the agent is admitted. *)
Example turn_admits :
  match turn_result 77 with Ret (_, w) => agents (app w) = [2%positive] | _ => False end.
Proof. vm_compute. reflexivity. Qed.
Example turn_crashes : match turn_result 78 with Undef UseAfterFree => True | _ => False end.
Proof. vm_compute. exact I. Qed.

Lemma ack_fits_codecs : ack_fits.
Proof. intros bs E. vm_compute in E. injection E as <-. vm_compute. discriminate. Qed.

(** A turn with the right token, and one with a wrong token. *)
Lemma switch_turn_returns_or_crashes_witness :
  (∃ w', ∀ turns, event_loop turn_fuel (SwitchDispatch turn_fuel) (S turns) 6 (turn_world 77) =
     event_loop turn_fuel (SwitchDispatch turn_fuel) turns 6 w') ∧
  event_loop turn_fuel (GuardedDispatch turn_fuel) 1 6 (turn_world 78) = Throw GuardViolated.
Proof.
  split.
  - destruct (switch_turn_returns_or_crashes turn_fuel 6 (turn_world 77) (turn_world 77)) as [Hc|(w'&_&E)].
    + apply turn_world_owned.
    + reflexivity.
    + apply ack_fits_codecs.
    + intros r k [= _ <-]. apply turn_world_calm; [by left|reflexivity].
    + pose proof turn_admits as Hr. unfold turn_result in Hr. rewrite (proj2 (Hc 0%nat)) in Hr. destruct Hr.
    + exists w'. exact E.
  - destruct (switch_turn_returns_or_crashes turn_fuel 6 (turn_world 78) (turn_world 78)) as [Hc|(w'&_&E)].
    + apply turn_world_owned.
    + reflexivity.
    + apply ack_fits_codecs.
    + intros r k [= _ <-]. apply turn_world_calm; [by right|reflexivity].
    + apply (Hc 0%nat).
    + pose proof turn_crashes as Hr. unfold turn_result in Hr. rewrite (E 0%nat) in Hr. destruct Hr.
Defined.
