(* ===== verification/Conductor.v ===== *)
(** * The conductor

    Models src/conductor/setup.cpp, all of main: the metadata of the
    connections (heap objects, an access to a deleted one is
    [Undef UseAfterFree]), the global state, the handlers of
    [ConductorDispatch], the heartbeats, the state dump, the listener and the
    event loop.  Signal handling is the list of [g_dump_request] at each turn,
    as long as [g_running] stays set; the calls that set socket options and
    log have no effect in the model.  [program] is main over the dispatcher it
    installs, [conductor_main] installs [ConductorDispatch]; ConductorRun has
    the theorems about whole runs. *)
From stdpp Require Import base option list gmap strings.
From Stdlib Require Import ZArith Lia.
From S2P Require Import Prelude Approx Args Bytes Random Kernel Protocol Framing Inet Proto NetQueue Heap ReadPath.
From S2P Require Import WritePath QueueInv SocketUtils Dispatch Monotone EventLoop Connections.

#[local] Open Scope Z_scope.

(** ** Data *)

Definition LISTEN_PORT : Z := 5000.
Definition LISTEN_BACKLOG : Z := 64.
(** std::chrono::seconds, in the nanoseconds of the steady clock. *)
Definition HEARTBEAT_INTERVAL : Z := 30 * 1000000000.
Definition DUMP_INTERVAL : Z := 5 * 1000000000.
Definition DEFAULT_DUMP_PATH : string := "/var/vnet-dump.bin".

Inductive Role : Type := UNKNOWN | SWITCH_CONN | AGENT_CONN.
#[export] Instance Role_eq_dec : EqDecision Role.
Proof. solve_decision. Defined.

Record ConnInfo : Type := mk_conn {
  c_role : Role;
  c_name : string;
  c_auth_key : string;
  c_network : string;
  c_sw_port : Z;            (* uint16_t *)
  c_sw_ipv4 : Z;            (* uint32_t *)
  c_fd : Z;
  c_last_hb_sent : Z;       (* steady clock, ns *)
  c_connected_at_ms : Z
}.

(** [new ConnInfo ()] at the time [now]. *)
Definition ConnInfo_new (now : Z) : ConnInfo := mk_conn UNKNOWN "" "" "" 0 0 (-1) now 0.

Definition with_conn_fd (fd : Z) (c : ConnInfo) : ConnInfo :=
  mk_conn (c_role c) (c_name c) (c_auth_key c) (c_network c) (c_sw_port c) (c_sw_ipv4 c)
    fd (c_last_hb_sent c) (c_connected_at_ms c).

#[export] Instance conductor_connection : Connection ConnInfo := {|
  conn_fd := c_fd;
  conn_last_hb := c_last_hb_sent;
  with_last_hb now c := mk_conn (c_role c) (c_name c) (c_auth_key c) (c_network c) (c_sw_port c) (c_sw_ipv4 c)
    (c_fd c) now (c_connected_at_ms c)
|}.

Record PendingTokenInfo : Type := mk_pending {
  p_agent_name : string;
  p_switch_name : string;
  p_created_at_ms : Z;
  p_token : Z
}.

Record ConductorState `{Rng} : Type := mk_conductor {
  conns : gmap loc ConnInfo;      (* the live ConnInfo objects *)
  switches : list loc;
  agents : list loc;
  pending_tokens : list PendingTokenInfo;
  rr_index : Z;                   (* size_t *)
  rng : rng_state
}.

Arguments mk_conductor {_}.

(** The initial value of [g_state], with a seeded generator. *)
Definition ConductorState_init `{Rng} (g : rng_state) : ConductorState := mk_conductor ∅ [] [] [] 0 g.

Section Setters.
Context `{Rng}.
Definition with_conns h s := mk_conductor h (switches s) (agents s) (pending_tokens s) (rr_index s) (rng s).
Definition with_switches l s := mk_conductor (conns s) l (agents s) (pending_tokens s) (rr_index s) (rng s).
Definition with_agents l s := mk_conductor (conns s) (switches s) l (pending_tokens s) (rr_index s) (rng s).
Definition with_pending l s := mk_conductor (conns s) (switches s) (agents s) l (rr_index s) (rng s).
Definition with_rr_index i s := mk_conductor (conns s) (switches s) (agents s) (pending_tokens s) i (rng s).
Definition with_rng g s := mk_conductor (conns s) (switches s) (agents s) (pending_tokens s) (rr_index s) g.
#[export] Instance conductor_heap : AppHeap ConductorState ConnInfo :=
  {| heap := conns; set_heap := with_conns; heap_set_heap _ _ := eq_refl;
     set_heap_set_heap _ _ _ := eq_refl; set_heap_heap '(mk_conductor _ _ _ _ _ _) := eq_refl |}.
End Setters.

(** The operations of the dump's output stream, and rename.  [dump_open]: the
    constructor, and whether [out] is good; [dump_serialize]: what
    [SerializeToOstream] returns; [dump_close]: whether [out.close ()] (or the
    destructor) could write what the stream still holds, which the code does not
    look at. *)
Class DumpFile (K : Kernel) : Type := {
  dump_open : string → kernel → bool * kernel;
  dump_serialize : string → Dump.ConductorState → kernel → bool * kernel;
  dump_close : string → kernel → bool * kernel;
  dump_rename : string → string → kernel → bool * kernel
}.

(** They touch no socket. *)
Class DumpFileLaws (K : Kernel) `{!DumpFile K} `{!KernelLaws K} : Prop := {
  dump_open_ok path k : quiet (view k) (view (dump_open path k).2);
  dump_serialize_ok path d k : quiet (view k) (view (dump_serialize path d k).2);
  dump_close_ok path k : quiet (view k) (view (dump_close path k).2);
  dump_rename_ok from to k : quiet (view k) (view (dump_rename from to k).2)
}.

Section Conductor.
Context `{HostOrder} `{Inet} `{K : Kernel} `{!DumpFile K} `{Malloc} `{NodeAlloc} `{Messages} `{R : Rng}.
Abbreviation W := (@World K ConductorState).

(** ** ConductorState *)

Definition generate_token : M W Z := λ w,
  let '(t, g) := rng_next (rng (app w)) in Ret (t, set_app (with_rng g (app w)) w).

Definition reachable (agent_network : string) (sw : ConnInfo) : bool :=
  bool_decide (c_network sw = agent_network) || bool_decide (c_network sw = "::internet").

(** The loop of [pick_switch], over the values of [i] left. *)
Fixpoint pick_loop (agent_network : string) (start : Z) (todo : list nat) : M W (option loc) :=
  match todo with
  | [] => mret None
  | i :: todo =>
    s ← get_app;
    let idx := u64 (start + Z.of_nat i) mod Z.of_nat (length (switches s)) in
    match switches s !! Z.to_nat idx with
    | None => undef OutOfBounds
    | Some p =>
      sw ← deref_obj (Some p);
      if reachable agent_network sw then
        modify_app (with_rr_index (u64 (idx + 1)));;
        mret (Some p)
      else pick_loop agent_network start todo
    end
  end.

Definition pick_switch (agent_network : string) : M W (option loc) :=
  s ← get_app;
  if bool_decide (switches s = []) then mret None
  else
    let start := rr_index s in
    picked ← pick_loop agent_network start (seq 0 (length (switches s)));
    match picked with
    | Some p => mret (Some p)
    | None =>
      match switches s !! Z.to_nat (start mod Z.of_nat (length (switches s))) with
      | None => undef OutOfBounds
      | Some p =>
        modify_app (with_rr_index (u64 (start + 1)));;
        mret (Some p)
      end
    end.

Definition remove_switch (info : loc) : M W () :=
  modify_app (λ s, with_switches (filter (λ p, p ≠ info) (switches s)) s);;
  c ← deref_obj (Some info);
  modify_app (λ s, with_pending (filter (λ t, p_switch_name t ≠ c_name c) (pending_tokens s)) s).

Definition remove_agent (info : loc) : M W () :=
  modify_app (λ s, with_agents (filter (λ p, p ≠ info) (agents s)) s).

Definition remove_pending_token (token : Z) : M W () :=
  modify_app (λ s, with_pending (filter (λ t, p_token t ≠ token) (pending_tokens s)) s).

(** ** The state dump *)

Definition now_ms : M W Z := syscall sys_system_clock_ms.

Fixpoint dump_switches (l : list loc) : M W (list Dump.SwitchState) :=
  match l with
  | [] => mret []
  | p :: l =>
    sw ← deref_obj (Some p);
    rest ← dump_switches l;
    mret (Dump.mk_SwitchState (c_name sw) (c_network sw) (ipv4_to_string (c_sw_ipv4 sw))
            (c_sw_port sw) (c_connected_at_ms sw) :: rest)
  end.

(** [assigned_switch] is not set. *)
Fixpoint dump_agents (l : list loc) : M W (list Dump.AgentState) :=
  match l with
  | [] => mret []
  | p :: l =>
    ag ← deref_obj (Some p);
    rest ← dump_agents l;
    mret (Dump.mk_AgentState (c_name ag) "" (c_connected_at_ms ag) :: rest)
  end.

Definition dump_token (t : PendingTokenInfo) : Dump.PendingToken :=
  Dump.mk_PendingToken (p_agent_name t) (p_token t) (p_switch_name t) (p_created_at_ms t).

Definition make_dump : M W Dump.ConductorState :=
  now ← now_ms;
  s ← get_app;
  sws ← dump_switches (switches s);
  ags ← dump_agents (agents s);
  mret (Dump.mk_ConductorState now sws ags (dump_token <$> pending_tokens s)).

Definition write_dump (g_dump_path : string) : M W () :=
  proto ← make_dump;
  let tmp_path := (g_dump_path +:+ ".tmp")%string in
  opened ← syscall (dump_open tmp_path);
  if negb opened then mret ()
  else
    serialized ← syscall (dump_serialize tmp_path proto);
    _ ← syscall (dump_close tmp_path);    (* out.close (), or the destructor of [out] *)
    if negb serialized then mret ()
    else
      _ ← syscall (dump_rename tmp_path g_dump_path);
      mret ().

(** ** The handlers *)

Section Handlers.
Variable fuel : nat.

Definition onSwitchMIP (data : socket_data) (pkt : PacketSwitchMIP) : M W () :=
  let info := sd_ptr_data data in
  now ← (_ ← deref_obj info; now_ms);
  update_obj info (λ c, mk_conn SWITCH_CONN (sm_name pkt) (sm_auth_key pkt) (sm_network pkt)
    (u16 (sm_port pkt)) (c_sw_ipv4 c) (sd_fd data) (c_last_hb_sent c) now);;
  peer ← (λ w, Ret (sys_getpeername (sd_fd data) (kern w), w));
  match peer with
  | None => mret ()
  | Some s_addr =>
    update_obj info (λ c, mk_conn (c_role c) (c_name c) (c_auth_key c) (c_network c)
      (c_sw_port c) s_addr (c_fd c) (c_last_hb_sent c) (c_connected_at_ms c))
  end;;
  match info with
  | None => mret ()
  | Some info => modify_app (λ s, with_switches (switches s ++ [info]) s)
  end.

(** The metadata of an agent's connection; [onAgentMRP] keeps the network. *)
Definition agent_conn (name auth_key network : string) (fd now : Z) (c : ConnInfo) : ConnInfo :=
  mk_conn AGENT_CONN name auth_key network (c_sw_port c) (c_sw_ipv4 c) fd (c_last_hb_sent c) now.

Definition push_agent (info : option loc) : M W () :=
  match info with
  | None => mret ()
  | Some info => modify_app (λ s, with_agents (agents s ++ [info]) s)
  end.

Definition onAgentMIP (data : socket_data) (pkt : PacketAgentMIP) : M W () :=
  let info := sd_ptr_data data in
  now ← (_ ← deref_obj info; now_ms);
  update_obj info (agent_conn (am_name pkt) (am_auth_key pkt) (am_network pkt) (sd_fd data) now);;
  sw ← pick_switch (am_network pkt);
  match sw with
  | None => close_fd (sd_fd data)
  | Some sw =>
    token ← generate_token;
    c ← deref_obj (Some sw);
    sent ← send_protobuf_packet fuel (sd_fd data) CONNECT_TO_SWITCH
      (mk_PacketConnectToSwitch (c_name c) (c_sw_ipv4 c) token (c_sw_port c));
    if negb sent then mret ()
    else
      c ← deref_obj (Some sw);
      sent ← send_protobuf_packet fuel (c_fd c) AGENT_CONNECTION_TOKEN
        (mk_PacketAgentConnectionToken (am_name pkt) token);
      if negb sent then mret ()
      else
        now ← now_ms;
        modify_app (λ s, with_pending
          (pending_tokens s ++ [mk_pending (am_name pkt) (c_name c) now token]) s);;
        push_agent info
  end.

Definition onAgentMRP (data : socket_data) (pkt : PacketAgentMRP) : M W () :=
  let info := sd_ptr_data data in
  now ← (_ ← deref_obj info; now_ms);
  update_obj info (λ c, agent_conn (mrp_name pkt) (mrp_auth_key pkt) (c_network c) (sd_fd data) now c);;
  push_agent info.

Definition onClose (data : close_data) : M W () :=
  match cd_ptr_data data with
  | None => mret ()
  | Some info =>
    c ← deref_obj (Some info);
    match c_role c with
    | SWITCH_CONN => remove_switch info
    | AGENT_CONN => remove_agent info
    | UNKNOWN => mret ()
    end;;
    delete_obj info
  end.

(** The virtual handlers that [ConductorDispatch] overrides. *)
Definition ConductorDispatch : Dispatch W :=
  mk_dispatch onClose (d_onTunReady Dispatch_default) (λ _, mret ()) onSwitchMIP onAgentMIP
    (d_onConnectToSwitch Dispatch_default) (d_onAuthConnectToSwitch Dispatch_default)
    (d_onAgentConnectionToken Dispatch_default) (d_onConnectionAccepted Dispatch_default) onAgentMRP.

(** ** The event loop *)

Definition send_heartbeats : M W () :=
  now ← syscall sys_steady_clock;
  s ← get_app;
  try_hbs fuel HEARTBEAT_INTERVAL now (switches s);;
  s ← get_app;
  try_hbs fuel HEARTBEAT_INTERVAL now (agents s).

(** Accept the connections waiting on the listener. *)
Definition accept_connections (listener : Z) : M W () :=
  accept_loop (λ client now, with_conn_fd client (ConnInfo_new now)) fuel listener.

(** The periodic dump and the one on demand; the result is the new
    [last_dump]. *)
Definition dump_turn (g_dump_path : string) (last_dump : Z) (g_dump_request : bool) : M W Z :=
  now ← syscall sys_steady_clock;
  last_dump ← (if DUMP_INTERVAL <=? now - last_dump then write_dump g_dump_path;; mret now
               else mret last_dump);
  (if g_dump_request then write_dump g_dump_path else mret ());;
  mret last_dump.

Section Program.
Variable dispatch : Dispatch W.

(** The turns of the loop, with the value of [g_dump_request] at each: it is
    reset when it was set. *)
Fixpoint event_loop (requests : list bool) (listener : Z) (g_dump_path : string) (last_dump : Z) : M W () :=
  match requests with
  | [] => mret ()
  | g_dump_request :: requests =>
    accept_connections listener;;
    wait_and_process (makeNetworkQueueHandler (Some dispatch)) fuel;;
    send_heartbeats;;
    last_dump ← dump_turn g_dump_path last_dump g_dump_request;
    event_loop requests listener g_dump_path last_dump
  end.

(** [main]; the result is the exit code. *)
Definition program (requests : list bool) (getenv : environment) : M W Z :=
  let g_dump_path := default DEFAULT_DUMP_PATH (getenv "VNET_DUMP_PATH") in
  listener ← open_listener LISTEN_PORT LISTEN_BACKLOG;
  match listener with
  | None => mret 1
  | Some listener =>
    NetQueue_new (makeNetworkQueueHandler (Some dispatch)) 200;;
    last_dump ← syscall sys_steady_clock;
    event_loop requests listener g_dump_path last_dump;;
    real_close listener;;
    write_dump g_dump_path;;
    NetQueue_destroy;;
    mret 0
  end.
End Program.

Definition conductor_main : list bool → environment → M W Z := program ConductorDispatch.
End Handlers.

(** ** Choosing a switch *)

(** The switches are live objects. *)
Definition switches_live (s : ConductorState) : Prop := ∀ p, p ∈ switches s → is_Some (conns s !! p).

(** The [i]-th candidate, from the round-robin index on. *)
Definition candidate (s : ConductorState) (i : nat) : option loc :=
  switches s !! Z.to_nat ((rr_index s + Z.of_nat i) mod Z.of_nat (length (switches s))).

Definition reaches (net : string) (s : ConductorState) (p : loc) : Prop :=
  ∃ c, conns s !! p = Some c ∧ reachable net c = true.

(** The round-robin index and the number of switches are far from wrapping. *)
Definition rr_bounded (s : ConductorState) : Prop :=
  0 ≤ rr_index s < 2 ^ 62 ∧ Z.of_nat (length (switches s)) < 2 ^ 62.

(** [p] is the first candidate that reaches the network, at position [i]. *)
Definition first_reaching (net : string) (s : ConductorState) (i : nat) (p : loc) : Prop :=
  candidate s i = Some p ∧ reaches net s p ∧
  ∀ j q, (j < i)%nat → candidate s j = Some q → ¬ reaches net s q.

Definition set_rr (i : Z) (w : W) : W := set_app (with_rr_index i (app w)) w.

Lemma candidate_some s i : switches s ≠ [] → rr_bounded s → is_Some (candidate s i).
Proof.
  intros Hne Hb. unfold candidate. apply lookup_lt_is_Some.
  assert (0 < length (switches s))%nat by (destruct (switches s); [done|cbn; lia]).
  pose proof (Z.mod_pos_bound (rr_index s + Z.of_nat i) (Z.of_nat (length (switches s)))). lia.
Qed.

Lemma pick_loop_run net w n i0 :
  switches_live (app w) → switches (app w) ≠ [] → rr_bounded (app w) → Z.of_nat (i0 + n) < 2 ^ 62 →
  (∀ j q, (j < i0)%nat → candidate (app w) j = Some q → ¬ reaches net (app w) q) →
  (∃ i p, (i0 ≤ i < i0 + n)%nat ∧ first_reaching net (app w) i p ∧
     pick_loop net (rr_index (app w)) (seq i0 n) w =
     Ret (Some p, set_rr ((rr_index (app w) + Z.of_nat i) mod
       Z.of_nat (length (switches (app w))) + 1) w)) ∨
  ((∀ j q, (j < i0 + n)%nat → candidate (app w) j = Some q → ¬ reaches net (app w) q) ∧
   pick_loop net (rr_index (app w)) (seq i0 n) w = Ret (None, w)).
Proof.
  intros Hlive Hne Hb. pose proof Hb as [Hrr Hlen]. revert i0.
  induction n as [|n IH]; intros i0 Hi0 Hnone.
  { right. split; [|done]. by rewrite Nat.add_0_r. }
  cbn [seq pick_loop]. erewrite (bind_ret get_app) by reflexivity. cbv zeta.
  rewrite u64_small by lia.
  destruct (candidate_some (app w) i0 Hne Hb) as [p Hp]. unfold candidate in Hp. rewrite Hp.
  destruct (Hlive p) as [c Hc]; [by eapply list_elem_of_lookup_2|].
  erewrite bind_ret by by apply deref_obj_run.
  pose proof (Z.mod_pos_bound (rr_index (app w) + Z.of_nat i0) (Z.of_nat (length (switches (app w))))) as Hm.
  assert (0 < length (switches (app w)))%nat by (destruct (switches (app w)); [done|cbn; lia]).
  destruct (reachable net c) eqn:Hr.
  - left. exists i0, p. split; [lia|]. split.
    + split; [done|]. split; [by exists c|done].
    + rewrite u64_small by lia. reflexivity.
  - destruct (IH (S i0)) as [(i&q&Hi&Hf&E)|[Hn E]]; [lia| |left|right].
    + intros j q Hj Hq. destruct (decide (j = i0)) as [->|]; [|apply (Hnone j); [lia|done]].
      unfold candidate in Hq. rewrite Hp in Hq. injection Hq as <-. intros (c'&Hc'&Hr'). congruence.
    + exists i, q. split; [lia|done].
    + by replace (i0 + S n)%nat with (S i0 + n)%nat by lia.
Qed.

(** The three outcomes of [pick_switch]. *)
Lemma pick_switch_run net w :
  switches_live (app w) → rr_bounded (app w) →
  (switches (app w) = [] ∧ pick_switch net w = Ret (None, w)) ∨
  (∃ i p, (i < length (switches (app w)))%nat ∧ first_reaching net (app w) i p ∧
     pick_switch net w = Ret (Some p, set_rr ((rr_index (app w) + Z.of_nat i) mod
       Z.of_nat (length (switches (app w))) + 1) w)) ∨
  (∃ p, candidate (app w) 0 = Some p ∧
     (∀ j q, (j < length (switches (app w)))%nat → candidate (app w) j = Some q →
        ¬ reaches net (app w) q) ∧
     pick_switch net w = Ret (Some p, set_rr (rr_index (app w) + 1) w)).
Proof.
  intros Hlive Hb. unfold pick_switch. erewrite (bind_ret get_app) by reflexivity.
  destruct (bool_decide_reflect (switches (app w) = [])) as [|Hne]; [by left|right].
  destruct (pick_loop_run net w (length (switches (app w))) 0) as [(i&p&Hi&Hf&E)|[Hn E]];
    [done..|destruct Hb; lia|intros; lia|left|right]; cbv zeta; erewrite bind_ret by apply E.
  - exists i, p. split; [lia|done].
  - destruct (candidate_some (app w) 0 Hne Hb) as [p Hp]. exists p. split; [done|]. split; [done|].
    unfold candidate in Hp. rewrite Z.add_0_r in Hp. cbv beta iota. rewrite Hp.
    rewrite u64_small by (destruct Hb; lia). reflexivity.
Qed.

(** Picking [k] switches in turn. *)
Fixpoint picks (net : string) (k : nat) : M W (list (option loc)) :=
  match k with
  | O => mret []
  | S k => p ← pick_switch net; ps ← picks net k; mret (p :: ps)
  end.

Lemma picks_run net w k :
  switches_live (app w) → rr_bounded (app w) → Z.of_nat (length (switches (app w))) + 1 < 2 ^ 62 →
  switches (app w) ≠ [] →
  (∀ p, p ∈ switches (app w) → reaches net (app w) p) →
  ∃ w', picks net k w = Ret (candidate (app w) <$> seq 0 k, w').
Proof.
  intros Hlive Hb Hlen Hne Hall. revert w Hlive Hb Hlen Hne Hall.
  induction k as [|k IH]; intros w Hlive Hb Hlen Hne Hall; [by exists w|].
  assert (∀ i q, candidate (app w) i = Some q → reaches net (app w) q) as Hcand.
  { intros i q Hq. apply Hall. by eapply list_elem_of_lookup_2. }
  assert (0 < length (switches (app w)))%nat as Hpos by (destruct (switches (app w)); [done|cbn; lia]).
  destruct (pick_switch_run net w Hlive Hb) as [[? _]|[(i&p&Hi&(Hp&_&Hfirst)&E)|(p&Hp&Hnone&_)]]; [done| |].
  2: { exfalso. by apply (Hnone 0%nat p Hpos Hp), (Hcand 0%nat). }
  destruct i as [|i].
  2: { exfalso. destruct (candidate_some (app w) 0 Hne Hb) as [q Hq].
    apply (Hfirst 0%nat q); [lia|done|by apply (Hcand 0%nat)]. }
  cbn [picks]. erewrite bind_ret by apply E.
  set (w1 := set_rr _ w) in *. set (n := Z.of_nat (length (switches (app w)))) in *.
  pose proof (Z.mod_pos_bound (rr_index (app w) + Z.of_nat 0) n) as Hm.
  destruct (IH w1) as [w' E']; [done| |done|done|done|].
  { unfold rr_bounded. cbn [w1 set_rr set_app app with_rr_index rr_index switches]. fold n. lia. }
  exists w'. erewrite bind_ret by apply E'. unfold mret, M_ret. do 2 f_equal.
  cbn [seq fmap list_fmap]. f_equal; [done|].
  rewrite <-fmap_S_seq, <-list_fmap_compose. apply list_fmap_ext. intros _ j _. cbn [compose].
  unfold candidate; cbn [w1 set_rr set_app app with_rr_index rr_index switches]. fold n.
  do 2 f_equal. rewrite Z.add_0_r, <-Z.add_assoc, Z.add_mod_idemp_l by lia. f_equal. lia.
Qed.

(** The candidates of a whole turn are the switches, from the index on. *)
Lemma candidates_rotation s :
  switches s ≠ [] → rr_bounded s →
  let r := Z.to_nat (rr_index s mod Z.of_nat (length (switches s))) in
  candidate s <$> seq 0 (length (switches s)) = Some <$> (drop r (switches s) ++ take r (switches s)).
Proof.
  intros Hne [Hrr _] r. set (l := switches s) in *. set (n := length l) in *.
  assert (0 < n)%nat as Hpos by (unfold n; destruct l; [done|cbn; lia]).
  pose proof (Z.mod_pos_bound (rr_index s) (Z.of_nat n)) as Hm.
  assert (Z.of_nat r = rr_index s mod Z.of_nat n) as Hr by (unfold r; lia).
  apply list_eq. intros i. destruct (decide (i < n)%nat) as [Hi|Hi].
  2: { rewrite !lookup_ge_None_2; [done|..].
    - rewrite length_fmap, length_app, length_drop, length_take. lia.
    - rewrite length_fmap, length_seq. lia. }
  rewrite !list_lookup_fmap, lookup_seq_lt by done. cbn [fmap option_fmap option_map Nat.add].
  assert (candidate s i = (drop r l ++ take r l) !! i) as ->.
  { unfold candidate. fold l n.
    replace ((rr_index s + Z.of_nat i) mod Z.of_nat n) with ((Z.of_nat r + Z.of_nat i) mod Z.of_nat n)
      by (rewrite Hr, Z.add_mod_idemp_l by lia; done).
    destruct (decide (i < n - r)%nat) as [Hir|Hir].
    - rewrite lookup_app_l by (rewrite length_drop; lia). rewrite lookup_drop, Z.mod_small by lia.
      f_equal. lia.
    - rewrite lookup_app_r by (rewrite length_drop; lia).
      rewrite length_drop, lookup_take_lt by lia.
      rewrite <-(Z.mod_add _ (-1)), Z.mod_small by lia. f_equal. lia. }
  destruct ((drop r l ++ take r l) !! i) eqn:E; [done|].
  apply lookup_ge_None_1 in E. rewrite length_app, length_drop, length_take in E. lia.
Qed.

(** Some candidate of a turn is any given switch. *)
Lemma candidate_exists s p :
  rr_bounded s → p ∈ switches s → ∃ i, (i < length (switches s))%nat ∧ candidate s i = Some p.
Proof.
  intros [Hrr Hlen] (j&Hj)%list_elem_of_lookup. pose proof (lookup_lt_Some _ _ _ Hj) as Hjn.
  set (n := Z.of_nat (length (switches s))) in *.
  pose proof (Z.mod_pos_bound (Z.of_nat j - rr_index s) n) as Hm.
  exists (Z.to_nat ((Z.of_nat j - rr_index s) mod n)). split; [lia|].
  unfold candidate. fold n. rewrite Z2Nat.id by lia.
  rewrite Z.add_mod_idemp_r by lia. replace (rr_index s + (Z.of_nat j - rr_index s)) with (Z.of_nat j) by lia.
  rewrite Z.mod_small by lia. by rewrite Nat2Z.id.
Qed.

(** ** The invariant of the registrations *)

(** The registered connections are live, with the role they registered for. *)
Definition registered_wf (s : ConductorState) : Prop :=
  (∀ p, p ∈ switches s → ∃ c, conns s !! p = Some c ∧ c_role c = SWITCH_CONN) ∧
  (∀ p, p ∈ agents s → ∃ c, conns s !! p = Some c ∧ c_role c = AGENT_CONN).

Lemma registered_switches_live s : registered_wf s → switches_live s.
Proof. intros [Hs _] p Hp. destruct (Hs p Hp) as (c&Hc&_). by exists c. Qed.

(** A connection that has not identified itself is not registered. *)
Lemma unknown_not_registered s p c :
  registered_wf s → conns s !! p = Some c → c_role c = UNKNOWN → (p ∉ switches s) ∧ (p ∉ agents s).
Proof.
  intros [Hs Ha] Hp Hr. split; intros Hin.
  - destruct (Hs p Hin) as (c'&Hc'&Hr'). congruence.
  - destruct (Ha p Hin) as (c'&Hc'&Hr'). congruence.
Qed.

(** Replacing an object, which keeps the roles it is registered for. *)
Lemma registered_wf_insert s p c :
  registered_wf s → (p ∈ switches s → c_role c = SWITCH_CONN) → (p ∈ agents s → c_role c = AGENT_CONN) →
  registered_wf (with_conns (<[p := c]> (conns s)) s).
Proof.
  intros [Hs Ha] Hrs Hra. split; intros q Hq; cbn in *; (destruct (decide (p = q)) as [<-|Hne];
    [rewrite lookup_insert_eq; eauto|rewrite lookup_insert_ne by done; eauto]).
Qed.

Lemma registered_wf_update s p c :
  registered_wf s → p ∉ switches s → p ∉ agents s → registered_wf (with_conns (<[p := c]> (conns s)) s).
Proof. intros Hwf ??. by apply registered_wf_insert. Qed.

(** ** The properties *)

Section Properties.
Context `{KL : !KernelLaws K}.

(** [pick_switch] fails only when there is no switch; otherwise it returns a registered switch,
    and one the agent's network reaches (the same network, or "::internet") whenever there is one.
    It changes nothing but the round-robin index. *)
Theorem pick_switch_prefers_reachable net w :
  switches_live (app w) → rr_bounded (app w) →
  if decide (switches (app w) = []) then pick_switch net w = Ret (None, w)
  else ∃ p i, pick_switch net w = Ret (Some p, set_rr i w) ∧ p ∈ switches (app w) ∧
    ((∃ q, q ∈ switches (app w) ∧ reaches net (app w) q) → reaches net (app w) p).
Proof.
  intros Hlive Hb.
  destruct (pick_switch_run net w Hlive Hb) as [[E ?]|[(i&p&_&(Hp&Hr&_)&E)|(p&Hp&Hn&E)]].
  - by rewrite decide_True.
  - rewrite decide_False by (intros E0; unfold candidate in Hp; by rewrite E0 in Hp).
    eexists p, _. split; [exact E|]. split; [by eapply list_elem_of_lookup_2|done].
  - rewrite decide_False by (intros E0; unfold candidate in Hp; by rewrite E0 in Hp).
    eexists p, _. split; [exact E|]. split; [by eapply list_elem_of_lookup_2|].
    intros (q&Hq&Hr). destruct (candidate_exists (app w) q Hb Hq) as (j&Hj&Hqj).
    by destruct (Hn j q Hj Hqj).
Qed.

(** C40: the load balancing is fair: when every switch is reachable, as many picks in a row as there
    are switches return every switch exactly once, in round-robin order. *)
Theorem pick_switch_round_robin net w :
  switches_live (app w) → rr_bounded (app w) → Z.of_nat (length (switches (app w))) + 1 < 2 ^ 62 →
  switches (app w) ≠ [] → (∀ p, p ∈ switches (app w) → reaches net (app w) p) →
  let l := switches (app w) in
  let r := Z.to_nat (rr_index (app w) mod Z.of_nat (length l)) in
  ∃ w', picks net (length l) w = Ret (Some <$> (drop r l ++ take r l), w').
Proof.
  intros Hlive Hb Hlen Hne Hall l r.
  destruct (picks_run net w (length l) Hlive Hb Hlen Hne Hall) as [w' E]. exists w'.
  rewrite E. subst l r. by rewrite (candidates_rotation (app w) Hne Hb).
Qed.

(** The second half of [onAgentMIP]: the switch [sw] is given to the agent of
    the connection [p]. *)
Definition assign fuel data (pkt : PacketAgentMIP) p sw token : M W () :=
  c ← deref_obj (Some sw);
  sent ← send_protobuf_packet fuel (sd_fd data) CONNECT_TO_SWITCH
    (mk_PacketConnectToSwitch (c_name c) (c_sw_ipv4 c) token (c_sw_port c));
  if negb sent then mret ()
  else
    c ← deref_obj (Some sw);
    sent ← send_protobuf_packet fuel (c_fd c) AGENT_CONNECTION_TOKEN
      (mk_PacketAgentConnectionToken (am_name pkt) token);
    if negb sent then mret ()
    else
      now ← now_ms;
      modify_app (λ s, with_pending
        (pending_tokens s ++ [mk_pending (am_name pkt) (c_name c) now token]) s);;
      push_agent (Some p).

(** The state after [onAgentMIP] prepared the connection and picked a switch. *)
Lemma onAgentMIP_start fuel data pkt w p c :
  sd_ptr_data data = Some p → conns (app w) !! p = Some c → c_role c = UNKNOWN →
  registered_wf (app w) → rr_bounded (app w) → switches (app w) ≠ [] →
  ∃ now sw csw i k, sw ∈ switches (app w) ∧ sw ≠ p ∧ conns (app w) !! sw = Some csw ∧
    tx (view k) = tx (view (kern w)) ∧
    let w1 := set_rr i (set_obj p (agent_conn (am_name pkt) (am_auth_key pkt) (am_network pkt)
      (sd_fd data) now c) (set_kern k w)) in
    onAgentMIP fuel data pkt w =
    (token ← generate_token; assign fuel data pkt p sw token) w1.
Proof.
  intros Hp Hc Hrole Hwf Hb Hne. unfold onAgentMIP. rewrite Hp.
  pose proof (sys_system_clock_ok (kern w)) as Hclock.
  destruct (sys_system_clock_ms (kern w)) as [now k] eqn:Eclock. cbn in Hclock.
  erewrite bind_ret. 2: { erewrite bind_ret by by apply deref_obj_run.
    unfold now_ms, syscall. rewrite Eclock. reflexivity. }
  erewrite bind_ret by by apply update_obj_run.
  set (c' := agent_conn _ _ _ _ _ _). set (w1 := set_obj _ _ _).
  destruct (unknown_not_registered _ _ _ Hwf Hc Hrole) as [Hns Hna].
  assert (registered_wf (app w1)) as Hwf1 by by apply registered_wf_update.
  destruct (pick_switch_run (am_network pkt) w1 (registered_switches_live _ Hwf1)) as
    [[? _]|[(i&sw&_&(Hsw&_)&E)|(sw&Hsw&_&E)]]; [done|done|..];
    apply list_elem_of_lookup_2 in Hsw as Hin;
    (destruct (proj1 Hwf sw Hin) as (csw&Hcsw&_));
    (eexists now, sw, csw, _, k; split; [done|]; split; [by intros ->|]; split; [done|]);
    (split; [by rewrite Hclock|]); erewrite bind_ret by apply E; reflexivity.
Qed.

(** The two messages of an assignment, from a state [w2] in which the switch
    [sw] is live and on another descriptor. *)
Lemma assignment_messages_run fuel data pkt p sw csw token w2 :
  conns (app w2) !! sw = Some csw → c_fd csw ≠ sd_fd data →
  let run := assign fuel data pkt p sw token w2 in
  run = OutOfFuel ∨
  ∃ w', run = Ret ((), w') ∧ switches (app w') = switches (app w2) ∧
    ((agents (app w') = agents (app w2) ∧ pending_tokens (app w') = pending_tokens (app w2)) ∨
     ∃ now body1 body2,
       SerializeToString (mk_PacketConnectToSwitch (c_name csw) (c_sw_ipv4 csw) token (c_sw_port csw))
         = Some body1 ∧
       SerializeToString (mk_PacketAgentConnectionToken (am_name pkt) token) = Some body2 ∧
       tx_of (view (kern w')) (sd_fd data) =
         tx_of (view (kern w2)) (sd_fd data) ++ frame (CONNECT_TO_SWITCH, body1) ∧
       tx_of (view (kern w')) (c_fd csw) =
         tx_of (view (kern w2)) (c_fd csw) ++ frame (AGENT_CONNECTION_TOKEN, body2) ∧
       pending_tokens (app w') =
         pending_tokens (app w2) ++ [mk_pending (am_name pkt) (c_name csw) now token] ∧
       agents (app w') = agents (app w2) ++ [p]).
Proof.
  intros Hcsw Hfds run. subst run. unfold assign. erewrite bind_ret by by apply deref_obj_run.
  destruct (send_protobuf_packet_run (sd_fd data) w2 CONNECT_TO_SWITCH
    (mk_PacketConnectToSwitch (c_name csw) (c_sw_ipv4 csw) token (c_sw_port csw)) fuel)
    as [E|[[_ E]|(body1&b1&bs1&k1&Hser1&E&Hw1)]].
  { left. unfold mbind, M_bind. by rewrite E. }
  { right. exists w2. split; [by erewrite bind_ret by apply E|]. split; [done|by left]. }
  erewrite bind_ret by apply E. set (w3 := set_kern k1 w2).
  destruct b1; cbn [negb]; [|right; exists w3; split; [done|]; split; [done|by left]].
  erewrite bind_ret by by apply deref_obj_run.
  destruct (send_protobuf_packet_run (c_fd csw) w3 AGENT_CONNECTION_TOKEN
    (mk_PacketAgentConnectionToken (am_name pkt) token) fuel)
    as [E2|[[_ E2]|(body2&b2&bs2&k2&Hser2&E2&Hw2)]].
  { left. unfold mbind, M_bind. by rewrite E2. }
  { right. exists w3. split; [by erewrite bind_ret by apply E2|]. split; [done|by left]. }
  erewrite bind_ret by apply E2. set (w4 := set_kern k2 w3).
  destruct b2; cbn [negb]; [|right; exists w4; split; [done|]; split; [done|by left]].
  right. pose proof (sys_system_clock_ok (kern w4)) as Hclock.
  destruct (sys_system_clock_ms (kern w4)) as [now' k3] eqn:Eclock. cbn in Hclock.
  erewrite (bind_ret now_ms) by (unfold now_ms, syscall; by rewrite Eclock).
  destruct Hw1 as ([_ Hall1]&Htxa&Hnea&_), Hw2 as ([_ Hall2]&Htxb&Hneb&_).
  rewrite (proj1 Hall1) in Htxa by done. rewrite (proj1 Hall2) in Htxb by done.
  eexists. split; [reflexivity|]. split; [done|right].
  exists now', body1, body2. cbn [app kern set_kern set_app]. rewrite Hclock.
  change (view (kern w4)) with (view k2). change (view (kern w3)) with (view k1) in *.
  split_and!; try done; [by rewrite Hneb by done|by rewrite Htxb, Hnea by done].
Qed.

(** The outcomes of [onAgentMIP] when a switch is registered. *)
Lemma onAgentMIP_run fuel data pkt w p c :
  sd_ptr_data data = Some p → conns (app w) !! p = Some c → c_role c = UNKNOWN →
  registered_wf (app w) → rr_bounded (app w) → switches (app w) ≠ [] →
  (∀ q d, q ∈ switches (app w) → conns (app w) !! q = Some d → c_fd d ≠ sd_fd data) →
  onAgentMIP fuel data pkt w = OutOfFuel ∨
  ∃ w', onAgentMIP fuel data pkt w = Ret ((), w') ∧ switches (app w') = switches (app w) ∧
    ((agents (app w') = agents (app w) ∧ pending_tokens (app w') = pending_tokens (app w)) ∨
     ∃ sw csw token now body1 body2,
       sw ∈ switches (app w) ∧ conns (app w) !! sw = Some csw ∧ in_width 64 token ∧
       SerializeToString (mk_PacketConnectToSwitch (c_name csw) (c_sw_ipv4 csw) token (c_sw_port csw))
         = Some body1 ∧
       SerializeToString (mk_PacketAgentConnectionToken (am_name pkt) token) = Some body2 ∧
       tx_of (view (kern w')) (sd_fd data) =
         tx_of (view (kern w)) (sd_fd data) ++ frame (CONNECT_TO_SWITCH, body1) ∧
       tx_of (view (kern w')) (c_fd csw) =
         tx_of (view (kern w)) (c_fd csw) ++ frame (AGENT_CONNECTION_TOKEN, body2) ∧
       pending_tokens (app w') =
         pending_tokens (app w) ++ [mk_pending (am_name pkt) (c_name csw) now token] ∧
       agents (app w') = agents (app w) ++ [p]).
Proof.
  intros Hp Hc Hrole Hwf Hb Hne Hfds.
  destruct (onAgentMIP_start fuel data pkt w p c Hp Hc Hrole Hwf Hb Hne)
    as (now&sw&csw&i&k&Hin&Hswp&Hcsw&Htx&E).
  cbv zeta in E. rewrite E. clear E. set (w1 := set_rr _ _).
  destruct (rng_next (rng (app w1))) as [token g] eqn:Erng.
  pose proof (rng_width (rng (app w1))) as Hwidth. rewrite Erng in Hwidth. cbn in Hwidth.
  erewrite (bind_ret generate_token) by (unfold generate_token; by rewrite Erng).
  set (w2 := set_app (with_rng g (app w1)) w1).
  destruct (assignment_messages_run fuel data pkt p sw csw token w2) as [E|(w'&E&Hsw&Hres)];
    [cbn; by rewrite lookup_insert_ne|by apply (Hfds sw)|by left|right].
  exists w'. split; [exact E|]. split; [exact Hsw|].
  destruct Hres as [Hres|(now'&body1&body2&?&?&Htx1&Htx2&?&?)]; [by left|right].
  unfold tx_of in Htx1, Htx2 |- *. cbn [w2 w1 kern set_app set_rr set_obj set_kern] in Htx1, Htx2.
  rewrite Htx in Htx1, Htx2. exists sw, csw, token, now', body1, body2. by split_and!.
Qed.

(** C19: the assignment of an agent is consistent on both sides.  When [onAgentMIP] handles an agent
    while a switch is registered, it never fails in memory, and (fuel permitting) either gives the
    agent up, registering nothing, or has sent the agent the address of a registered switch with a
    token and that switch the agent's name with the same token, recorded both and registered the
    agent. *)
Theorem agent_assignment_consistent fuel data pkt w p c :
  sd_ptr_data data = Some p → conns (app w) !! p = Some c → c_role c = UNKNOWN →
  registered_wf (app w) → rr_bounded (app w) → switches (app w) ≠ [] →
  (∀ q d, q ∈ switches (app w) → conns (app w) !! q = Some d → c_fd d ≠ sd_fd data) →
  onAgentMIP fuel data pkt w = OutOfFuel ∨
  ∃ w', onAgentMIP fuel data pkt w = Ret ((), w') ∧ switches (app w') = switches (app w) ∧
    ((agents (app w') = agents (app w) ∧ pending_tokens (app w') = pending_tokens (app w)) ∨
     ∃ sw csw token now body1 body2,
       sw ∈ switches (app w) ∧ conns (app w) !! sw = Some csw ∧ in_width 64 token ∧
       SerializeToString (mk_PacketConnectToSwitch (c_name csw) (c_sw_ipv4 csw) token (c_sw_port csw))
         = Some body1 ∧
       SerializeToString (mk_PacketAgentConnectionToken (am_name pkt) token) = Some body2 ∧
       tx_of (view (kern w')) (sd_fd data) =
         tx_of (view (kern w)) (sd_fd data) ++ frame (CONNECT_TO_SWITCH, body1) ∧
       tx_of (view (kern w')) (c_fd csw) =
         tx_of (view (kern w)) (c_fd csw) ++ frame (AGENT_CONNECTION_TOKEN, body2) ∧
       pending_tokens (app w') =
         pending_tokens (app w) ++ [mk_pending (am_name pkt) (c_name csw) now token] ∧
       agents (app w') = agents (app w) ++ [p]).
Proof. apply onAgentMIP_run. Qed.

(** ** Registering and closing *)

Lemma registered_wf_push_switch s p c :
  registered_wf s → conns s !! p = Some c → c_role c = SWITCH_CONN →
  registered_wf (with_switches (switches s ++ [p]) s).
Proof.
  intros [Hs Ha] Hc Hr. split; [|done]. intros q [Hq| ->%list_elem_of_singleton]%elem_of_app; eauto.
Qed.
Lemma registered_wf_push_agent s p c :
  registered_wf s → conns s !! p = Some c → c_role c = AGENT_CONN →
  registered_wf (with_agents (agents s ++ [p]) s).
Proof.
  intros [Hs Ha] Hc Hr. split; [done|]. intros q [Hq| ->%list_elem_of_singleton]%elem_of_app; eauto.
Qed.

(** Reading the clock for a live connection. *)
Lemma start_run w p c :
  conns (app w) !! p = Some c →
  ∃ now k, (_ ← deref_obj (Some p); now_ms) w = Ret (now, set_kern k w) ∧ view k = view (kern w).
Proof.
  intros Hc. erewrite bind_ret by by apply deref_obj_run. unfold now_ms, syscall.
  pose proof (sys_system_clock_ok (kern w)) as Hk.
  destruct (sys_system_clock_ms (kern w)) as [now k]. by exists now, k.
Qed.

(** The runs of the two handlers that only register, from any live connection. *)
Lemma onSwitchMIP_run data pkt w p c :
  sd_ptr_data data = Some p → conns (app w) !! p = Some c →
  ∃ c' k, onSwitchMIP data pkt w = Ret ((), set_app (with_switches (switches (app w) ++ [p])
      (with_conns (<[p := c']> (conns (app w))) (app w))) (set_kern k w)) ∧
    c_role c' = SWITCH_CONN ∧ c_name c' = sm_name pkt ∧ c_fd c' = sd_fd data ∧ view k = view (kern w).
Proof.
  intros Hp Hc. unfold onSwitchMIP. rewrite Hp.
  destruct (start_run w p c Hc) as (now&k&E&Hk). erewrite bind_ret by apply E.
  erewrite bind_ret by by apply update_obj_run. set (w1 := set_obj _ _ _).
  erewrite (bind_ret (λ w, Ret (sys_getpeername (sd_fd data) (kern w), w))) by reflexivity.
  destruct (sys_getpeername (sd_fd data) (kern w1)) as [addr|].
  - erewrite bind_ret by (apply update_obj_run; cbn; apply lookup_insert_eq).
    eexists _, k. split; [unfold set_obj, modify_app, set_app, with_conns; cbn; by rewrite insert_insert_eq|].
    by split_and!.
  - erewrite (bind_ret (mret ())) by reflexivity. eexists _, k. split; [reflexivity|by split_and!].
Qed.

Lemma onAgentMRP_run data pkt w p c :
  sd_ptr_data data = Some p → conns (app w) !! p = Some c →
  ∃ c' k, onAgentMRP data pkt w = Ret ((), set_app (with_agents (agents (app w) ++ [p])
      (with_conns (<[p := c']> (conns (app w))) (app w))) (set_kern k w)) ∧
    c_role c' = AGENT_CONN ∧ view k = view (kern w).
Proof.
  intros Hp Hc. unfold onAgentMRP. rewrite Hp.
  destruct (start_run w p c Hc) as (now&k&E&Hk). erewrite bind_ret by apply E.
  erewrite bind_ret by by apply update_obj_run. eexists _, k. split; [reflexivity|done].
Qed.

(** The state after a connection was closed. *)
Definition closed (p : loc) (c : ConnInfo) (s : ConductorState) : ConductorState :=
  mk_conductor (delete p (conns s))
    (if decide (c_role c = SWITCH_CONN) then filter (λ q, q ≠ p) (switches s) else switches s)
    (if decide (c_role c = AGENT_CONN) then filter (λ q, q ≠ p) (agents s) else agents s)
    (if decide (c_role c = SWITCH_CONN) then filter (λ t, p_switch_name t ≠ c_name c) (pending_tokens s)
     else pending_tokens s)
    (rr_index s) (rng s).

Lemma onClose_run data w p c :
  cd_ptr_data data = Some p → conns (app w) !! p = Some c →
  onClose data w = Ret ((), set_app (closed p c (app w)) w).
Proof.
  intros Hp Hc. unfold onClose. rewrite Hp. erewrite bind_ret by by apply deref_obj_run. unfold closed.
  destruct (c_role c).
  - erewrite (bind_ret (mret ())) by reflexivity. by erewrite delete_obj_run by exact Hc.
  - erewrite (bind_ret (remove_switch p)).
    2: { unfold remove_switch. erewrite (bind_ret (modify_app _)) by reflexivity.
      erewrite bind_ret by (apply deref_obj_run; exact Hc). reflexivity. }
    by erewrite delete_obj_run by exact Hc.
  - erewrite (bind_ret (remove_agent p)) by reflexivity. by erewrite delete_obj_run by exact Hc.
Qed.

(** A closed connection is in no list. *)
Lemma closed_unregistered s p c :
  registered_wf s → conns s !! p = Some c → (p ∉ switches (closed p c s)) ∧ (p ∉ agents (closed p c s)).
Proof.
  intros [Hs Ha] Hc. unfold closed; cbn. split; destruct (decide _) as [Hr|Hr]; intros Hin.
  - by apply list_elem_of_filter in Hin as [??].
  - destruct (Hs p Hin) as (c'&Hc'&Hr'). congruence.
  - by apply list_elem_of_filter in Hin as [??].
  - destruct (Ha p Hin) as (c'&Hc'&Hr'). congruence.
Qed.

Lemma closed_sublists s p c : switches (closed p c s) ⊆ switches s ∧ agents (closed p c s) ⊆ agents s.
Proof. unfold closed; cbn. split; destruct (decide _); intros q; rewrite ?list_elem_of_filter; naive_solver. Qed.

Lemma registered_wf_closed s p c : registered_wf s → conns s !! p = Some c → registered_wf (closed p c s).
Proof.
  intros Hwf Hc. destruct (closed_unregistered s p c Hwf Hc) as [Hns Hna].
  destruct (closed_sublists s p c) as [Hss Hsa]. destruct Hwf as [Hs Ha].
  split; intros q Hq; cbn; rewrite lookup_delete_ne by (intros ->; done); auto.
Qed.

(** C20: a close forgets exactly the connection: [onClose] frees its metadata and takes it out of
    whatever list it is in; with a switch go the pending tokens that name it.  No other connection,
    registration or token is touched, and the lists keep their order. *)
Theorem close_forgets_connection data w p c :
  registered_wf (app w) → cd_ptr_data data = Some p → conns (app w) !! p = Some c →
  ∃ w', onClose data w = Ret ((), w') ∧ registered_wf (app w') ∧
    conns (app w') = delete p (conns (app w)) ∧
    switches (app w') = filter (λ q, q ≠ p) (switches (app w)) ∧
    agents (app w') = filter (λ q, q ≠ p) (agents (app w)) ∧
    pending_tokens (app w') = filter (λ t, c_role c = SWITCH_CONN → p_switch_name t ≠ c_name c)
      (pending_tokens (app w)).
Proof.
  intros Hwf Hp Hc. rewrite (onClose_run data w p c Hp Hc). eexists. split; [reflexivity|].
  split; [by apply registered_wf_closed|]. pose proof Hwf as [Hs Ha]. cbn.
  assert (∀ (l : list loc), p ∉ l → l = filter (λ q, q ≠ p) l) as Hid.
  { intros l Hl. symmetry. apply filter_all. by intros q Hq ->. }
  split; [done|]. split; [|split].
  - destruct (decide (c_role c = SWITCH_CONN)); [done|]. apply Hid. intros Hin.
    destruct (Hs p Hin) as (c'&Hc'&Hr'). congruence.
  - destruct (decide (c_role c = AGENT_CONN)); [done|]. apply Hid. intros Hin.
    destruct (Ha p Hin) as (c'&Hc'&Hr'). congruence.
  - destruct (decide (c_role c = SWITCH_CONN)).
    + apply list_filter_iff. tauto.
    + symmetry. by apply filter_all.
Qed.

(** A connection that registers as a switch and then as an agent leaves a dangling pointer
    behind: its close removes it from the agents only and frees its metadata, and the next round of
    heartbeats accesses the freed object. *)
Theorem double_registration_use_after_free fuel w p c data pkt1 pkt2 close :
  conns (app w) !! p = Some c → switches (app w) = [] →
  sd_ptr_data data = Some p → cd_ptr_data close = Some p →
  (onSwitchMIP data pkt1;; onAgentMRP data pkt2;; onClose close;; send_heartbeats fuel) w =
  Undef UseAfterFree.
Proof.
  intros Hc Hsw Hp Hclose.
  destruct (onSwitchMIP_run data pkt1 w p c Hp Hc) as (c1&k1&E1&_). erewrite bind_ret by apply E1.
  set (w1 := set_app _ _).
  destruct (onAgentMRP_run data pkt2 w1 p c1 Hp) as (c2&k2&E2&Hr2&_); [cbn; apply lookup_insert_eq|].
  erewrite bind_ret by apply E2. set (w2 := set_app _ (set_kern k2 w1)).
  assert (conns (app w2) !! p = Some c2) as Hc2 by (cbn; apply lookup_insert_eq).
  erewrite bind_ret by by apply (onClose_run close w2 p c2). set (w3 := set_app _ w2).
  assert (switches (app w3) = [p]) as Hsw3 by (cbn; by rewrite Hr2, Hsw).
  assert (conns (app w3) !! p = None) as Hc3 by (cbn; apply lookup_delete_eq).
  unfold send_heartbeats. destruct (sys_steady_clock (kern w3)) as [now k] eqn:Ek.
  erewrite (bind_ret (syscall _)) by (unfold syscall; by rewrite Ek).
  erewrite (bind_ret get_app) by reflexivity. change (app (set_kern k w3)) with (app w3). rewrite Hsw3.
  cbn [try_hbs]. unfold try_hb, mbind, M_bind. by rewrite deref_obj_dangling.
Qed.

(** An agent that arrives when no switch is registered crashes the conductor: [onAgentMIP]
    closes, and so frees, the very element [process] is working on, and the loop then resets that
    element. *)
Theorem agent_without_switch_use_after_free fuel w q e p c (pkt : PacketAgentMIP) payload :
  queue_wf w → elements (queue w) !! q = Some e → receiving e → el_state e = SCK_READY →
  stream_type (net_buffer e) = AGENT_MIP → buffered e = frame (AGENT_MIP, payload) →
  SerializeToString pkt = Some payload →
  el_ptr e = Some p → conns (app w) !! p = Some c → switches (app w) = [] →
  process_step (makeNetworkQueueHandler (Some (ConductorDispatch fuel))) q w = Undef UseAfterFree.
Proof.
  intros Hwf He Hr Hst Hty Hbuf Hser Hp Hc Hsw.
  rewrite (typed_packet_step (ConductorDispatch fuel) q w e payload _ _ (onAgentMIP fuel) pkt He Hr Hst);
    [|by rewrite Hty|rewrite Hty; apply (typed_agent_mip (ConductorDispatch fuel))|done].
  assert (∃ w', onAgentMIP fuel (packet_data q e) pkt w = Ret ((), w') ∧ elements (queue w') !! q = None)
    as (w'&E&Hgone).
  { unfold onAgentMIP. cbn [packet_data sd_ptr_data sd_fd]. rewrite Hp.
    pose proof (sys_system_clock_ok (kern w)) as Hclock.
    destruct (sys_system_clock_ms (kern w)) as [now k] eqn:Eclock. cbn in Hclock.
    erewrite bind_ret. 2: { erewrite bind_ret by by apply deref_obj_run.
      unfold now_ms, syscall. rewrite Eclock. reflexivity. }
    erewrite bind_ret by by apply update_obj_run. set (w1 := set_obj _ _ _).
    assert (queue_wf w1) as Hwf1.
    { apply set_app_wf, set_kern_wf; [done|]. unfold same_reg_at. by rewrite Hclock. }
    erewrite (bind_ret (pick_switch _)).
    2: { unfold pick_switch. erewrite (bind_ret get_app) by reflexivity.
      change (switches (app w1)) with (switches (app w)). rewrite Hsw. reflexivity. }
    assert (fd_to_network_element (queue w1) !! el_fd e = Some q) as Hfd by by apply (wf_owned _ Hwf).
    destruct (close_element_run w1 (el_fd e) q Hwf1 Hfd) as (k2&E2&_).
    exists (closed_world (el_fd e) q k2 w1). split; [|cbn; apply lookup_delete_eq].
    unfold close_fd. erewrite (bind_ret (get_network_element_from_fd _)).
    2: { unfold get_network_element_from_fd. rewrite Hfd. reflexivity. }
    exact E2. }
  erewrite bind_ret by apply E. unfold after_packet, mbind, M_bind, update. by rewrite Hgone.
Qed.
End Properties.
End Conductor.

(** ** Concrete runs *)

#[local] Instance conductor_order : HostOrder := LittleEndian.
#[local] Instance conductor_inet : Inet := dotted_quad.
#[local] Instance conductor_malloc : Malloc := malloc_first_fit.
#[local] Instance conductor_nodes : NodeAlloc := λ _, true.
#[local] Instance conductor_codecs : Messages := codecs.

(** A generator that counts. *)
#[refine] Definition counting_rng : Rng := {|
  rng_state := Z; rng_next s := (s mod 2 ^ 64, s + 1)
|}.
Proof. intros s. apply Z.mod_pos_bound. lia. Defined.
#[local] Instance conductor_rng : Rng := counting_rng.

#[local] Instance conductor_dump : DumpFile sim_kernel := {|
  dump_open _ k := (true, k); dump_serialize _ _ k := (true, k); dump_close _ k := (true, k);
  dump_rename _ _ k := (true, k)
|}.

(** Two switches, on descriptors 10 and 11, and a connection, on descriptor 12,
    that has not identified itself. *)
Definition switch_conn (name network : string) (fd : Z) : ConnInfo :=
  mk_conn SWITCH_CONN name "key" network 6000 16777343 fd 0 0.
Definition sample_conns : gmap loc ConnInfo :=
  {[1%positive := switch_conn "s1" "::internet" 10; 2%positive := switch_conn "s2" "lan" 11;
    3%positive := with_conn_fd 12 (ConnInfo_new 0)]}.
Definition sample_conductor (sws : list loc) : ConductorState :=
  mk_conductor sample_conns sws [] [] 1 77.
Definition sample_kern : sim :=
  mk_sim (mk_kview {[12 := []]} {[12 := Open]} ∅ 0 {[3; 10; 11; 12]} {[3 := {[12 := 1%positive]}]} ∅)
    1000 {[10 := 65536; 11 := 65536; 12 := 65536]} 0 0 0.
Definition sample_agent_mip : PacketAgentMIP := mk_PacketAgentMIP "agent" "key" "lan".
Definition sample_agent_body : list byte := default [] (SerializeToString sample_agent_mip).

(** The agent's packet is in the buffer of the connection's element. *)
Definition agent_element : NetworkElement :=
  mk_element SCK_READY 12 (Some 3%positive) (Z.of_nat (6 + length sample_agent_body))
    (frame (AGENT_MIP, sample_agent_body)) [] 0.
Definition conductor_world (sws : list loc) : @World sim_kernel ConductorState :=
  mk_world (mk_queue 3 200 {[1%positive := agent_element]} {[12 := 1%positive]}) sample_kern
    (sample_conductor sws).
Definition agent_data : socket_data := packet_data 1%positive agent_element.
Definition sample_switches : list loc := [1%positive; 2%positive].

Lemma sample_conductor_wf : registered_wf (sample_conductor sample_switches).
Proof.
  split; intros p; cbn [sample_conductor switches agents].
  - intros [->|[->|[]%elem_of_nil]%elem_of_cons]%elem_of_cons; eexists; split; reflexivity.
  - by intros ?%elem_of_nil.
Qed.

Lemma sample_rr_bounded : rr_bounded (sample_conductor sample_switches).
Proof. split; cbn; lia. Qed.

Lemma sample_all_reach p :
  p ∈ sample_switches → reaches "lan" (sample_conductor sample_switches) p.
Proof.
  intros [->|[->|[]%elem_of_nil]%elem_of_cons]%elem_of_cons; eexists; split; reflexivity.
Qed.

Lemma pick_switch_prefers_reachable_witness :
  ∃ p i, pick_switch "lan" (conductor_world sample_switches) =
      Ret (Some p, set_rr i (conductor_world sample_switches)) ∧
    reaches "lan" (sample_conductor sample_switches) p.
Proof.
  destruct (pick_switch_prefers_reachable "lan" (conductor_world sample_switches)
    (registered_switches_live _ sample_conductor_wf) sample_rr_bounded) as (p&i&E&_&Hr).
  exists p, i. split; [exact E|]. apply Hr. exists 1%positive.
  split; [apply elem_of_cons; by left|]. apply sample_all_reach, elem_of_cons. by left.
Defined.

Lemma pick_switch_round_robin_witness :
  ∃ w', picks "lan" 2 (conductor_world sample_switches) =
    Ret ([Some 2%positive; Some 1%positive], w').
Proof.
  apply (pick_switch_round_robin "lan" (conductor_world sample_switches)
    (registered_switches_live _ sample_conductor_wf) sample_rr_bounded); [cbn; lia|done|].
  apply sample_all_reach.
Defined.

Lemma agent_assignment_consistent_witness :
  ∃ w', onAgentMIP 1000 agent_data sample_agent_mip (conductor_world sample_switches) = Ret ((), w') ∧
    switches (app w') = sample_switches.
Proof.
  destruct (agent_assignment_consistent 1000 agent_data sample_agent_mip (conductor_world sample_switches)
    3%positive (with_conn_fd 12 (ConnInfo_new 0))) as [E|(w'&E&Hsw&_)].
  - reflexivity.
  - reflexivity.
  - reflexivity.
  - apply sample_conductor_wf.
  - apply sample_rr_bounded.
  - discriminate.
  - intros q d [->|[->|[]%elem_of_nil]%elem_of_cons]%elem_of_cons [= <-]; vm_compute; discriminate.
  - exfalso.
    assert (is_return (onAgentMIP 1000 agent_data sample_agent_mip (conductor_world sample_switches)) = true)
      as Hr by (vm_compute; reflexivity).
    by rewrite E in Hr.
  - exists w'. split; [exact E|exact Hsw].
Defined.

(** The same run evaluated: the agent is registered with a pending token. *)
Example agent_assignment_run :
  match onAgentMIP 1000 agent_data sample_agent_mip (conductor_world sample_switches) with
  | Ret (_, w) => Some (agents (app w), p_token <$> pending_tokens (app w), p_switch_name <$> pending_tokens (app w))
  | _ => None
  end = Some ([3%positive], [77], ["s2"]).
Proof. vm_compute. reflexivity. Qed.

Lemma close_forgets_connection_witness :
  ∃ w', onClose (mk_close_data 1%positive (Some 1%positive) 10 CLOSE_HANGUP) (conductor_world sample_switches)
      = Ret ((), w') ∧ switches (app w') = [2%positive].
Proof.
  destruct (close_forgets_connection (mk_close_data 1%positive (Some 1%positive) 10 CLOSE_HANGUP)
    (conductor_world sample_switches) 1%positive (switch_conn "s1" "::internet" 10) sample_conductor_wf)
    as (w'&E&_&_&Hsw&_); [reflexivity|reflexivity|].
  exists w'. split; [exact E|exact Hsw].
Defined.

Lemma double_registration_use_after_free_witness :
  (onSwitchMIP agent_data (mk_PacketSwitchMIP "x" "" "" 1);;
   onAgentMRP agent_data (mk_PacketAgentMRP "x" "");;
   onClose (mk_close_data 1%positive (Some 3%positive) 12 CLOSE_HANGUP);;
   send_heartbeats 100) (conductor_world []) = Undef UseAfterFree.
Proof.
  apply (double_registration_use_after_free 100 (conductor_world []) 3%positive
    (with_conn_fd 12 (ConnInfo_new 0))); reflexivity.
Defined.

Lemma agent_without_switch_use_after_free_witness :
  process_step (makeNetworkQueueHandler (Some (ConductorDispatch 100))) 1%positive (conductor_world []) =
  Undef UseAfterFree.
Proof.
  apply (agent_without_switch_use_after_free 100 (conductor_world []) 1%positive agent_element 3%positive
    (with_conn_fd 12 (ConnInfo_new 0)) sample_agent_mip sample_agent_body).
  - split; cbn [conductor_world queue elements fd_to_network_element kern epoll_fd].
    + intros fd p [<- <-]%lookup_singleton_Some. exists agent_element. by rewrite lookup_singleton_eq.
    + intros p e [<- <-]%lookup_singleton_Some. reflexivity.
    + reflexivity.
    + reflexivity.
    + apply (bool_decide_unpack _). vm_compute. exact I.
    + intros p e [<- <-]%lookup_singleton_Some. vm_compute. repeat split; discriminate.
  - reflexivity.
  - split; vm_compute; [split; discriminate|discriminate|reflexivity].
  - reflexivity.
  - vm_compute. reflexivity.
  - vm_compute. reflexivity.
  - reflexivity.
  - reflexivity.
  - reflexivity.
  - reflexivity.
Defined.
