(* ===== verification/ConductorRun.v ===== *)
(** * Runs of the conductor

    The state dump ([write_dump] of src/conductor/setup.cpp) and the safety of
    whole runs of main: the conductor is compared with the program whose
    handlers refuse an agent that no switch can take and a connection that
    identifies itself as a switch and as an agent.  [DumpStorage] says what the
    operations of the dump do to the files. *)
From stdpp Require Import base option list gmap sets strings.
From Stdlib Require Import ZArith Lia.
From S2P Require Import Prelude Approx Args Bytes Random Kernel Protocol Framing Inet Proto NetQueue Heap ReadPath.
From S2P Require Import WritePath QueueInv SocketUtils Dispatch Monotone EventLoop Connections Conductor.

#[local] Open Scope Z_scope.

(** What the operations of the dump do to the files: [file_of] is the contents
    of each file, [stream_of] what the output stream holds and has not written,
    [dump_bytes] the encoding of the message.  Opening truncates; a successful
    serialization adds the message to the file and the stream; a successful
    close leaves nothing in the stream; rename moves the file or does nothing.
    What a failing operation does to its own file is left open. *)
Class DumpStorage (K : Kernel) `{!DumpFile K} : Type := {
  file_of : kernel → string → option (list Byte.byte);
  stream_of : kernel → list Byte.byte;
  dump_bytes : Dump.ConductorState → list Byte.byte;
  clock_files k : file_of (sys_system_clock_ms k).2 = file_of k;
  open_others path k q : q ≠ path → file_of (dump_open path k).2 q = file_of k q;
  open_empties path k k' :
    dump_open path k = (true, k') → file_of k' path = Some [] ∧ stream_of k' = [];
  serialize_others path d k q : q ≠ path → file_of (dump_serialize path d k).2 q = file_of k q;
  serialize_adds path d k k' bs :
    file_of k path = Some bs → dump_serialize path d k = (true, k') →
    ∃ bs', file_of k' path = Some bs' ∧ bs' ++ stream_of k' = bs ++ stream_of k ++ dump_bytes d;
  close_others path k q : q ≠ path → file_of (dump_close path k).2 q = file_of k q;
  close_writes path k k' bs :
    file_of k path = Some bs → dump_close path k = (true, k') → file_of k' path = Some (bs ++ stream_of k);
  rename_moves from to k k' :
    from ≠ to → dump_rename from to k = (true, k') →
    file_of k' to = file_of k from ∧ ∀ q, q ≠ from → q ≠ to → file_of k' q = file_of k q;
  rename_fails from to k k' : dump_rename from to k = (false, k') → file_of k' = file_of k
}.

Section ConductorRun.
Context `{HostOrder} `{Inet} `{K : Kernel} `{KL : !KernelLaws K} `{!DumpFile K} `{!DumpFileLaws K}.
Context `{Malloc} `{NodeAlloc} `{Messages} `{R : Rng}.
Abbreviation W := (@World K ConductorState).
Implicit Types (p : loc) (w : W).

(** ** The dump *)

(** What the dump says of a connection. *)
Definition switch_record (c : ConnInfo) : Dump.SwitchState :=
  Dump.mk_SwitchState (c_name c) (c_network c) (ipv4_to_string (c_sw_ipv4 c)) (c_sw_port c) (c_connected_at_ms c).
Definition agent_record (c : ConnInfo) : Dump.AgentState := Dump.mk_AgentState (c_name c) "" (c_connected_at_ms c).

(** The records [ds] are those of the connections at the pointers [l]. *)
Definition records_of {T} (record : ConnInfo → T) (s : ConductorState) (l : list loc) (ds : list T) : Prop :=
  Forall2 (λ p d, ∃ c, conns s !! p = Some c ∧ d = record c) l ds.

Definition dump_of (s : ConductorState) (d : Dump.ConductorState) : Prop :=
  records_of switch_record s (switches s) (Dump.switches d) ∧
  records_of agent_record s (agents s) (Dump.agents d) ∧
  Dump.pending_tokens d = dump_token <$> pending_tokens s.

Lemma dump_switches_run l w :
  (∀ p, p ∈ l → is_Some (conns (app w) !! p)) →
  ∃ ds, dump_switches l w = Ret (ds, w) ∧ records_of switch_record (app w) l ds.
Proof.
  induction l as [|p l IH]; intros Hl; [exists []; by split; [|constructor]|].
  destruct (Hl p) as [c Hc]; [by apply list_elem_of_here|].
  destruct IH as (ds&E&Hds); [intros q Hq; by apply Hl, list_elem_of_further|].
  cbn [dump_switches]. erewrite bind_ret by by apply deref_obj_run. erewrite bind_ret by apply E.
  eexists. split; [reflexivity|]. constructor; [by exists c|done].
Qed.

Lemma dump_agents_run l w :
  (∀ p, p ∈ l → is_Some (conns (app w) !! p)) →
  ∃ ds, dump_agents l w = Ret (ds, w) ∧ records_of agent_record (app w) l ds.
Proof.
  induction l as [|p l IH]; intros Hl; [exists []; by split; [|constructor]|].
  destruct (Hl p) as [c Hc]; [by apply list_elem_of_here|].
  destruct IH as (ds&E&Hds); [intros q Hq; by apply Hl, list_elem_of_further|].
  cbn [dump_agents]. erewrite bind_ret by by apply deref_obj_run. erewrite bind_ret by apply E.
  eexists. split; [reflexivity|]. constructor; [by exists c|done].
Qed.

Lemma registered_live s : registered_wf s → ∀ p, p ∈ switches s ∨ p ∈ agents s → is_Some (conns s !! p).
Proof. intros [Hs Ha] p [Hp|Hp]; [destruct (Hs p Hp) as (c&Hc&_)|destruct (Ha p Hp) as (c&Hc&_)]; by exists c. Qed.

Lemma make_dump_run w :
  registered_wf (app w) →
  ∃ d, make_dump w = Ret (d, set_kern (sys_system_clock_ms (kern w)).2 w) ∧ dump_of (app w) d.
Proof.
  intros Hwf. unfold make_dump. destruct (sys_system_clock_ms (kern w)) as [now k] eqn:Ek.
  erewrite (bind_ret now_ms) by (unfold now_ms, syscall; by rewrite Ek).
  erewrite (bind_ret get_app) by reflexivity. set (w1 := set_kern k w).
  destruct (dump_switches_run (switches (app w1)) w1) as (sws&E1&Hsws);
    [intros p Hp; apply (registered_live _ Hwf); by left|].
  erewrite bind_ret by apply E1.
  destruct (dump_agents_run (agents (app w1)) w1) as (ags&E2&Hags);
    [intros p Hp; apply (registered_live _ Hwf); by right|].
  erewrite bind_ret by apply E2. eexists _. split; [reflexivity|]. by split_and!.
Qed.

(** The kernel after the file operations of a dump of [d]. *)
Definition dump_written (path : string) (d : Dump.ConductorState) (k : kernel) : kernel :=
  let tmp_path := (path +:+ ".tmp")%string in
  let '(opened, k) := dump_open tmp_path k in
  if negb opened then k
  else
    let '(serialized, k) := dump_serialize tmp_path d k in
    let '(_, k) := dump_close tmp_path k in
    if negb serialized then k else (dump_rename tmp_path path k).2.

Lemma write_dump_exec path d k w :
  make_dump w = Ret (d, set_kern k w) → write_dump path w = Ret ((), set_kern (dump_written path d k) w).
Proof.
  intros E. unfold write_dump, dump_written. erewrite bind_ret by apply E. cbv zeta.
  unfold mbind at 1, M_bind at 1, syscall at 1. cbn [kern set_kern].
  destruct (dump_open _ k) as [[] k1]; cbn [negb]; [|reflexivity].
  unfold mbind at 1, M_bind at 1, syscall at 1. cbn [kern set_kern].
  destruct (dump_serialize _ d k1) as [serialized k2].
  unfold mbind at 1, M_bind at 1, syscall at 1. cbn [kern set_kern].
  destruct (dump_close _ k2) as [closed k3]. destruct serialized; cbn [negb]; [|reflexivity].
  unfold mbind at 1, M_bind at 1, syscall at 1. cbn [kern set_kern].
  by destruct (dump_rename _ path k3) as [b k4].
Qed.

(** The file operations leave the descriptors and their registrations alone. *)
Lemma dump_written_view path d k : same_reg k (dump_written path d k).
Proof.
  assert (∀ k1 k2, quiet (view k1) (view k2) → same_reg k1 k2) as Hq by by intros k1 k2 (?&?&_).
  assert (∀ k1 k2 k3, same_reg k1 k2 → same_reg k2 k3 → same_reg k1 k3) as Htrans
    by (intros ??? [??] [??]; split; congruence).
  unfold dump_written. cbv zeta. pose proof (Hq _ _ (dump_open_ok (path +:+ ".tmp")%string k)) as H4.
  destruct (dump_open _ k) as [[] k1]; cbn [negb]; [|done].
  pose proof (Hq _ _ (dump_serialize_ok (path +:+ ".tmp")%string d k1)) as H5.
  destruct (dump_serialize _ d k1) as [serialized k2].
  pose proof (Hq _ _ (dump_close_ok (path +:+ ".tmp")%string k2)) as H6.
  destruct (dump_close _ k2) as [closed k3]. cbn [snd] in *.
  assert (same_reg k k3) as H7 by (eapply Htrans; [exact H4|]; by eapply Htrans).
  destruct serialized; cbn [negb]; [|done]. eapply Htrans; [exact H7|]. apply Hq, dump_rename_ok.
Qed.

(** The temporary file is another file. *)
Lemma tmp_path_ne path : (path +:+ ".tmp")%string ≠ path.
Proof. induction path as [|c path IH]; [done|]. intros [= E]. by apply IH. Qed.

Section DumpStorage.
Context `{!DumpStorage K}.

(** The stream holds or has written all of [d] when it is to be closed. *)
Definition serialized path (d : Dump.ConductorState) (k : kernel) : Prop :=
  ∃ bs, file_of k path = Some bs ∧ bs ++ stream_of k = dump_bytes d.

(** The dump file after [write_dump]: the old one, or what closing the
    temporary file left, which is all of [d] if closing it succeeded. *)
Definition replaced path (d : Dump.ConductorState) (k k' : kernel) : Prop :=
  file_of k' path = file_of k path ∨
  ∃ k1 closed k2, serialized (path +:+ ".tmp")%string d k1 ∧
    dump_close (path +:+ ".tmp")%string k1 = (closed, k2) ∧
    file_of k' path = file_of k2 (path +:+ ".tmp")%string ∧
    (closed = true → file_of k' path = Some (dump_bytes d)).

Lemma dump_written_files path d k :
  (∀ q, q ≠ path → q ≠ (path +:+ ".tmp")%string → file_of (dump_written path d k) q = file_of k q) ∧
  replaced path d k (dump_written path d k).
Proof.
  pose proof (tmp_path_ne path) as Hne. unfold dump_written, replaced. cbv zeta.
  set (tmp := (path +:+ ".tmp")%string) in *.
  pose proof (λ q, open_others tmp k q) as Ho. destruct (dump_open tmp k) as [[] k1] eqn:E1; cbn [negb snd] in *;
    [|split; [auto|left; auto]].
  pose proof (λ q, serialize_others tmp d k1 q) as Hs.
  destruct (dump_serialize tmp d k1) as [ser k2] eqn:E2; cbn [snd] in *.
  pose proof (λ q, close_others tmp k2 q) as Hc.
  destruct (dump_close tmp k2) as [closed k3] eqn:E3; cbn [snd] in *.
  assert (∀ q, q ≠ tmp → file_of k3 q = file_of k q) as Hk3
    by (intros q Hq; by rewrite Hc, Hs, Ho).
  destruct ser; cbn [negb]; [|split; [auto|left; auto]].
  destruct (open_empties _ _ _ E1) as [Hb1 Hs1].
  destruct (serialize_adds _ _ _ _ _ Hb1 E2) as (bs&Hb2&Hs2). rewrite Hs1 in Hs2.
  destruct (dump_rename tmp path k3) as [[] k4] eqn:E4; cbn [snd].
  - destruct (rename_moves _ _ _ _ Hne E4) as [Hto Hrest]. split; [intros q ??; by rewrite Hrest, Hk3|].
    right. exists k2, closed, k3. split_and!; [by exists bs|done|done|].
    intros ->. by rewrite Hto, (close_writes _ _ _ _ Hb2 E3), Hs2.
  - rewrite (rename_fails _ _ _ _ E4). split; [auto|left; auto].
Qed.

(** C21: the dump is faithful, and replaces the last one as a whole if closing it succeeds.  When
    the registered connections are live, [write_dump] returns, whichever file operation fails, and
    changes nothing but the files, of which only the dump file and its temporary one.  The dump
    file stays as it was, or it becomes the temporary file into which a record of every registered
    switch and agent, in order, and of every pending token was serialized; it then holds exactly
    that record if [out.close ()] succeeded.  The code does not look at whether it did: if not, the
    dump file is replaced by whatever the temporary file holds. *)
Theorem write_dump_faithful path w :
  registered_wf (app w) →
  ∃ d k, dump_of (app w) d ∧ write_dump path w = Ret ((), set_kern k w) ∧
    open_fds (view k) = open_fds (view (kern w)) ∧ interest (view k) = interest (view (kern w)) ∧
    (∀ q, q ≠ path → q ≠ (path +:+ ".tmp")%string → file_of k q = file_of (kern w) q) ∧
    replaced path d (kern w) k.
Proof.
  intros Hwf. destruct (make_dump_run w Hwf) as (d&E&Hd).
  set (k0 := (sys_system_clock_ms (kern w)).2) in *.
  destruct (dump_written_files path d k0) as [Hother Hrep].
  assert (file_of k0 = file_of (kern w)) as Hk0 by apply clock_files. rewrite Hk0 in Hother.
  unfold replaced in Hrep. rewrite Hk0 in Hrep.
  destruct (dump_written_view path d k0) as [Hi Ho].
  assert (view k0 = view (kern w)) as Hv by apply sys_system_clock_ok. rewrite Hv in Hi, Ho.
  exists d, (dump_written path d k0). split_and!; try done. by apply write_dump_exec.
Qed.
End DumpStorage.

(** ** The guarded conductor *)

Definition in_list (data : socket_data) (l : list loc) : bool :=
  match sd_ptr_data data with Some p => bool_decide (p ∈ l) | None => false end.

(** The dispatcher that refuses an agent when no switch is registered, and a
    connection that identifies itself both as a switch and as an agent. *)
Definition GuardedDispatch (fuel : nat) : Dispatch W :=
  mk_dispatch onClose (d_onTunReady Dispatch_default) (λ _, mret ())
    (λ data pkt, guard (λ w, negb (in_list data (agents (app w)))) (onSwitchMIP data pkt))
    (λ data pkt, guard (λ w, negb (in_list data (switches (app w))) && negb (bool_decide (switches (app w) = [])))
      (onAgentMIP fuel data pkt))
    (d_onConnectToSwitch Dispatch_default) (d_onAuthConnectToSwitch Dispatch_default)
    (d_onAgentConnectionToken Dispatch_default) (d_onConnectionAccepted Dispatch_default)
    (λ data pkt, guard (λ w, negb (in_list data (switches (app w)))) (onAgentMRP data pkt)).

Section Approx.
Context (st : stop).

Lemma ConductorDispatch_approx n m :
  fuel_le st n m → dispatch_approx st (ConductorDispatch n) (ConductorDispatch m).
Proof.
  intros Hle. split; try (intros; reflexivity). intros data pkt. cbn [d_onAgentMIP ConductorDispatch].
  unfold onAgentMIP. approx.
Qed.

Lemma GuardedDispatch_approx n m : fuel_le st n m → dispatch_approx st (GuardedDispatch n) (GuardedDispatch m).
Proof.
  intros Hle. split; try (intros; reflexivity). intros data pkt. cbn [d_onAgentMIP GuardedDispatch].
  apply guard_mono. exact (da_agent_mip _ _ _ (ConductorDispatch_approx n m Hle) data pkt).
Qed.

Lemma conductor_loop_approx n m d1 d2 requests listener path last_dump :
  fuel_le st n m → dispatch_approx st d1 d2 →
  approx st (event_loop n d1 requests listener path last_dump) (event_loop m d2 requests listener path last_dump).
Proof.
  intros Hle Hd. revert last_dump.
  induction requests as [|request requests IH]; intros last_dump; cbn [event_loop];
    unfold accept_connections, send_heartbeats; approx.
Qed.

(** The constructor of the queue only looks at the handler's function pointers. *)
Lemma NetQueue_new_approx d1 d2 timeout :
  approx (S := W) st (NetQueue_new (makeNetworkQueueHandler (Some d1)) timeout)
    (NetQueue_new (makeNetworkQueueHandler (Some d2)) timeout).
Proof. reflexivity. Qed.

#[local] Hint Resolve conductor_loop_approx NetQueue_new_approx : approx.

Lemma conductor_program_approx n m d1 d2 requests getenv :
  fuel_le st n m → dispatch_approx st d1 d2 →
  approx st (program n d1 requests getenv) (program m d2 requests getenv).
Proof. intros Hle Hd. unfold program. approx. Qed.
End Approx.

(** More fuel changes nothing about a run of the conductor that ends. *)
Lemma conductor_main_approx n m requests getenv :
  (n ≤ m)%nat → approx StopFuel (conductor_main n requests getenv) (conductor_main m requests getenv).
Proof.
  intros Hle. unfold conductor_main. apply conductor_program_approx; [exact Hle|]. by apply ConductorDispatch_approx.
Qed.

(** The guarded conductor does what the conductor does, until it refuses a packet. *)
Lemma conductor_guarded_approx fuel requests getenv :
  approx (StopThrow GuardViolated) (program fuel (GuardedDispatch fuel) requests getenv)
    (conductor_main fuel requests getenv).
Proof.
  unfold conductor_main. apply conductor_program_approx; [reflexivity|].
  split; try (intros; reflexivity); intros data pkt; apply guard_approx.
Qed.

(** ** Its invariant *)

#[export] Instance conductor_HeapInv : HeapInv registered_wf (λ _, True).
Proof.
  split.
  - intros s p c now [Hs Ha] Hp. apply registered_wf_insert; [done|..]; cbn; intros Hin; cbn in Hp.
    + destruct (Hs p Hin) as (c'&Hc'&Hr). by simplify_eq.
    + destruct (Ha p Hin) as (c'&Hc'&Hr). by simplify_eq.
  - intros s p c [Hs Ha] Hp _. apply registered_wf_insert; [done|..]; cbn; intros Hin; cbn in Hp.
    + destruct (Hs p Hin) as (c'&Hc'&_). congruence.
    + destruct (Ha p Hin) as (c'&Hc'&_). congruence.
Qed.

Abbreviation conductor_inv := (conn_inv registered_wf).
Abbreviation owned := (owns conductor_inv ∅).

Lemma conductor_inv_init g : conductor_inv (ConductorState_init g) ∅.
Proof. split; [apply own_conns_empty|]. split; by intros p ?%elem_of_nil. Qed.

(** The state after an object was replaced and pushed on a list. *)
Lemma conductor_inv_insert s ud p c s' :
  conductor_inv s ud → is_Some (conns s !! p) → conns s' = <[p := c]> (conns s) → registered_wf s' →
  conductor_inv s' ud.
Proof.
  intros [Ho _] Hp Hc Hwf. split; [|done]. eapply own_conns_mono; [exact Ho|]. cbn. rewrite Hc, dom_insert. set_solver.
Qed.

Lemma registered_wf_switch s p c :
  registered_wf s → p ∉ agents s → c_role c = SWITCH_CONN →
  registered_wf (with_switches (switches s ++ [p]) (with_conns (<[p := c]> (conns s)) s)).
Proof.
  intros Hwf Hp Hr. apply (registered_wf_push_switch (with_conns (<[p := c]> (conns s)) s) p c);
    [by apply registered_wf_insert|cbn; apply lookup_insert_eq|done].
Qed.
Lemma registered_wf_agent s p c :
  registered_wf s → p ∉ switches s → c_role c = AGENT_CONN →
  registered_wf (with_agents (agents s ++ [p]) (with_conns (<[p := c]> (conns s)) s)).
Proof.
  intros Hwf Hp Hr. apply (registered_wf_push_agent (with_conns (<[p := c]> (conns s)) s) p c);
    [by apply registered_wf_insert|cbn; apply lookup_insert_eq|done].
Qed.

Lemma not_in_list data p l : sd_ptr_data data = Some p → negb (in_list data l) = true → p ∉ l.
Proof. unfold in_list. intros ->. by destruct (bool_decide_reflect (p ∈ l)). Qed.

(** The handlers find a live object. *)
Lemma live_data (data : socket_data) m w :
  owns conductor_inv m w → user_data w !! sd_net_element data = Some (sd_ptr_data data) →
  ∃ p c, sd_ptr_data data = Some p ∧ conns (app w) !! p = Some c.
Proof. intros (_&_&[[Hl _] _]) Hud. destruct (Hl _ _ Hud) as (p&Hp&c&Hc). by exists p, c. Qed.

Lemma switch_mip_keeps :
  keeps_data conductor_inv
    (λ data pkt, guard (λ w, negb (in_list data (agents (app w)))) (onSwitchMIP data pkt)).
Proof.
  intros m data pkt Hm. apply hoare_guard. intros w [[Ho Hud] Hg].
  destruct (live_data data m w Ho Hud) as (p&c&Hp&Hc).
  destruct (onSwitchMIP_run data pkt w p c Hp Hc) as (c'&k&E&Hr&_&_&Hk). rewrite E.
  destruct Ho as (Hwf&Hsub&HI). split; [apply set_app_wf, set_kern_wf; [done|]; unfold same_reg_at; by rewrite Hk|].
  split; [done|]. eapply conductor_inv_insert; [exact HI|by exists c|reflexivity|].
  apply registered_wf_switch; [apply HI|by eapply not_in_list|done].
Qed.

Lemma agent_mrp_keeps :
  keeps_data conductor_inv
    (λ data pkt, guard (λ w, negb (in_list data (switches (app w)))) (onAgentMRP data pkt)).
Proof.
  intros m data pkt Hm. apply hoare_guard. intros w [[Ho Hud] Hg].
  destruct (live_data data m w Ho Hud) as (p&c&Hp&Hc).
  destruct (onAgentMRP_run data pkt w p c Hp Hc) as (c'&k&E&Hr&Hk). rewrite E.
  destruct Ho as (Hwf&Hsub&HI). split; [apply set_app_wf, set_kern_wf; [done|]; unfold same_reg_at; by rewrite Hk|].
  split; [done|]. eapply conductor_inv_insert; [exact HI|by exists c|reflexivity|].
  apply registered_wf_agent; [apply HI|by eapply not_in_list|done].
Qed.

(** [pick_switch] picks a registered switch when there is one. *)
Lemma pick_loop_live net start todo w :
  switches_live (app w) → switches (app w) ≠ [] →
  pick_loop net start todo w = Ret (None, w) ∨
  ∃ p i, pick_loop net start todo w = Ret (Some p, set_rr i w) ∧ p ∈ switches (app w).
Proof.
  intros Hlive Hne. induction todo as [|i todo IH]; [by left|]. cbn [pick_loop].
  erewrite (bind_ret get_app) by reflexivity. cbv zeta.
  assert (0 < length (switches (app w)))%nat by (destruct (switches (app w)); [done|cbn; lia]).
  pose proof (Z.mod_pos_bound (u64 (start + Z.of_nat i)) (Z.of_nat (length (switches (app w))))) as Hm.
  destruct (lookup_lt_is_Some_2 (switches (app w))
    (Z.to_nat (u64 (start + Z.of_nat i) mod Z.of_nat (length (switches (app w)))))) as [p Hp]; [lia|].
  rewrite Hp. apply list_elem_of_lookup_2 in Hp as Hin. destruct (Hlive p Hin) as [c Hc].
  erewrite bind_ret by by apply deref_obj_run. destruct (reachable net c); [right|exact IH].
  exists p. eexists. by split.
Qed.

Lemma pick_switch_live net w :
  switches_live (app w) → switches (app w) ≠ [] →
  ∃ p i, pick_switch net w = Ret (Some p, set_rr i w) ∧ p ∈ switches (app w).
Proof.
  intros Hlive Hne. unfold pick_switch. erewrite (bind_ret get_app) by reflexivity.
  rewrite bool_decide_false by done. cbv zeta.
  destruct (pick_loop_live net (rr_index (app w)) (seq 0 (length (switches (app w)))) w Hlive Hne)
    as [E|(p&i&E&Hp)]; erewrite bind_ret by apply E; [|by exists p, i].
  assert (0 < length (switches (app w)))%nat by (destruct (switches (app w)); [done|cbn; lia]).
  pose proof (Z.mod_pos_bound (rr_index (app w)) (Z.of_nat (length (switches (app w))))) as Hm.
  destruct (lookup_lt_is_Some_2 (switches (app w))
    (Z.to_nat (rr_index (app w) mod Z.of_nat (length (switches (app w)))))) as [p Hp]; [lia|].
  rewrite Hp. exists p. eexists. split; [reflexivity|]. by eapply list_elem_of_lookup_2.
Qed.

(** While the messages of an assignment are sent: the agent's connection [p]
    has its role, the switch [sw] is registered. *)
Definition assigning p sw (s : ConductorState) (ud : gmap loc (option loc)) : Prop :=
  conductor_inv s ud ∧ (∃ c, conns s !! p = Some c ∧ c_role c = AGENT_CONN) ∧ sw ∈ switches s.

Lemma deref_switch_owns {allowed} m p sw :
  hoare allowed (owns (assigning p sw) m) (deref_obj (Some sw)) (λ _, owns (assigning p sw) m).
Proof.
  intros w Ho. pose proof Ho as (_&_&HI&_&Hsw).
  destruct (registered_live _ (proj2 HI) sw) as [c Hc]; [by left|].
  by erewrite deref_obj_run by exact Hc.
Qed.

Lemma assignment_owns {allowed} fuel m p sw data pkt token :
  hoare allowed (owns (assigning p sw) m)
    (assign fuel data pkt p sw token)
    (λ _, owns conductor_inv m).
Proof.
  assert (∀ w, owns (assigning p sw) m w → owns conductor_inv m w) as Hweak by by intros w (?&?&?&_).
  unfold assign.
  eapply hoare_bind; [apply deref_switch_owns|]. intros c.
  eapply hoare_bind; [apply send_protobuf_packet_owns|]. intros sent.
  apply hoare_if; intros _; [by apply hoare_ret|].
  eapply hoare_bind; [apply deref_switch_owns|]. intros c'.
  eapply hoare_bind; [apply send_protobuf_packet_owns|]. intros sent'.
  apply hoare_if; intros _; [by apply hoare_ret|].
  eapply hoare_bind.
  { apply syscall_owns. intros k. unfold same_reg. by rewrite sys_system_clock_ok. }
  intros now w (Hwf&Hm&[Ho Hreg]&(cp&Hcp&Hr)&_). erewrite (bind_ret (modify_app _)) by reflexivity.
  split; [by do 2 apply set_app_wf|]. split; [done|]. split; [exact Ho|].
  eapply registered_wf_push_agent; [|exact Hcp|done]. exact Hreg.
Qed.

(** [onAgentMIP] up to the assignment, when a switch is registered. *)
Lemma agent_mip_run fuel m data pkt w :
  owns conductor_inv m w → user_data w !! sd_net_element data = Some (sd_ptr_data data) →
  negb (in_list data (switches (app w))) && negb (bool_decide (switches (app w) = [])) = true →
  ∃ p sw token a k, onAgentMIP fuel data pkt w = assign fuel data pkt p sw token (set_app a (set_kern k w)) ∧
    owns (assigning p sw) m (set_app a (set_kern k w)) ∧ view k = view (kern w).
Proof.
  intros Ho Hud [Hg Hne]%andb_prop. rewrite negb_true_iff, bool_decide_eq_false in Hne.
  destruct (live_data data m w Ho Hud) as (p&c&Hp&Hc). pose proof (not_in_list _ _ _ Hp Hg) as Hns.
  unfold onAgentMIP. rewrite Hp. destruct (start_run w p c Hc) as (now&k&E&Hk). erewrite bind_ret by apply E.
  erewrite bind_ret by by apply update_obj_run. set (c' := agent_conn _ _ _ _ _ _). set (w1 := set_obj _ _ _).
  destruct Ho as (Hwf&Hsub&HI).
  assert (registered_wf (app w1)) as Hreg1 by (apply registered_wf_insert; [apply HI|done|done]).
  destruct (pick_switch_live (am_network pkt) w1) as (sw&i&E2&Hsw);
    [by apply registered_switches_live|done|].
  erewrite bind_ret by apply E2. cbv beta iota.
  destruct (rng_next (rng (app (set_rr i w1)))) as [token g] eqn:Erng.
  erewrite (bind_ret generate_token) by (unfold generate_token; by rewrite Erng).
  exists p, sw, token. eexists _, k. split; [reflexivity|]. split; [|exact Hk]. split.
  { apply set_app_wf. apply set_kern_wf; [done|]. unfold same_reg_at. by rewrite Hk. }
  split; [done|]. split; [|split; [|done]].
  - eapply conductor_inv_insert; [exact HI|by exists c|reflexivity|exact Hreg1].
  - exists c'. split; [cbn; apply lookup_insert_eq|done].
Qed.

Lemma agent_mip_keeps fuel :
  keeps_data conductor_inv (λ data pkt,
    guard (λ w, negb (in_list data (switches (app w))) && negb (bool_decide (switches (app w) = [])))
      (onAgentMIP fuel data pkt)).
Proof.
  intros m data pkt Hm. apply hoare_guard. intros w [[Ho Hud] Hg].
  destruct (agent_mip_run fuel m data pkt w Ho Hud Hg) as (p&sw&token&a&k&->&Ho'&_).
  exact (assignment_owns fuel m p sw data pkt token _ Ho').
Qed.

Lemma conductor_guarded_keeps fuel : dispatch_keeps conductor_inv (GuardedDispatch fuel).
Proof.
  split; try apply keeps_data_nothing; [| |apply switch_mip_keeps|apply agent_mip_keeps|apply agent_mrp_keeps].
  - intros m data Hm w [(Hwf&Hsub&[Ho Hreg]) Hud]. cbn [d_onClose GuardedDispatch].
    destruct (own_live _ _ Ho _ _ Hud) as (p&Hp&c&Hc). rewrite (onClose_run data w p c Hp Hc).
    split_and!; [by apply set_app_wf|done|]. rewrite Hp in Hud.
    split; [by apply own_conns_delete|by apply registered_wf_closed].
  - intros m data _. by apply hoare_ret.
Qed.

(** ** The event loop *)

(** A dump keeps the invariants, and more generally what does not depend on
    the kernel state beyond the registrations. *)
Lemma write_dump_run path w :
  registered_wf (app w) → ∃ k, write_dump path w = Ret ((), set_kern k w) ∧ same_reg (kern w) k.
Proof.
  intros Hwf. destruct (make_dump_run w Hwf) as (d&E&_). set (k := (sys_system_clock_ms (kern w)).2) in *.
  exists (dump_written path d k). destruct (dump_written_view path d k) as [Hi Ho].
  split; [|unfold same_reg; rewrite Hi, Ho; unfold k; by rewrite sys_system_clock_ok].
  by apply write_dump_exec.
Qed.

Lemma write_dump_keeps {allowed} I path :
  (∀ s ud, I s ud → registered_wf s) →
  hoare allowed (owns I ∅) (write_dump path) (λ _, owns I ∅).
Proof.
  intros HI w Ho. destruct (write_dump_run path w) as (k&E&Hk); [by eapply HI, Ho|]. rewrite E.
  destruct Ho as (Hwf&Hm&?). split; [|done]. apply set_kern_wf; [done|]. by apply interest_at.
Qed.

Lemma conductor_inv_registered s ud : conductor_inv s ud → registered_wf s.
Proof. by intros [_ ?]. Qed.

Lemma write_dump_owns {allowed} path : hoare allowed owned (write_dump path) (λ _, owned).
Proof. apply write_dump_keeps, conductor_inv_registered. Qed.

Lemma dump_turn_owns {allowed} path last_dump request :
  hoare allowed owned (dump_turn path last_dump request) (λ _, owned).
Proof.
  unfold dump_turn. intros w Ho. destruct (steady_clock_owns _ _ _ Ho) as (now&k&E&Ho1).
  erewrite bind_ret by apply E. revert Ho1. generalize (set_kern k w). clear w Ho E.
  eapply (hoare_bind _ _ _ (λ _, owned)).
  { apply hoare_if; intros _; [|by apply hoare_ret].
    eapply hoare_bind; [apply write_dump_owns|]. intros []. by apply hoare_ret. }
  intros ld. eapply (hoare_bind _ _ _ (λ _, owned)); [|intros []; by apply hoare_ret].
  apply hoare_if; intros _; [apply write_dump_owns|by apply hoare_ret].
Qed.

Lemma heartbeats_keep {allowed} I `{!ConnInv I (λ _, True)} fuel :
  (∀ s ud, I s ud → registered_wf s) →
  hoare allowed (owns I ∅) (send_heartbeats fuel) (λ _, owns I ∅).
Proof.
  intros HI w Ho. unfold send_heartbeats.
  destruct (steady_clock_owns _ _ _ Ho) as (now&k&E&Ho1). erewrite bind_ret by apply E.
  erewrite (bind_ret get_app) by reflexivity. set (w1 := set_kern k w) in *.
  set (D := dom (heap (app w1))).
  eapply (hoare_bind _ (owned_live I D) _ (λ _, owned_live I D) _ (λ _, owns I ∅)); [| |by split].
  - apply (try_hbs_owns _ (λ _, True)). intros p Hp. apply elem_of_dom.
    apply (registered_live _ (HI _ _ (proj2 (proj2 Ho1)))). by left.
  - intros [] w2 [Ho2 HD]. erewrite (bind_ret get_app) by reflexivity.
    pose proof (try_hbs_owns (allowed := allowed) I (λ _, True) fuel HEARTBEAT_INTERVAL now
      (agents (app w2)) D) as Hhb.
    eapply hoare_conseq; [apply Hhb|done|by intros ? ? [? _]|by split].
    intros p Hp. rewrite <-HD. apply elem_of_dom.
    apply (registered_live _ (HI _ _ (proj2 (proj2 Ho2)))). by right.
Qed.

Lemma conductor_heartbeats_owns {allowed} fuel : hoare allowed owned (send_heartbeats fuel) (λ _, owned).
Proof. apply heartbeats_keep; [apply _|apply conductor_inv_registered]. Qed.

Lemma conductor_loop_owns fuel requests listener path last_dump :
  hoare overflow_only owned (event_loop fuel (GuardedDispatch fuel) requests listener path last_dump) (λ _, owned).
Proof.
  revert last_dump. induction requests as [|request requests IH]; intros last_dump; [by apply hoare_ret|].
  cbn [event_loop]. eapply hoare_bind; [by apply (accept_loop_owns _ (λ _, True))|]. intros [].
  eapply hoare_bind; [apply wait_and_process_owns, makeNetworkQueueHandler_keeps, conductor_guarded_keeps|].
  intros []. eapply hoare_bind; [apply conductor_heartbeats_owns|]. intros [].
  eapply hoare_bind; [apply dump_turn_owns|]. intros last_dump'. apply IH.
Qed.

Lemma conductor_program_safe fuel requests getenv g :
  hoare overflow_only (opened ∅ (ConductorState_init g)) (program fuel (GuardedDispatch fuel) requests getenv)
    (λ code _, code = 0 ∨ code = 1).
Proof.
  unfold program. cbv zeta. eapply hoare_bind; [apply open_listener_opened|].
  intros [listener|]; [|apply hoare_ret; auto]. intros w Hl. destruct (Hl listener eq_refl) as [_ Ho]. clear Hl.
  revert w Ho. eapply hoare_bind; [apply (NetQueue_new_owns conductor_inv), conductor_inv_init|].
  intros [] w (Ho&_). destruct (steady_clock_owns _ _ _ Ho) as (now&k&E&Ho1). erewrite bind_ret by apply E.
  revert Ho1. generalize (set_kern k w). clear w Ho E. eapply hoare_bind; [apply conductor_loop_owns|].
  (* the listener is closed and the last dump made; the queue is as it was *)
  intros [] w (Hwf&_&_&Hreg). erewrite (bind_ret (real_close listener)) by reflexivity.
  set (w1 := set_kern _ w). destruct (write_dump_run (default DEFAULT_DUMP_PATH (getenv "VNET_DUMP_PATH")) w1 Hreg)
    as (k1&E&_). erewrite bind_ret by apply E.
  apply (hoare_bind _ (λ w : W, registered w) _ (λ _ _, True)); [apply NetQueue_destroy_safe| |].
  - intros []. apply hoare_ret; auto.
  - by destruct Hwf.
Qed.

(** C5: the conductor is memory safe as long as a switch is registered before the agents come and
    nobody identifies as both: the program that refuses an agent when no switch is registered,
    and a connection that identifies itself both as a switch and as an agent, follows no dangling
    or null pointer, whatever its peers send and the system calls and the dump file do, in any
    number of turns (the overflow of the receive buffer is the only undefined behaviour left); and
    [main] does exactly what that program does, until it refuses a packet. *)
Theorem conductor_runs_safely fuel requests getenv g w :
  app w = ConductorState_init g →
  let guarded := program fuel (GuardedDispatch fuel) requests getenv w in
  (match guarded with
   | Undef u => u = BufferOverflow
   | Ret (code, _) => code = 0 ∨ code = 1
   | Throw _ | OutOfFuel => True
   end) ∧
  (guarded ≠ Throw GuardViolated → conductor_main fuel requests getenv w = guarded).
Proof.
  intros Happ guarded. assert (opened ∅ (ConductorState_init g) w) as Ho by by split.
  pose proof (conductor_program_safe fuel requests getenv g w Ho) as Hsafe.
  pose proof (conductor_guarded_approx fuel requests getenv) as Ha. split.
  - subst guarded. destruct (program fuel (GuardedDispatch fuel) requests getenv w) as [[code w']|e|u|];
      [exact Hsafe|exact I|exact Hsafe|exact I].
  - intros Hg. exact (approx_outcome _ _ _ w Ha Hg).
Qed.
End ConductorRun.

(** ** Concrete runs *)

#[local] Instance run_order : HostOrder := LittleEndian.
#[local] Instance run_inet : Inet := dotted_quad.
#[local] Instance run_malloc : Malloc := malloc_first_fit.
#[local] Instance run_nodes : NodeAlloc := λ _, true.
#[local] Instance run_codecs : Messages := codecs.
#[local] Instance run_rng : Rng := counting_rng.

(** A dump file whose operations succeed. *)
Definition plain_dump (K : Kernel) : DumpFile K := {|
  dump_open _ k := (true, k); dump_serialize _ _ k := (true, k); dump_close _ k := (true, k);
  dump_rename _ _ k := (true, k)
|}.
Lemma plain_dump_laws K (KL : KernelLaws K) : DumpFileLaws K (DumpFile0 := plain_dump K).
Proof. by split. Qed.

(** Two connections: a switch, on descriptor [sw], and an agent, on [ag]. *)
Definition conductor_script (sw ag fd : Z) : list Byte.byte :=
  if fd =? sw then
    frame (SWITCH_MIP, default [] (SerializeToString (mk_PacketSwitchMIP "s1" "key" "::internet" 6000)))
  else if fd =? ag then
    frame (AGENT_MIP, default [] (SerializeToString (mk_PacketAgentMIP "alice" "key" "vnet.internal")))
  else [].
Definition run_kernel (sw ag : Z) : Kernel := scripted_kernel (conductor_script sw ag).
Definition run_world (sw ag : Z) : @World (run_kernel sw ag) ConductorState :=
  mk_world (K := run_kernel sw ag) (mk_queue (-1) (-1) ∅ ∅)
    (mk_sim (mk_kview ∅ ∅ ∅ 0 ∅ ∅ ∅) 1000 ∅ 0 2 0 : @kernel (run_kernel sw ag)) (ConductorState_init 77).

(** Three turns; the second is asked for a dump. *)
Definition run_conductor (sw ag : Z) : outcome (Z * @World (run_kernel sw ag) ConductorState) :=
  conductor_main (K := run_kernel sw ag) (DumpFile0 := plain_dump _) 300 [false; true; false] (λ _, None)
    (run_world sw ag).
Definition run_guarded (sw ag : Z) : outcome (Z * @World (run_kernel sw ag) ConductorState) :=
  program (K := run_kernel sw ag) (DumpFile0 := plain_dump _) 300
    (GuardedDispatch (K := run_kernel sw ag) 300) [false; true; false] (λ _, None) (run_world sw ag).

Example run_guarded_order : exit_code (run_guarded 5 6) = Some 0.
Proof. vm_compute. reflexivity. Qed.
Example run_guarded_no_switch : failure (run_guarded 6 5) = Some (inl GuardViolated).
Proof. vm_compute. reflexivity. Qed.
Example run_conductor_no_switch : failure (run_conductor 6 5) = Some (inr UseAfterFree).
Proof. vm_compute. reflexivity. Qed.

(** The switch registers before the agent comes. *)
Lemma conductor_runs_safely_witness : ∃ w', run_conductor 5 6 = Ret (0, w').
Proof.
  pose proof run_guarded_order as Hcode. unfold run_guarded in Hcode. unfold run_conductor.
  destruct (conductor_runs_safely (K := run_kernel 5 6) (KL := scripted_laws (conductor_script 5 6))
    (DumpFile0 := plain_dump _) (DumpFileLaws0 := plain_dump_laws _ _)
    (R := run_rng) 300 [false; true; false] (λ _, None) 77 (run_world 5 6) eq_refl) as [_ Hsame].
  destruct (program _ _ _ _ _) as [[code w']| | |]; try discriminate Hcode.
  exists w'. rewrite Hsame by discriminate. injection Hcode as ->. reflexivity.
Defined.

(** Files on the concrete kernel.  When the disk is [full], closing a stream
    writes its first two bytes only, and fails. *)
Definition dump_text (d : Dump.ConductorState) : list Byte.byte :=
  ((Dump.sw_name <$> Dump.switches d) ++ (Dump.ag_name <$> Dump.agents d) ++
    (Dump.pt_agent_name <$> Dump.pending_tokens d)) ≫= String.list_byte_of_string.
Definition sim_dump_close (full : bool) (path : string) (k : sim) : bool * sim :=
  match sim_files k !! path with
  | None => (false, k)
  | Some bs =>
    let written := if full then take 2 (sim_stream k) else sim_stream k in
    (negb full, sim_set_files (<[path := bs ++ written]> (sim_files k)) [] k)
  end.
Definition sim_dump_rename (from to : string) (k : sim) : bool * sim :=
  match sim_files k !! from with
  | None => (false, k)
  | Some bs => (true, sim_set_files (delete from (<[to := bs]> (sim_files k))) (sim_stream k) k)
  end.
Definition sim_dump (full : bool) : DumpFile sim_kernel := {|
  dump_open path (k : @kernel sim_kernel) := (true, sim_set_files (<[path := []]> (sim_files k)) [] k);
  dump_serialize _ d k := (true, sim_set_files (sim_files k) (sim_stream k ++ dump_text d) k);
  dump_close := sim_dump_close full;
  dump_rename := sim_dump_rename
|}.

Lemma sim_dump_laws full : DumpFileLaws sim_kernel (DumpFile0 := sim_dump full).
Proof.
  split; try done; cbn; intros.
  - unfold sim_dump_close. by case_match.
  - unfold sim_dump_rename. by case_match.
Qed.

Definition sim_storage full : DumpStorage sim_kernel (DumpFile0 := sim_dump full).
Proof.
  refine {| file_of (k : @kernel sim_kernel) q := sim_files k !! q; stream_of (k : @kernel sim_kernel) := sim_stream k;
    dump_bytes := dump_text |}; cbn; try done.
  - intros path k q Hq. by rewrite lookup_insert_ne.
  - intros path k k' [= <-]. cbn. by rewrite lookup_insert_eq.
  - intros path d k k' bs Hbs [= <-]. by exists bs.
  - intros path k q Hq. unfold sim_dump_close. case_match; [|done]. cbn. by rewrite lookup_insert_ne.
  - intros path k k' bs Hbs. unfold sim_dump_close. rewrite Hbs. destruct full; [done|].
    intros [= <-]. cbn. by rewrite lookup_insert_eq.
  - intros from to k k' Hne. unfold sim_dump_rename. case_match; [|done]. intros [= <-]. cbn. split.
    + by rewrite lookup_delete_ne, lookup_insert_eq.
    + intros q ??. by rewrite lookup_delete_ne, lookup_insert_ne.
  - intros from to k k'. unfold sim_dump_rename. case_match; [done|]. by intros [= <-].
Defined.

(** The dump file after a dump over an old one. *)
Definition dumped (full : bool) : option (list Byte.byte) :=
  let k := sim_set_files {["/tmp/dump"%string := [Byte.x00]]} [] (kern (conductor_world sample_switches)) in
  match write_dump (DumpFile0 := sim_dump full) "/tmp/dump" (set_kern k (conductor_world sample_switches)) with
  | Ret (_, w) => sim_files (kern w) !! "/tmp/dump"%string
  | _ => None
  end.

Example dump_is_complete : dumped false = Some (String.list_byte_of_string "s1s2").
Proof. vm_compute. reflexivity. Qed.

(** The old dump is lost: the rename follows a close that failed. *)
Example full_disk_truncates_dump : dumped true = Some (String.list_byte_of_string "s1").
Proof. vm_compute. reflexivity. Qed.

Lemma write_dump_faithful_witness :
  ∃ d k, dump_of (sample_conductor sample_switches) d ∧
    write_dump (DumpFile0 := sim_dump false) "/tmp/dump" (conductor_world sample_switches) =
    Ret ((), set_kern k (conductor_world sample_switches)) ∧
    (sim_files k !! "/tmp/dump"%string = None ∨ sim_files k !! "/tmp/dump"%string = Some (dump_text d)).
Proof.
  destruct (write_dump_faithful (DumpFile0 := sim_dump false) (DumpFileLaws0 := sim_dump_laws false)
    (DumpStorage0 := sim_storage false) "/tmp/dump" (conductor_world sample_switches)
    sample_conductor_wf) as (d&k&Hd&E&_&_&_&Hrep).
  exists d, k. split; [exact Hd|]. split; [exact E|].
  destruct Hrep as [Hold|(k1&closed&k2&(bs&Hbs&_)&Hclose&_&Hnew)]; [left; exact Hold|right].
  apply Hnew. cbn in Hbs, Hclose. unfold sim_dump_close in Hclose. rewrite Hbs in Hclose.
  by injection Hclose as <- _.
Defined.
