(* ===== verification/ConductorProgress.v ===== *)
(** * The turns of the conductor return

    Total correctness of the event loop of src/conductor/setup.cpp.  Its
    handlers write to the sockets directly, with helpers that retry for as long
    as a socket is full ([SocketUtils.send_to_full_socket_hangs]): a turn
    returns when the peers keep reading ([Eager]), on calm input, unless it
    meets a packet that the guarded conductor of [ConductorRun] refuses.  The
    conductor is compared with the program that ignores those packets. *)
From stdpp Require Import base option list gmap sets strings.
From Stdlib Require Import ZArith Lia.
From S2P Require Import Prelude Approx Bytes Random Kernel Protocol Framing Inet Proto NetQueue Heap ReadPath.
From S2P Require Import WritePath QueueInv SocketUtils Dispatch Monotone EventLoop Progress Connections Conductor ConductorRun.

#[local] Open Scope Z_scope.

(** The peers keep reading: no write finds its socket full. *)
Class Eager (K : Kernel) : Prop :=
  sys_write_eager fd bs k r k' : sys_write fd bs k = (r, k') → r ≠ inr EAGAIN.

(** The largest message. *)
Definition most : Z := 2 ^ 31.

Section ConductorProgress.
Context `{HostOrder} `{Inet} `{K : Kernel} `{KL : !KernelLaws K} `{!DumpFile K} `{!DumpFileLaws K}.
Context `{Malloc} `{NodeAlloc} `{Messages} `{R : Rng}.
Abbreviation W := (@World K ConductorState).
Abbreviation conductor_inv := (conn_inv registered_wf).
Abbreviation owned := (owns conductor_inv ∅).
Implicit Types (p : loc) (w : W) (n fuel : nat).

(** ** States that differ in the kernel and the handlers' state *)

Lemma set_kern_answers n fuel w0 w k :
  spared ∅ w0 w → roomy most n fuel w → only_input ∅ (view (kern w)) (view k) →
  spared ∅ w0 (set_kern k w) ∧ roomy most n fuel (set_kern k w).
Proof.
  intros Hsp Hr Hk. split.
  - etrans; [exact Hsp|]. split; [exact Hk|]. intros p e He. by exists e.
  - intros p e He. eapply writes_well_same; [by split_and!|apply Hk|by apply (Hr p)].
Qed.

Lemma set_app_answers n fuel w0 w a :
  spared ∅ w0 w → roomy most n fuel w → spared ∅ w0 (set_app a w) ∧ roomy most n fuel (set_app a w).
Proof. intros Hsp Hr. split; [|exact Hr]. etrans; [exact Hsp|]. split; [done|]. intros p e He. by exists e. Qed.

(** A clock was read, and the handlers' state changed. *)
Lemma quiet_answers n fuel w0 w a k :
  spared ∅ w0 w → roomy most n fuel w → view k = view (kern w) →
  spared ∅ w0 (set_app a (set_kern k w)) ∧ roomy most n fuel (set_app a (set_kern k w)).
Proof.
  intros Hsp Hr Hk. destruct (set_kern_answers n fuel w0 w k Hsp Hr) as [Hsp' Hr']; [by rewrite Hk|].
  by apply set_app_answers.
Qed.

(** ** The direct writes *)

Section Writes.
Context `{!Eager K}.

Lemma write_loop_returns f sock buffer tot w :
  0 ≤ tot ≤ Z.of_nat (length buffer) → Z.of_nat (length buffer) < 2 ^ 63 →
  (length buffer - Z.to_nat tot + signals (view (kern w)) < f)%nat →
  ∃ b k, write_loop f sock buffer tot w = Ret (b, set_kern k w) ∧ only_input ∅ (view (kern w)) (view k).
Proof.
  revert tot w. induction f as [|f IH]; intros tot w Ht Hmax Hf; [lia|]. cbn [write_loop].
  destruct (Z.ltb_spec tot (Z.of_nat (length buffer))); [|by exists true, (kern w); rewrite set_kern_self].
  destruct (sys_write sock (drop (Z.to_nat tot) buffer) (kern w)) as [r k1] eqn:E.
  erewrite (bind_ret (syscall _)) by (unfold syscall; by rewrite E).
  pose proof (write_only_input _ _ _ _ _ E) as Hk1. pose proof (sys_write_eager _ _ _ _ _ E) as Heager.
  pose proof (sys_write_ok _ _ _ _ _ E) as Hs. cbv beta iota.
  assert (∀ tot', 0 ≤ tot' ≤ Z.of_nat (length buffer) →
    (length buffer - Z.to_nat tot' + signals (view k1) < f)%nat →
    ∃ b k, write_loop f sock buffer tot' (set_kern k1 w) = Ret (b, set_kern k w) ∧
      only_input ∅ (view (kern w)) (view k)) as Hrest.
  { intros tot' Ht' Hf'. destruct (IH tot' (set_kern k1 w) Ht' Hmax Hf') as (b&k&E'&Hk).
    exists b, k. split; [exact E'|]. by etrans. }
  inversion Hs as [r' Hr E0 Hv|E0 Hv|s Hsig E0 Hv|E0 Hv]; subst r.
  - destruct (Z.eqb_spec r' 0); [by exists false, k1|]. rewrite length_drop in Hr. rewrite u64_small by lia.
    apply Hrest; [lia|]. rewrite <-Hv. cbn. lia.
  - done.
  - apply Hrest; [done|]. rewrite <-Hv. cbn. lia.
  - by exists false, k1.
Qed.

Context (I : ConductorState → gmap loc (option loc) → Prop) (n fuel : nat) (m : gmap Z loc) (w0 : W).
Context (Hfuel : most + Z.of_nat (signals (view (kern w0))) + 1 ≤ Z.of_nat fuel).
Abbreviation answers := (answering most I n fuel m w0).

Lemma write_n_bytes_answers sock bs :
  Z.of_nat (length bs) ≤ most → total answers (write_n_bytes fuel sock bs) (λ _, answers).
Proof.
  unfold most in *. intros Hlen w (Ho&Hsp&Hr). pose proof (proj2 (proj1 Hsp)) as Hsig.
  destruct (write_loop_returns fuel sock bs 0 w) as (b&k&E&Hk); [lia..|].
  exists b, (set_kern k w). split; [exact E|].
  pose proof (write_loop_owns (allowed := any_ub) I m fuel sock bs 0 w Ho) as Ho'. rewrite E in Ho'.
  split; [exact Ho'|]. by apply set_kern_answers.
Qed.

Lemma send_protobuf_answers sock type `{Message T} (msg : T) :
  total answers (send_protobuf_packet fuel sock type msg) (λ _, answers).
Proof.
  unfold send_protobuf_packet. destruct (SerializeToString msg) as [body|] eqn:Hser; [|by apply total_ret].
  pose proof (serialize_size _ _ Hser) as Hmax. cbv zeta.
  eapply total_bind; [by apply write_n_bytes_answers; rewrite length_header_bytes|]. intros ok.
  apply total_if; intros _; [by apply total_ret|]. apply total_if; intros _; [by apply total_ret|].
  eapply total_bind; [apply write_n_bytes_answers; unfold most; lia|]. intros ok'.
  apply total_if; intros _; by apply total_ret.
Qed.
End Writes.

(** ** Its handlers return *)

(** The dispatcher that ignores the packets the guarded one refuses. *)
Definition LenientDispatch (fuel : nat) : Dispatch W :=
  mk_dispatch onClose (d_onTunReady Dispatch_default) (λ _, mret ())
    (λ data pkt, lenient (λ w, negb (in_list data (agents (app w)))) (onSwitchMIP data pkt))
    (λ data pkt, lenient (λ w, negb (in_list data (switches (app w))) && negb (bool_decide (switches (app w) = [])))
      (onAgentMIP fuel data pkt))
    (d_onConnectToSwitch Dispatch_default) (d_onAuthConnectToSwitch Dispatch_default)
    (d_onAgentConnectionToken Dispatch_default) (d_onConnectionAccepted Dispatch_default)
    (λ data pkt, lenient (λ w, negb (in_list data (switches (app w)))) (onAgentMRP data pkt)).

Lemma conductor_lenient_keeps fuel : dispatch_keeps conductor_inv (LenientDispatch fuel).
Proof.
  destruct (conductor_guarded_keeps fuel).
  split; try done; intros m data pkt Hm; (apply hoare_lenient; [|by intros w []]);
    [by apply switch_mip_keeps|by apply agent_mip_keeps|by apply agent_mrp_keeps].
Qed.

Lemma switch_mip_answers fuel :
  answers_data conductor_inv most fuel
    (λ data pkt, lenient (λ w, negb (in_list data (agents (app w)))) (onSwitchMIP data pkt)).
Proof.
  intros n m data pkt Hm w [Ho Hud] Hr. unfold sends_only, lenient.
  destruct (negb _); [|by exists (), w]. destruct (live_data data m w Ho Hud) as (p&c&Hp&Hc).
  destruct (onSwitchMIP_run data pkt w p c Hp Hc) as (c'&k&E&_&_&_&Hk). eexists (), _. split; [exact E|].
  by apply quiet_answers.
Qed.

Lemma agent_mrp_answers fuel :
  answers_data conductor_inv most fuel
    (λ data pkt, lenient (λ w, negb (in_list data (switches (app w)))) (onAgentMRP data pkt)).
Proof.
  intros n m data pkt Hm w [Ho Hud] Hr. unfold sends_only, lenient.
  destruct (negb _); [|by exists (), w]. destruct (live_data data m w Ho Hud) as (p&c&Hp&Hc).
  destruct (onAgentMRP_run data pkt w p c Hp Hc) as (c'&k&E&_&Hk). eexists (), _. split; [exact E|].
  by apply quiet_answers.
Qed.

Section Assignment.
Context `{!Eager K} (n fuel : nat) (m : gmap Z loc) (w0 : W).
Context (Hfuel : most + Z.of_nat (signals (view (kern w0))) + 1 ≤ Z.of_nat fuel).

Lemma deref_switch_answers p sw :
  total (answering most (assigning p sw) n fuel m w0) (deref_obj (Some sw))
    (λ _, answering most (assigning p sw) n fuel m w0).
Proof.
  intros w Hw. pose proof (proj1 Hw) as (_&_&HI&_&Hsw).
  destruct (registered_live _ (proj2 HI) sw) as [c Hc]; [by left|].
  exists c, w. by erewrite deref_obj_run by exact Hc.
Qed.

Lemma assign_answers p sw data pkt token :
  total (answering most (assigning p sw) n fuel m w0) (assign fuel data pkt p sw token)
    (λ _ w, spared ∅ w0 w ∧ roomy most n fuel w).
Proof.
  assert (∀ w, answering most (assigning p sw) n fuel m w0 w → spared ∅ w0 w ∧ roomy most n fuel w) as Hweak
    by by intros w (_&?&?).
  unfold assign. eapply total_bind; [apply deref_switch_answers|]. intros c.
  eapply total_bind; [by apply send_protobuf_answers|]. intros sent.
  apply total_if; intros _; [by apply total_ret|].
  eapply total_bind; [apply deref_switch_answers|]. intros c'.
  eapply total_bind; [by apply send_protobuf_answers|]. intros sent'.
  apply total_if; intros _; [by apply total_ret|].
  intros w Hw. destruct (Hweak w Hw) as [Hsp Hr]. pose proof (sys_system_clock_ok (kern w)) as Hk.
  destruct (sys_system_clock_ms (kern w)) as [now k] eqn:E.
  erewrite (bind_ret now_ms) by (unfold now_ms, syscall; by rewrite E).
  erewrite (bind_ret (modify_app _)) by reflexivity.
  eexists (), _. split; [reflexivity|]. by apply quiet_answers.
Qed.
End Assignment.

(** While a handler runs there is an element, which bounds the signals. *)
Lemma roomy_fuel n fuel w p :
  roomy most n fuel w → is_Some (user_data w !! p) → most + Z.of_nat (signals (view (kern w))) + 1 ≤ Z.of_nat fuel.
Proof.
  intros Hr [x Hx]. unfold user_data in Hx. rewrite lookup_fmap in Hx.
  destruct (elements (queue w) !! p) as [e|] eqn:He; [|done]. destruct (Hr p e He) as [_ _ Hf]. lia.
Qed.

Lemma agent_mip_answers `{!Eager K} fuel :
  answers_data conductor_inv most fuel (λ data pkt,
    lenient (λ w, negb (in_list data (switches (app w))) && negb (bool_decide (switches (app w) = [])))
      (onAgentMIP fuel data pkt)).
Proof.
  intros n m data pkt Hm w [Ho Hud] Hr. unfold sends_only, lenient. destruct (_ && _) eqn:Hg; [|by exists (), w].
  destruct (agent_mip_run fuel m data pkt w Ho Hud Hg) as (p&sw&token&a&k&->&Ho'&Hk).
  apply (assign_answers n fuel m w); [by eapply roomy_fuel|]. split; [exact Ho'|]. by apply quiet_answers.
Qed.

Lemma conductor_lenient_responsive `{!Eager K} fuel :
  dispatch_responsive conductor_inv most fuel (LenientDispatch fuel).
Proof.
  split; try apply answers_nothing; [|apply switch_mip_answers|apply agent_mip_answers|apply agent_mrp_answers].
  intros data w _ HI Hud. destruct (own_live _ _ (proj1 HI) _ _ Hud) as (p&Hp&c&Hc). eexists.
  by apply (onClose_run data w p c).
Qed.

(** ** The parts of a turn *)

Lemma conductor_heartbeats_return n fuel :
  total (λ w, owned w ∧ roomy most n fuel w) (send_heartbeats fuel) (λ _, owned).
Proof.
  intros w [Ho Hr]. unfold send_heartbeats.
  destruct (steady_clock_answers most conductor_inv n fuel ∅ w w) as (now&w1&E&Ho1&_&Hr1); [by split|].
  erewrite bind_ret by exact E. erewrite (bind_ret get_app) by reflexivity. set (D := dom (heap (app w1))).
  destruct (try_hbs_returns (allowed := overflow_only) conductor_inv (λ _, True) most n fuel HEARTBEAT_INTERVAL now
    (switches (app w1)) D) with (s := w1) as ([]&w2&E2&[Ho2 HD]&Hr2); [|done|].
  { intros p Hp. apply elem_of_dom. apply (registered_live _ (proj2 (proj2 (proj2 Ho1)))). by left. }
  erewrite bind_ret by exact E2. erewrite (bind_ret get_app) by reflexivity.
  destruct (try_hbs_returns (allowed := overflow_only) conductor_inv (λ _, True) most n fuel HEARTBEAT_INTERVAL now
    (agents (app w2)) D) with (s := w2) as ([]&w3&E3&[Ho3 _]&_); [|done|by exists (), w3].
  intros p Hp. rewrite <-HD. apply elem_of_dom. apply (registered_live _ (proj2 (proj2 (proj2 Ho2)))). by right.
Qed.

Lemma write_dump_returns path : total owned (write_dump path) (λ _, owned).
Proof.
  intros w Ho. destruct (write_dump_run path w) as (k&E&Hk); [apply Ho|]. exists (), (set_kern k w).
  split; [exact E|]. pose proof (write_dump_owns (allowed := overflow_only) path w Ho) as Ho'. by rewrite E in Ho'.
Qed.

Lemma dump_turn_returns path last_dump request :
  total owned (dump_turn path last_dump request) (λ _, owned).
Proof.
  intros w Ho. unfold dump_turn. destruct (steady_clock_owns _ _ _ Ho) as (now&k&E&Ho1).
  setoid_rewrite (bind_ret _ _ _ _ _ E). revert Ho1. generalize (set_kern k w). clear w Ho E.
  eapply (total_bind _ _ (λ _, owned)).
  { apply total_if; intros _; [|by apply total_ret].
    eapply total_bind; [apply write_dump_returns|]. intros []. by apply total_ret. }
  intros ld. eapply (total_bind _ _ (λ _, owned)); [|intros []; by apply total_ret].
  apply total_if; intros _; [apply write_dump_returns|by apply total_ret].
Qed.

Lemma conductor_wait_guarded fuel :
  approx (StopThrow GuardViolated) (wait_and_process (makeNetworkQueueHandler (Some (GuardedDispatch fuel))) fuel)
    (wait_and_process (makeNetworkQueueHandler (Some (LenientDispatch fuel))) fuel) ∧
  approx (StopThrow GuardViolated) (wait_and_process (makeNetworkQueueHandler (Some (GuardedDispatch fuel))) fuel)
    (wait_and_process (makeNetworkQueueHandler (Some (ConductorDispatch fuel))) fuel).
Proof.
  split; (apply wait_and_process_approx; [|reflexivity]; apply makeNetworkQueueHandler_approx;
    split; try (intros; reflexivity); intros data pkt); first [apply guard_lenient|apply guard_approx].
Qed.

(** C33: the conductor does not hang while its peers keep reading: a turn of its event loop returns,
    and the loop goes on from the state it leaves, in the invariant the conductor starts in, unless
    the guarded conductor refuses a packet of the turn, whenever, once the waiting connections were
    accepted, each pending stream (with what [epoll_wait] lets arrive) consists of packets that fit
    the receive buffer and does not end inside a payload, for every fuel that covers three steps per
    pending byte, the largest message and the signals. *)
Theorem conductor_turn_returns `{!Eager K} fuel listener path last_dump request w w1 :
  owned w → accept_connections fuel listener w = Ret ((), w1) →
  (∀ r k, sys_epoll_wait (epoll_fd (queue w1)) EPOLL_MAX_EVENTS (epoll_timeout (queue w1)) (kern w1) = (r, k) →
     calm_queue most (Z.to_nat EPOLL_MAX_EVENTS) fuel (set_kern k w1)) →
  (∀ requests, event_loop fuel (GuardedDispatch fuel) (request :: requests) listener path last_dump w =
     Throw GuardViolated) ∨
  ∃ w' last_dump', owned w' ∧ ∀ requests,
    event_loop fuel (ConductorDispatch fuel) (request :: requests) listener path last_dump w =
    event_loop fuel (ConductorDispatch fuel) requests listener path last_dump' w'.
Proof.
  intros Ho Eacc Hcalm.
  assert (owned w1) as Ho1.
  { pose proof (accept_loop_owns (allowed := overflow_only) conductor_inv (λ _, True)
      (λ client now, with_conn_fd client (ConnInfo_new now)) fuel listener ltac:(done) w Ho) as Ha.
    unfold accept_connections in Eacc. by rewrite Eacc in Ha. }
  destruct (wait_and_process_good most conductor_inv (makeNetworkQueueHandler (Some (LenientDispatch fuel))) fuel)
    with (w := w1) as (w2&E2&Ho2&Hc2); [| |apply Ho1..|done|].
  { apply makeNetworkQueueHandler_keeps, conductor_lenient_keeps. }
  { apply makeNetworkQueueHandler_responsive, conductor_lenient_responsive. }
  destruct (conductor_wait_guarded fuel) as [Hlen Hreal]. destruct (Hlen w1) as [Eg|Eg]; [left|right].
  { intros requests. cbn [event_loop]. erewrite bind_ret by exact Eacc. unfold mbind at 1, M_bind at 1. by rewrite Eg. }
  rewrite E2 in Eg. destruct (Hreal w1) as [E|E]; rewrite Eg in E; [discriminate E|].
  destruct (conductor_heartbeats_return 0 fuel w2) as ([]&w3&E3&Ho3); [split; [done|by apply calm_roomy]|].
  destruct (dump_turn_returns path last_dump request w3 Ho3) as (last'&w4&E4&Ho4).
  exists w4, last'. split; [done|]. intros requests. cbn [event_loop]. erewrite bind_ret by exact Eacc.
  erewrite bind_ret by (symmetry; exact E). erewrite bind_ret by exact E3. by erewrite bind_ret by exact E4.
Qed.
End ConductorProgress.

(** ** A concrete turn *)

#[local] Instance turn_order : HostOrder := LittleEndian.
#[local] Instance turn_inet : Inet := dotted_quad.
#[local] Instance turn_malloc : Malloc := malloc_first_fit.
#[local] Instance turn_nodes : NodeAlloc := λ _, true.
#[local] Instance turn_codecs : Messages := codecs.
#[local] Instance turn_rng : Rng := counting_rng.

(** The concrete kernel with peers that read at once. *)
Definition refill (fd : Z) (k : sim) : sim := sim_set_window (<[fd := 100]> (sim_window k)) k.
Definition eager_kernel : Kernel := {|
  kernel := sim;
  sys_read := sys_read (Kernel := sim_kernel);
  sys_write fd bs k := sys_write (Kernel := sim_kernel) fd bs (refill fd k);
  sys_close := sys_close (Kernel := sim_kernel);
  sys_epoll_create1 := sys_epoll_create1 (Kernel := sim_kernel);
  sys_epoll_ctl := sys_epoll_ctl (Kernel := sim_kernel);
  sys_epoll_wait := sys_epoll_wait (Kernel := sim_kernel);
  sys_accept4 := sys_accept4 (Kernel := sim_kernel);
  sys_getpeername := sys_getpeername (Kernel := sim_kernel);
  sys_steady_clock := sys_steady_clock (Kernel := sim_kernel);
  sys_system_clock_ms := sys_system_clock_ms (Kernel := sim_kernel);
  sys_getaddrinfo := sys_getaddrinfo (Kernel := sim_kernel);
  sys_socket := sys_socket (Kernel := sim_kernel);
  sys_connect := sys_connect (Kernel := sim_kernel);
  sys_bind := sys_bind (Kernel := sim_kernel);
  sys_listen := sys_listen (Kernel := sim_kernel);
  sys_getfl := sys_getfl (Kernel := sim_kernel);
  sys_setfl := sys_setfl (Kernel := sim_kernel)
|}.

#[local] Instance eager_laws : KernelLaws eager_kernel.
Proof.
  unshelve econstructor; [exact sim_view|..].
  - exact (sys_read_ok (K := sim_kernel)).
  - exact (sys_read_tun_ok (K := sim_kernel)).
  - intros fd bs k r k' E. exact (sys_write_ok (K := sim_kernel) fd bs (refill fd k) r k' E).
  - exact (sys_close_ok (K := sim_kernel)).
  - exact (sys_epoll_ctl_ok (K := sim_kernel)).
  - exact (sys_epoll_wait_ok (K := sim_kernel)).
  - exact (sys_accept4_ok (K := sim_kernel)).
  - exact (sys_socket_ok (K := sim_kernel)).
  - exact (sys_epoll_create1_ok (K := sim_kernel)).
  - exact (sys_getaddrinfo_ok (K := sim_kernel)).
  - exact (sys_connect_ok (K := sim_kernel)).
  - exact (sys_bind_ok (K := sim_kernel)).
  - exact (sys_listen_ok (K := sim_kernel)).
  - exact (sys_getfl_ok (K := sim_kernel)).
  - exact (sys_setfl_ok (K := sim_kernel)).
  - exact (sys_steady_clock_ok (K := sim_kernel)).
  - exact (sys_system_clock_ok (K := sim_kernel)).
Defined.

#[local] Instance eager_eager : Eager eager_kernel.
Proof.
  intros fd bs k r k' E. change (sim_write fd bs (refill fd k) = (r, k')) in E. unfold sim_write in E.
  destruct (signals (sim_view (refill fd k))); [|by injection E as <- _].
  unfold refill in E. cbn [sim_window sim_set_window] in E. rewrite lookup_insert_eq in E.
  rewrite decide_False in E by (unfold default, from_option, id; lia). by injection E as <- _.
Qed.

#[local] Instance turn_dump : DumpFile eager_kernel := plain_dump _.

(** A switch is registered, on descriptor 3; an agent introduces itself on
    descriptor 4. *)
Definition turn_rx : gmap Z (list Byte.byte) :=
  {[3 := frames [(HEARTBEAT, [])];
    4 := frame (AGENT_MIP, default [] (SerializeToString (mk_PacketAgentMIP "alice" "key" "vnet.internal"))) ++
      take 4 (frames [(HEARTBEAT, [])])]}.
Definition turn_element (fd : Z) (p : loc) : NetworkElement := NetworkElement_new fd (Some p) SCK_HEADER.
Definition turn_world : @World eager_kernel ConductorState :=
  mk_world (K := eager_kernel)
    (mk_queue 5 200 {[1%positive := turn_element 3 1%positive; 2%positive := turn_element 4 2%positive]}
      {[3 := 1%positive; 4 := 2%positive]})
    (mk_sim (mk_kview turn_rx {[3 := Open; 4 := Open]} ∅ 0 {[3; 4; 5; 6]}
        {[5 := {[3 := 1%positive; 4 := 2%positive]}]} ∅)
      1000 ∅ 0 0 0 : @kernel eager_kernel)
    (mk_conductor {[1%positive := mk_conn SWITCH_CONN "s1" "key" "::internet" 6000 0 3 0 0;
        2%positive := with_conn_fd 4 (ConnInfo_new 0)]} [1%positive] [] [] 0 77).
Definition turn_fuel : nat := S (Z.to_nat (2 ^ 32)).

Lemma turn_fuel_le : (300 ≤ turn_fuel)%nat.
Proof. unfold turn_fuel. lia. Qed.

Lemma assign_world_owned : owns (conn_inv registered_wf) ∅ turn_world.
Proof.
  split; [|split; [apply map_empty_subseteq|split]].
  - split; cbn [turn_world queue elements fd_to_network_element kern epoll_fd].
    + intros fd p [[<- <-]|[_ [<- <-]%lookup_singleton_Some]]%lookup_insert_Some; eexists; split; reflexivity.
    + intros p e [[<- <-]|[_ [<- <-]%lookup_singleton_Some]]%lookup_insert_Some; reflexivity.
    + reflexivity.
    + reflexivity.
    + cbn. set_solver.
    + intros p e [[<- <-]|[_ [<- <-]%lookup_singleton_Some]]%lookup_insert_Some; vm_compute; repeat split; discriminate.
  - split; cbn [turn_world app queue]; unfold user_data; cbn [turn_world queue elements].
    + intros q x. rewrite lookup_fmap_Some. intros (e&<-&He).
      apply lookup_insert_Some in He as [[<- <-]|[_ [<- <-]%lookup_singleton_Some]];
        eexists; (split; [reflexivity|by eexists]).
    + intros q q' p. rewrite !lookup_fmap_Some. intros (e&E&He) (e'&E'&He').
      apply lookup_insert_Some in He as [[<- <-]|[_ [<- <-]%lookup_singleton_Some]];
        apply lookup_insert_Some in He' as [[<- <-]|[_ [<- <-]%lookup_singleton_Some]]; naive_solver.
  - split; cbn; [|by intros p ?%elem_of_nil]. intros p ->%list_elem_of_singleton. by eexists.
Qed.

Lemma assign_world_calm (k : @kernel eager_kernel) :
  view k = view (kern turn_world) → calm_queue most (Z.to_nat EPOLL_MAX_EVENTS) turn_fuel (set_kern k turn_world).
Proof.
  intros Hk p e He. cbn [queue set_kern turn_world elements kern] in He |- *.
  assert (∃ fd, e = turn_element fd p ∧ (fd = 3 ∨ fd = 4)) as (fd&->&Hfd).
  { apply lookup_insert_Some in He as [[<- <-]|[_ [<- <-]%lookup_singleton_Some]]; eauto. }
  assert (length (rx_of (view (kern turn_world)) fd) ≤ 1000)%nat as Hl
    by (destruct Hfd as [-> | ->]; vm_compute; lia).
  apply fresh_calm; rewrite ?Hk; [by destruct Hfd as [-> | ->]| |by destruct Hfd as [-> | ->]| |done|].
  - destruct Hfd as [-> | ->]; (split; apply (bool_decide_unpack _); vm_compute; exact I).
  - unfold turn_fuel. lia.
  - assert (signals (view (kern turn_world)) = 0%nat) as -> by reflexivity.
    unfold turn_fuel, most, WRITE_BUFFER_MAX. lia.
Qed.

(** The guarded conductor refuses nothing, already with little fuel. *)
Definition turn_guarded (fuel : nat) : outcome (() * @World eager_kernel ConductorState) :=
  event_loop fuel (GuardedDispatch fuel) [false] 6 "/tmp/dump" 1000 turn_world.
Example turn_assigns :
  match turn_guarded 300 with Ret (_, w) => agents (app w) = [2%positive] | _ => False end.
Proof. vm_compute. reflexivity. Qed.

Lemma conductor_turn_returns_witness :
  ∃ w' last_dump', ∀ requests,
    event_loop turn_fuel (ConductorDispatch turn_fuel) (false :: requests) 6 "/tmp/dump" 1000 turn_world =
    event_loop turn_fuel (ConductorDispatch turn_fuel) requests 6 "/tmp/dump" last_dump' w'.
Proof.
  destruct (conductor_turn_returns (DumpFile0 := turn_dump) (DumpFileLaws0 := plain_dump_laws _ _) turn_fuel 6 "/tmp/dump" 1000 false
    turn_world turn_world) as [Hc|(w'&last'&_&E)].
  - apply assign_world_owned.
  - reflexivity.
  - intros r k [= _ <-]. apply assign_world_calm. reflexivity.
  - pose proof (turn_fuel_le : fuel_le StopFuel 300 turn_fuel) as Hle.
    pose proof turn_assigns as Hr. unfold turn_guarded in Hr.
    destruct (conductor_loop_approx StopFuel 300 turn_fuel _ _ [false] 6 "/tmp/dump" 1000 Hle
      (GuardedDispatch_approx StopFuel 300 turn_fuel Hle) turn_world) as [E|E];
      rewrite E in Hr; [destruct Hr|]. rewrite (Hc []) in Hr. destruct Hr.
  - exists w', last'. exact E.
Defined.
