(* ===== verification/Assignments.v ===== *)
(** * The assignments of the conductor

    The conductor as a state machine: the events of its loop (the calls of its
    handlers, new connections, heartbeats, dumps) with the log of the assignments
    it made.  In its orderly runs, where a connection identifies itself once and
    an agent comes while a switch is registered, its lists never disagree with
    the log nor with each other ([books]); the code does not enforce this order,
    and out of it they can. *)
From stdpp Require Import base option list gmap sets strings.
From Stdlib Require Import ZArith Lia.
From S2P Require Import Prelude Bytes Random Kernel Protocol Inet Proto NetQueue Heap ReadPath QueueInv SocketUtils.
From S2P Require Import Dispatch EventLoop Connections Conductor ConductorRun.

#[local] Open Scope Z_scope.

Section Assignments.
Context `{HostOrder} `{Inet} `{K : Kernel} `{KL : !KernelLaws K} `{!DumpFile K} `{!DumpFileLaws K}.
Context `{Malloc} `{NodeAlloc} `{Messages} `{R : Rng}.
Abbreviation W := (@World K ConductorState).
Implicit Types (p : loc) (w : W) (s : ConductorState).

(** ** Events *)

Inductive event : Type :=
  | EvSwitch (data : socket_data) (pkt : PacketSwitchMIP)
  | EvAgent (data : socket_data) (pkt : PacketAgentMIP)
  | EvReconnect (data : socket_data) (pkt : PacketAgentMRP)
  | EvClose (data : close_data)
  | EvAccept (listener : Z)
  | EvHeartbeats
  | EvDump (path : string).

Definition run_event (fuel : nat) (ev : event) : M W () :=
  match ev with
  | EvSwitch data pkt => onSwitchMIP data pkt
  | EvAgent data pkt => onAgentMIP fuel data pkt
  | EvReconnect data pkt => onAgentMRP data pkt
  | EvClose data => onClose data
  | EvAccept listener => accept_connections fuel listener
  | EvHeartbeats => send_heartbeats fuel
  | EvDump path => write_dump path
  end.

(** A live connection that has not identified itself. *)
Definition unidentified (data : socket_data) s : Prop :=
  ∃ p c, sd_ptr_data data = Some p ∧ conns s !! p = Some c ∧ c_role c = UNKNOWN.

(** A connection identifies itself once, an agent while a switch is there. *)
Definition event_ok (ev : event) s : Prop :=
  match ev with
  | EvSwitch data _ | EvReconnect data _ => unidentified data s
  | EvAgent data _ => unidentified data s ∧ switches s ≠ []
  | EvClose data => ∃ p, cd_ptr_data data = Some p ∧ is_Some (conns s !! p)
  | EvAccept _ | EvHeartbeats | EvDump _ => True
  end.

(** The tokens an event recorded. *)
Definition recorded (ev : event) s s' : list PendingTokenInfo :=
  match ev with
  | EvAgent _ _ => drop (length (pending_tokens s)) (pending_tokens s')
  | _ => []
  end.

(** The name under which an agent introduced itself. *)
Definition introduced (ev : event) : list string :=
  match ev with
  | EvAgent _ pkt => [am_name pkt]
  | _ => []
  end.

(** The orderly runs of a conductor from its start: the agents that introduced
    themselves and the assignments made so far.  The code checks neither
    condition of [event_ok], so a run of the program leaves these runs when a
    peer identifies itself twice or an agent comes before a switch, and then the
    books need not hold ([second_identification_breaks_books]). *)
Inductive history (fuel : nat) : W → list string → list PendingTokenInfo → Prop :=
  | history_start w g : queue_wf w → app w = ConductorState_init g → history fuel w [] []
  | history_step w names log ev w' :
      history fuel w names log → event_ok ev (app w) → run_event fuel ev w = Ret ((), w') →
      history fuel w' (names ++ introduced ev) (log ++ recorded ev (app w) (app w')).

(** ** The books *)

Record books (log : list PendingTokenInfo) s : Prop := {
  bk_registered : registered_wf s;
  bk_once : NoDup (switches s ++ agents s);
  bk_pending t : t ∈ pending_tokens s →
    ∃ p c, p ∈ switches s ∧ conns s !! p = Some c ∧ c_name c = p_switch_name t;
  bk_log : pending_tokens s ⊆+ log;
  bk_tokens : Forall (λ t, in_width 64 (p_token t)) log
}.

Lemma books_init g : books [] (ConductorState_init g).
Proof. split; cbn; try constructor; try done; by intros ? ?%elem_of_nil. Qed.

(** Replacing an object by one with the same role and name, or adding one. *)
Lemma books_insert log s p c :
  books log s → (∀ c0, conns s !! p = Some c0 → c_role c = c_role c0 ∧ c_name c = c_name c0) →
  books log (with_conns (<[p := c]> (conns s)) s).
Proof.
  intros [Hr Ho Hp Hl Ht] Hc. split; cbn; try done.
  - apply registered_wf_insert; [done|..]; intros Hin.
    + destruct (proj1 Hr p Hin) as (c0&Hc0&<-). by apply Hc.
    + destruct (proj2 Hr p Hin) as (c0&Hc0&<-). by apply Hc.
  - intros t Hin. destruct (Hp t Hin) as (q&d&Hq&Hd&Hn). destruct (decide (p = q)) as [<-|Hne].
    + exists p, c. rewrite lookup_insert_eq. destruct (Hc d Hd) as [_ E]. split_and!; [done..|congruence].
    + exists q, d. by rewrite lookup_insert_ne.
Qed.

#[local] Instance books_HeapInv log : HeapInv (books log) (λ _, True).
Proof.
  split; intros s p c.
  - intros now Hs Hp. apply books_insert; [done|]. intros c0 Hc0. cbn in *. by simplify_eq.
  - intros Hs Hp _. apply books_insert; [done|]. intros c0 Hc0. cbn in *. by simplify_eq.
Qed.

(** An unidentified connection changes its role and name. *)
Lemma books_identify log s p c c' :
  books log s → conns s !! p = Some c → c_role c = UNKNOWN →
  books log (with_conns (<[p := c']> (conns s)) s) ∧ p ∉ switches s ++ agents s.
Proof.
  intros [Hr Ho Hp Hl Ht] Hc Hu. destruct (unknown_not_registered s p c Hr Hc Hu) as [Hs Ha].
  split; [|by rewrite elem_of_app; intros [?|?]]. split; cbn; try done.
  - by apply registered_wf_update.
  - intros t Hin. destruct (Hp t Hin) as (q&d&Hq&Hd&Hn). exists q, d. split; [done|].
    rewrite lookup_insert_ne; [done|]. by intros ->.
Qed.

Lemma books_push_switch log s p c :
  books log s → conns s !! p = Some c → c_role c = SWITCH_CONN → p ∉ switches s ++ agents s →
  books log (with_switches (switches s ++ [p]) s).
Proof.
  intros [Hr Ho Hp Hl Ht] Hc Hrole Hnew. split; cbn; try done.
  - by eapply registered_wf_push_switch.
  - rewrite <-(assoc_L (++)). cbn. rewrite <-Permutation_middle. by apply NoDup_cons.
  - intros t Hin. destruct (Hp t Hin) as (q&d&Hq&Hd). exists q, d. split; [|done].
    apply elem_of_app. by left.
Qed.

Lemma books_push_agent log s p c :
  books log s → conns s !! p = Some c → c_role c = AGENT_CONN → p ∉ switches s ++ agents s →
  books log (with_agents (agents s ++ [p]) s).
Proof.
  intros [Hr Ho Hp Hl Ht] Hc Hrole Hnew. split; cbn; try done.
  - by eapply registered_wf_push_agent.
  - rewrite (assoc_L (++)). apply NoDup_app. split; [done|]. split; [|apply NoDup_singleton].
    by intros q Hq ->%list_elem_of_singleton.
Qed.

(** A token for a registered switch is recorded. *)
Lemma books_record log s p c t :
  books log s → p ∈ switches s → conns s !! p = Some c → c_name c = p_switch_name t →
  in_width 64 (p_token t) → books (log ++ [t]) (with_pending (pending_tokens s ++ [t]) s).
Proof.
  intros [Hr Ho Hp Hl Ht] Hin Hc Hn Hw. split; cbn; try done.
  - intros t' [Ht'| ->%list_elem_of_singleton]%elem_of_app; [by apply Hp|by exists p, c].
  - by apply submseteq_app.
  - by apply Forall_app_2; [|apply Forall_singleton].
Qed.

(** A connection is closed. *)
Lemma books_closed log s p c : books log s → conns s !! p = Some c → books log (closed p c s).
Proof.
  intros Hb Hc. pose proof Hb as [Hr Ho Hp Hl Ht].
  destruct (closed_unregistered s p c Hr Hc) as [Hns Hna].
  split.
  - by apply registered_wf_closed.
  - apply NoDup_app in Ho as (Ho1&Ho2&Ho3). apply NoDup_app. cbn.
    destruct (closed_sublists s p c) as [Hss Hsa].
    split_and!; [case_decide; [by apply NoDup_filter|done]| |case_decide; [by apply NoDup_filter|done]].
    intros q Hq Hq'. apply (Ho2 q); [by apply Hss|by apply Hsa].
  - intros t Hin.
    assert (t ∈ pending_tokens s ∧ (c_role c = SWITCH_CONN → p_switch_name t ≠ c_name c)) as [Hin' Hname].
    { cbn in Hin. case_decide; [by apply list_elem_of_filter in Hin as [??]|done]. }
    destruct (Hp t Hin') as (q&d&Hq&Hd&Hn).
    assert (q ≠ p) as Hne.
    { intros ->. destruct (proj1 Hr p Hq) as (d'&Hd'&Hrole). simplify_eq. by apply Hname. }
    exists q, d. cbn. rewrite lookup_delete_ne by done. split_and!; [|done..].
    case_decide; [by apply list_elem_of_filter|done].
  - etrans; [|exact Hl]. cbn. case_decide; [apply sublist_submseteq, sublist_filter|done].
  - done.
Qed.

(** ** Each event keeps the books *)

Abbreviation keeping log := (λ s (_ : gmap loc (option loc)), books log s).

Definition step_ok (ev : event) log w (r : outcome (() * W)) : Prop :=
  match r with
  | Ret (_, w') =>
    owns (keeping (log ++ recorded ev (app w) (app w'))) ∅ w' ∧
    p_agent_name <$> recorded ev (app w) (app w') ⊆+ introduced ev
  | Undef _ => False
  | Throw _ | OutOfFuel => True
  end.

(** An event that keeps the books as they are. *)
Lemma hoare_step_ok ev log w m :
  recorded ev = (λ _ _, []) → introduced ev = [] → owns (keeping log) ∅ w →
  hoare (λ _, False) (owns (keeping log) ∅) m (λ _, owns (keeping log) ∅) → step_ok ev log w (m w).
Proof.
  intros Hrec Hint Ho Hm. specialize (Hm w Ho). unfold step_ok. destruct (m w) as [[[] w']| | |]; try done.
  by rewrite Hrec, Hint, app_nil_r.
Qed.

(** Identification: the object is replaced and a list extended. *)
Lemma identify_owns log w p c c' k upd :
  owns (keeping log) ∅ w → conns (app w) !! p = Some c → c_role c = UNKNOWN → view k = view (kern w) →
  (∀ s, s = with_conns (<[p := c']> (conns (app w))) (app w) → books log s → conns s !! p = Some c' →
     p ∉ switches s ++ agents s → books log (upd s)) →
  owns (keeping log) ∅ (set_app (upd (with_conns (<[p := c']> (conns (app w))) (app w))) (set_kern k w)).
Proof.
  intros (Hwf&Hm&Hb) Hc Hu Hk Hs. split; [apply set_app_wf, set_kern_wf; [done|]; unfold same_reg_at; by rewrite Hk|].
  split; [done|]. destruct (books_identify log (app w) p c c' Hb Hc Hu) as [Hb' Hnew].
  apply Hs; [done|done|cbn; apply lookup_insert_eq|done].
Qed.

Lemma switch_step fuel data pkt log w :
  owns (keeping log) ∅ w → event_ok (EvSwitch data pkt) (app w) →
  step_ok (EvSwitch data pkt) log w (run_event fuel (EvSwitch data pkt) w).
Proof.
  intros Ho (p&c&Hp&Hc&Hu). cbn [run_event].
  destruct (onSwitchMIP_run data pkt w p c Hp Hc) as (c'&k&E&Hr&_&_&Hk). rewrite E. cbn [step_ok recorded].
  rewrite app_nil_r. split; [|done].
  apply (identify_owns log w p c c' k (λ s, with_switches (switches s ++ [p]) s) Ho Hc Hu Hk).
  intros s -> Hb Hp' Hnew. by eapply books_push_switch.
Qed.

Lemma reconnect_step fuel data pkt log w :
  owns (keeping log) ∅ w → event_ok (EvReconnect data pkt) (app w) →
  step_ok (EvReconnect data pkt) log w (run_event fuel (EvReconnect data pkt) w).
Proof.
  intros Ho (p&c&Hp&Hc&Hu). cbn [run_event].
  destruct (onAgentMRP_run data pkt w p c Hp Hc) as (c'&k&E&Hr&Hk). rewrite E. cbn [step_ok recorded].
  rewrite app_nil_r. split; [|done].
  apply (identify_owns log w p c c' k (λ s, with_agents (agents s ++ [p]) s) Ho Hc Hu Hk).
  intros s -> Hb Hp' Hnew. by eapply books_push_agent.
Qed.

Lemma conductor_close_step fuel data log w :
  owns (keeping log) ∅ w → event_ok (EvClose data) (app w) →
  step_ok (EvClose data) log w (run_event fuel (EvClose data) w).
Proof.
  intros (Hwf&Hm&Hb) (p&Hp&c&Hc). cbn [run_event]. rewrite (onClose_run data w p c Hp Hc).
  cbn [step_ok recorded]. rewrite app_nil_r. split; [|done]. split_and!; [by apply set_app_wf|done|by apply books_closed].
Qed.

(** The state after an assignment was made, from the one [s] in which the
    messages were sent. *)
Definition assigned p (t : PendingTokenInfo) s : ConductorState :=
  with_agents (agents s ++ [p]) (with_pending (pending_tokens s ++ [t]) s).

Lemma books_assigned log s p c sw csw t :
  books log s → conns s !! p = Some c → c_role c = AGENT_CONN → p ∉ switches s ++ agents s →
  sw ∈ switches s → conns s !! sw = Some csw → c_name csw = p_switch_name t → in_width 64 (p_token t) →
  books (log ++ [t]) (assigned p t s).
Proof.
  intros Hb Hc Hr Hnew Hsw Hcsw Hn Hw.
  apply (books_push_agent _ (with_pending (pending_tokens s ++ [t]) s) p c); [|done..].
  by apply (books_record log s sw csw).
Qed.

(** The messages of an assignment: it is given up, or recorded as a whole. *)
Lemma assign_outcome fuel data pkt p sw c token s :
  conns s !! sw = Some c →
  hoare (λ _, False) (owns (λ s' _, s' = s) ∅) (assign fuel data pkt p sw token)
    (λ _ w, queue_wf w ∧ (app w = s ∨
       ∃ now, app w = assigned p (mk_pending (am_name pkt) (c_name c) now token) s)).
Proof.
  intros Hc. unfold assign.
  assert (∀ w, owns (λ s' _, s' = s) ∅ w → deref_obj (Some sw) w = Ret (c, w)) as Hderef.
  { intros w (_&_&E). apply deref_obj_run. cbn. by rewrite E. }
  intros w Ho. erewrite bind_ret by by apply Hderef. revert w Ho.
  eapply hoare_bind; [apply send_protobuf_packet_owns|]. intros sent.
  apply hoare_if; intros _; [apply hoare_ret; intros w (?&_&?); auto|].
  intros w Ho. erewrite bind_ret by by apply Hderef. revert w Ho.
  eapply hoare_bind; [apply send_protobuf_packet_owns|]. intros sent'.
  apply hoare_if; intros _; [apply hoare_ret; intros w (?&_&?); auto|].
  eapply hoare_bind; [apply syscall_owns; intros k; unfold same_reg; by rewrite sys_system_clock_ok|].
  intros now w (Hwf&_&E). erewrite (bind_ret (modify_app _)) by reflexivity.
  split; [by do 2 apply set_app_wf|]. right. exists now. cbn. by rewrite E.
Qed.

(** The round-robin index and the generator are not in the books. *)
Lemma books_index log s i : books log s → books log (with_rr_index i s).
Proof. by intros []. Qed.
Lemma books_rng log s g : books log s → books log (with_rng g s).
Proof. by intros []. Qed.

Lemma agent_step fuel data pkt log w :
  owns (keeping log) ∅ w → event_ok (EvAgent data pkt) (app w) →
  step_ok (EvAgent data pkt) log w (run_event fuel (EvAgent data pkt) w).
Proof.
  intros (Hwf&Hm&Hb) [(p&c&Hp&Hc&Hu) Hne]. cbn [run_event]. unfold onAgentMIP. rewrite Hp.
  destruct (start_run w p c Hc) as (now&k&E&Hk). erewrite bind_ret by apply E.
  erewrite bind_ret by by apply update_obj_run. set (c' := agent_conn _ _ _ _ _ _). set (w1 := set_obj _ _ _).
  destruct (books_identify log (app w) p c c' Hb Hc Hu) as [Hb1 Hnew].
  destruct (pick_switch_live (am_network pkt) w1) as (sw&i&E2&Hsw);
    [apply registered_switches_live, Hb1|done|].
  erewrite bind_ret by apply E2. cbv beta iota.
  destruct (proj1 (bk_registered _ _ Hb1) sw Hsw) as (csw&Hcsw&_).
  pose proof (rng_width (rng (app (set_rr i w1)))) as Hw64.
  destruct (rng_next (rng (app (set_rr i w1)))) as [token g] eqn:Erng. cbn in Hw64.
  erewrite (bind_ret generate_token) by (unfold generate_token; by rewrite Erng).
  set (s3 := with_rng g (app (set_rr i w1))). set (w3 := set_app s3 (set_rr i w1)).
  assert (books log s3) as Hb3 by by apply books_rng, books_index.
  assert (owns (λ s _, s = s3) ∅ w3) as Ho3.
  { split_and!; [|apply map_empty_subseteq|done]. do 3 apply set_app_wf. apply set_kern_wf; [done|].
    unfold same_reg_at. by rewrite Hk. }
  pose proof (assign_outcome fuel data pkt p sw csw token s3 Hcsw w3 Ho3) as Ha.
  change (step_ok (EvAgent data pkt) log w (assign fuel data pkt p sw token w3)).
  unfold step_ok. destruct (assign fuel data pkt p sw token w3) as [[[] w']| | |]; try done.
  destruct Ha as [Hwf' Ha]. cbn [recorded introduced].
  assert (pending_tokens s3 = pending_tokens (app w)) as Hpend by done.
  destruct Ha as [Ea|(now'&Ea)]; rewrite Ea.
  - rewrite Hpend, drop_all, app_nil_r. split; [|apply submseteq_nil_l].
    split; [done|]. split; [apply map_empty_subseteq|by rewrite Ea].
  - set (t := mk_pending _ _ _ _). change (pending_tokens (assigned p t s3)) with (pending_tokens s3 ++ [t]).
    rewrite Hpend, drop_app_length. split; [|done]. split; [done|]. split; [apply map_empty_subseteq|rewrite Ea].
    by apply (books_assigned log s3 p c' sw csw); [|apply lookup_insert_eq|..].
Qed.

Lemma conductor_event_step fuel ev log w :
  owns (keeping log) ∅ w → event_ok ev (app w) → step_ok ev log w (run_event fuel ev w).
Proof.
  intros Ho Hev. destruct ev; [by apply switch_step|by apply agent_step|by apply reconnect_step|by apply conductor_close_step|..];
    (apply hoare_step_ok; [done|done|done|]); cbn [run_event].
  - by apply (accept_loop_owns _ (λ _, True)).
  - apply heartbeats_keep; [apply _|]. by intros s ? [].
  - apply write_dump_keeps. by intros s ? [].
Qed.

Lemma history_owns fuel w names log :
  history fuel w names log → owns (keeping log) ∅ w ∧ p_agent_name <$> log ⊆+ names.
Proof.
  induction 1 as [w g Hwf Happ|w names log ev w' _ [IH Hn] Hev E].
  - split; [|done]. split_and!; [done|apply map_empty_subseteq|]. rewrite Happ. apply books_init.
  - pose proof (conductor_event_step fuel ev log w IH Hev) as Hs. rewrite E in Hs. destruct Hs as [Ho Hrec].
    split; [done|]. rewrite fmap_app. by apply submseteq_app.
Qed.

(** C9: the books of the conductor, in its orderly runs: as long as no connection identifies itself
    twice and no agent comes while no switch is registered (the code checks neither), in every state
    it reaches through any sequence of connections, identifications, closes, heartbeats and dumps,
    its two lists hold live connections of the right role and none
    twice; each assignment answers an introduction of its own, by an agent of that name; every
    pending token is one it assigned, no assignment is pending twice, and the switch it names is
    still registered; and no further event reaches undefined behaviour. *)
Theorem conductor_keeps_its_books fuel w names log :
  history fuel w names log →
  NoDup (switches (app w) ++ agents (app w)) ∧
  (∀ p, p ∈ switches (app w) → ∃ c, conns (app w) !! p = Some c ∧ c_role c = SWITCH_CONN) ∧
  (∀ p, p ∈ agents (app w) → ∃ c, conns (app w) !! p = Some c ∧ c_role c = AGENT_CONN) ∧
  p_agent_name <$> log ⊆+ names ∧ pending_tokens (app w) ⊆+ log ∧
  (∀ t, t ∈ pending_tokens (app w) → in_width 64 (p_token t) ∧
     ∃ p c, p ∈ switches (app w) ∧ conns (app w) !! p = Some c ∧ c_name c = p_switch_name t) ∧
  (∀ ev u, event_ok ev (app w) → run_event fuel ev w ≠ Undef u).
Proof.
  intros [Hr Hn]%history_owns. pose proof Hr as (_&_&[[Hs Ha] Ho Hp Hl Ht]). split_and!; [done..| |].
  - intros t Hin. split; [|by apply Hp]. apply (proj1 (Forall_forall _ _) Ht).
    by apply (elem_of_submseteq _ _ _ Hin).
  - intros ev u Hev E. pose proof (conductor_event_step fuel ev log w Hr Hev) as Hst. by rewrite E in Hst.
Qed.

(** Executing a list of events. *)
#[export] Instance unidentified_dec data s : Decision (unidentified data s).
Proof.
  unfold unidentified. destruct (sd_ptr_data data) as [p|]; [|right; by intros (?&?&?&_)].
  destruct (conns s !! p) as [c|] eqn:Hc; [|right; intros (?&?&[= <-]&?&_); congruence].
  destruct (decide (c_role c = UNKNOWN)); [left; by exists p, c|].
  right. intros (?&?&[= <-]&?&?). congruence.
Defined.

#[export] Instance event_ok_dec ev s : Decision (event_ok ev s).
Proof.
  destruct ev as [| | |data| | |]; cbn; try apply _.
  destruct (cd_ptr_data data) as [p|]; [|right; by intros (?&?&_)].
  destruct (decide (is_Some (conns s !! p))); [left; eauto|right; naive_solver].
Defined.

Fixpoint run_events (fuel : nat) (evs : list event) w (names : list string) (log : list PendingTokenInfo) :
    option (W * list string * list PendingTokenInfo) :=
  match evs with
  | [] => Some (w, names, log)
  | ev :: evs =>
    if decide (event_ok ev (app w)) then
      match run_event fuel ev w with
      | Ret (_, w') => run_events fuel evs w' (names ++ introduced ev) (log ++ recorded ev (app w) (app w'))
      | _ => None
      end
    else None
  end.

Lemma run_events_history fuel evs w names log w' names' log' :
  history fuel w names log → run_events fuel evs w names log = Some (w', names', log') →
  history fuel w' names' log'.
Proof.
  revert w names log. induction evs as [|ev evs IH]; intros w names log Hr E; [by injection E as <- <- <-|].
  cbn [run_events] in E. destruct (decide (event_ok ev (app w))); [|done].
  destruct (run_event fuel ev w) as [[[] w1]| | |] eqn:E1; try done.
  eapply IH; [|exact E]. by econstructor.
Qed.
End Assignments.

(** ** A concrete run *)

#[local] Instance books_order : HostOrder := LittleEndian.
#[local] Instance books_inet : Inet := dotted_quad.
#[local] Instance books_malloc : Malloc := malloc_first_fit.
#[local] Instance books_nodes : NodeAlloc := λ _, true.
#[local] Instance books_codecs : Messages := codecs.
#[local] Instance books_rng_alg : Rng := counting_rng.
#[local] Instance books_dump : DumpFile sim_kernel := plain_dump _.

(** An empty queue and two connections about to come. *)
Definition start_world : @World sim_kernel ConductorState :=
  mk_world (mk_queue 3 200 ∅ ∅) (mk_sim (mk_kview ∅ ∅ ∅ 0 {[3; 4]} ∅ ∅) 1000 ∅ 0 2 0) (ConductorState_init 77).

Lemma first_world_wf : queue_wf start_world.
Proof. by split; cbn. Qed.

Definition data_of (type : PacketType) (element info : loc) (fd : Z) : socket_data :=
  mk_socket_data element (Some info) fd type (mk_buffer_ptr element 6) 8 (mk_buffer_ptr element 0) 14.

(** A switch on descriptor 5, then an agent on 6, which leaves. *)
Definition sample_events : list event :=
  [EvAccept 4; EvSwitch (data_of SWITCH_MIP 1%positive 1%positive 5) (mk_PacketSwitchMIP "s1" "key" "::internet" 6000);
   EvHeartbeats; EvAgent (data_of AGENT_MIP 2%positive 2%positive 6) (mk_PacketAgentMIP "alice" "key" "lan");
   EvDump "/tmp/dump"; EvClose (mk_close_data 2%positive (Some 2%positive) 6 CLOSE_HANGUP)].

(** Out of order: a connection that registers as a switch twice is listed twice. *)
Definition registered_twice : list loc :=
  let register := run_event 100 (EvSwitch (data_of SWITCH_MIP 1%positive 1%positive 5)
    (mk_PacketSwitchMIP "s1" "key" "::internet" 6000)) in
  match (run_event 100 (EvAccept 4);; register;; register) start_world with
  | Ret (_, w) => switches (app w)
  | _ => []
  end.

Example second_identification_breaks_books :
  registered_twice = [1%positive; 1%positive] ∧ ¬ NoDup registered_twice.
Proof.
  assert (registered_twice = [1%positive; 1%positive]) as E by (vm_compute; reflexivity).
  rewrite E. split; [done|]. intros [Hn _]%NoDup_cons. apply Hn, list_elem_of_here.
Qed.

Definition books_of (r : option (@World sim_kernel ConductorState * list string * list PendingTokenInfo)) :
    option (list loc * list loc * list (string * string) * list string * list (string * string)) :=
  let show := fmap (λ t, (p_agent_name t, p_switch_name t)) in
  match r with
  | Some (w, names, log) => Some (switches (app w), agents (app w), show (pending_tokens (app w)), names, show log)
  | None => None
  end.

Lemma conductor_keeps_its_books_witness :
  ∃ w log, history 100 w ["alice"] log ∧ switches (app w) = [1%positive] ∧ pending_tokens (app w) ⊆+ log ∧
    (p_agent_name <$> log) = ["alice"].
Proof.
  assert (books_of (run_events 100 sample_events start_world [] []) =
    Some ([1%positive], [], [("alice", "s1")], ["alice"], [("alice", "s1")])) as Hrun by (vm_compute; reflexivity).
  destruct (run_events 100 sample_events start_world [] []) as [[[w names] log]|] eqn:E; [|discriminate Hrun].
  injection Hrun as Hsw _ _ -> Hlog. exists w, log.
  pose proof (run_events_history _ _ _ _ _ _ _ _
    (history_start 100 start_world 77 first_world_wf eq_refl) E) as Hr.
  destruct (conductor_keeps_its_books (DumpFileLaws0 := plain_dump_laws _ _) 100 w ["alice"] log Hr)
    as (_&_&_&_&Hpend&_).
  split; [exact Hr|]. split; [exact Hsw|]. split; [exact Hpend|].
  destruct log as [|t [|]]; try discriminate Hlog. injection Hlog as Hn _. cbn. by rewrite Hn.
Defined.
