(* ===== verification/System.v ===== *)
(** * The three programs together

    The handshake of an agent over the programs it involves: the bytes one
    program puts on a connection are the bytes the other receives, everything
    else about their worlds (kernels included) is independent.  Also, what
    holds of all three programs: the fuel of a run does not matter. *)
From stdpp Require Import base option list gmap sets strings.
From Stdlib Require Import ZArith Lia.
From S2P Require Import Prelude Approx Args Bytes Random Kernel Protocol Framing Inet Proto NetQueue Heap ReadPath.
From S2P Require Import WritePath QueueInv SocketUtils Dispatch Monotone EventLoop Connections.
From S2P Require Import Conductor ConductorRun Assignments Agent Switch SwitchRun.

#[local] Open Scope Z_scope.

(** ** Handling a received packet *)

Section Packet.
Context `{HostOrder} `{K : Kernel} `{KL : !KernelLaws K} `{Messages} {A : Type}.
Abbreviation W := (@World K A).
Implicit Types (w : W).

(** The element has received exactly the bytes [bs], a packet to be handled. *)
Definition holds_packet (e : NetworkElement) (bs : list byte) : Prop :=
  receiving e ∧ el_state e = SCK_READY ∧ buffered e = bs.

(** The element after its packet was handled. *)
Definition handled (e : NetworkElement) : NetworkElement := with_state SCK_HEADER (with_used 0 e).

Lemma after_packet_run q w e :
  elements (queue w) !! q = Some e → after_packet q w = Ret (false, at_element q w (kern w) (handled e)).
Proof.
  intros He. rewrite <-(at_element_self q w e) at 1 by done. unfold after_packet, set_state.
  erewrite bind_at by apply update_at. erewrite bind_at by apply update_at. reflexivity.
Qed.

Lemma handled_wf q w e :
  queue_wf w → elements (queue w) !! q = Some e → queue_wf (at_element q w (kern w) (handled e)).
Proof.
  intros Hwf He. destruct (wf_elements _ Hwf q e He) as (Hu&Hl&_).
  eapply queue_wf_at; [done..| |done|done].
  unfold element_wf, handled, PACKET_HEADER_SIZE; el_cbn. split_and!; try done; lia.
Qed.

(** The loop of [process] on a packet of a typed message. *)
Lemma packet_step d q w e type payload T (M0 : Message T) handle msg :
  elements (queue w) !! q = Some e → holds_packet e (frame (type, payload)) → in_width 16 type →
  typed_handler d type T M0 handle → SerializeToString msg = Some payload →
  process_step (makeNetworkQueueHandler (Some d)) q w =
  (handle (packet_data q e) msg;; after_packet q) w.
Proof.
  intros He (Hr&Hst&Hbuf) Hty Hh Hser. pose proof (buffered_type e type payload Hr Hst Hty Hbuf) as Ht.
  rewrite <-Ht in Hbuf, Hh. by eapply typed_packet_step.
Qed.
End Packet.

(** ** The handshake *)

Section System.
Context `{HostOrder} `{Inet} `{Malloc} `{NodeAlloc} `{Messages} `{R : Rng}.
Context {Ka Kc Ks : Kernel} {La : KernelLaws Ka} {Lc : KernelLaws Kc} {Ls : KernelLaws Ks}.
Abbreviation WA := (@World Ka AgentState).
Abbreviation WC := (@World Kc ConductorState).
Abbreviation WS := (@World Ks SwitchState).
Abbreviation CD := (ConductorDispatch (K := Kc)).
Abbreviation SD := (SwitchDispatch (K := Ks)).

(** The bytes a step of the conductor sent on a descriptor. *)
Definition sent_on (fd : Z) (w w' : WC) : list byte :=
  drop (length (tx_of (view (kern w)) fd)) (tx_of (view (kern w')) fd).

Lemma sent_on_app fd (w w' : WC) bs :
  tx_of (view (kern w')) fd = tx_of (view (kern w)) fd ++ bs → sent_on fd w w' = bs.
Proof. intros E. unfold sent_on. by rewrite E, drop_app_length. Qed.

(** A connection of the conductor, at the element [q], that has not identified
    itself, while some switch is registered. *)
Record newcomer (q : loc) (e : NetworkElement) (w : WC) : Prop := {
  new_element : elements (queue w) !! q = Some e;
  new_unknown : ∃ p c, el_ptr e = Some p ∧ Conductor.conns (app w) !! p = Some c ∧ Conductor.c_role c = UNKNOWN;
  new_registered : registered_wf (app w);
  new_rr : rr_bounded (app w);
  new_switches : switches (app w) ≠ [];
  new_fds q' d : q' ∈ switches (app w) → Conductor.conns (app w) !! q' = Some d → Conductor.c_fd d ≠ el_fd e
}.

(** The conductor on the bytes an agent sent: when it admits the agent it sends
    the two messages of an assignment, with one token. *)
Lemma conductor_assigns fuel name key body q e w w' :
  SerializeToString (mk_PacketAgentMIP name key "vnet.internal") = Some body →
  newcomer q e w → holds_packet e (frame (AGENT_MIP, body)) →
  process_step (makeNetworkQueueHandler (Some (CD fuel))) q w = Ret (false, w') →
  Conductor.agents (app w') ≠ Conductor.agents (app w) →
  ∃ sw csw token body1 body2, sw ∈ switches (app w) ∧ Conductor.conns (app w) !! sw = Some csw ∧
    SerializeToString (mk_PacketConnectToSwitch (Conductor.c_name csw) (c_sw_ipv4 csw) token (c_sw_port csw))
      = Some body1 ∧
    SerializeToString (mk_PacketAgentConnectionToken name token) = Some body2 ∧
    sent_on (el_fd e) w w' = frame (CONNECT_TO_SWITCH, body1) ∧
    sent_on (Conductor.c_fd csw) w w' = frame (AGENT_CONNECTION_TOKEN, body2).
Proof.
  intros Hser [He (p&c&Hp&Hc&Hrole) Hreg Hrr Hne Hfds] Hpkt Hstep Hadm.
  rewrite (packet_step (CD fuel) q w e AGENT_MIP body PacketAgentMIP _ _ _ He Hpkt ltac:(done) (typed_agent_mip (CD fuel)) Hser)
    in Hstep.
  apply bind_inv in Hstep as ([]&w1&E1&E2). cbn [d_onAgentMIP ConductorDispatch] in E1.
  assert (app w' = app w1 ∧ kern w' = kern w1) as [Happ Hkern].
  { unfold after_packet, set_state in E2. apply bind_inv in E2 as ([]&w2&E2&E3).
    apply bind_inv in E3 as ([]&w3&E3&[= <-]). unfold update in E2, E3.
    destruct (elements (queue w1) !! q); [|done]. injection E2 as <-.
    destruct (elements (queue (set_element q _ w1)) !! q); [|done]. by injection E3 as <-. }
  destruct (onAgentMIP_run fuel (packet_data q e) (mk_PacketAgentMIP name key "vnet.internal") w p c)
    as [E|(w2&E&_&Hres)]; try done; [congruence|]. rewrite E1 in E. injection E as <-.
  destruct Hres as [[Hag _]|(sw&csw&token&now&body1&body2&Hin&Hcsw&_&Hs1&Hs2&Htx1&Htx2&_)];
    [by rewrite Happ in Hadm|].
  exists sw, csw, token, body1, body2.
  split_and!; try done; apply sent_on_app; rewrite Hkern; [exact Htx1|exact Htx2].
Qed.

(** The agent on the bytes of its assignment: it presents that token. *)
Lemma agent_presents fuel cdt sws token name ipv4 port body1 hbs rest (w w' : WA) :
  SerializeToString (mk_PacketConnectToSwitch name ipv4 token port) = Some body1 →
  Forall (λ hb : packet, hb.1 = HEARTBEAT ∧ packet_wf hb) hbs →
  packets (view (kern w)) !! cdt = None →
  rx_of (view (kern w)) cdt = frames hbs ++ frame (CONNECT_TO_SWITCH, body1) ++ rest →
  (length (rx_of (view (kern w)) cdt) + 8 ≤ fuel)%nat →
  authenticate_at_switch (K := Ka) fuel cdt w = Ret (Some sws, w') →
  ∃ body3, SerializeToString (mk_PacketAuthConnectToSwitch token) = Some body3 ∧
    tx_of (view (kern w')) sws = frame (AUTH_CONNECT_TO_SWITCH, body3).
Proof.
  intros Hser Hhbs Hpk Hrx Hf E.
  destruct (read_protobuf_packet_run cdt w CONNECT_TO_SWITCH _ body1 hbs rest fuel Hser)
    as (wr&Er&_); [done..|].
  unfold authenticate_at_switch in E. erewrite bind_ret in E by apply Er. cbv beta iota in E.
  assert (opened ∅ (app wr) wr) as Ho by by split.
  pose proof (present_token_opened fuel ∅ (app wr) cdt (mk_PacketConnectToSwitch name ipv4 token port) wr Ho) as Hp.
  rewrite E in Hp. destruct (Hp sws eq_refl) as (_&body3&Hser3&_&Hopen).
  exists body3. split; [exact Hser3|]. apply (Hopen sws). apply lookup_insert_eq.
Qed.

(** The switch on the conductor's announcement. *)
Lemma switch_expects (fuel : nat) name token body2 q e (w : WS) :
  SerializeToString (mk_PacketAgentConnectionToken name token) = Some body2 →
  queue_wf w → elements (queue w) !! q = Some e → holds_packet e (frame (AGENT_CONNECTION_TOKEN, body2)) →
  ∃ now k, view k = view (kern w) ∧
    let w' := at_element q (set_app (Switch.with_pending (<[token := mk_token name now]>
      (Switch.pending_tokens (app w))) (app w)) (set_kern k w)) k (handled e) in
    process_step (makeNetworkQueueHandler (Some (SD fuel))) q w = Ret (false, w') ∧
    queue_wf w'.
Proof.
  intros Hser Hwf He Hpkt.
  rewrite (packet_step (SD fuel) q w e AGENT_CONNECTION_TOKEN body2 PacketAgentConnectionToken _ _ _ He Hpkt ltac:(done)
    (typed_token (SD fuel)) Hser).
  cbn [d_onAgentConnectionToken SwitchDispatch]. unfold onAgentConnectionToken. cbv zeta.
  pose proof (sys_steady_clock_ok (kern w)) as Hk. destruct (sys_steady_clock (kern w)) as [now k] eqn:Ek.
  exists now, k. cbn in Hk. split; [exact Hk|]. split.
  - erewrite bind_ret.
    2: { erewrite (bind_ret (syscall _)) by (unfold syscall; by rewrite Ek). reflexivity. }
    etrans; [apply after_packet_run; exact He|reflexivity].
  - apply (handled_wf q (set_app _ (set_kern k w)) e); [|exact He].
    apply set_app_wf, set_kern_wf; [done|]. unfold same_reg_at. by rewrite Hk.
Qed.

(** C3: the handshake binds the name an agent gives the conductor to its connection at the switch.
    Let an agent introduce itself under [name], the conductor handle exactly the bytes it sent and
    admit it, the agent read what the conductor sent it (heartbeats may come first) and get through
    its authentication, and a switch handle the bytes the conductor sent to the switch it chose,
    and then the bytes the agent sent it.  Then the switch has registered that connection as the
    authenticated agent [name], used up the token, and put (as much as fits of) one
    CONNECTION_ACCEPTED frame on the connection. *)
Theorem handshake_binds_name fuel name key mc (wa0 wa1 : WA) cdt q e (wc wc' : WC) :
  Agent.register_at_conductor (K := Ka) fuel name key mc wa0 = Ret (Some cdt, wa1) →
  newcomer q e wc → holds_packet e (tx_of (view (kern wa1)) cdt) →
  process_step (makeNetworkQueueHandler (Some (CD fuel))) q wc = Ret (false, wc') →
  Conductor.agents (app wc') ≠ Conductor.agents (app wc) →
  ∃ sw csw, sw ∈ switches (app wc) ∧ Conductor.conns (app wc) !! sw = Some csw ∧
  ∀ (wa2 wa3 : WA) hbs rest sws (ws : WS) q1 e1 q2 e2 p c ack,
    rx_of (view (kern wa2)) cdt = frames hbs ++ sent_on (el_fd e) wc wc' ++ rest →
    Forall (λ hb : packet, hb.1 = HEARTBEAT ∧ packet_wf hb) hbs → packets (view (kern wa2)) !! cdt = None →
    (length (rx_of (view (kern wa2)) cdt) + 8 ≤ fuel)%nat →
    authenticate_at_switch (K := Ka) fuel cdt wa2 = Ret (Some sws, wa3) →
    queue_wf ws → q1 ≠ q2 → elements (queue ws) !! q1 = Some e1 → elements (queue ws) !! q2 = Some e2 →
    holds_packet e1 (sent_on (Conductor.c_fd csw) wc wc') → holds_packet e2 (tx_of (view (kern wa3)) sws) →
    el_ptr e2 = Some p → Switch.conns (app ws) !! p = Some c →
    sendable e2 → Z.of_nat (length (write_buffer e2)) < 2 ^ 62 →
    SerializeToString mk_PacketConnectionAccepted = Some ack →
    (length (frame (CONNECTION_ACCEPTED, ack)) + signals (view (kern ws)) + 1 ≤ fuel)%nat →
    let step q := process_step (makeNetworkQueueHandler (Some (SD fuel))) q in
    ∃ ws' e2' bs, (_ ← step q1; step q2) ws = Ret (false, ws') ∧
      p ∈ Switch.agents (app ws') ∧
      (∃ c', Switch.conns (app ws') !! p = Some c' ∧ Switch.c_name c' = name ∧ Switch.c_role c' = AGENT_AUTHENTICATED) ∧
      Switch.pending_tokens (app ws') ⊆ Switch.pending_tokens (app ws) ∧
      elements (queue ws') !! q2 = Some e2' ∧ bs `prefix_of` frame (CONNECTION_ACCEPTED, ack) ∧
      output e2' (kern ws') = output e2 (kern ws) ++ bs.
Proof.
  intros Hreg Hnew Hpkt Hstep Hadm.
  pose proof (agent_register_opened fuel name key mc (app wa0) wa0) as Hr. rewrite Hreg in Hr.
  destruct (Hr ltac:(by split) cdt eq_refl) as (body&Hser&_&Hopen). clear Hr.
  destruct (Hopen cdt (frame (AGENT_MIP, body))) as [_ Htx]; [apply lookup_singleton_eq|]. rewrite Htx in Hpkt.
  destruct (conductor_assigns fuel name key body q e wc wc' Hser Hnew Hpkt Hstep Hadm)
    as (sw&csw&token&body1&body2&Hin&Hcsw&Hs1&Hs2&Htx1&Htx2).
  exists sw, csw. split; [done|]. split; [done|].
  intros wa2 wa3 hbs rest sws ws q1 e1 q2 e2 p c ack Hrx Hhbs Hpk Hf Hauth Hwf Hq He1 He2 Hp1 Hp2 Hp Hc Hse Hwb Hack
    Hfuel step.
  rewrite Htx1 in Hrx. rewrite Htx2 in Hp1.
  destruct (agent_presents fuel cdt sws token _ _ _ body1 hbs rest wa2 wa3 Hs1 Hhbs Hpk Hrx Hf Hauth)
    as (body3&Hs3&Htx3). rewrite Htx3 in Hp2.
  destruct (switch_expects fuel name token body2 q1 e1 ws Hs2 Hwf He1 Hp1) as (now&k&Hk&E1&Hwf1).
  cbv zeta in E1. subst step. cbv beta. erewrite bind_ret by exact E1. set (w1 := at_element q1 _ k _) in *.
  assert (elements (queue w1) !! q2 = Some e2) as He2' by (cbn; by rewrite lookup_insert_ne).
  rewrite (packet_step (SD fuel) q2 w1 e2 AUTH_CONNECT_TO_SWITCH body3 PacketAuthConnectToSwitch _ _ _ He2' Hp2 ltac:(done)
    (typed_auth (SD fuel)) Hs3).
  cbn [d_onAuthConnectToSwitch SwitchDispatch].
  destruct (valid_token_result fuel (packet_data q2 e2) (mk_PacketAuthConnectToSwitch token) w1 p c
    (mk_token name now) q2 e2 ack) as (w2&e2'&bs&E2&_&Happ&He2''&Hpre&Hout); try done;
    [apply lookup_insert_eq|cbn; by rewrite Hk|].
  erewrite bind_ret by exact E2. rewrite (after_packet_run q2 w2 e2' He2'').
  eexists _, (handled e2'), bs. split; [reflexivity|].
  cbn [app at_element set_element set_kern set_queue kern queue elements with_elements]. rewrite Happ.
  split_and!; [|eexists; split; [apply lookup_insert_eq|done]| |apply lookup_insert_eq|done|].
  - apply elem_of_app. right. by apply list_elem_of_singleton.
  - cbn. rewrite delete_insert_eq. apply delete_subseteq.
  - etrans; [exact Hout|]. unfold output. by replace (view (kern w1)) with (view (kern ws)).
Qed.

(** ** From the conductor's log to the switch's agents *)

(** The tokens of the conductor's log that it announced to the switch [name]. *)
Definition grants (name : string) (log : list PendingTokenInfo) : list (Z * string) :=
  (λ t, (p_token t, p_agent_name t)) <$> filter (λ t, p_switch_name t = name) log.

(** C4: the agents of a switch are agents of the conductor.  Take any orderly run of the conductor
    ([Assignments.history]: no connection identifies itself twice, no agent comes while no switch is
    registered) and any history of a switch [name] in which the announcements the switch received
    are (some of) those the conductor made to it.  Then every agent the switch has admitted is a
    live authenticated connection whose name is the one of an assignment to this switch in the
    conductor's log, and under which an agent introduced itself to the conductor; and no assignment
    admits two connections. *)
Theorem admitted_agents_were_assigned `{!DumpFile Kc} `{!DumpFileLaws Kc} fuel fuel' name
    (wc : WC) names log (ws : WS) pushed accepted :
  Assignments.history fuel wc names log → Switch.reaches fuel' ws pushed accepted →
  pushed ⊆+ grants name log →
  accepted ⊆+ grants name log ∧
  ∀ p, p ∈ Switch.agents (app ws) → ∃ c t, Switch.conns (app ws) !! p = Some c ∧
    Switch.c_role c = AGENT_AUTHENTICATED ∧ (p_token t, Switch.c_name c) ∈ accepted ∧
    t ∈ log ∧ p_switch_name t = name ∧ p_agent_name t = Switch.c_name c ∧ Switch.c_name c ∈ names.
Proof.
  intros [_ Hnames]%history_owns (_&_&[Ha _ Hg])%Switch.reaches_owns Hp.
  assert (accepted ⊆+ grants name log) as Hacc.
  { etrans; [|exact Hp]. etrans; [|exact Hg]. by apply submseteq_inserts_r. }
  split; [done|]. intros p Hin. destruct (Ha p Hin) as (c&t&Hc&Hr&Ht). exists c.
  apply (elem_of_submseteq _ _ _ Ht) in Hacc as Hgr. unfold grants in Hgr.
  apply list_elem_of_fmap in Hgr as (pt&[= -> Hn]&[Hsw Hlog]%list_elem_of_filter).
  exists pt. split_and!; try done. apply (elem_of_submseteq (p_agent_name <$> log)); [|done].
  rewrite Hn. by apply list_elem_of_fmap_2.
Qed.

(** ** The fuel of a run *)

(** The fuel of a run does not matter.  A run of the agent, of the switch or of the conductor
    either runs out of its fuel, or it is the run of every larger fuel: the same exit code, the same
    exception or the same undefined behaviour, in the same final world, the bytes of every
    connection included. *)
Theorem fuel_does_not_matter `{!DumpFile Kc} n m (Hle : (n ≤ m)%nat) :
  (∀ turns argv getenv (w : WA), agent_main n turns argv getenv w = OutOfFuel ∨
     agent_main m turns argv getenv w = agent_main n turns argv getenv w) ∧
  (∀ turns argv getenv (w : WS), switch_main n turns argv getenv w = OutOfFuel ∨
     switch_main m turns argv getenv w = switch_main n turns argv getenv w) ∧
  (∀ requests getenv (w : WC), conductor_main n requests getenv w = OutOfFuel ∨
     conductor_main m requests getenv w = conductor_main n requests getenv w).
Proof.
  split_and!; intros.
  - destruct (agent_main_approx (K := Ka) n m turns argv getenv Hle w) as [E|E]; [by left|by right].
  - destruct (switch_main_approx (K := Ks) n m turns argv getenv Hle w) as [E|E]; [by left|by right].
  - destruct (conductor_main_approx (K := Kc) n m requests getenv Hle w) as [E|E]; [by left|by right].
Qed.
End System.

(** ** Concrete runs *)

#[local] Instance system_order : HostOrder := LittleEndian.
#[local] Instance system_inet : Inet := dotted_quad.
#[local] Instance system_malloc : Malloc := malloc_first_fit.
#[local] Instance system_nodes : NodeAlloc := λ _, true.
#[local] Instance system_codecs : Messages := codecs.
#[local] Instance system_rng : Rng := counting_rng.

(** The result of a computation that returns. *)
Definition result {S A} (d : A * S) (o : outcome (A * S)) : A * S := match o with Ret r => r | _ => d end.

Lemma result_ret {S A} (d : A * S) o a :
  is_return o = true → (result d o).1 = a → o = Ret (a, (result d o).2).
Proof. destruct o as [[b s]| | |]; [|done..]. by intros _ <-. Qed.

(** An element that has received a packet. *)
Definition received_element (fd : Z) (p : loc) (bs : list byte) : NetworkElement :=
  mk_element SCK_READY fd (Some p) (Z.of_nat (length bs)) bs [] 0.

Lemma received_packet fd p bs :
  (length bs =? 6 + Z.to_nat (stream_size bs))%nat && (0 <=? stream_size bs) &&
    (Z.of_nat (length bs) <=? NET_BUFFER_SIZE) = true →
  holds_packet (received_element fd p bs) bs.
Proof.
  intros [[Hl%Nat.eqb_eq Hs%Z.leb_le]%andb_true_iff Hn%Z.leb_le]%andb_true_iff.
  split; [|split; [done|]].
  - unfold received_element. split; el_cbn; [lia|done|]. unfold header_size, PACKET_HEADER_SIZE; el_cbn. lia.
  - unfold buffered, received_element. el_cbn. by rewrite Nat2Z.id, firstn_all.
Qed.

(** The agent: the conductor answers on descriptor 3 with a heartbeat and the
    assignment to the switch [s1] with the token 77; the switch accepts. *)
Definition assignment_body : list byte :=
  default [] (SerializeToString (mk_PacketConnectToSwitch "s1" 16777343 77 6000)).
Definition alice_script (fd : Z) : list byte :=
  if fd =? 3 then frames [(HEARTBEAT, [])] ++ frame (CONNECT_TO_SWITCH, assignment_body) ++ []
  else frames [(CONNECTION_ACCEPTED, [])].
Definition alice_kernel : Kernel := scripted_kernel alice_script.
Definition alice_laws : KernelLaws alice_kernel := scripted_laws alice_script.
Abbreviation AW := (@World alice_kernel AgentState).
Definition alice_start : AW :=
  mk_world (K := alice_kernel) (mk_queue (-1) (-1) ∅ ∅)
    (mk_sim (mk_kview ∅ ∅ ∅ 0 ∅ ∅ ∅) 1000 ∅ 0 0 0 : @kernel alice_kernel) AgentState_init.
Abbreviation alice_register :=
  (Agent.register_at_conductor (K := alice_kernel) 300 "alice" "key" conductor_cfg alice_start).
Definition alice_registered : AW := (result (None, alice_start) alice_register).2.
Abbreviation alice_authenticate :=
  (authenticate_at_switch (K := alice_kernel) 300 3 alice_registered).
Definition alice_authenticated : AW := (result (None, alice_start) alice_authenticate).2.
Definition alice_sent (w : AW) (fd : Z) : list byte := tx_of (view (KernelLaws := alice_laws) (kern w)) fd.

(** The conductor: the switch [s1] on descriptor 10, the agent on descriptor 12. *)
Definition hello_element : NetworkElement :=
  received_element 12 3%positive (alice_sent alice_registered 3).
Definition hello_world : @World sim_kernel ConductorState :=
  mk_world (mk_queue 3 200 {[1%positive := hello_element]} {[12 := 1%positive]}) sample_kern
    (sample_conductor [1%positive]).
Abbreviation hello_handled :=
  (process_step (makeNetworkQueueHandler (Some (ConductorDispatch 300))) 1%positive hello_world).
Definition assigned_world : @World sim_kernel ConductorState := (result (false, hello_world) hello_handled).2.

(** The switch: the conductor on descriptor 4, the agent on descriptor 5. *)
Definition token_element : NetworkElement :=
  received_element 4 1%positive (sent_on (Lc := sim_laws) 10 hello_world assigned_world).
Definition login_element : NetworkElement :=
  received_element 5 2%positive (alice_sent alice_authenticated 4).
Definition gate_world : @World sim_kernel SwitchState :=
  mk_world (mk_queue 3 200 {[1%positive := token_element; 2%positive := login_element]}
      {[4 := 1%positive; 5 := 2%positive]})
    (mk_sim (mk_kview {[4 := []; 5 := []]} {[4 := Open; 5 := Open]} ∅ 0 {[3; 4; 5]}
      {[3 := {[4 := 1%positive; 5 := 2%positive]}]} ∅) 1000 {[4 := 65536; 5 := 65536]} 0 0 0)
    (mk_switch {[1%positive := Switch.mk_conn CONDUCTOR "" 4 0; 2%positive := Switch.mk_conn AGENT_PENDING "" 5 0]}
      ∅ [] (Some 1%positive)).
Definition gate_step (q : loc) : M (@World sim_kernel SwitchState) bool :=
  process_step (makeNetworkQueueHandler (Some (SwitchDispatch 300))) q.

Lemma gate_world_wf : queue_wf gate_world.
Proof.
  split; cbn [gate_world queue elements fd_to_network_element kern epoll_fd].
  - intros fd p [[<- <-]|[_ [<- <-]%lookup_singleton_Some]]%lookup_insert_Some; eexists; split; reflexivity.
  - intros p e [[<- <-]|[_ [<- <-]%lookup_singleton_Some]]%lookup_insert_Some; reflexivity.
  - reflexivity.
  - reflexivity.
  - cbn. set_solver.
  - intros p e [[<- <-]|[_ [<- <-]%lookup_singleton_Some]]%lookup_insert_Some; vm_compute; repeat split; discriminate.
Qed.

Lemma alice_registers : alice_register = Ret (Some 3, alice_registered).
Proof. apply result_ret; vm_compute; reflexivity. Qed.
Lemma alice_authenticates : alice_authenticate = Ret (Some 4, alice_authenticated).
Proof. apply result_ret; vm_compute; reflexivity. Qed.
Lemma hello_is_handled : hello_handled = Ret (false, assigned_world).
Proof. apply result_ret; vm_compute; reflexivity. Qed.

Lemma hello_newcomer : newcomer (Kc := sim_kernel) 1%positive hello_element hello_world.
Proof.
  split; [reflexivity| | | |discriminate|].
  - by exists 3%positive, (with_conn_fd 12 (ConnInfo_new 0)).
  - split; intros p; cbn [hello_world app sample_conductor Conductor.switches Conductor.agents].
    + intros ->%list_elem_of_singleton. eexists. split; reflexivity.
    + by intros ?%elem_of_nil.
  - split; cbn; lia.
  - intros q d ->%list_elem_of_singleton [= <-]. vm_compute. discriminate.
Qed.

(** The connection of the agent "alice" ends up authenticated under her name. *)
Lemma handshake_binds_name_witness :
  ∃ ws', (_ ← gate_step 1%positive; gate_step 2%positive) gate_world = Ret (false, ws') ∧
    2%positive ∈ Switch.agents (app ws') ∧
    Switch.c_name <$> Switch.conns (app ws') !! 2%positive = Some "alice".
Proof.
  destruct (handshake_binds_name (Ka := alice_kernel) (La := alice_laws) 300 "alice" "key" conductor_cfg alice_start alice_registered
    3 1%positive hello_element hello_world assigned_world alice_registers hello_newcomer)
    as (sw&csw&Hin&Hcsw&Hrest); [apply received_packet; vm_compute; reflexivity|exact hello_is_handled|vm_compute; discriminate|].
  apply list_elem_of_singleton in Hin as ->. injection Hcsw as <-.
  destruct (Hrest alice_registered alice_authenticated [(HEARTBEAT, [])] [] 4 gate_world
    1%positive token_element 2%positive login_element 2%positive (Switch.mk_conn AGENT_PENDING "" 5 0) [])
    as (ws'&e2'&bs&E&Hag&(c'&Hc'&Hname&_)&_).
  - vm_compute. reflexivity.
  - apply Forall_singleton. split; [reflexivity|]. vm_compute. repeat split; discriminate.
  - vm_compute. reflexivity.
  - vm_compute. lia.
  - exact alice_authenticates.
  - exact gate_world_wf.
  - discriminate.
  - reflexivity.
  - reflexivity.
  - apply received_packet. vm_compute. reflexivity.
  - apply received_packet. vm_compute. reflexivity.
  - reflexivity.
  - reflexivity.
  - split; vm_compute; [split; discriminate|discriminate|reflexivity].
  - vm_compute. reflexivity.
  - vm_compute. reflexivity.
  - vm_compute. lia.
  - exists ws'. split; [exact E|]. split; [exact Hag|]. rewrite Hc'. cbn. by rewrite Hname.
Defined.

#[local] Instance system_dump : DumpFile sim_kernel := plain_dump _.

(** The conductor gives alice the token 77 for the switch s1, which gets its announcement. *)
Definition log_of (r : option (@World sim_kernel ConductorState * list string * list PendingTokenInfo)) :
    option (list string * list PendingTokenInfo) :=
  match r with Some (_, names, log) => Some (names, log) | None => None end.

Lemma admitted_agents_were_assigned_witness :
  ∃ wc log ws, Assignments.history 100 wc ["alice"] log ∧ Switch.reaches 100 ws [(77, "alice")] [(77, "alice")] ∧
    Switch.agents (app ws) = [1%positive] ∧
    ∃ c, Switch.conns (app ws) !! 1%positive = Some c ∧ Switch.c_name c ∈ ["alice"].
Proof.
  assert (log_of (Assignments.run_events 100 Assignments.sample_events Assignments.start_world [] []) =
    Some (["alice"], [mk_pending "alice" "s1" 5000 77])) as Hlog by (vm_compute; reflexivity).
  destruct (Assignments.run_events 100 _ _ _ _) as [[[wc names] log]|] eqn:Ec; [|discriminate Hlog].
  injection Hlog as -> ->.
  apply (Assignments.run_events_history _ _ _ _ _ _ _ _
    (history_start 100 Assignments.start_world 77 Assignments.first_world_wf eq_refl)) in Ec.
  assert (ledger_of (Switch.run_events 100 Switch.sample_events Switch.start_world [] []) =
    Some ([1%positive], [(77, "alice")], [(77, "alice")])) as Hrun by (vm_compute; reflexivity).
  destruct (Switch.run_events 100 _ _ _ _) as [[[ws pushed] accepted]|] eqn:Es; [|discriminate Hrun].
  injection Hrun as Hag -> ->.
  apply (Switch.run_events_reaches _ _ _ _ _ _ _ _
    (Switch.reaches_start 100 Switch.start_world Switch.start_world_wf eq_refl)) in Es.
  destruct (admitted_agents_were_assigned (DumpFileLaws0 := plain_dump_laws _ _) 100 100 "s1" wc ["alice"]
    [mk_pending "alice" "s1" 5000 77] ws [(77, "alice")] [(77, "alice")] Ec Es) as [_ Hagents]; [reflexivity|].
  exists wc, [mk_pending "alice" "s1" 5000 77], ws. split; [exact Ec|]. split; [exact Es|]. split; [exact Hag|].
  destruct (Hagents 1%positive) as (c&t&Hc&_&_&_&_&_&Hn); [rewrite Hag; apply list_elem_of_here|].
  exists c. split; [exact Hc|exact Hn].
Defined.

(** Three turns of the agent's loop: 300 is enough, so a larger fuel is as good. *)
Definition alice_main (fuel : nat) : outcome (Z * AW) :=
  agent_main (K := alice_kernel) fuel 3 agent_argv agent_env alice_start.

Lemma fuel_does_not_matter_witness :
  (exit_code (alice_main 300) = Some 0 ∧ exit_code (alice_main 1000) = Some 0) ∧ exit_code (alice_main 1) = None.
Proof.
  assert (exit_code (alice_main 300) = Some 0) as Hcode by (vm_compute; reflexivity).
  split; [|vm_compute; reflexivity]. split; [exact Hcode|].
  destruct (fuel_does_not_matter (Ka := alice_kernel) (Kc := sim_kernel) (Ks := sim_kernel) (DumpFile0 := plain_dump _)
    300 1000) as (Hagent&_&_); [lia|].
  destruct (Hagent 3%nat agent_argv agent_env alice_start) as [E|E]; unfold alice_main in *.
  - rewrite E in Hcode. discriminate Hcode.
  - rewrite E. exact Hcode.
Defined.
