(* ===== verification/Testing.v ===== *)
(** * Running unit tests

    The macros of the repository's test programs, as steps of a computation:
    a failed expectation ends a test without a result. *)
From stdpp Require Import base list.
From S2P Require Import Prelude.

Definition EXPECT_TRUE {S} (b : bool) : M S () := if b then mret () else no_fuel.
Definition EXPECT_FALSE {S} (b : bool) : M S () := EXPECT_TRUE (negb b).
Definition EXPECT_EQ {S A} `{EqDecision A} (x y : A) : M S () := EXPECT_TRUE (bool_decide (x = y)).

(** An expectation on a function of the state. *)
Definition EXPECT_ST {S A} `{EqDecision A} (f : S → A) (y : A) : M S () :=
  s ← get_st; EXPECT_EQ (f s) y.

(** The test runs to its end from [s]. *)
Definition passes {S} (test : M S ()) (s : S) : bool :=
  match test s with Ret _ => true | _ => false end.
