(* ===== verification/BlackBoxTests.v ===== *)
(** * The unit tests of the packet engine and of the protocol

    The test cases of src/tests/blackbox/ and src/tests/protocol/, run on the
    definitions of this development: each [Example] carries the name of its
    test (after that of its file) and the calls and expectations of its body.
    The host is little-endian, inet_pton reads dotted quads and allocation
    succeeds, as on the machines the tests run on. *)
From stdpp Require Import base list gmap sets strings.
From Stdlib Require Import ZArith Lia.
From S2P Require Import Prelude Bytes Protocol IPv4 Inet Config Routing Registry BlackBox Testing.

#[local] Open Scope Z_scope.
#[local] Open Scope string_scope.

#[local] Instance test_order : HostOrder := LittleEndian.
#[local] Instance test_inet : Inet := dotted_quad.
#[local] Instance test_malloc : Malloc := malloc_first_fit.

(** [ip] of the tests: inet_pton, or 0. *)
Definition ip (s : string) : Z := default 0 (inet_pton s).

(** The lines of a file, each with its newline. *)
Definition file (lines : list string) : option string :=
  Some (foldr (λ l rest, l +:+ String newline rest) "" lines).

(** ** tests/protocol *)

Example Header_TestConstructorAndGetters :
  (get_packet_type PacketHeader_default, get_payload_size PacketHeader_default) = (0, 0) ∧
  let header := PacketHeader_make 0x12345678 0x4321 in
  (get_packet_type header, get_payload_size header) = (0x4321, 0x12345678).
Proof. by vm_compute. Qed.

Example Header_TestOrdering :
  let buffer := header_bytes (PacketHeader_make 0x12345678 0x4321) in
  length buffer = Z.to_nat PACKET_HEADER_SIZE ∧
  of_mem (take 4 buffer) = 0x78563412 ∧ of_mem (skipn 4 buffer) = 0x2143.
Proof. by vm_compute. Qed.

Example Types_HostToNetwork : hton_packet_type 0x0FEF = 0xEF0F.
Proof. by vm_compute. Qed.

Example Types_NetworkToHost : ntoh_packet_type 0x0FEF = 0xEF0F.
Proof. by vm_compute. Qed.

(** ** tests/blackbox/ipv4_tests.cpp *)

(** [memcpy] of [bs] over the bytes at [i]. *)
Definition poke (i : nat) (bs : list byte) (pkt : list byte) : list byte :=
  take i pkt ++ bs ++ skipn (i + length bs) pkt.
Definition bare_packet (total protocol : Z) (src dst : string) : list byte :=
  [x45; x00] ++ be_split 2 total ++ replicate 5 x00 ++ [z2b protocol; x00; x00] ++
  to_mem 4 (ip src) ++ to_mem 4 (ip dst).
Definition small_packet : list byte := make_tcp_packet (ip "10.0.0.1") 1 (ip "10.0.0.2") 2.
Definition rejects (data : option (list byte)) (len : Z) : M IPv4Header () :=
  ok ← ipv4_parse data len; EXPECT_FALSE ok.

Example IPv4_ValidTCPPacket : passes
  (ok ← ipv4_parse (Some (make_tcp_packet (ip "10.0.1.1") 12345 (ip "10.0.1.2") 80)) 24;
   EXPECT_TRUE ok;;
   EXPECT_ST (λ h, (version h, ihl h, protocol h)) (4, 5, PROTO_TCP);;
   EXPECT_ST (λ h, (inet_ntop (src_ip h), inet_ntop (dst_ip h))) ("10.0.1.1", "10.0.1.2");;
   EXPECT_ST (λ h, (ntoh 2 (src_port h), ntoh 2 (dst_port h))) (12345, 80)) IPv4Header_zero.
Proof. by vm_compute. Qed.

Example IPv4_NullBuffer : passes (rejects None 100) IPv4Header_zero.
Proof. by vm_compute. Qed.

Example IPv4_TooShort : passes (rejects (Some (replicate 10 x00)) 10) IPv4Header_zero.
Proof. by vm_compute. Qed.

Example IPv4_WrongVersion : passes (rejects (Some (poke 0 [x65] small_packet)) 24) IPv4Header_zero.
Proof. by vm_compute. Qed.

Example IPv4_IHLTooSmall : passes (rejects (Some (poke 0 [x43] small_packet)) 24) IPv4Header_zero.
Proof. by vm_compute. Qed.

Example IPv4_TotalLengthExceedsBuffer :
  passes (rejects (Some (poke 2 (be_split 2 1000) small_packet)) 24) IPv4Header_zero.
Proof. by vm_compute. Qed.

Example IPv4_UDPPacket : passes
  (ok ← ipv4_parse (Some (poke 9 [z2b PROTO_UDP]
     (make_tcp_packet (ip "10.0.0.1") 5353 (ip "10.0.0.2") 53))) 24;
   EXPECT_TRUE ok;;
   EXPECT_ST protocol PROTO_UDP;;
   EXPECT_ST (λ h, (ntoh 2 (src_port h), ntoh 2 (dst_port h))) (5353, 53)) IPv4Header_zero.
Proof. by vm_compute. Qed.

Example IPv4_ICMPNoPorts : passes
  (ok ← ipv4_parse (Some (bare_packet 20 PROTO_ICMP "10.0.0.1" "10.0.0.2")) 20;
   EXPECT_TRUE ok;;
   EXPECT_ST protocol PROTO_ICMP;;
   EXPECT_ST (λ h, (src_port h, dst_port h)) (0, 0)) IPv4Header_zero.
Proof. by vm_compute. Qed.

Example IPv4_TCPMissingTransportHeader :
  passes (rejects (Some (bare_packet 20 PROTO_TCP "10.0.0.1" "10.0.0.2")) 20) IPv4Header_zero.
Proof. by vm_compute. Qed.

(** ** tests/blackbox/config_tests.cpp *)

(** [load] of a file that holds [lines], then the expectations on the result. *)
Definition loading (lines : list string) (checks : M Config ()) : bool :=
  let '(ok, c) := load (file lines) Config_empty in ok && passes checks c.
Definition refuses (lines : list string) : bool := negb (load (file lines) Config_empty).1.
Definition communicate (a b : string) (c : Config) : bool := can_agents_communicate c (ip a) (ip b).

Example Config_IPAssignments : loading ["agent1  10.0.1.1"; "agent2  10.0.1.2"]
  (EXPECT_ST (λ c, find_agent_for_ip c (ip "10.0.1.1")) "agent1";;
   EXPECT_ST (λ c, find_agent_for_ip c (ip "10.0.1.2")) "agent2";;
   EXPECT_ST (λ c, find_ip_for_agent c "agent1") (ip "10.0.1.1");;
   EXPECT_ST (λ c, size (agents c)) 2%nat).
Proof. by vm_compute. Qed.

Example Config_AgentToAgentACL :
  loading ["agent1  10.0.1.1"; "agent2  10.0.1.2"; "agent3  10.0.1.3"; ""; "agent1  agent2"]
  (EXPECT_ST (communicate "10.0.1.1" "10.0.1.2") true;;
   EXPECT_ST (communicate "10.0.1.2" "10.0.1.1") true;;
   EXPECT_ST (communicate "10.0.1.1" "10.0.1.3") false;;
   EXPECT_ST (communicate "10.0.1.3" "10.0.1.1") false;;
   EXPECT_ST (communicate "10.0.1.2" "10.0.1.3") false).
Proof. by vm_compute. Qed.

Example Config_InternetACL :
  loading ["server  10.0.0.1"; "client  10.0.1.1"; ""; "server  ::internet:8.8.8.8";
    "server  ::internet:1.1.1.1"]
  (let reach a x c := can_reach_internet_ip c (ip a) (ip x) in
   EXPECT_ST (reach "10.0.0.1" "8.8.8.8") true;;
   EXPECT_ST (reach "10.0.0.1" "1.1.1.1") true;;
   EXPECT_ST (reach "10.0.0.1" "9.9.9.9") false;;
   EXPECT_ST (reach "10.0.1.1" "8.8.8.8") false;;
   EXPECT_ST (λ c, has_any_internet_access c (ip "10.0.1.1")) false;;
   EXPECT_ST (λ c, has_any_internet_access c (ip "10.0.0.1")) true).
Proof. by vm_compute. Qed.

Example Config_CommentsAndBlankLines :
  loading ["# This is a comment"; ""; "   # Indented comment"; "agent1  10.0.1.1"; ""]
  (EXPECT_ST (λ c, size (agents c)) 1%nat).
Proof. by vm_compute. Qed.

Example Config_UnknownAgent : loading ["agent1  10.0.1.1"]
  (EXPECT_ST (λ c, find_agent_for_ip c (ip "10.0.1.2")) "";;
   EXPECT_ST (λ c, find_ip_for_agent c "nope") 0).
Proof. by vm_compute. Qed.

Example Config_InvalidIPFails : refuses ["agent1  not_an_ip"].
Proof. by vm_compute. Qed.

Example Config_DuplicateIPFails : refuses ["agent1  10.0.1.1"; "agent2  10.0.1.1"].
Proof. by vm_compute. Qed.

Example Config_DuplicateNameFails : refuses ["agent1  10.0.1.1"; "agent1  10.0.1.2"].
Proof. by vm_compute. Qed.

Example Config_ACLUnknownSourceFails : refuses ["agent1  10.0.1.1"; "ghost   agent1"].
Proof. by vm_compute. Qed.

Example Config_ACLUnknownDestFails : refuses ["agent1  10.0.1.1"; "agent1  ghost"].
Proof. by vm_compute. Qed.

Example Config_InternetBadIPFails : refuses ["agent1  10.0.1.1"; "agent1  ::internet:not_an_ip"].
Proof. by vm_compute. Qed.

Example Config_MissingFileFails : negb (load None Config_empty).1.
Proof. by vm_compute. Qed.

Example Config_MalformedLineFails : refuses ["agent1"].
Proof. by vm_compute. Qed.

(** ** tests/blackbox/agent_registry_tests.cpp *)

Definition registers (n a : string) (fd : Z) : M AgentRegistry (option loc) :=
  register_agent n (ip a) fd.

Example AgentRegistry_RegisterAndLookup : passes
  (e ← registers "agent1" "10.0.1.1" 5;
   match e with
   | None => EXPECT_TRUE false
   | Some p => entry ← Registry.deref p;
     EXPECT_EQ (name entry, virtual_ipv4 entry, fd entry) ("agent1", ip "10.0.1.1", 5)
   end;;
   EXPECT_ST (λ r, find_by_ipv4 r (ip "10.0.1.1")) e;;
   EXPECT_ST (λ r, find_by_fd r 5) e;;
   EXPECT_ST (λ r, find_by_name r "agent1") e;;
   EXPECT_ST registry_size 1%nat) AgentRegistry_empty.
Proof. by vm_compute. Qed.

Example AgentRegistry_LookupMiss : passes
  (registers "agent1" "10.0.1.1" 5;;
   EXPECT_ST (λ r, find_by_ipv4 r (ip "10.0.1.2")) None;;
   EXPECT_ST (λ r, find_by_fd r 99) None;;
   EXPECT_ST (λ r, find_by_name r "nope") None) AgentRegistry_empty.
Proof. by vm_compute. Qed.

Example AgentRegistry_UnregisterByFd : passes
  (registers "agent1" "10.0.1.1" 5;;
   registers "agent2" "10.0.1.2" 6;;
   unregister_by_fd 5;;
   EXPECT_ST (λ r, find_by_fd r 5) None;;
   EXPECT_ST (λ r, find_by_ipv4 r (ip "10.0.1.1")) None;;
   EXPECT_ST (λ r, find_by_name r "agent1") None;;
   EXPECT_ST registry_size 1%nat;;
   EXPECT_ST (λ r, bool_decide (find_by_fd r 6 = None)) false) AgentRegistry_empty.
Proof. by vm_compute. Qed.

Example AgentRegistry_UnregisterByName : passes
  (registers "agent1" "10.0.1.1" 5;;
   unregister_by_name "agent1";;
   EXPECT_ST registry_size 0%nat;;
   EXPECT_ST (λ r, find_by_fd r 5) None) AgentRegistry_empty.
Proof. by vm_compute. Qed.

Example AgentRegistry_ReregisterSameName : passes
  (registers "agent1" "10.0.1.1" 5;;
   e2 ← registers "agent1" "10.0.1.1" 7;
   EXPECT_ST registry_size 1%nat;;
   EXPECT_ST (λ r, find_by_fd r 5) None;;
   EXPECT_ST (λ r, find_by_fd r 7) e2) AgentRegistry_empty.
Proof. by vm_compute. Qed.

Example AgentRegistry_MultipleAgents : passes
  (registers "a1" "10.0.1.1" 10;;
   registers "a2" "10.0.1.2" 11;;
   registers "a3" "10.0.1.3" 12;;
   EXPECT_ST registry_size 3%nat;;
   r ← get_st;
   match find_by_name r "a2" with
   | None => EXPECT_TRUE false
   | Some p => entry ← Registry.deref p; EXPECT_EQ (fd entry) 11
   end) AgentRegistry_empty.
Proof. by vm_compute. Qed.

(** ** tests/blackbox/routing_table_tests.cpp *)

Definition sets (a : string) (fd : Z) : M RoutingTable () := modify (set_route (ip a) fd).
Definition lookups (a : string) (fd : Z) : M RoutingTable () :=
  EXPECT_ST (λ t, lookup_route t (ip a)) fd.

Example RoutingTable_SetAndLookup : passes
  (sets "10.0.1.1" 7;; lookups "10.0.1.1" 7;; EXPECT_ST routes_size 1%nat) RoutingTable_empty.
Proof. by vm_compute. Qed.

Example RoutingTable_LookupMiss : passes (lookups "10.0.1.1" (-1)) RoutingTable_empty.
Proof. by vm_compute. Qed.

Example RoutingTable_UpdateRoute : passes
  (sets "10.0.1.1" 7;; sets "10.0.1.1" 8;; lookups "10.0.1.1" 8;; EXPECT_ST routes_size 1%nat)
  RoutingTable_empty.
Proof. by vm_compute. Qed.

Example RoutingTable_RemoveRoute : passes
  (sets "10.0.1.1" 7;; modify (remove_route (ip "10.0.1.1"));;
   lookups "10.0.1.1" (-1);; EXPECT_ST routes_size 0%nat) RoutingTable_empty.
Proof. by vm_compute. Qed.

Example RoutingTable_RemoveRoutesForSwitch : passes
  (sets "10.0.1.1" 7;; sets "10.0.1.2" 7;; sets "10.0.1.3" 8;;
   modify (remove_routes_for_switch 7);;
   lookups "10.0.1.1" (-1);; lookups "10.0.1.2" (-1);; lookups "10.0.1.3" 8;;
   EXPECT_ST routes_size 1%nat) RoutingTable_empty.
Proof. by vm_compute. Qed.

Example RoutingTable_Clear : passes
  (sets "10.0.1.1" 7;; sets "10.0.1.2" 8;; modify clear_routes;; EXPECT_ST routes_size 0%nat)
  RoutingTable_empty.
Proof. by vm_compute. Qed.

(** ** tests/blackbox/blackbox_tests.cpp *)

Definition TUN_FD : Z := 100.

(** The fixture: [SetUp] and a box on the loaded configuration. *)
Definition box_config : bool * Config := load (file
  ["contestant1  10.0.1.1"; "contestant2  10.0.1.2"; "contestant3  10.0.1.3";
   "gameserver   10.0.0.1"; "";
   "contestant1  gameserver"; "contestant2  gameserver"; "";
   "gameserver   ::internet:8.8.8.8"; "gameserver   ::internet:1.1.1.1"]) Config_empty.
Definition box (tun_fd : Z) : BlackBox := BlackBox_new box_config.2 tun_fd.

Definition make_packet (src dst : string) : list byte := make_tcp_packet (ip src) 1234 (ip dst) 80.
Definition agents_size (b : BlackBox) : nat := registry_size (registry_ b).
Definition box_routes_size (b : BlackBox) : nat := routes_size (routing_ b).

(** [process] of a packet from [src] to [dst] decides [action] with target [fd]. *)
Definition sent_to (t : SourceType) (source_fd : Z) (src dst : string)
    (a : PacketAction) (fd : Z) : M BlackBox () :=
  d ← process t source_fd (Some (make_packet src dst)) 24;
  EXPECT_EQ (action d) a;; EXPECT_EQ (target_fd d) fd.
Definition dropped (t : SourceType) (source_fd : Z) (src dst : string) (r : DropReason) : M BlackBox () :=
  d ← process t source_fd (Some (make_packet src dst)) 24;
  EXPECT_EQ (action d) DROP;; EXPECT_EQ (drop_reason d) r.

Example BlackBox_SetUp : box_config.1.
Proof. by vm_compute. Qed.

Example BlackBox_AgentRegistration : passes
  (r ← on_agent_authenticated "contestant1" 10; EXPECT_TRUE r;;
   r ← on_agent_authenticated "gameserver" 11; EXPECT_TRUE r;;
   EXPECT_ST agents_size 2%nat) (box TUN_FD).
Proof. by vm_compute. Qed.

Example BlackBox_AgentRegistrationUnknownName : passes
  (r ← on_agent_authenticated "nobody" 10; EXPECT_FALSE r;;
   EXPECT_ST agents_size 0%nat) (box TUN_FD).
Proof. by vm_compute. Qed.

Example BlackBox_AgentDisconnect : passes
  (on_agent_authenticated "contestant1" 10;;
   on_agent_disconnected 10;;
   EXPECT_ST agents_size 0%nat) (box TUN_FD).
Proof. by vm_compute. Qed.

Example BlackBox_SpoofedSource : passes
  (on_agent_authenticated "contestant1" 10;;
   dropped AGENT 10 "10.0.1.2" "10.0.0.1" SOURCE_SPOOF) (box TUN_FD).
Proof. by vm_compute. Qed.

Example BlackBox_UnknownSourceFd :
  passes (dropped AGENT 99 "10.0.1.1" "10.0.1.2" SOURCE_UNKNOWN) (box TUN_FD).
Proof. by vm_compute. Qed.

Example BlackBox_ACLAllowedLocalDelivery : passes
  (on_agent_authenticated "contestant1" 10;;
   on_agent_authenticated "gameserver" 11;;
   sent_to AGENT 10 "10.0.1.1" "10.0.0.1" DELIVER_LOCAL 11) (box TUN_FD).
Proof. by vm_compute. Qed.

Example BlackBox_ACLAllowedReverse : passes
  (on_agent_authenticated "contestant1" 10;;
   on_agent_authenticated "gameserver" 11;;
   sent_to AGENT 11 "10.0.0.1" "10.0.1.1" DELIVER_LOCAL 10) (box TUN_FD).
Proof. by vm_compute. Qed.

Example BlackBox_ACLDeniedAgentToAgent : passes
  (on_agent_authenticated "contestant1" 10;;
   on_agent_authenticated "contestant2" 11;;
   dropped AGENT 10 "10.0.1.1" "10.0.1.2" ACL_DENIED) (box TUN_FD).
Proof. by vm_compute. Qed.

Example BlackBox_ACLDeniedIsolatedAgent : passes
  (on_agent_authenticated "contestant3" 12;;
   on_agent_authenticated "gameserver" 11;;
   dropped AGENT 12 "10.0.1.3" "10.0.0.1" ACL_DENIED) (box TUN_FD).
Proof. by vm_compute. Qed.

Example BlackBox_InternetAllowedSpecificIP : passes
  (on_agent_authenticated "gameserver" 11;;
   sent_to AGENT 11 "10.0.0.1" "8.8.8.8" FORWARD_INTERNET TUN_FD) (box TUN_FD).
Proof. by vm_compute. Qed.

Example BlackBox_InternetDeniedWrongIP : passes
  (on_agent_authenticated "gameserver" 11;;
   dropped AGENT 11 "10.0.0.1" "9.9.9.9" ACL_DENIED) (box TUN_FD).
Proof. by vm_compute. Qed.

Example BlackBox_InternetDeniedNoRules : passes
  (on_agent_authenticated "contestant1" 10;;
   dropped AGENT 10 "10.0.1.1" "8.8.8.8" ACL_DENIED) (box TUN_FD).
Proof. by vm_compute. Qed.

Example BlackBox_InternetNoTun : passes
  (on_agent_authenticated "gameserver" 11;;
   dropped AGENT 11 "10.0.0.1" "8.8.8.8" DEST_UNREACHABLE) (box (-1)).
Proof. by vm_compute. Qed.

Example BlackBox_ForwardToSwitch : passes
  (on_agent_authenticated "contestant1" 10;;
   on_route_update (ip "10.0.1.2") 20;;
   dropped AGENT 10 "10.0.1.1" "10.0.1.2" ACL_DENIED) (box TUN_FD).
Proof. by vm_compute. Qed.

Example BlackBox_ForwardToSwitchAllowed : passes
  (on_agent_authenticated "contestant1" 10;;
   on_route_update (ip "10.0.0.1") 20;;
   sent_to AGENT 10 "10.0.1.1" "10.0.0.1" FORWARD_SWITCH 20) (box TUN_FD).
Proof. by vm_compute. Qed.

Example BlackBox_RequestRouteWhenUnknown : passes
  (on_agent_authenticated "contestant1" 10;;
   d ← process AGENT 10 (Some (make_packet "10.0.1.1" "10.0.0.1")) 24;
   EXPECT_EQ (action d) REQUEST_ROUTE;;
   EXPECT_EQ (dest_ipv4 d) (ip "10.0.0.1")) (box TUN_FD).
Proof. by vm_compute. Qed.

Example BlackBox_SwitchDeliverLocal : passes
  (on_agent_authenticated "contestant1" 10;;
   sent_to SWITCH 20 "10.0.0.1" "10.0.1.1" DELIVER_LOCAL 10) (box TUN_FD).
Proof. by vm_compute. Qed.

Example BlackBox_SwitchDestNotLocal :
  passes (dropped SWITCH 20 "10.0.0.1" "10.0.1.1" DEST_UNREACHABLE) (box TUN_FD).
Proof. by vm_compute. Qed.

Example BlackBox_TunReturnTrafficAllowed : passes
  (on_agent_authenticated "gameserver" 11;;
   sent_to TUN TUN_FD "8.8.8.8" "10.0.0.1" DELIVER_LOCAL 11) (box TUN_FD).
Proof. by vm_compute. Qed.

Example BlackBox_TunReturnTrafficDenied : passes
  (on_agent_authenticated "gameserver" 11;;
   dropped TUN TUN_FD "9.9.9.9" "10.0.0.1" ACL_DENIED) (box TUN_FD).
Proof. by vm_compute. Qed.

Example BlackBox_TunDestNotLocal :
  passes (dropped TUN TUN_FD "8.8.8.8" "10.0.0.1" DEST_UNREACHABLE) (box TUN_FD).
Proof. by vm_compute. Qed.

Example BlackBox_MalformedPacket : passes
  (on_agent_authenticated "contestant1" 10;;
   d ← process AGENT 10 (Some [xff; x00; x00; x00; x00]) 5;
   EXPECT_EQ (action d) DROP;;
   EXPECT_EQ (drop_reason d) MALFORMED_PACKET) (box TUN_FD).
Proof. by vm_compute. Qed.

Example BlackBox_SwitchDisconnectClearsRoutes : passes
  (on_route_update (ip "10.0.1.2") 20;;
   on_route_update (ip "10.0.0.1") 20;;
   on_switch_disconnected 20;;
   EXPECT_ST box_routes_size 0%nat) (box TUN_FD).
Proof. by vm_compute. Qed.

Example BlackBox_RouteUpdateRemove : passes
  (on_route_update (ip "10.0.1.2") 20;;
   EXPECT_ST box_routes_size 1%nat;;
   on_route_update (ip "10.0.1.2") (-1);;
   EXPECT_ST box_routes_size 0%nat) (box TUN_FD).
Proof. by vm_compute. Qed.
