(* ===== verification/NetQueueTests.v ===== *)
(** * The unit tests of the queue

    The test cases of src/tests/netqueue/, run on [NetQueue] with the kernel
    [sim_kernel]: each [Example] carries the name of its test (after that of
    its file).  A test is run with reads of at most 1, 7 and 100 bytes.  The
    other end of a socket pair or of the TUN wrapper is the part of the kernel
    state that holds what will be read.  The queue is made before the elements
    of a test, since its constructor is modelled on an empty store.  Not run:
    InvalidFSM (a state that is no member of the enum) and the two tests of a
    failing epoll_ctl and epoll_wait (NetQueuePutError, NetQueueWaitError),
    which [sim_kernel] does not fail. *)
From stdpp Require Import base option list gmap sets strings.
From Stdlib Require Import ZArith Lia.
From S2P Require Import Prelude Bytes Kernel Protocol NetQueue Testing.

#[local] Open Scope Z_scope.

#[local] Instance queue_test_order : HostOrder := LittleEndian.
#[local] Instance queue_test_malloc : Malloc := malloc_first_fit.
#[local] Instance queue_test_nodes : NodeAlloc := λ _, true.

#[local] Instance close_reason_eq_dec : EqDecision close_reason.
Proof. solve_decision. Defined.
#[local] Instance buffer_ptr_eq_dec : EqDecision buffer_ptr.
Proof. solve_decision. Defined.
#[local] Instance close_data_eq_dec : EqDecision close_data.
Proof. solve_decision. Defined.
#[local] Instance socket_data_eq_dec : EqDecision socket_data.
Proof. solve_decision. Defined.
#[local] Instance tun_data_eq_dec : EqDecision tun_data.
Proof. solve_decision. Defined.
#[local] Instance errno_eq_dec : EqDecision errno.
Proof. solve_decision. Defined.

(** ** netqueue_test_handler.hpp: handlers that record their arguments *)

Record Records : Type := {
  socket_datas : list socket_data;
  close_datas : list close_data;
  tun_datas : list tun_data
}.
Abbreviation T := (@World sim_kernel Records).

Definition onSocketReady (_ : option ()) (d : socket_data) : M T () := modify_app (λ r,
  {| socket_datas := socket_datas r ++ [d]; close_datas := close_datas r; tun_datas := tun_datas r |}).
Definition onTunReady (_ : option ()) (d : tun_data) : M T () := modify_app (λ r,
  {| socket_datas := socket_datas r; close_datas := close_datas r; tun_datas := tun_datas r ++ [d] |}).
Definition onClose (_ : option ()) (d : close_data) : M T () := modify_app (λ r,
  {| socket_datas := socket_datas r; close_datas := close_datas r ++ [d]; tun_datas := tun_datas r |}).

Definition createTestHandler : NetworkQueueHandler () T :=
  mk_handler (Some onClose) (Some onSocketReady) (Some onTunReady) None.
Definition default_handler : NetworkQueueHandler () T := NetworkQueueHandler_default.

(** ** netqueue_macro.hpp: descriptors whose other end the test holds *)

Definition on_view (f : kview → kview) : M T () :=
  modify (λ w, set_kern (sim_set_view (f (sim_view (kern w))) (kern w)) w).

(** [socketpair] and [tun_wrapper_open]: the client's descriptor, -1 when none. *)
Definition socketpair : M T Z := fd ← syscall sim_open; mret (default (-1) fd).
Definition tun_wrapper_open : M T Z :=
  fd ← socketpair; on_view (set_packets fd []);; mret fd.

(** [write (fd_server, bs)], [write] of a packet to a TUN, [close (fd_server)]. *)
Definition server_write (fd : Z) (bs : list byte) : M T () :=
  on_view (λ v, set_rx fd (rx_of v fd ++ bs) v).
Definition tun_write (fd : Z) (pkt : list byte) : M T () :=
  on_view (λ v, set_packets fd (default [] (packets v !! fd) ++ [pkt]) v).
Definition server_close (fd : Z) : M T () :=
  on_view (λ v, set_arrived (rx v) (<[fd := Shutdown]> (rx_end v)) (packets v) v).

(** An element made by the test, outside the queue's map. *)
Definition prepare (open : M T Z) (state : FiniteStateMachine) : M T (Z * loc) :=
  fd ← open;
  element ← new_element (NetworkElement_new fd None state);
  match element with Some p => mret (fd, p) | None => no_fuel end.

Definition EXPECT_ELEMENT {B} `{EqDecision B} (p : loc) (f : NetworkElement → B) (y : B) : M T () :=
  e ← NetQueue.deref p; EXPECT_EQ (f e) y.
Definition EXPECT_APP {B} `{EqDecision B} (f : Records → B) (y : B) : M T () :=
  a ← get_app; EXPECT_EQ (f a) y.
(** [read (fd, bf, 1)] fails with [err]. *)
Definition EXPECT_READ_ERROR (fd : Z) (err : errno) : M T () :=
  r ← syscall (sys_read fd 1); EXPECT_EQ r (inr err).
Definition EXPECT_MAPPED (fd : Z) (p : option loc) : M T () :=
  q ← get_network_element_from_fd fd; EXPECT_EQ q p.

Definition ASSERT_SOME {B} (x : option B) : M T B :=
  match x with Some y => mret y | None => no_fuel end.

(** A process before it has a queue, whose reads move at most [chunk + 1] bytes. *)
Definition fresh (chunk : nat) : T :=
  mk_world (mk_queue (-1) 0 ∅ ∅) (mk_sim (mk_kview ∅ ∅ ∅ 0 ∅ ∅ ∅) chunk ∅ 0 0 0)
    {| socket_datas := []; close_datas := []; tun_datas := [] |}.
Definition passes_chunked (test : M T ()) : bool :=
  forallb (λ chunk, passes test (fresh chunk)) [0; 6; 99]%nat.

(** The packet the tests send: a header and "Hello, SCK World !". *)
Definition header : list byte := header_bytes (PacketHeader_make 0x12 0x32).
Definition payload : list byte := String.list_byte_of_string "Hello, SCK World !".
Definition buffer : list byte := header ++ payload.

Definition fuel : nat := 100.

(** ** element_tests.cpp *)

Example Element_CreateNetworkElement :
  let element := NetworkElement_new 0 None SCK_HEADER in
  el_fd element = 0 ∧ el_ptr element = None ∧ el_state element = SCK_HEADER ∧
  net_buffer_used element = 0.
Proof. done. Qed.

(** ** netqueue_tests.cpp *)

(** The constructor throws [std::invalid_argument]. *)
Definition rejected (h : NetworkQueueHandler () T) : Prop :=
  NetQueue_new h (-1) (fresh 0) = Throw InvalidArgument.

Example NetQueue_InvalidErrorHandler :
  rejected (mk_handler None (Some doNothingOnSocketReady) (Some doNothingOnTunReady) None) ∧
  rejected (mk_handler (Some doNothingOnClose) None (Some doNothingOnTunReady) None) ∧
  rejected (mk_handler (Some doNothingOnClose) (Some doNothingOnSocketReady) None None).
Proof. split_and!; reflexivity. Qed.

Example NetQueue_GetNetworkElementInvalidFD : passes_chunked
  (NetQueue_new default_handler (-1);;
   EXPECT_MAPPED 25 None;;
   NetQueue_destroy).
Proof. by vm_compute. Qed.

Example NetQueue_GetNetworkElement : passes_chunked
  (fd_client ← socketpair;
   NetQueue_new default_handler (-1);;
   element ← put_sck fd_client None;
   p ← ASSERT_SOME element;
   EXPECT_MAPPED fd_client (Some p);;
   NetQueue_destroy).
Proof. by vm_compute. Qed.

(** The element is in the queue and its descriptor open; and the converse. *)
Definition still_open (fd : Z) (p : loc) : M T () :=
  EXPECT_READ_ERROR fd EAGAIN;; EXPECT_MAPPED fd (Some p).
Definition is_closed (fd : Z) : M T () := EXPECT_READ_ERROR fd EOTHER;; EXPECT_MAPPED fd None.

Example NetQueue_CloseNetworkElement : passes_chunked
  (fd_client ← socketpair;
   NetQueue_new default_handler (-1);;
   element ← put_sck fd_client None; p ← ASSERT_SOME element;
   still_open fd_client p;;
   close_element None;;
   still_open fd_client p;;
   wrong ← new_element (NetworkElement_new 0 None SCK_HEADER); wrong_element ← ASSERT_SOME wrong;
   close_element (Some wrong_element);;
   delete_element wrong_element;;
   still_open fd_client p;;
   close_element (Some p);;
   is_closed fd_client;;
   NetQueue_destroy).
Proof. by vm_compute. Qed.

Example NetQueue_CloseFD : passes_chunked
  (fd_client ← socketpair;
   NetQueue_new default_handler (-1);;
   element ← put_sck fd_client None; p ← ASSERT_SOME element;
   still_open fd_client p;;
   close_fd (fd_client + 1);;
   still_open fd_client p;;
   close_fd fd_client;;
   is_closed fd_client;;
   NetQueue_destroy).
Proof. by vm_compute. Qed.

(** ** netqueue_socket_tests.cpp *)

(** An element in [state] that received [bs], beside a new queue; the test sends
    [sent] or closes the descriptor ([None]), calls [process] and looks at the
    element. *)
Definition process_test (state : FiniteStateMachine) (bs : list byte) (sent : option (list byte))
    (used : Z) (final : FiniteStateMachine) : M T () :=
  NetQueue_new default_handler (-1);;
  '(fd, p) ← prepare socketpair state;
  update p (λ e, with_used (Z.of_nat (length bs)) (with_net_buffer bs e));;
  match sent with Some bs => server_write fd bs | None => real_close fd end;;
  process default_handler fuel p;;
  EXPECT_ELEMENT p (λ e, (net_buffer_used e, el_state e)) (used, final);;
  NetQueue_destroy;;
  delete_element p.

Example Socket_ProcessHeader_Failure : passes_chunked (process_test SCK_HEADER [] None 0 SCK_ERROR).
Proof. by vm_compute. Qed.

Example Socket_ProcessHeader_PartialSend :
  passes_chunked (process_test SCK_HEADER [] (Some (take 3 header)) 3 SCK_HEADER).
Proof. by vm_compute. Qed.

Example Socket_ProcessHeader_Success :
  passes_chunked (process_test SCK_HEADER [] (Some header) 6 SCK_PAYLOAD).
Proof. by vm_compute. Qed.

Example Socket_ProcessPayload_Failure :
  passes_chunked (process_test SCK_PAYLOAD header None 6 SCK_ERROR).
Proof. by vm_compute. Qed.

Example Socket_ProcessPayload_PartialSend :
  passes_chunked (process_test SCK_PAYLOAD header (Some (take 12 payload)) 18 SCK_PAYLOAD).
Proof. by vm_compute. Qed.

Example Socket_ProcessPayload_Success :
  passes_chunked (process_test SCK_PAYLOAD header (Some payload) 0 SCK_HEADER).
Proof. by vm_compute. Qed.

Definition cuts_lists : list (list (FiniteStateMachine * nat)) :=
  [[(SCK_HEADER, 24)];
   [(SCK_PAYLOAD, 16); (SCK_HEADER, 8)];
   [(SCK_HEADER, 4); (SCK_PAYLOAD, 4); (SCK_PAYLOAD, 8); (SCK_HEADER, 8)];
   [(SCK_HEADER, 4); (SCK_PAYLOAD, 13); (SCK_HEADER, 7)]]%nat.

(** Sends [buffer] in the blocks of [cuts], [sent] bytes being sent already,
    with a call of [step] after each one. *)
Fixpoint in_blocks (step : M T ()) (fd : Z) (p : loc) (sent : nat)
    (cuts : list (FiniteStateMachine * nat)) : M T () :=
  match cuts with
  | [] => mret ()
  | (final_state, to_send) :: cuts =>
    server_write fd (take to_send (skipn sent buffer));;
    let sent := (sent + to_send)%nat in
    step;;
    EXPECT_ELEMENT p el_state final_state;;
    EXPECT_ELEMENT p net_buffer_used (if decide (sent = 24%nat) then 0 else Z.of_nat sent);;
    EXPECT_ELEMENT p (λ e, take sent (net_buffer e)) (take sent buffer);;
    in_blocks step fd p sent cuts
  end.

Fixpoint each {B} (test : B → M T ()) (l : list B) : M T () :=
  match l with [] => mret () | x :: l => test x;; each test l end.

Example Socket_ProcessFull_InBlocks : passes_chunked
  (NetQueue_new default_handler (-1);;
   each (λ cuts,
     '(fd, p) ← prepare socketpair SCK_HEADER;
     in_blocks (process default_handler fuel p) fd p 0 cuts;;
     delete_element p;;
     real_close fd) cuts_lists;;
   NetQueue_destroy).
Proof. by vm_compute. Qed.

(** ** netqueue_epoll_tests.cpp *)

Example Epoll_SetupEPOLL : passes_chunked
  (NetQueue_new default_handler 500;; wait_and_process default_handler fuel;; NetQueue_destroy).
Proof. by vm_compute. Qed.

Example Epoll_ProcessFullAsEpoll : passes_chunked
  (NetQueue_new default_handler 500;;
   each (λ cuts,
     fd_client ← socketpair;
     element ← put_sck fd_client None; p ← ASSERT_SOME element;
     in_blocks (wait_and_process default_handler fuel) fd_client p 0 cuts;;
     server_close fd_client) cuts_lists;;
   NetQueue_destroy).
Proof. by vm_compute. Qed.

(** A record of the callback: what it points at is the packet. *)
Definition is_sample (d : socket_data) : M T () :=
  EXPECT_EQ (sd_full_buffer_size d, sd_packet_type d, sd_ptr_data d) (24, 0x32, None);;
  full ← load_buffer (sd_full_buffer d) 24; EXPECT_EQ full buffer;;
  body ← load_buffer (sd_packet_buffer d) 18; EXPECT_EQ body (skipn 6 buffer).

Example Epoll_ProcessManyAsEpoll : passes_chunked
  (NetQueue_new createTestHandler 500;;
   each (λ _ : nat,
     fd_client ← socketpair;
     _ ← put_sck fd_client None;
     server_write fd_client buffer) (seq 0 4);;
   wait_and_process createTestHandler fuel;;
   EXPECT_APP (λ r, length (socket_datas r)) 4%nat;;
   a ← get_app; each is_sample (socket_datas a);;
   NetQueue_destroy).
Proof. by vm_compute. Qed.

Example Epoll_ProcessEOF : passes_chunked
  (fd_client ← socketpair;
   NetQueue_new createTestHandler 100;;
   element ← put_sck fd_client None; p ← ASSERT_SOME element;
   wait_and_process createTestHandler fuel;;
   EXPECT_APP close_datas [];;
   server_close fd_client;;
   wait_and_process createTestHandler fuel;;
   EXPECT_APP close_datas [mk_close_data p None fd_client CLOSE_HANGUP];;
   NetQueue_destroy).
Proof. by vm_compute. Qed.

(** ** netqueue_tun_tests.cpp *)

Definition tun_test (state final : FiniteStateMachine) : M T () :=
  NetQueue_new default_handler (-1);;
  '(_, p) ← prepare tun_wrapper_open state;
  process default_handler fuel p;;
  EXPECT_ELEMENT p el_state final;;
  NetQueue_destroy;;
  delete_element p.

Example Tun_ProcessReceive : passes_chunked (tun_test TUN_RECEIVE TUN_RECEIVE).
Proof. by vm_compute. Qed.

Example Tun_ProcessReady : passes_chunked (tun_test TUN_READY TUN_RECEIVE).
Proof. by vm_compute. Qed.

Example Tun_ProcessError : passes_chunked (tun_test TUN_ERROR TUN_ERROR).
Proof. by vm_compute. Qed.

Example Tun_ProcessEOF : passes_chunked (tun_test TUN_EOF TUN_EOF).
Proof. by vm_compute. Qed.

(** After a packet is written and a turn taken, the last record points at it. *)
Definition tun_delivers (fd : Z) (p : loc) (n : nat) (text : string) : M T () :=
  let pkt := String.list_byte_of_string text in
  tun_write fd pkt;;
  wait_and_process createTestHandler fuel;;
  EXPECT_APP (λ r, length (tun_datas r)) n;;
  a ← get_app; d ← ASSERT_SOME (last (tun_datas a));
  EXPECT_EQ (td_fd d, td_ptr_data d, td_net_element d, td_ip_buffer_size d)
    (fd, None, p, Z.of_nat (length pkt));;
  bytes ← load_buffer (td_ip_buffer d) (td_ip_buffer_size d);
  EXPECT_EQ bytes pkt.

Example Tun_FullProcess : passes_chunked
  (fd_client ← tun_wrapper_open;
   NetQueue_new createTestHandler 100;;
   element ← put_tun fd_client None; p ← ASSERT_SOME element;
   tun_delivers fd_client p 1 "sample1";;
   tun_delivers fd_client p 2 "sample23";;
   NetQueue_destroy).
Proof. by vm_compute. Qed.
